(* ===== verification/_CoqProject ===== *)
-Q . S2P
Prelude.v
Syscall.v
Abi.v
Compat.v
KernelSpec.v
ToyKernel.v
CIO.v
IOClaims.v
FileOps.v
ProcIO.v
LeadingZeros.v
Smaps.v
Stream.v
SmapsText.v
ElfTypes.v
Vdso.v
ElfCore.v
Closure.v
Untouched.v
PipeWrite.v
SmapsClaims.v
VdsoClaims.v
ElfImage.v
ElfWrite.v
ElfLayout.v
ElfReader.v
Prioritize.v
MapTypes.v
Scenario.v
CoreClaims.v
CreateCore.v
Params.v
Lister.v
X86.v
Frame.v
Frame386.v
Pipeline.v
CoreDump.v
DecodeClaims.v
ListerSpec.v
Complete.v
Search.v
Found.v
Ends.v
Delivers.v
Signals.v
Calm.v
Resumed.v
Gather.v
OtherDump.v
ApiClaims.v
FileDump.v
Start.v
Compress.v
WholeDump.v
Program.v
Packer.v
Machine.v
