(* ===== verification/Prelude.v ===== *)
(** * Corus coredumper: a verification library

    The program writes a core file of its own process while the process keeps
    running.  This library models the C implementation in src/coredumper (the
    Rust crates beside it are a port and are not modelled), for x86-64 Linux with
    threads, and proves what a caller relies on.  Of the code for other processors,
    older kernels and systems without threads it has what Abi.v, Compat.v, Frame.v,
    Frame386.v and OtherDump.v say.

    ** The program and its parts

    A call such as [WriteCoreDump] takes a snapshot of its own registers ([FRAME]),
    fills a parameter structure, and hands [InternalGetCoreDump] as a callback to
    [ListAllProcessThreads].  That function clones [ListerThread], which shares the
    memory of the process, attaches to every thread it finds in /proc, and calls
    back.  The callback reads the registers by ptrace, collects process
    information, optionally starts a compressor ([CreatePipeline]), and lets
    [CreateElfCore] write the file: to a pipe from a forked child, or to a file.
    [CreateElfCore] parses /proc/self/maps, /proc/self/smaps and /proc/self/auxv,
    lays the file out, and writes it through one of three output functions.
    Everything below the source is a system call made through
    [linux_syscall_support.h].

    ** How it is modelled

    Effectful C code is a function in the monad [M] of this file: a state, and one
    of the outcomes "returned", "exited with a code", "replaced by execve",
    "aborted", "out of fuel".  The state [cst W H] of Syscall.v has the global
    [errno], the world [W] behind the system calls and the variable [H] of the
    component (the [handle] of an output function, the globals of the lister, the
    structure shared with the compressor's child).  Integers are numbers of [Z]
    with the wrap-around of their C type written out.  The kernel is no code of the
    repository: its calls are the operations of the classes [KernelIO],
    [KernelProc] and [KernelMisc], and what theorems need to know about them are
    the laws of these classes:
    [Files], [Interrupts], [OutFile] and others in KernelSpec.v, Untouched.v,
    LeadingZeros.v and FileDump.v for files, pipes and interruptions; [Tracing]
    (ListerSpec.v), [Threads] (Complete.v), [Process] (Found.v), [Progress] and
    [Keeps] (Ends.v), [Leader] (Delivers.v) for ptrace and /proc; [DumpTracing]
    (Resumed.v), [Reports] (Gather.v), [FileApart] (WholeDump.v) and [Resources]
    (Program.v) for the dump; [Compressor] (PipeWrite.v) for a process that packs what
    is written to it, and [Spawns] (Start.v) for how it comes to life.  Compat.v has a class [KernelCalls] of its own, Abi.v
    the class [Abi] of the conventions for errors, and OtherDump.v a class [Forking] of
    processes that fork.  ToyKernel.v, Scenario.v and the ends of Compat.v,
    ListerSpec.v, Complete.v, Found.v, Delivers.v, Resumed.v, OtherDump.v and
    FileDump.v give kernels that obey some of the laws; the machine of Machine.v
    is made of the files and the compressor of Packer.v and the threads of ListerSpec.v,
    obeys all of those of files, threads, dumps and compressors, and runs a dump and a
    compressed one.  The contents of the dumped
    memory are the class [AddressSpace]; nothing but the dumper runs while it is
    read.

    ** Files, in dependency order

    - Prelude.v: machine integers, the monad with [wp] (the program ends well) and
      [wlp] (if it ends), list lemmas, tactics.
    - Syscall.v: [linux_syscall_support.h] as the dumper uses it, with signal sets.
      Abi.v: how the processors report errors ([LSS_RETURN]).  Compat.v: the wrappers
      that fall back on older calls, split 64-bit arguments, go through
      [socketcall], or stand for calls that newer kernels do not have.
      KernelSpec.v, ToyKernel.v: the laws of the kernel, and an instance.
    - CIO.v, IOClaims.v: [c_read], [c_write], [SimpleWriter], [LimitWriter],
      [PipeWriter], [FlushPipe] of [elfcore.c].
    - FileOps.v, ProcIO.v, Stream.v, LeadingZeros.v: opening and buffered reading
      of /proc files ([GetChar], [GetHexHelper]), and [LeadingZeros].
    - Smaps.v, SmapsText.v, SmapsClaims.v: the loop of [CreateElfCore] over
      /proc/self/smaps; the text the kernel prints; what is made of it.
    - ElfTypes.v: structures and their bytes.  Vdso.v, VdsoClaims.v: [CountAUXV],
      [SanitizeVDSO].
    - ElfCore.v: the rest of [CreateElfCore]: [count_mappings], [CountAUXV] and
      [load_mappings] gather, [write_core] writes.  ElfImage.v specifies the file
      ([core_image]), ElfWrite.v proves that [write_core] writes it, ElfLayout.v and
      ElfReader.v that a reader finds memory and notes in it, Prioritize.v treats
      the limit by priority, MapTypes.v the types and bounds of the array of
      mappings; CoreClaims.v, Closure.v (properties of runs that hold of a composite
      if they hold of its parts), Untouched.v and CreateCore.v put these together, for
      any output function that keeps the promises of [LimitedWriter].
    - Params.v: [coredumper.h] and the setters of [coredumper.c].
    - Lister.v: [linuxthreads.c] (and [thread_lister.c]).  ListerSpec.v: which
      threads are traced and stopped.  Complete.v, Found.v: none is missed.
      Search.v: the lister is a search for the threads followed by what is done with
      them.  Ends.v: it ends.  Delivers.v: what a caller gets.  Signals.v: its
      signal handler.
    - X86.v: a machine for the x86 instructions of [elfcore.h], with symbolic
      execution of the register snapshots.  Frame.v, Frame386.v: [FRAME] and
      [SET_FRAME] of [elfcore.h].
    - Pipeline.v: [CreatePipelineChild], [CreatePipeline].
    - CoreDump.v: [InternalGetCoreDump] and the entry points of [coredumper.c];
      DecodeClaims.v, Calm.v (what preserves the rest of the world), Resumed.v (the
      threads run again), Gather.v (what is read of the threads), ApiClaims.v (the
      entry points), FileDump.v (the file on disk), WholeDump.v (the callback of
      the lister), Program.v (a call from outside): what they guarantee.
    - PipeWrite.v: [PipeWriter] and [FlushPipe] with a compressor at the other end of
      the pipes; Start.v: how [CreatePipeline] starts it; Compress.v: the compressed
      file.
    - Packer.v: files and a compressor.  Machine.v: a machine on which the whole program
      runs.
    - OtherDump.v: reading registers on MIPS and AArch64, and [GetParentRegs] where
      there are no threads.

    ** What the theorems show

    - The program: [WriteCoreDump_writes] puts all of it together, from the call of
      an entry point to the file on disk; it rests on the lemmas behind the theorems
      below, of the threads and of the file.
    - The file: [dump_to_file_writes] is about opening, writing and closing, and
      [CreateElfCore_dumps] goes from the text of /proc to a file in which
      a debugger finds the memory; [write_core_writes_image], [written_memory],
      [written_notes], [load_mappings_segments], [load_mappings_typed] (on any text,
      no entry outside the array, and every field in its type), [count_mappings_lines],
      [CountAUXV_counts], [LeadingZeros_skips], [SanitizeVDSO_sound] are its parts.
    - The compressed file: [WriteCompressedCoreDump_packs] is the same for a dump with
      a compressor; by [CreatePipeline_starts] one is started, by [PipeWriter_limited]
      its input is the core file, by [FlushPipe_all] all that it makes of it is copied,
      and [dump_to_file_packs] puts these together.  Both theorems on the program are
      instances of [entry_writes], for any way of rendering the core file.
    - Size limits: [limit_by_priority_shrinks], [prioritized_size],
      [LimitWriter_limit].
    - Threads: [scan_proc_attaches], [scan_proc_complete], [ListerThread_complete]
      (the callback is given every thread, even if the threads make new ones
      meanwhile), [ListerThread_ends], [ListAllProcessThreads_returns] (it ends),
      [ListAllProcessThreads_delivers] (and gives its caller what the callback does
      with all threads stopped), [SignalHandler_resumes],
      [InternalGetCoreDump_resumes]; processes that are made: [dump_child_ends],
      [CreatePipelineChild_ends].
    - The interface: [entry_points] (each entry point is a dump with the parameters
      documented), [entry_result].
    - Input and output under interruptions and short transfers: [c_write_whole],
      [c_write_prefix], [c_read_next], [FlushPipe_copies].
    - Parameters: [setter_result], [reachable_params], [Clear_defaults].
    - Smaller parts: [frame_registers], [frame386_registers], [parse_stat_fields],
      [program_name], [sigset_ops], [async_signals_members], [itoa_atoi],
      [mips_registers].
    - Other processors and kernels: [LSS_RETURN_agree], [set_ids_fallback],
      [get_ids_fallback], [sigaction_fallback], [wide_arguments], [mmap_pages],
      [mips_thread_registers], [GetParentRegs_reads].
    - Behaviour that the code did not intend, proved of it as it is:
      [device_mapping_fails], [PipeWriter_steps_back], [PipeWriter_spins],
      [write_auxv_leaks],
      [SanitizeVDSO_wraps], [arm_status_lost], and clauses of [frame_registers],
      [frame386_registers], [mips_thread_registers], [set_ids_fallback],
      [get_ids_fallback], [sigaction_fallback], [parse_stat_fields] and
      [itoa_atoi].

    ** Fuel

    Loops without a structural argument take a number of rounds, and running out is
    an outcome of its own, which [wp] excludes.  The theorems stated with [wp] ask
    for enough of it: the interruptions that are still to come, plus the number of
    characters, pages or bytes to be handled, bound every loop of [CreateElfCore].
    [itoa_fuel] is the number of digits of an [int], its sign and one.  The lister
    ends because there are finitely many process ids: Ends.v bounds its rounds by
    [lister_rounds max_pid dir_reads], where [dir_reads] bounds the reads of one
    pass over a directory, and the interruptions by the fuel ([calm]); [tlp] states
    that it returns or exits.  Theorems of safety that need no such bound are
    stated with [wlp], for runs that end, on any kernel.

    ** Not modelled

    - The kernel, the environment, compressors and user callbacks: parameters.
    - Signals that arrive while the lister runs: [SignalHandler] is a definition,
      but its asynchronous call is not a step of the model.
    - The lister runs at the same time as its parent, which meanwhile calls
      prctl(PR_SET_PTRACER) and sigprocmask before it waits, and both write the same
      [errno]; here the lister runs after those calls.
    - Reading outside an array: where [InternalGetCoreDump] reads the first entry of
      an empty one, it gets the parameter for memory that nobody has set.
    - The compressor's child runs concurrently with its parent on shared memory;
      each side is a function, and what the parent sees of the child's writes are
      its parameters [seen] and [final].  In [WriteCompressedCoreDump_packs] [final]
      is what the child itself makes of the structure ([child_final]); of what is
      seen of an unfinished child its hypothesis is what [CreatePipelineChild_ends]
      proves of a finished one.
    - The sizes and layouts of structures of other processors; of
      [linux_syscall_support.h] the numbers of the calls, the structures of the
      kernel, the assembly that enters the kernel, and the wrappers of the calls
      that pass a block of arguments.
    - [DirtyStack], which only touches the stack.
    - The test programs (coredumper_unittest.c, src/ctests), the Rust crates and the
      build files. *)
From stdpp Require Export base tactics list numbers strings.
From Stdlib Require Export ZArith Lia Ascii.
#[global] Open Scope Z_scope.

(** ** Machine integers and bytes

    A C object of an integer type is a [Z]; its wrap-around is written out with
    the functions below.  A byte is a [Z] between 0 and 255. *)

Definition u8 (x : Z) : Z := x mod 2 ^ 8.
Definition u16 (x : Z) : Z := x mod 2 ^ 16.
Definition u32 (x : Z) : Z := x mod 2 ^ 32.
Definition u64 (x : Z) : Z := x mod 2 ^ 64.
Definition s32 (x : Z) : Z := (x + 2 ^ 31) mod 2 ^ 32 - 2 ^ 31.
Definition s64 (x : Z) : Z := (x + 2 ^ 63) mod 2 ^ 64 - 2 ^ 63.

(** The code of an ASCII character, and a C string literal as its bytes. *)
Definition ord (c : ascii) : Z := Z.of_N (N_of_ascii c).

Fixpoint bytes (s : string) : list Z :=
  match s with
  | EmptyString => []
  | String c s' => ord c :: bytes s'
  end.

(** [n] little-endian bytes of [v], and the number a little-endian byte list denotes. *)
Fixpoint le (n : nat) (v : Z) : list Z :=
  match n with
  | O => []
  | S n' => v mod 256 :: le n' (v / 256)
  end.

Fixpoint unle (l : list Z) : Z :=
  match l with
  | [] => 0
  | b :: l' => b mod 256 + 256 * unle l'
  end.

(** ** Effects

    C code runs in a state-passing monad.  [Exited] is a call of [sys__exit],
    [Execed] an execve that replaced the process, [Aborted] a call of [abort],
    and [OutOfFuel] says that a loop did not finish
    within the iterations it was given: it is never a result of the program. *)

Inductive outcome (St A : Type) : Type :=
  | Ret (a : A) (s : St)
  | Exited (code : Z) (s : St)
  | Execed (path : list Z) (s : St)
  | Aborted (s : St)
  | OutOfFuel.

Arguments Ret {St A} a s.
Arguments Exited {St A} code s.
Arguments Execed {St A} path s.
Arguments Aborted {St A} s.
Arguments OutOfFuel {St A}.

Definition M (St A : Type) : Type := St -> outcome St A.

Definition ret {St A : Type} (a : A) : M St A := fun s => Ret a s.

Definition bind {St A B : Type} (m : M St A) (k : A -> M St B) : M St B :=
  fun s =>
    match m s with
    | Ret a s' => k a s'
    | Exited c s' => Exited c s'
    | Execed p s' => Execed p s'
    | Aborted s' => Aborted s'
    | OutOfFuel => OutOfFuel
    end.

(** [goto done] and the like: [None] leaves the enclosing block. *)
Definition obind {St A B : Type} (m : M St (option A)) (k : A -> M St (option B)) : M St (option B) :=
  bind m (fun o => match o with Some a => k a | None => ret None end).

Definition sys__exit {St A : Type} (code : Z) : M St A := fun s => Exited code s.
Definition sys__exec {St A : Type} (path : list Z) : M St A := fun s => Execed path s.
Definition abort {St A : Type} : M St A := fun s => Aborted s.
Definition out_of_fuel {St A : Type} : M St A := fun _ => OutOfFuel.

Declare Scope cmonad_scope.
Delimit Scope cmonad_scope with cm.
#[global] Open Scope cmonad_scope.

Notation "'let!' x := m 'in' k" := (bind m (fun x => k))
  (at level 10, x pattern, m at level 100, k at level 200) : cmonad_scope.
Notation "'let?' x := m 'in' k" := (obind m (fun x => k))
  (at level 10, x pattern, m at level 100, k at level 200) : cmonad_scope.
Notation "m ;;! k" := (bind m (fun _ => k))
  (at level 199, right associativity) : cmonad_scope.

(** ** Reasoning about effects

    [wp m Q s]: run from [s], [m] terminates normally and satisfies [Q].
    [wlp m Q X s]: if [m] terminates normally it satisfies [Q], and if it exits
    the process it satisfies [X]; running out of fuel is not excluded. *)

Definition wp {St A : Type} (m : M St A) (Q : A -> St -> Prop) (s : St) : Prop :=
  match m s with
  | Ret a s' => Q a s'
  | _ => False
  end.

Definition wlp {St A : Type} (m : M St A) (Q : A -> St -> Prop) (X : Z -> St -> Prop) (s : St) : Prop :=
  match m s with
  | Ret a s' => Q a s'
  | Exited c s' => X c s'
  | Execed _ _ | Aborted _ | OutOfFuel => True
  end.

(** [tlp m Q X s]: [m] terminates, and satisfies [Q], or exits and satisfies [X]. *)
Definition tlp {St A : Type} (m : M St A) (Q : A -> St -> Prop) (X : Z -> St -> Prop) (s : St) : Prop :=
  match m s with
  | Ret a s' => Q a s'
  | Exited c s' => X c s'
  | Execed _ _ | Aborted _ | OutOfFuel => False
  end.

(** The postcondition that asks for nothing. *)
Definition any {A : Type} (_ : A) : Prop := True.

Lemma wp_ret {St A : Type} (a : A) (Q : A -> St -> Prop) s : Q a s -> wp (ret a) Q s.
Proof. done. Qed.

Lemma wp_ext {St A : Type} (m m' : M St A) (Q : A -> St -> Prop) s : m s = m' s -> wp m' Q s -> wp m Q s.
Proof. unfold wp. by intros ->. Qed.

Lemma wp_bind {St A B : Type} (m : M St A) (k : A -> M St B) Q s :
  wp m (fun a => wp (k a) Q) s -> wp (bind m k) Q s.
Proof. unfold wp, bind. by destruct (m s). Qed.

Lemma wp_mono {St A : Type} (m : M St A) (P Q : A -> St -> Prop) s :
  wp m P s -> (forall a s', P a s' -> Q a s') -> wp m Q s.
Proof. unfold wp. destruct (m s); auto. Qed.

Lemma wp_obind {St A B : Type} (m : M St (option A)) (k : A -> M St (option B)) Q s :
  wp m (fun o s' => match o with Some a => wp (k a) Q s' | None => Q None s' end) s ->
  wp (obind m k) Q s.
Proof.
  intros Hm. apply wp_bind. eapply wp_mono; [exact Hm|]. by intros [a|] s'.
Qed.

Lemma wp_run {St A : Type} (m : M St A) (Q : A -> St -> Prop) s :
  wp m Q s <-> exists a s', m s = Ret a s' /\ Q a s'.
Proof.
  unfold wp. split.
  - destruct (m s) eqn:E; try done. eauto.
  - by intros (a & s' & -> & HQ).
Qed.

Lemma wlp_ret {St A : Type} (a : A) (Q : A -> St -> Prop) X s : Q a s -> wlp (ret a) Q X s.
Proof. done. Qed.

Lemma wlp_ext {St A : Type} (m m' : M St A) (Q : A -> St -> Prop) X s : m s = m' s -> wlp m' Q X s -> wlp m Q X s.
Proof. unfold wlp. by intros ->. Qed.

Lemma wlp_bind {St A B : Type} (m : M St A) (k : A -> M St B) Q X s :
  wlp m (fun a => wlp (k a) Q X) X s -> wlp (bind m k) Q X s.
Proof. unfold wlp, bind. by destruct (m s). Qed.

Lemma wlp_mono {St A : Type} (m : M St A) (P Q : A -> St -> Prop) (X Y : Z -> St -> Prop) s :
  wlp m P X s -> (forall a s', P a s' -> Q a s') -> (forall c s', X c s' -> Y c s') -> wlp m Q Y s.
Proof. unfold wlp. destruct (m s); auto. Qed.

Lemma wlp_obind {St A B : Type} (m : M St (option A)) (k : A -> M St (option B)) Q X s :
  wlp m (fun o s' => match o with Some a => wlp (k a) Q X s' | None => Q None s' end) X s ->
  wlp (obind m k) Q X s.
Proof.
  intros Hm. apply wlp_bind. eapply wlp_mono; [exact Hm| |done]. by intros [a|] s'.
Qed.

Lemma wp_wlp {St A : Type} (m : M St A) (Q : A -> St -> Prop) X s : wp m Q s -> wlp m Q X s.
Proof. unfold wp, wlp. by destruct (m s). Qed.

Lemma wlp_run {St A : Type} (m : M St A) (Q : A -> St -> Prop) X s a s' :
  wlp m Q X s -> m s = Ret a s' -> Q a s'.
Proof. unfold wlp. intros H E. by rewrite E in H. Qed.

Lemma tlp_ext {St A : Type} (m m' : M St A) (Q : A -> St -> Prop) X s : m s = m' s -> tlp m' Q X s -> tlp m Q X s.
Proof. unfold tlp. by intros ->. Qed.

Lemma tlp_ret {St A : Type} (a : A) (Q : A -> St -> Prop) X s : Q a s -> tlp (ret a) Q X s.
Proof. done. Qed.

Lemma tlp_bind {St A B : Type} (m : M St A) (k : A -> M St B) Q X s :
  tlp m (fun a => tlp (k a) Q X) X s -> tlp (bind m k) Q X s.
Proof. unfold tlp, bind. by destruct (m s). Qed.

Lemma tlp_mono {St A : Type} (m : M St A) (P Q : A -> St -> Prop) (X Y : Z -> St -> Prop) s :
  tlp m P X s -> (forall a s', P a s' -> Q a s') -> (forall c s', X c s' -> Y c s') -> tlp m Q Y s.
Proof. unfold tlp. destruct (m s); auto. Qed.

Lemma tlp_obind {St A B : Type} (m : M St (option A)) (k : A -> M St (option B)) Q X s :
  tlp m (fun o s' => match o with Some a => tlp (k a) Q X s' | None => Q None s' end) X s ->
  tlp (obind m k) Q X s.
Proof.
  intros Hm. apply tlp_bind. eapply tlp_mono; [exact Hm| |done]. by intros [a|] s'.
Qed.

Lemma wp_tlp {St A : Type} (m : M St A) (Q : A -> St -> Prop) X s : wp m Q s -> tlp m Q X s.
Proof. unfold wp, tlp. by destruct (m s). Qed.

(** What ends without exiting returns. *)
Lemma tlp_wp {St A : Type} (m : M St A) (Q : A -> St -> Prop) s : tlp m Q (fun _ _ => False) s -> wp m Q s.
Proof. unfold wp, tlp. by destruct (m s). Qed.

(** What is known of a run by different means. *)
Lemma tlp_conj {St A : Type} (m : M St A) (P Q : A -> St -> Prop) X Y s :
  tlp m P X s -> wlp m Q Y s -> tlp m (fun a s' => P a s' /\ Q a s') (fun c s' => X c s' /\ Y c s') s.
Proof. unfold tlp, wlp. by destruct (m s). Qed.

Lemma wp_conj {St A : Type} (m : M St A) (P Q : A -> St -> Prop) X s :
  wp m P s -> wlp m Q X s -> wp m (fun a s' => P a s' /\ Q a s') s.
Proof. unfold wp, wlp. by destruct (m s). Qed.

Lemma wlp_conj {St A : Type} (m : M St A) (P Q : A -> St -> Prop) X Y s :
  wlp m P X s -> wlp m Q Y s ->
  wlp m (fun a s' => P a s' /\ Q a s') (fun c s' => X c s' /\ Y c s') s.
Proof. unfold wlp. by destruct (m s). Qed.

(** One step of symbolic execution through binds and returns. *)
Ltac wp_step :=
  lazymatch goal with
  | |- wp (bind _ _) _ _ => apply wp_bind
  | |- wp (obind _ _) _ _ => apply wp_obind
  | |- wp (ret _) _ _ => apply wp_ret
  | |- wlp (bind _ _) _ _ _ => apply wlp_bind
  | |- wlp (obind _ _) _ _ _ => apply wlp_obind
  | |- wlp (ret _) _ _ _ => apply wlp_ret
  | |- tlp (bind _ _) _ _ _ => apply tlp_bind
  | |- tlp (obind _ _) _ _ _ => apply tlp_obind
  | |- tlp (ret _) _ _ _ => apply tlp_ret
  end.

(** Turns boolean comparisons in the context into facts [lia] understands. *)
Ltac b2p :=
  repeat match goal with
  | H : (_ && _)%bool = true |- _ => apply andb_true_iff in H as [? ?]
  | H : (_ && _)%bool = false |- _ => apply andb_false_iff in H
  | H : (_ || _)%bool = true |- _ => apply orb_true_iff in H
  | H : (_ || _)%bool = false |- _ => apply orb_false_iff in H as [? ?]
  | H : negb _ = true |- _ => apply negb_true_iff in H
  | H : negb _ = false |- _ => apply negb_false_iff in H
  | H : (_ <? _) = true |- _ => apply Z.ltb_lt in H
  | H : (_ <? _) = false |- _ => apply Z.ltb_ge in H
  | H : (_ <=? _) = true |- _ => apply Z.leb_le in H
  | H : (_ <=? _) = false |- _ => apply Z.leb_gt in H
  | H : (_ =? _) = true |- _ => apply Z.eqb_eq in H
  | H : (_ =? _) = false |- _ => apply Z.eqb_neq in H
  end.

(** ** Byte lists *)

Create HintDb coredump.
Create Rewrite HintDb zlen.

Lemma length_le n v : length (le n v) = n.
Proof. revert v. induction n as [|n IH]; intros v; simpl; auto. Qed.

Lemma le_byte n v : Forall (fun b => 0 <= b < 256) (le n v).
Proof.
  revert v. induction n as [|n IH]; intros v; simpl; constructor; auto.
  apply Z.mod_pos_bound. lia.
Qed.

(** Encoding then decoding keeps the value modulo the width. *)
Lemma unle_le n v : unle (le n v) = v mod 2 ^ (8 * Z.of_nat n).
Proof.
  revert v. induction n as [|n IH]; intros v; [by rewrite Z.mod_1_r|].
  cbn [le unle]. rewrite IH.
  replace (2 ^ (8 * Z.of_nat (S n))) with (256 * 2 ^ (8 * Z.of_nat n)).
  2:{ replace (8 * Z.of_nat (S n)) with (8 + 8 * Z.of_nat n) by lia.
      rewrite Z.pow_add_r; lia. }
  rewrite Z.rem_mul_r by lia.
  rewrite Zmod_mod. reflexivity.
Qed.

Lemma le_mod n v : le n (v mod 2 ^ (8 * Z.of_nat n)) = le n v.
Proof.
  revert v. induction n as [|n IH]; intros v; [done|]. cbn [le].
  assert (E : 2 ^ (8 * Z.of_nat (S n)) = 256 * 2 ^ (8 * Z.of_nat n)).
  { replace (8 * Z.of_nat (S n)) with (8 + 8 * Z.of_nat n) by lia.
    rewrite Z.pow_add_r; lia. }
  assert (P : 0 < 2 ^ (8 * Z.of_nat n)) by (apply Z.pow_pos_nonneg; lia).
  rewrite E, Z.rem_mul_r by lia.
  f_equal.
  - rewrite (Z.mul_comm 256), Z_mod_plus_full. by rewrite Zmod_mod.
  - rewrite <- (IH (v / 256)). f_equal.
    rewrite Z.add_comm, (Z.mul_comm 256), Z.div_add_l by lia.
    rewrite (Z.div_small (v mod 256)) by (apply Z.mod_pos_bound; lia). lia.
Qed.

(** [zlen] is the length of a byte list as the C code counts it. *)
Definition zlen {A : Type} (l : list A) : Z := Z.of_nat (length l).

Lemma zlen_nonneg {A} (l : list A) : 0 <= zlen l.
Proof. unfold zlen. lia. Qed.

Lemma zlen_nil {A} : zlen (@nil A) = 0.
Proof. done. Qed.

Lemma zlen_cons {A} (x : A) l : zlen (x :: l) = 1 + zlen l.
Proof. unfold zlen. simpl. lia. Qed.

Lemma zlen_app {A} (l k : list A) : zlen (l ++ k) = zlen l + zlen k.
Proof. unfold zlen. rewrite length_app. lia. Qed.

Lemma zlen_le n v : zlen (le n v) = Z.of_nat n.
Proof. unfold zlen. by rewrite length_le. Qed.

Lemma zlen_replicate {A} n (x : A) : zlen (replicate n x) = Z.of_nat n.
Proof. unfold zlen. by rewrite length_replicate. Qed.

(** Prefixes and suffixes with [Z] lengths; a negative length is empty. *)
Definition ztake {A : Type} (n : Z) (l : list A) : list A := take (Z.to_nat n) l.
Definition zdrop {A : Type} (n : Z) (l : list A) : list A := drop (Z.to_nat n) l.

Lemma ztake_zdrop {A} n (l : list A) : ztake n l ++ zdrop n l = l.
Proof. apply take_drop. Qed.

Lemma ztake_all {A} n (l : list A) : zlen l <= n -> ztake n l = l.
Proof. unfold zlen, ztake. intros. apply take_ge. lia. Qed.

Lemma zdrop_all {A} n (l : list A) : zlen l <= n -> zdrop n l = [].
Proof. unfold zlen, zdrop. intros. apply drop_ge. lia. Qed.

Lemma zlen_ztake {A} n (l : list A) : 0 <= n <= zlen l -> zlen (ztake n l) = n.
Proof. unfold zlen, ztake. intros. rewrite length_take. lia. Qed.

Lemma zlen_ztake_le {A} n (l : list A) : zlen (ztake n l) <= zlen l.
Proof. unfold zlen, ztake. rewrite length_take. lia. Qed.

Lemma zlen_ztake_at_most {A} n (l : list A) : 0 <= n -> zlen (ztake n l) <= n.
Proof. intros Hn. unfold zlen, ztake. rewrite length_take. lia. Qed.

Lemma zlen_zdrop {A} n (l : list A) : 0 <= n <= zlen l -> zlen (zdrop n l) = zlen l - n.
Proof. unfold zlen, zdrop. intros. rewrite length_drop. lia. Qed.

Lemma ztake_0 {A} (l : list A) : ztake 0 l = [].
Proof. done. Qed.

Lemma zdrop_0 {A} (l : list A) : zdrop 0 l = l.
Proof. done. Qed.

Lemma ztake_app_le {A} n (l k : list A) : n <= zlen l -> ztake n (l ++ k) = ztake n l.
Proof. unfold zlen, ztake. intros. apply take_app_le. lia. Qed.

Lemma ztake_app_ge {A} n (l k : list A) :
  zlen l <= n -> ztake n (l ++ k) = l ++ ztake (n - zlen l) k.
Proof.
  unfold zlen, ztake. intros. rewrite take_app_ge by lia. do 2 f_equal. lia.
Qed.

Lemma zdrop_app_ge {A} n (l k : list A) :
  zlen l <= n -> zdrop n (l ++ k) = zdrop (n - zlen l) k.
Proof. unfold zlen, zdrop. intros. rewrite drop_app_ge by lia. f_equal. lia. Qed.

Lemma zdrop_app_le {A} n (l k : list A) :
  n <= zlen l -> zdrop n (l ++ k) = zdrop n l ++ k.
Proof. unfold zlen, zdrop. intros. apply drop_app_le. lia. Qed.

Lemma zdrop_zdrop {A} n m (l : list A) :
  0 <= n -> 0 <= m -> zdrop n (zdrop m l) = zdrop (m + n) l.
Proof. unfold zdrop. intros. rewrite drop_drop. f_equal. lia. Qed.

Lemma ztake_ztake {A} n m (l : list A) :
  0 <= n <= m -> ztake n (ztake m l) = ztake n l.
Proof. unfold ztake. intros. rewrite take_take. f_equal. lia. Qed.

Lemma ztake_split {A} n m (l : list A) :
  0 <= n -> 0 <= m -> ztake (n + m) l = ztake n l ++ ztake m (zdrop n l).
Proof.
  unfold ztake, zdrop. intros.
  rewrite Z2Nat.inj_add by lia. by rewrite take_take_drop.
Qed.

#[export] Hint Rewrite @zlen_nil @zlen_cons @zlen_app zlen_le @zlen_replicate : zlen.
#[export] Hint Resolve zlen_nonneg : coredump.

(** The file segment [l[off, off+n)]. *)
Definition slice {A : Type} (off n : Z) (l : list A) : list A := ztake n (zdrop off l).

Lemma slice_app {A} (a b c : list A) : slice (zlen a) (zlen b) (a ++ b ++ c) = b.
Proof.
  unfold slice. rewrite zdrop_app_ge by lia.
  replace (zlen a - zlen a) with 0 by lia.
  rewrite zdrop_0, ztake_app_le by lia. apply ztake_all. lia.
Qed.

Lemma slice_app_eq {A} off n (a b c : list A) :
  off = zlen a -> n = zlen b -> slice off n (a ++ b ++ c) = b.
Proof. intros -> ->. apply slice_app. Qed.

Lemma zlen_concat {A} (ls : list (list A)) :
  zlen (concat ls) = foldr (fun l n => zlen l + n) 0 ls.
Proof.
  induction ls as [|l ls IH]; [done|]. simpl. rewrite zlen_app. lia.
Qed.

Lemma zlen_concat_const {A} (ls : list (list A)) n :
  Forall (fun l => zlen l = n) ls -> zlen (concat ls) = zlen ls * n.
Proof.
  induction 1 as [|l ls Hl _ IH]; [done|]. cbn [concat]. rewrite zlen_app, zlen_cons, IH, Hl. lia.
Qed.

Lemma Forall2_in_r {A B} (P : A -> B -> Prop) l k y :
  Forall2 P l k -> In y k -> exists x, In x l /\ P x y.
Proof.
  induction 1 as [|x z l k Hp _ IH]; [done|]. intros [<-|Hy].
  - exists x. split; [by left|done].
  - destruct (IH Hy) as (x' & Hx & Hp'). exists x'. split; [by right|done].
Qed.

Lemma Forall2_in_l {A B} (P : A -> B -> Prop) l k x :
  Forall2 P l k -> In x l -> exists y, In y k /\ P x y.
Proof.
  induction 1 as [|z y l k Hp _ IH]; [done|]. intros [<-|Hx].
  - exists y. split; [by left|done].
  - destruct (IH Hx) as (y' & Hy & Hp'). exists y'. split; [by right|done].
Qed.

(** Proves a decidable proposition by evaluating it. *)
Ltac by_compute := apply (bool_decide_unpack _); vm_compute; exact I.
