(* ===== verification/Syscall.v ===== *)
(** The system-call layer: [linux_syscall_support.h].

    The kernel itself is not part of the program: it is the operations of the
    classes [KernelIO] and [KernelProc], which return what the kernel leaves in
    the result register (a negative number between -4095 and -1 is an error).
    Everything the header adds on top of the kernel is defined here: the
    translation of raw results to [errno] and -1 ([LSS_RETURN]), the wrappers,
    [sys_ptrace_detach], [sys_gettid] and the signal-set operations. *)
From S2P Require Import Prelude.

(** ** Constants of the Linux ABI (x86-64 and generic) *)

Definition EPERM : Z := 1.
Definition EINTR : Z := 4.
Definition EBADF : Z := 9.
Definition ECHILD : Z := 10.
Definition EAGAIN : Z := 11.
Definition EFAULT : Z := 14.
Definition EINVAL : Z := 22.
Definition ENOSYS : Z := 38.

Definition O_RDONLY : Z := 0.
Definition O_WRONLY : Z := 1.
Definition O_CREAT : Z := 64.
Definition O_TRUNC : Z := 512.
Definition O_NONBLOCK : Z := 2048.
Definition O_LARGEFILE : Z := 32768.
Definition O_DIRECTORY : Z := 65536.

Definition F_SETFD : Z := 2.
Definition F_GETFL : Z := 3.
Definition F_SETFL : Z := 4.
Definition FD_CLOEXEC : Z := 1.
Definition POLLIN : Z := 1.
Definition POLLOUT : Z := 4.

Definition SIGILL : Z := 4.
Definition SIGABRT : Z := 6.
Definition SIGBUS : Z := 7.
Definition SIGFPE : Z := 8.
Definition SIGSEGV : Z := 11.
Definition SIGCHLD : Z := 17.
Definition SIGCONT : Z := 18.
Definition SIGXCPU : Z := 24.
Definition SIGXFSZ : Z := 25.

Definition PTRACE_PEEKDATA : Z := 2.
Definition PTRACE_PEEKUSER : Z := 3.
Definition PTRACE_KILL : Z := 8.
Definition PTRACE_GETREGS : Z := 12.
Definition PTRACE_GETFPREGS : Z := 14.
Definition PTRACE_ATTACH : Z := 16.
Definition PTRACE_DETACH : Z := 17.

(** ** Memory

    The address space that is being dumped.  All threads but the dumper are
    stopped while it is read, so it does not change. *)
Class AddressSpace := peek : Z -> Z.

(** Where the bytes of a buffer come from: an object of the dumper, with a
    position in it, or an address of the dumped process. *)
Inductive ptr : Type :=
  | PLocal (l : list Z) (off : Z)
  | PMem (a : Z).

Definition ptr_add (p : ptr) (n : Z) : ptr :=
  match p with
  | PLocal l off => PLocal l (off + n)
  | PMem a => PMem (a + n)
  end.

Fixpoint peek_bytes `{AddressSpace} (a : Z) (n : nat) : list Z :=
  match n with
  | O => []
  | S n' => peek a :: peek_bytes (a + 1) n'
  end.

(** The [n] bytes at [p]. *)
Definition content `{AddressSpace} (p : ptr) (n : Z) : list Z :=
  match p with
  | PLocal l off => slice off n l
  | PMem a => peek_bytes a (Z.to_nat n)
  end.

(** A whole local object. *)
Definition local (l : list Z) : ptr := PLocal l 0.

(** ** The kernel *)

Record kernel_dirent := Dirent { d_ino : Z; d_name : list Z }.

Class KernelIO (W : Type) := {
  k_read : Z -> Z -> W -> Z * list Z * W;              (* fd, count *)
  k_write : Z -> ptr -> Z -> W -> Z * unit * W;        (* fd, buffer, count *)
  k_open : string -> Z -> Z -> W -> Z * unit * W;      (* path, flags, mode *)
  k_close : Z -> W -> Z * unit * W;
  k_pipe : W -> Z * (Z * Z) * W;
  k_dup : Z -> W -> Z * unit * W;
  k_dup2 : Z -> Z -> W -> Z * unit * W;
  k_fcntl : Z -> Z -> Z -> W -> Z * unit * W;
  k_poll : list (Z * Z) -> Z -> W -> Z * list Z * W;   (* (fd, events), timeout; revents *)
}.

Class KernelProc (W : Type) := {
  k_gettid : W -> Z * unit * W;
  k_getpid : W -> Z * unit * W;
  k_getppid : W -> Z * unit * W;
  (* request, pid, address, and what the caller's own memory holds there; data stored *)
  k_ptrace : Z -> Z -> Z -> Z -> W -> Z * list Z * W;
  k_waitpid : Z -> Z -> W -> Z * Z * W;                (* pid, options; status *)
  k_tkill : Z -> Z -> W -> Z * unit * W;
  k_kill : Z -> Z -> W -> Z * unit * W;
  k_sched_yield : W -> Z * unit * W;
  k_prctl : Z -> Z -> W -> Z * unit * W;
  k_socket : W -> Z * unit * W;                        (* PF_LOCAL, SOCK_DGRAM, 0 *)
  k_stat : list Z -> W -> Z * Z * W;                   (* path; st_ino *)
  k_fstat : Z -> W -> Z * Z * W;                       (* fd; st_nlink *)
  k_opendir : list Z -> W -> Z * unit * W;             (* open, O_RDONLY|O_DIRECTORY *)
  k_getdents : Z -> Z -> W -> Z * list kernel_dirent * W;
  k_lseek : Z -> Z -> Z -> W -> Z * unit * W;
  k_sigaltstack : W -> Z * unit * W;
  k_rt_sigaction : Z -> W -> Z * unit * W;             (* install SignalHandler for signum *)
  k_rt_sigprocmask : Z -> list Z -> W -> Z * list Z * W;  (* how, set; old set *)
  k_clone : W -> Z * unit * W;
}.

(** Calls that only the dump itself makes. *)
Class KernelMisc (W : Type) := {
  k_getpriority : Z -> Z -> W -> Z * unit * W;
  k_geteuid : W -> Z * unit * W;
  k_getegid : W -> Z * unit * W;
  k_getpgrp : W -> Z * unit * W;
  k_getsid : Z -> W -> Z * unit * W;
  k_readlink : string -> Z -> W -> Z * list Z * W;
  k_creat : list Z -> Z -> Z -> W -> Z * unit * W;     (* open of the output file: path, flags, mode *)
  k_socketpair : W -> Z * (Z * Z) * W;
  k_fork : W -> Z * unit * W;
  k_sendmsg : Z -> Z -> Z -> W -> Z * unit * W;        (* socket, data, descriptor passed *)
  k_recvmsg : Z -> W -> Z * (Z * option Z) * W;        (* socket; data, descriptor passed *)
  k_shutdown : Z -> W -> Z * unit * W;
  k_clone_vm : W -> Z * unit * W;
  k_execve : list Z -> list (list Z) -> W -> Z * unit * W;  (* 0: the process is replaced *)
}.

(** ** Program state: [errno], the kernel, and a handle that the core writer
    passes to its output function (the [void *handle] of [CreateElfCore]). *)

Record cst (W H : Type) := Cst { errno : Z; world : W; hnd : H }.
Arguments Cst {W H} errno world hnd.
Arguments errno {W H} c.
Arguments world {W H} c.
Arguments hnd {W H} c.

Section State.
Context {W H : Type}.
Implicit Types s : cst W H.

Definition set_errno (e : Z) : M (cst W H) unit := fun s => Ret tt (Cst e (world s) (hnd s)).
Definition get_errno : M (cst W H) Z := fun s => Ret (errno s) s.
Definition get_hnd : M (cst W H) H := fun s => Ret (hnd s) s.
Definition set_hnd (h : H) : M (cst W H) unit := fun s => Ret tt (Cst (errno s) (world s) h).

(** [LSS_RETURN(type, res)] of x86-64: results -4095..-1 are error numbers.
    [cast] is the conversion to the return type; the pair is the value
    returned and the value left in the errno variable in use. *)
Definition LSS_RETURN (cast : Z -> Z) (res err : Z) : Z * Z :=
  if u64 (-4095) <=? u64 res then (cast (-1), s32 (- res)) else (cast res, err).

(** A system call that uses the global [errno] ([sys_xxx]). *)
Definition syscall {A : Type} (cast : Z -> Z) (k : W -> Z * A * W) : M (cst W H) (Z * A) :=
  fun s =>
    let '(res, a, w') := k (world s) in
    let '(rc, e) := LSS_RETURN cast res (errno s) in
    Ret (rc, a) (Cst e w' (hnd s)).

(** The same without data, for the calls that only return a number. *)
Definition syscall_ (cast : Z -> Z) (k : W -> Z * unit * W) : M (cst W H) Z :=
  let! (rc, _) := syscall cast k in ret rc.

(** A system call that uses a private errno ([sys0_xxx] with
    [SYS_ERRNO my_errno]): the third component is [my_errno] after the call,
    whose value before the call is [my]. *)
Definition syscall0 {A : Type} (cast : Z -> Z) (k : W -> Z * A * W) (my : Z)
    : M (cst W H) (Z * A * Z) :=
  fun s =>
    let '(res, a, w') := k (world s) in
    let '(rc, e) := LSS_RETURN cast res my in
    Ret (rc, a, e) (Cst (errno s) w' (hnd s)).
End State.

Section Wrappers.
Context {W H : Type} `{KernelIO W} `{KernelProc W}.
Abbreviation P A := (M (cst W H) A).

Definition sys_read (f c : Z) : P (Z * list Z) := syscall s64 (k_read f c).
Definition sys_write (f : Z) (b : ptr) (c : Z) : P Z := syscall_ s64 (k_write f b c).
Definition sys_open (p : string) (f m : Z) : P Z := syscall_ s32 (k_open p f m).
Definition sys_close (f : Z) : P Z := syscall_ s32 (k_close f).
Definition sys_pipe : P (Z * (Z * Z)) := syscall s32 k_pipe.
Definition sys_fcntl (f c a : Z) : P Z := syscall_ s32 (k_fcntl f c a).
Definition sys_poll (u : list (Z * Z)) (t : Z) : P (Z * list Z) := syscall s32 (k_poll u t).

Definition sys0_read (f c my : Z) : P (Z * list Z * Z) := syscall0 s64 (k_read f c) my.
Definition sys0_write (f : Z) (b : ptr) (c my : Z) : P (Z * unit * Z) :=
  syscall0 s64 (k_write f b c) my.

Definition sys_getpid : P Z := syscall_ s32 k_getpid.
Definition sys_getppid : P Z := syscall_ s32 k_getppid.
Definition sys_ptrace (r p a own : Z) : P (Z * list Z) := syscall s64 (k_ptrace r p a own).
Definition sys_waitpid (p o : Z) : P (Z * Z) := syscall s32 (k_waitpid p o).
Definition sys_tkill (p sg : Z) : P Z := syscall_ s32 (k_tkill p sg).
Definition sys_kill (p sg : Z) : P Z := syscall_ s32 (k_kill p sg).
Definition sys_sched_yield : P Z := syscall_ s32 k_sched_yield.
Definition sys_prctl (o a : Z) : P Z := syscall_ s32 (k_prctl o a).
Definition sys_socket : P Z := syscall_ s32 k_socket.
Definition sys_stat (f : list Z) : P (Z * Z) := syscall s32 (k_stat f).
Definition sys_fstat (f : Z) : P (Z * Z) := syscall s32 (k_fstat f).
Definition sys_getdents (f c : Z) : P (Z * list kernel_dirent) := syscall s32 (k_getdents f c).
Definition sys_lseek (f o w : Z) : P Z := syscall_ s64 (k_lseek f o w).
Definition sys_sigaltstack : P Z := syscall_ s32 k_sigaltstack.
Definition sys_rt_sigaction (sg : Z) : P Z := syscall_ s32 (k_rt_sigaction sg).
Definition sys_sigprocmask (how : Z) (set : list Z) : P (Z * list Z) := syscall s32 (k_rt_sigprocmask how set).
Definition sys_opendir (p : list Z) : P Z := syscall_ s32 (k_opendir p).
Definition sys_clone : P Z := syscall_ s32 k_clone.
Definition sys0_waitpid (p o my : Z) : P (Z * Z * Z) := syscall0 s32 (k_waitpid p o) my.

(** [sys_gettid]: falls back on [getpid] when the kernel has no [gettid]. *)
Definition sys_gettid : P Z :=
  let! tid := syscall_ s32 k_gettid in
  if negb (tid =? -1) then ret tid else sys_getpid.

(** [sys_ptrace_detach]: detach, then wake the thread with SIGCONT; the
    result and [errno] are those of the PTRACE_DETACH request. *)
Definition sys_ptrace_detach (pid : Z) : P Z :=
  sys_sched_yield ;;!
  let! (rc, _) := sys_ptrace PTRACE_DETACH pid 0 0 in
  let! err := get_errno in
  sys_tkill pid SIGCONT ;;!
  let! e := get_errno in
  (if e =? ENOSYS then sys_kill pid SIGCONT ;;! ret tt else ret tt) ;;!
  set_errno err ;;!
  ret (s32 rc).
End Wrappers.

(** ** EINTR

    [NO_INTR(fn)]: [do {} while ((fn) < 0 && errno == EINTR)].  [rc_of] selects
    the return code among the results of the call. *)
Section NoIntr.
Context {W H : Type}.
Abbreviation P A := (M (cst W H) A).

Fixpoint NO_INTR_on {A : Type} (rc_of : A -> Z) (fuel : nat) (fn : P A) : P A :=
  match fuel with
  | O => out_of_fuel
  | S fuel' =>
      let! a := fn in
      let! e := get_errno in
      if (rc_of a <? 0) && (e =? EINTR) then NO_INTR_on rc_of fuel' fn else ret a
  end.

Definition NO_INTR : nat -> P Z -> P Z := NO_INTR_on (fun rc => rc).

(** [MY_NO_INTR(fn)]: the same loop over the private errno. *)
Fixpoint MY_NO_INTR {A : Type} (fuel : nat) (fn : Z -> P (Z * A * Z)) (my : Z) : P (Z * A * Z) :=
  match fuel with
  | O => out_of_fuel
  | S fuel' =>
      let! (rc, a, e) := fn my in
      if (rc <? 0) && (e =? EINTR) then MY_NO_INTR fuel' fn e else ret (rc, a, e)
  end.
End NoIntr.

(** ** Signal sets

    [struct kernel_sigset_t]: an array of unsigned longs, KERNEL_NSIG bits. *)
Definition KERNEL_NSIG : Z := 64.

Record kernel_sigset_t := Sigset { sig : list Z }.

Definition sig_words : nat := Z.to_nat ((KERNEL_NSIG + 8 * 8 - 1) / (8 * 8)).

Definition sys_sigemptyset (set : kernel_sigset_t) : kernel_sigset_t :=
  Sigset (replicate (length (sig set)) 0).

Definition sys_sigfillset (set : kernel_sigset_t) : kernel_sigset_t :=
  Sigset (replicate (length (sig set)) (2 ^ 64 - 1)).

(** [signum < 1 || signum > (int)(8*sizeof(set->sig))] *)
Definition sig_invalid (set : kernel_sigset_t) (signum : Z) : bool :=
  (signum <? 1) || (8 * (8 * zlen (sig set)) <? signum).

Definition sig_word (signum : Z) : nat := Z.to_nat ((signum - 1) / (8 * 8)).
Definition sig_bit (signum : Z) : Z := u64 (Z.shiftl 1 ((signum - 1) mod (8 * 8))).

(** The value returned, the set afterwards and, on failure, the new [errno]. *)
Definition sys_sigaddset (set : kernel_sigset_t) (signum : Z) : Z * kernel_sigset_t * option Z :=
  if sig_invalid set signum then (-1, set, Some EINVAL)
  else (0, Sigset (alter (fun w => Z.lor w (sig_bit signum)) (sig_word signum) (sig set)), None).

Definition sys_sigdelset (set : kernel_sigset_t) (signum : Z) : Z * kernel_sigset_t * option Z :=
  if sig_invalid set signum then (-1, set, Some EINVAL)
  else (0, Sigset (alter (fun w => Z.land w (2 ^ 64 - 1 - sig_bit signum)) (sig_word signum) (sig set)), None).

Definition sys_sigismember (set : kernel_sigset_t) (signum : Z) : Z * option Z :=
  if sig_invalid set signum then (-1, Some EINVAL)
  else (if Z.land (default 0 (sig set !! sig_word signum)) (sig_bit signum) =? 0 then 0 else 1, None).

(** ** The signal-set operations are those of a set *)

Definition sigset_wf (set : kernel_sigset_t) : Prop := Forall (fun w => 0 <= w < 2 ^ 64) (sig set).
Definition valid_signal (set : kernel_sigset_t) (signum : Z) : Prop := 1 <= signum <= 64 * zlen (sig set).

Lemma sig_bit_pow signum : 0 <= signum -> sig_bit signum = 2 ^ ((signum - 1) mod 64).
Proof.
  intros Hs. unfold sig_bit, u64. rewrite Z.shiftl_mul_pow2, Z.mul_1_l by (apply Z.mod_pos_bound; lia).
  change (8 * 8) with 64. pose proof (Z.mod_pos_bound (signum - 1) 64 ltac:(lia)).
  apply Z.mod_small. split; [apply Z.pow_nonneg; lia|]. apply Z.pow_lt_mono_r; lia.
Qed.

Lemma land_pow2 w k : 0 <= k -> (Z.land w (2 ^ k) =? 0) = negb (Z.testbit w k).
Proof.
  intros Hk. destruct (Z.testbit w k) eqn:E; cbn.
  - apply Z.eqb_neq. intros E0. assert (Z.testbit (Z.land w (2 ^ k)) k = true) as Ht.
    { by rewrite Z.land_spec, E, Z.pow2_bits_true. }
    by rewrite E0, Z.bits_0 in Ht.
  - apply Z.eqb_eq, Z.bits_inj'. intros n Hn. rewrite Z.land_spec, Z.bits_0.
    destruct (decide (n = k)) as [->|Hne]; [by rewrite E|].
    rewrite Z.pow2_bits_false by lia. apply andb_false_r.
Qed.

Lemma valid_lookup set signum : valid_signal set signum ->
  exists w, sig set !! sig_word signum = Some w /\ (sigset_wf set -> 0 <= w < 2 ^ 64).
Proof.
  intros [H1 H2]. unfold zlen in H2. destruct (lookup_lt_is_Some_2 (sig set) (sig_word signum)) as [w Hw].
  { unfold sig_word. change (8 * 8) with 64. apply Nat2Z.inj_lt.
    rewrite Z2Nat.id by (apply Z.div_pos; lia). apply Z.div_lt_upper_bound; lia. }
  exists w. split; [done|]. intros Hwf. unfold sigset_wf in Hwf. rewrite Forall_lookup in Hwf. eauto.
Qed.

Lemma sig_valid set signum : valid_signal set signum -> sig_invalid set signum = false.
Proof. intros [H1 H2]. unfold sig_invalid. apply orb_false_iff. split; [apply Z.ltb_ge|apply Z.ltb_ge]; lia. Qed.

Lemma sigismember_bit set signum w : valid_signal set signum -> sig set !! sig_word signum = Some w ->
  sys_sigismember set signum = ((if Z.testbit w ((signum - 1) mod 64) then 1 else 0), None).
Proof.
  intros Hv Hw. unfold sys_sigismember. rewrite sig_valid, Hw by done. cbn [default].
  destruct Hv. rewrite sig_bit_pow, land_pow2 by (apply Z.mod_pos_bound || idtac; lia).
  by destruct (Z.testbit _ _).
Qed.

(** Two signals with the same word and the same bit are the same. *)
Lemma sig_split s t : 0 < s -> 0 < t -> sig_word s = sig_word t -> (s - 1) mod 64 = (t - 1) mod 64 -> s = t.
Proof.
  unfold sig_word. change (8 * 8) with 64. intros Hs Ht Hw Hb.
  apply Z2Nat.inj in Hw; [|apply Z.div_pos; lia..].
  pose proof (Z.div_mod (s - 1) 64). pose proof (Z.div_mod (t - 1) 64). lia.
Qed.

(** Changing the word of signal [s] with [f], which changes only its bit. *)
Lemma sig_alter set s t (b : bool) f : valid_signal set s -> valid_signal set t -> sigset_wf set ->
  (forall w k, 0 <= w < 2 ^ 64 -> 0 <= k < 64 ->
     Z.testbit (f w) k = if decide (k = (s - 1) mod 64) then b else Z.testbit w k) ->
  sys_sigismember (Sigset (alter f (sig_word s) (sig set))) t =
    if decide (t = s) then ((if b then 1 else 0), None) else sys_sigismember set t.
Proof.
  intros Hs Ht Hwf Hf. destruct (valid_lookup _ _ Ht) as (w & Hw & Hr). specialize (Hr Hwf).
  assert (Ht' : valid_signal (Sigset (alter f (sig_word s) (sig set))) t).
  { unfold valid_signal, zlen in *. cbn. by rewrite length_alter. }
  pose proof (Z.mod_pos_bound (t - 1) 64 ltac:(lia)) as Hb.
  destruct Hs as [Hs _]. pose proof Ht as [Ht1 _].
  destruct (decide (sig_word s = sig_word t)) as [E|E].
  - rewrite (sigismember_bit _ _ (f w)); [|done|].
    2:{ cbn. rewrite E, list_lookup_alter, decide_True by done. by rewrite Hw. }
    rewrite Hf by lia. destruct (decide (t = s)) as [->|Hne].
    + rewrite decide_True by done. by destruct b.
    + rewrite decide_False; [by rewrite (sigismember_bit _ _ w)|].
      intros Eb. apply Hne. apply sig_split; (done || lia).
  - rewrite decide_False by (intros ->; done).
    rewrite (sigismember_bit set _ w), (sigismember_bit _ _ w); [done|done| |done|done].
    cbn. by rewrite list_lookup_alter_ne.
Qed.

(** Adding, deleting and testing signals, and the empty and the full set,
    behave as on sets; a number that is no signal is refused with EINVAL and
    changes nothing. *)
Theorem sigset_ops set s t : sigset_wf set -> valid_signal set t ->
  (valid_signal set s ->
     sys_sigismember (sys_sigaddset set s).1.2 t = (if decide (t = s) then (1, None) else sys_sigismember set t) /\
     sys_sigismember (sys_sigdelset set s).1.2 t = (if decide (t = s) then (0, None) else sys_sigismember set t)) /\
  (~ valid_signal set s ->
     sys_sigaddset set s = (-1, set, Some EINVAL) /\ sys_sigdelset set s = (-1, set, Some EINVAL) /\
     sys_sigismember set s = (-1, Some EINVAL)) /\
  sys_sigismember (sys_sigemptyset set) t = (0, None) /\
  sys_sigismember (sys_sigfillset set) t = (1, None).
Proof.
  intros Hwf Ht. split_and!.
  - intros Hs. pose proof (sig_valid _ _ Hs) as Ei. unfold sys_sigaddset, sys_sigdelset. rewrite Ei.
    pose proof Hs as [Hs1 _]. pose proof (Z.mod_pos_bound (s - 1) 64 ltac:(lia)) as Hb.
    split; (apply (sig_alter set s t true) || apply (sig_alter set s t false)); auto; intros w k Hw Hk;
      rewrite sig_bit_pow by lia.
    + rewrite Z.lor_spec, Z.pow2_bits_eqb by lia. destruct (decide _) as [->|Hne].
      * by rewrite Z.eqb_refl, orb_true_r.
      * rewrite (proj2 (Z.eqb_neq _ _)) by lia. apply orb_false_r.
    + change (2 ^ 64 - 1) with (Z.ones 64). set (m := (s - 1) mod 64) in *.
      replace (Z.ones 64 - 2 ^ m) with (Z.ldiff (Z.ones 64) (2 ^ m)).
      2:{ symmetry. apply Z.sub_nocarry_ldiff. apply Z.bits_inj'. intros n Hn.
          rewrite Z.ldiff_spec, Z.bits_0, Z.pow2_bits_eqb by lia. destruct (m =? n) eqn:E; [|done]. b2p.
          rewrite Z.ones_spec_low by lia. done. }
      rewrite Z.land_spec, Z.ldiff_spec, Z.ones_spec_low, Z.pow2_bits_eqb by lia.
      destruct (decide _) as [->|Hne].
      * by rewrite Z.eqb_refl, andb_false_r.
      * rewrite (proj2 (Z.eqb_neq _ _)) by lia. apply andb_true_r.
  - intros Hs. unfold sys_sigaddset, sys_sigdelset, sys_sigismember.
    assert (sig_invalid set s = true) as ->; [|done].
    unfold sig_invalid. destruct (s <? 1) eqn:E1; [done|]. destruct (8 * (8 * zlen (sig set)) <? s) eqn:E2; [done|].
    b2p. exfalso. apply Hs. unfold valid_signal. lia.
  - destruct (valid_lookup _ _ Ht) as (w & Hw & _). apply lookup_lt_Some in Hw as Hl.
    assert (E : valid_signal (sys_sigemptyset set) t).
    { unfold valid_signal, zlen in *. cbn. by rewrite length_replicate. }
    rewrite (sigismember_bit _ _ 0); [by rewrite Z.bits_0|done|].
    cbn. by apply lookup_replicate_2.
  - destruct (valid_lookup _ _ Ht) as (w & Hw & _). apply lookup_lt_Some in Hw as Hl.
    assert (E : valid_signal (sys_sigfillset set) t).
    { unfold valid_signal, zlen in *. cbn [sig sys_sigfillset]. by rewrite length_replicate. }
    rewrite (sigismember_bit _ _ (2 ^ 64 - 1)); [|done|cbn [sig sys_sigfillset]; by apply lookup_replicate_2].
    change (2 ^ 64 - 1) with (Z.ones 64). pose proof (Z.mod_pos_bound (t - 1) 64 ltac:(lia)).
    by rewrite Z.ones_spec_low by lia.
Qed.

Definition ex_sigset : kernel_sigset_t := Sigset [2 ^ 63 + 5].

Lemma sigset_ops_witness :
  (valid_signal ex_sigset 11 ->
     sys_sigismember (sys_sigaddset ex_sigset 11).1.2 64 = (1, None) /\
     sys_sigismember (sys_sigdelset ex_sigset 11).1.2 64 = (1, None)) /\
  (~ valid_signal ex_sigset 11 ->
     sys_sigaddset ex_sigset 11 = (-1, ex_sigset, Some EINVAL) /\
     sys_sigdelset ex_sigset 11 = (-1, ex_sigset, Some EINVAL) /\
     sys_sigismember ex_sigset 11 = (-1, Some EINVAL)) /\
  sys_sigismember (sys_sigemptyset ex_sigset) 64 = (0, None) /\
  sys_sigismember (sys_sigfillset ex_sigset) 64 = (1, None).
Proof. apply (sigset_ops ex_sigset 11 64); by_compute. Defined.
