(* ===== verification/Abi.v ===== *)
(** How system calls report errors on the processors that [linux_syscall_support.h]
    supports: the variants of [LSS_RETURN], and the interface that the wrappers of
    Compat.v are written against. *)
From S2P Require Import Prelude Syscall.

(** What the kernel leaves in the result register and in the register for errors. *)
Record raw := Raw { res : Z; err : Z }.

(** ** [LSS_RETURN]

    [bits] is the width of a long, [cast] the conversion to the return type, [my]
    the error number before the call; the pair is the value returned and the error
    number afterwards. *)

(** x86, ARM, AArch64, s390, e2k, RISC-V: results from -4095 to -1 are errors. *)
Definition LSS_RETURN_neg (bits : Z) (cast : Z -> Z) (r : raw) (my : Z) : Z * Z :=
  if (- 4095) mod 2 ^ bits <=? res r mod 2 ^ bits then (cast (-1), s32 (- res r)) else (cast (res r), my).

(** MIPS: a register of its own says whether there is an error. *)
Definition LSS_RETURN_mips (bits : Z) (cast : Z -> Z) (r : raw) (my : Z) : Z * Z :=
  if negb (err r =? 0) then
    let __errnovalue := res r mod 2 ^ bits in
    (cast (-1), s32 __errnovalue)
  else (cast (res r), my).

(** PPC: a bit of the condition register does. *)
Definition LSS_RETURN_ppc (cast : Z -> Z) (r : raw) (my : Z) : Z * Z :=
  if negb (Z.land (err r) 0x10000000 =? 0) then (cast (-1), s32 (res r)) else (cast (res r), my).

(** ** The interface

    How a kernel of this convention reports a value and an error number, and what
    the macro makes of it. *)
Class Abi := {
  long_bits : Z;
  lss_return : (Z -> Z) -> raw -> Z -> Z * Z;
  reports : Z -> raw -> Prop;
  reports_error : Z -> raw -> Prop;
  abi_bits : long_bits = 32 \/ long_bits = 64;
  abi_ok : forall cast v r my, reports v r -> lss_return cast r my = (cast v, my);
  abi_err : forall cast e r my, 1 <= e <= 4095 -> reports_error e r -> lss_return cast r my = (cast (-1), e) }.

Lemma s32_errno e : 1 <= e <= 4095 -> s32 e = e.
Proof. intros He. unfold s32. rewrite Z.mod_small; lia. Qed.

Lemma neg_err bits e : bits = 32 \/ bits = 64 -> 1 <= e <= 4095 ->
  ((- 4095) mod 2 ^ bits <=? (- e) mod 2 ^ bits) = true.
Proof.
  intros Hb He. apply Z.leb_le. rewrite <- (Z_mod_plus_full (- e) 1 (2 ^ bits)).
  destruct Hb as [-> | ->]; rewrite (Z.mod_small (- e + _)) by lia;
    [change ((- 4095) mod 2 ^ 32) with (2 ^ 32 - 4095)|change ((- 4095) mod 2 ^ 64) with (2 ^ 64 - 4095)]; lia.
Qed.

Definition neg_abi (bits : Z) (Hb : bits = 32 \/ bits = 64) : Abi.
Proof.
  refine {| long_bits := bits; lss_return := LSS_RETURN_neg bits;
    reports v r := res r = v /\ v mod 2 ^ bits < (- 4095) mod 2 ^ bits;
    reports_error e r := res r = - e; abi_bits := Hb |}.
  - intros cast v [x y] my [Hr Hv]. cbn in Hr. subst x. unfold LSS_RETURN_neg. cbn [res].
    by rewrite (proj2 (Z.leb_gt _ _) Hv).
  - intros cast e [x y] my He Hr. cbn in Hr. subst x. unfold LSS_RETURN_neg. cbn [res].
    by rewrite neg_err, Z.opp_involutive, s32_errno.
Defined.

Definition mips_abi (bits : Z) (Hb : bits = 32 \/ bits = 64) : Abi.
Proof.
  refine {| long_bits := bits; lss_return := LSS_RETURN_mips bits;
    reports v r := r = Raw v 0; reports_error e r := res r = e /\ err r <> 0; abi_bits := Hb |}.
  - intros cast v r my ->. done.
  - intros cast e [x y] my He [Hr Hy]. cbn in Hr, Hy. subst x. unfold LSS_RETURN_mips. cbn [res err].
    rewrite (proj2 (Z.eqb_neq _ _) Hy). cbn [negb].
    rewrite (Z.mod_small e) by (destruct Hb as [-> | ->]; lia). by rewrite s32_errno.
Defined.

Definition ppc_abi : Abi.
Proof.
  refine {| long_bits := 32; lss_return := LSS_RETURN_ppc;
    reports v r := res r = v /\ Z.testbit (err r) 28 = false;
    reports_error e r := res r = e /\ Z.testbit (err r) 28 = true; abi_bits := or_introl eq_refl |}.
  all: intros cast v [x y] my; cbn [res err]; unfold LSS_RETURN_ppc; cbn [res err];
    change 0x10000000 with (2 ^ 28); rewrite land_pow2 by lia.
  - intros [-> ->]. done.
  - intros He [-> ->]. cbn. by rewrite s32_errno.
Defined.

(** C30. The conventions agree: whatever the processor, a call for which the kernel
    has the value [v] returns [v] and leaves the error number alone, and one that
    fails with [e] returns -1 and leaves [e], provided that on the processors
    without a register for errors [v] is not among the 4095 values that stand for
    errors there. *)
Theorem LSS_RETURN_agree (bits : Z) (cast : Z -> Z) (v e flag my : Z) :
  bits = 32 \/ bits = 64 -> 1 <= e <= 4095 ->
  (v mod 2 ^ bits < (- 4095) mod 2 ^ bits -> LSS_RETURN_neg bits cast (Raw v flag) my = (cast v, my)) /\
  LSS_RETURN_mips bits cast (Raw v 0) my = (cast v, my) /\
  (Z.testbit flag 28 = false -> LSS_RETURN_ppc cast (Raw v flag) my = (cast v, my)) /\
  LSS_RETURN_neg bits cast (Raw (- e) flag) my = (cast (-1), e) /\
  (flag <> 0 -> LSS_RETURN_mips bits cast (Raw e flag) my = (cast (-1), e)) /\
  (Z.testbit flag 28 = true -> LSS_RETURN_ppc cast (Raw e flag) my = (cast (-1), e)) /\
  LSS_RETURN cast v my = LSS_RETURN_neg 64 cast (Raw v flag) my.
Proof.
  intros Hb He. split_and!.
  - intros Hv. by apply (@abi_ok (neg_abi bits Hb)).
  - by apply (@abi_ok (mips_abi bits Hb)).
  - intros Hf. by apply (@abi_ok ppc_abi).
  - by apply (@abi_err (neg_abi bits Hb)).
  - intros Hf. by apply (@abi_err (mips_abi bits Hb)).
  - intros Hf. by apply (@abi_err ppc_abi).
  - done.
Qed.

Lemma LSS_RETURN_agree_witness :
  LSS_RETURN_neg 32 s32 (Raw 7 1) 5 = (7, 5) /\ LSS_RETURN_neg 32 s32 (Raw (-4) 1) 5 = (-1, 4) /\
  LSS_RETURN_mips 32 s32 (Raw 4 1) 5 = (-1, 4) /\ LSS_RETURN_ppc s32 (Raw 4 (2 ^ 28)) 5 = (-1, 4).
Proof.
  destruct (LSS_RETURN_agree 32 s32 7 4 1 5 ltac:(lia) ltac:(lia)) as (H1 & _ & _ & H2 & H3 & _).
  destruct (LSS_RETURN_agree 32 s32 7 4 (2 ^ 28) 5 ltac:(lia) ltac:(lia)) as (_ & _ & _ & _ & _ & H4 & _).
  split; [apply H1; by_compute|]. split; [exact H2|]. split; [by apply H3|by apply H4].
Defined.
