(* ===== verification/Compat.v ===== *)
(** The wrappers of [linux_syscall_support.h] for kernels and processors other than
    x86-64: calls that fall back on older ones, calls whose 64-bit arguments take
    two registers, and calls that newer kernels have replaced. *)
From S2P Require Import Prelude Syscall Abi.

(** ** The kernel *)

(** The system calls that are made with numbers only. *)
Inductive nr :=
  | NR_setfsgid32 | NR_setfsuid32 | NR_setresgid32 | NR_setresuid32
  | NR_setfsgid | NR_setfsuid | NR_setresgid | NR_setresuid
  | NR_mmap2 | NR_mmap | NR_pread64 | NR_pwrite64 | NR_readahead | NR_fallocate | NR_fadvise64_64
  | NR_dup3 | NR_openat | NR_unlinkat | NR_readlinkat | NR_pipe2 | NR_newfstatat | NR_wait4 | NR_clone
  | NR_rt_sigsuspend | NR_sigsuspend | NR_kill | NR_getpid | NR_setpgid | NR_statfs64 | NR_fstatfs64.

#[export] Instance nr_eq_dec : EqDecision nr.
Proof. solve_decision. Defined.

(** Calls that return the three ids of a process. *)
Inductive nr_ids := NR_getresgid32 | NR_getresuid32 | NR_getresgid | NR_getresuid.

(** [struct kernel_sigaction] and, of one word of mask, [struct kernel_old_sigaction]. *)
Record kernel_sigaction := Sigaction { sa_handler_ : Z; sa_flags : Z; sa_restorer : Z; sa_mask : list Z }.
Record kernel_old_sigaction := OldSigaction { old_handler_ : Z; old_mask : Z; old_flags : Z; old_restorer : Z }.

(** Results that the kernel stores through a pointer are an [option]: it may not
    store any. *)
Class KernelCalls (W : Type) := {
  q_call : nr -> list Z -> W -> raw * W;
  q_ids : nr_ids -> W -> raw * option (Z * Z * Z) * W;
  q_rt_sigaction : Z -> option kernel_sigaction -> bool -> W -> raw * option kernel_sigaction * W;
  q_sigaction : Z -> option kernel_old_sigaction -> bool -> W -> raw * option kernel_old_sigaction * W;
  q_rt_sigpending : W -> raw * option (list Z) * W;
  q_sigpending : W -> raw * option Z * W;
  q_socketcall : Z -> list Z -> W -> raw * W;
  q_ppoll : Z -> Z -> option (Z * Z) -> W -> raw * W }.

(** MIPS returns both ends of a pipe, and whether it failed, in registers. *)
Class KernelPipe (W : Type) := q_pipe : W -> Z * Z * Z * W.

Definition SA_SIGINFO : Z := 4.
Definition SA_RESTORER : Z := 0x04000000.
Definition AT_FDCWD : Z := -100.
Definition AT_SYMLINK_NOFOLLOW : Z := 0x100.

Section Compat.
Context {W H : Type} `{Abi} `{KernelCalls W}.
Abbreviation P A := (M (cst W H) A).

(** A system call, by number. *)
Definition sysq {A : Type} (cast : Z -> Z) (k : W -> raw * A * W) : P (Z * A) :=
  fun s =>
    let '(r, a, w') := k (world s) in
    let '(rc, e) := lss_return cast r (errno s) in
    Ret (rc, a) (Cst e w' (hnd s)).

Definition sysn (cast : Z -> Z) (k : W -> raw * W) : P Z :=
  fun s =>
    let '(r, w') := k (world s) in
    let '(rc, e) := lss_return cast r (errno s) in
    Ret rc (Cst e w' (hnd s)).

Definition sys (n : nr) (args : list Z) : P Z := sysn s32 (q_call n args).

(** The call failed because the kernel does not have it. *)
Definition missing (rc : Z) : P bool := let! e := get_errno in ret ((rc <? 0) && (e =? ENOSYS)).

(** ** Ids of 32 bits

    A pointer is the contents of what it points to, [None] for NULL; the objects
    are distinct.  [big] is the byte order: the older calls store 16 bits at the
    address of an id of 32. *)
Definition ids := (option Z * option Z * option Z)%type.

Definition store_id (f : Z -> Z -> Z) (p : ids) (d : option (Z * Z * Z)) : ids :=
  match d with
  | Some (a, b, c) => (option_map (fun old => f old a) p.1.1, option_map (fun old => f old b) p.1.2, option_map (fun old => f old c) p.2)
  | None => p
  end.

Definition store32 (old v : Z) : Z := u32 v.
Definition store16 (big : bool) (old v : Z) : Z :=
  if big then u16 v * 2 ^ 16 + old mod 2 ^ 16 else old - old mod 2 ^ 16 + u16 v.

Definition has_null (p : ids) : bool :=
  match p with (Some _, Some _, Some _) => false | _ => true end.

Definition sys_getresgid32 (big : bool) (p : ids) : P (Z * ids) :=
  let! (rc, d) := sysq s32 (q_ids NR_getresgid32) in
  let p := store_id store32 p d in
  let! enosys := missing rc in
  if enosys then
    if has_null p then ret (EFAULT, p)
    else
      let p := (Some 0, Some 0, Some 0) in
      let! (rc, d) := sysq s32 (q_ids NR_getresgid) in
      ret (rc, store_id (store16 big) p d)
  else ret (rc, p).

Definition sys_getresuid32 (big : bool) (p : ids) : P (Z * ids) :=
  let! (rc, d) := sysq s32 (q_ids NR_getresuid32) in
  let p := store_id store32 p d in
  let! enosys := missing rc in
  if enosys then
    if has_null p then ret (EFAULT, p)
    else
      let p := (Some 0, Some 0, Some 0) in
      let! (rc, d) := sysq s32 (q_ids NR_getresuid) in
      ret (rc, store_id (store16 big) p d)
  else ret (rc, p).

(** [(unsigned int)id & ~0xFFFFu] *)
Definition too_big (id : Z) : bool := negb (Z.land (u32 id) (2 ^ 32 - 1 - 0xFFFF) =? 0).

Definition sys_setfsgid32 (gid : Z) : P Z :=
  let! rc := sys NR_setfsgid32 [gid] in
  let! enosys := missing rc in
  if enosys then
    if too_big gid then ret EINVAL else sys NR_setfsgid [gid]
  else ret rc.

Definition sys_setfsuid32 (uid : Z) : P Z :=
  let! rc := sys NR_setfsuid32 [uid] in
  let! enosys := missing rc in
  if enosys then
    if too_big uid then ret EINVAL else sys NR_setfsuid [uid]
  else ret rc.

Definition sys_setresgid32 (rgid egid sgid : Z) : P Z :=
  let! rc := sys NR_setresgid32 [rgid; egid; sgid] in
  let! enosys := missing rc in
  if enosys then
    if too_big rgid || too_big egid || too_big sgid then ret EINVAL
    else sys NR_setresgid [rgid; egid; sgid]
  else ret rc.

Definition sys_setresuid32 (ruid euid suid : Z) : P Z :=
  let! rc := sys NR_setresuid32 [ruid; euid; suid] in
  let! enosys := missing rc in
  if enosys then
    if too_big ruid || too_big euid || too_big suid then ret EINVAL
    else sys NR_setresuid [ruid; euid; suid]
  else ret rc.

(** ** Signals

    [restore_rt] and [restore] are the addresses of the functions that return from
    a handler; [i386] tells whether [sigaction] must set them. *)
Section Signals.
Variables (i386 : bool) (restore_rt restore : Z) (sig_words : nat).

Definition with_restorer (a : kernel_sigaction) : kernel_sigaction :=
  if i386 && (Z.land (sa_flags a) SA_RESTORER =? 0) then
    let flags := Z.lor (sa_flags a) SA_RESTORER in
    Sigaction (sa_handler_ a) flags (if negb (Z.land flags SA_SIGINFO =? 0) then restore_rt else restore) (sa_mask a)
  else a.

Definition old_of (a : kernel_sigaction) : kernel_old_sigaction :=
  OldSigaction (sa_handler_ a) (nth 0 (sa_mask a) 0) (sa_flags a) (sa_restorer a).

Definition zero_sigaction : kernel_sigaction := Sigaction 0 0 0 (replicate sig_words 0).

Definition is_ptr {A : Type} (p : option A) : bool := match p with Some _ => true | None => false end.

(** What a pointer points to after the kernel may have stored through it. *)
Definition stored {A : Type} (p d : option A) : option A :=
  match p, d with Some _, Some v => Some v | _, _ => p end.

(** [sigaction] where the kernel may have the old call only, for the processors that
    have a restorer (all but MIPS).  [ooa] is the uninitialised [struct kernel_old_sigaction]. *)
Definition sys_sigaction_old (ooa : kernel_old_sigaction) (signum : Z) (act oldact : option kernel_sigaction)
    : P (Z * option kernel_sigaction) :=
  let! old_errno := get_errno in
  let a := option_map with_restorer act in
  let! (rc, d) := sysq s32 (q_rt_sigaction signum a (is_ptr oldact)) in
  let oldact := stored oldact d in
  let! enosys := missing rc in
  if enosys then
    let ptr_a := option_map old_of act in
    set_errno old_errno ;;!
    let! (rc, d) := sysq s32 (q_sigaction signum ptr_a (is_ptr oldact)) in
    let ooa := default ooa d in
    ret (rc,
      if (rc =? 0) && is_ptr oldact then
        let base := default zero_sigaction act in
        Some (Sigaction (old_handler_ ooa) (old_flags ooa) (old_restorer ooa) (<[0%nat := old_mask ooa]> (sa_mask base)))
      else oldact)
  else ret (rc, oldact).

(** [sigaction] of x86-64. *)
Definition sys_sigaction (signum : Z) (act oldact : option kernel_sigaction) : P (Z * option kernel_sigaction) :=
  let act :=
    match act with
    | Some a =>
        if Z.land (sa_flags a) SA_RESTORER =? 0
        then Some (Sigaction (sa_handler_ a) (Z.lor (sa_flags a) SA_RESTORER) restore_rt (sa_mask a)) else act
    | None => act
    end in
  let! (rc, d) := sysq s32 (q_rt_sigaction signum act (is_ptr oldact)) in
  ret (rc, stored oldact d).

Definition sys_sigpending (set : list Z) : P (Z * list Z) :=
  let! old_errno := get_errno in
  let! (rc, d) := sysq s32 q_rt_sigpending in
  let set := default set d in
  let! enosys := missing rc in
  if enosys then
    set_errno old_errno ;;!
    let set := replicate (length set) 0 in
    let! (rc, d) := sysq s32 q_sigpending in
    ret (rc, match d with Some v => <[0%nat := v]> set | None => set end)
  else ret (rc, set).

(** [at_] is the address of the set; PPC passes its first word alone. *)
Definition sys_sigsuspend (ppc : bool) (at_ : Z) (set : list Z) : P Z :=
  let! olderrno := get_errno in
  let! rc := sys NR_rt_sigsuspend [at_; (KERNEL_NSIG + 7) / 8] in
  let! enosys := missing rc in
  if enosys then
    set_errno olderrno ;;!
    sys NR_sigsuspend ((if ppc then [] else [at_; 0]) ++ [nth 0 set 0])
  else ret rc.
End Signals.

(** ** Arguments of 64 bits

    Where a long has 32 bits they are passed in two registers: the words of the
    number as they lie in memory. *)
Definition words_of (big : bool) (off : Z) : Z * Z :=
  let lo := u32 off in
  let hi := u64 off / 2 ^ 32 in
  if big then (hi, lo) else (lo, hi).

(** [LSS_LLARG_PAD]: on ARM and MIPS such a pair starts at an even register. *)
Definition LSS_LLARG_PAD (pad : bool) : list Z := if pad then [0] else [].

Definition sys_pread64 (big pad : bool) (fd buf count off : Z) : P Z :=
  let o := words_of big off in
  sysn s64 (q_call NR_pread64 ([fd; buf; count] ++ LSS_LLARG_PAD pad ++ [o.1; o.2])).

Definition sys_pwrite64 (big pad : bool) (fd buf count off : Z) : P Z :=
  let o := words_of big off in
  sysn s64 (q_call NR_pwrite64 ([fd; buf; count] ++ LSS_LLARG_PAD pad ++ [o.1; o.2])).

Definition sys_readahead (big pad : bool) (fd off len : Z) : P Z :=
  let o := words_of big off in
  sys NR_readahead ([fd] ++ LSS_LLARG_PAD pad ++ [o.1; o.2; len]).

Definition sys_fallocate (big : bool) (fd mode offset len : Z) : P Z :=
  let o := words_of big offset in
  let l := words_of big len in
  sys NR_fallocate [fd; mode; o.1; o.2; l.1; l.2].

(** On i386 only. *)
Definition sys_fadvise64 (fd offset len advice : Z) : P Z :=
  sys NR_fadvise64_64 [fd; u32 offset; u32 (Z.shiftr offset 32); u32 len; u32 (Z.shiftr len 32); advice].

(** [mmap] by [mmap2], which counts in pages; [off_t] is a long. *)
Definition to_off_t (x : Z) : Z := (x + 2 ^ (long_bits - 1)) mod 2 ^ long_bits - 2 ^ (long_bits - 1).
Definition to_pointer (x : Z) : Z := x mod 2 ^ long_bits.

Definition sys_mmap (s l p f d o : Z) : P Z :=
  if negb (Z.rem o 4096 =? 0) then
    set_errno EINVAL ;;!
    ret (to_pointer (-1))
  else sysn to_pointer (q_call NR_mmap2 [s; l; p; f; d; to_off_t (Z.quot o 4096)]).

(** ** Sockets through [socketcall] *)

Definition sys_socketcall (op : Z) (args : list Z) : P Z := sysn s32 (q_socketcall op args).

Definition sys_recvmsg (s msg flags : Z) : P Z := sys_socketcall 17 [s; msg; flags].
Definition sys_sendmsg (s msg flags : Z) : P Z := sys_socketcall 16 [s; msg; flags].
Definition sys_sendto (s buf len flags to tolen : Z) : P Z := sys_socketcall 11 [s; buf; len; flags; to; tolen].
Definition sys_shutdown (s how : Z) : P Z := sys_socketcall 13 [s; how].
Definition socket_call (domain type protocol : Z) : P Z := sys_socketcall 1 [domain; type; protocol].
Definition sys_socketpair (d type protocol sv : Z) : P Z := sys_socketcall 8 [d; type; protocol; sv].

(** ** Calls in terms of others *)

Definition sys_statfs64 (p size b : Z) : P Z := sys NR_statfs64 [p; size; b].
Definition sys_fstatfs64 (f size b : Z) : P Z := sys NR_fstatfs64 [f; size; b].

Definition sys_raise (sg : Z) : P Z :=
  let! pid := sys NR_getpid [] in
  sys NR_kill [pid; sg].

Definition sys_setpgrp : P Z := sys NR_setpgid [0; 0].

(** The calls that newer kernels do not have; the names of this file end in the call
    that takes their place. *)
Definition dup2_dup3 (s d : Z) : P Z := sys NR_dup3 [s; d; 0].
Definition open_openat (pathname flags mode : Z) : P Z := sys NR_openat [AT_FDCWD; pathname; flags; mode].
Definition unlink_unlinkat (pathname : Z) : P Z := sys NR_unlinkat [AT_FDCWD; pathname; 0].
Definition readlink_readlinkat (pathname buffer size : Z) : P Z := sys NR_readlinkat [AT_FDCWD; pathname; buffer; size].
Definition pipe_pipe2 (pipefd : Z) : P Z := sys NR_pipe2 [pipefd; 0].
Definition stat_newfstatat (pathname buf : Z) : P Z := sys NR_newfstatat [AT_FDCWD; pathname; buf; 0].
Definition lstat_newfstatat (pathname buf : Z) : P Z := sys NR_newfstatat [AT_FDCWD; pathname; buf; AT_SYMLINK_NOFOLLOW].
Definition waitpid_wait4 (pid status options : Z) : P Z := sys NR_wait4 [pid; status; options; 0].
Definition fork_clone : P Z :=
  let flags := SIGCHLD in
  let child_stack := 0 in
  let parent_tidptr := 0 in
  let newtls := 0 in
  let child_tidptr := 0 in
  sys NR_clone [flags; child_stack; parent_tidptr; newtls; child_tidptr].

(** The timeout of [poll] in milliseconds, as the seconds and nanoseconds of [ppoll];
    [None] is the null pointer, which means no limit. *)
Definition timeout_ts (timeout : Z) : option (Z * Z) :=
  if 0 <=? timeout then Some (Z.quot timeout 1000, Z.rem timeout 1000 * 1000000) else None.

Definition poll_ppoll (fds nfds timeout : Z) : P Z :=
  sysn s32 (q_ppoll fds nfds (timeout_ts timeout)).

(** [pipe] on MIPS: both ends come back in registers; [p] is what the array holds. *)
Definition pipe_mips `{!KernelPipe W} (p : Z * Z) : P (Z * (Z * Z)) :=
  fun s =>
    let '(__v0, __v1, __r7, w') := q_pipe (world s) in
    if negb (__r7 =? 0) then
      let __errnovalue := __v0 in
      Ret (-1, p) (Cst (s32 __errnovalue) w' (hnd s))
    else Ret (0, (s32 __v0, s32 __v1)) (Cst (errno s) w' (hnd s)).
End Compat.

(** ** What the calls do *)

Section Facts.
Context {W H : Type} `{Abi} `{KernelCalls W}.
Implicit Types s : cst W H.

(** The kernel answers with a value that fits an [int], or with an error number. *)
Definition gives (v : Z) (r : raw) : Prop := 0 <= v < 2 ^ 31 /\ reports v r.
Definition fails (e : Z) (r : raw) : Prop := 1 <= e <= 4095 /\ reports_error e r.

Lemma s32_int v : 0 <= v < 2 ^ 31 -> s32 v = v.
Proof. intros Hv. unfold s32. rewrite Z.mod_small; lia. Qed.

Lemma sysq_gives {A} k s r (a : A) w v : k (world s) = (r, a, w) -> gives v r ->
  sysq s32 k s = Ret (v, a) (Cst (errno s) w (hnd s)).
Proof. intros Hk [Hv Hr]. unfold sysq. by rewrite Hk, (abi_ok s32 v), s32_int. Qed.

Lemma sysq_fails {A} k s r (a : A) w e : k (world s) = (r, a, w) -> fails e r ->
  sysq s32 k s = Ret (-1, a) (Cst e w (hnd s)).
Proof. intros Hk [He Hr]. unfold sysq. by rewrite Hk, (abi_err s32 e). Qed.

Lemma sys_gives n args s r w v : q_call n args (world s) = (r, w) -> gives v r ->
  sys n args s = Ret v (Cst (errno s) w (hnd s)).
Proof. intros Hk [Hv Hr]. unfold sys, sysn. by rewrite Hk, (abi_ok s32 v), s32_int. Qed.

Lemma sys_fails n args s r w e : q_call n args (world s) = (r, w) -> fails e r ->
  sys n args s = Ret (-1) (Cst e w (hnd s)).
Proof. intros Hk [He Hr]. unfold sys, sysn. by rewrite Hk, (abi_err s32 e). Qed.

Lemma missing_no v s : 0 <= v -> missing v s = Ret false s.
Proof. intros Hv. unfold missing, bind, get_errno, ret. by rewrite (proj2 (Z.ltb_ge _ _)). Qed.

Lemma missing_err e (w : W) (h : H) : missing (-1) (Cst e w h) = Ret (e =? ENOSYS) (Cst e w h).
Proof. done. Qed.

(** The four functions that set ids, with the calls of 32 and 16 bits they make. *)
Inductive set_call : nr -> nr -> list Z -> M (cst W H) Z -> Prop :=
  | set_fsgid g : set_call NR_setfsgid32 NR_setfsgid [g] (sys_setfsgid32 g)
  | set_fsuid u : set_call NR_setfsuid32 NR_setfsuid [u] (sys_setfsuid32 u)
  | set_resgid (r e s : Z) : set_call NR_setresgid32 NR_setresgid [r; e; s] (sys_setresgid32 r e s)
  | set_resuid (r e s : Z) : set_call NR_setresuid32 NR_setresuid [r; e; s] (sys_setresuid32 r e s).

Lemma too_big_spec i : too_big i = (2 ^ 16 <=? u32 i).
Proof.
  assert (Hi : 0 <= u32 i < 2 ^ 32) by (apply Z.mod_pos_bound; lia). unfold too_big. set (x := u32 i) in *.
  change (2 ^ 32 - 1 - 0xFFFF) with (Z.shiftl (Z.ones 16) 16).
  assert (E : Z.land x (Z.shiftl (Z.ones 16) 16) = Z.shiftl (x / 2 ^ 16) 16).
  { apply Z.bits_inj'. intros n Hn. rewrite Z.land_spec, !Z.shiftl_spec by done.
    destruct (decide (n < 16)).
    - rewrite !(Z.testbit_neg_r _ (n - 16)) by lia. apply andb_false_r.
    - rewrite Z.div_pow2_bits by lia. replace (n - 16 + 16) with n by lia.
      destruct (decide (n < 32)); [by rewrite Z.ones_spec_low, andb_true_r by lia|].
      rewrite Z.ones_spec_high by lia. rewrite andb_false_r. symmetry. apply Z.bits_above_log2; [lia|].
      destruct (decide (x = 0)) as [->|]; [cbn; lia|]. apply Z.log2_lt_pow2; [lia|].
      apply Z.lt_le_trans with (2 ^ 32); [lia|]. apply Z.pow_le_mono_r; lia. }
  rewrite E, Z.shiftl_mul_pow2 by lia. destruct (2 ^ 16 <=? x) eqn:Ex; b2p.
  - apply negb_true_iff, Z.eqb_neq. pose proof (Z.div_le_lower_bound x (2 ^ 16) 1). lia.
  - rewrite Z.div_small by lia. done.
Qed.

Lemma set_call_runs n32 n16 args f s : set_call n32 n16 args f ->
  f s = (let! rc := sys n32 args in
         let! enosys := missing rc in
         if enosys then if existsb too_big args then ret EINVAL else sys n16 args else ret rc) s.
Proof.
  intros []; cbn [existsb]; rewrite ?orb_false_r, ?orb_assoc; done.
Qed.

(** C31. [setfsgid32], [setfsuid32], [setresgid32] and [setresuid32] on a kernel that
    has the call of 32 bits do just that.  On one that has not, they make the call
    of 16 bits when all ids fit; an id that does not, and that includes -1 for "leave
    unchanged", makes them return the positive number EINVAL, with ENOSYS in the
    error number, and nothing is called. *)
Theorem set_ids_fallback n32 n16 args f s r w : set_call n32 n16 args f -> q_call n32 args (world s) = (r, w) ->
  (forall v, gives v r -> f s = Ret v (Cst (errno s) w (hnd s))) /\
  (forall e, fails e r -> e <> ENOSYS -> f s = Ret (-1) (Cst e w (hnd s))) /\
  (fails ENOSYS r ->
     (Forall (fun i => u32 i < 2 ^ 16) args -> f s = sys n16 args (Cst ENOSYS w (hnd s))) /\
     (Exists (fun i => 2 ^ 16 <= u32 i) args -> f s = Ret EINVAL (Cst ENOSYS w (hnd s)))).
Proof.
  intros Hf Hq. rewrite (set_call_runs _ _ _ _ s Hf). unfold bind. split_and!.
  - intros v Hv. rewrite (sys_gives _ _ _ _ _ v Hq Hv). by rewrite missing_no by apply Hv.
  - intros e He Hn. rewrite (sys_fails _ _ _ _ _ e Hq He), missing_err. by rewrite (proj2 (Z.eqb_neq _ _) Hn).
  - intros He. rewrite (sys_fails _ _ _ _ _ _ Hq He), missing_err. cbn [Z.eqb Pos.eqb ENOSYS]. split; intros Hi.
    + assert (E : existsb too_big args = false); [|by rewrite E].
      apply not_true_iff_false. rewrite existsb_exists. intros (i & Hin & Ht). rewrite too_big_spec in Ht. b2p.
      rewrite Forall_forall in Hi. specialize (Hi i (proj2 (list_elem_of_In _ _) Hin)). lia.
    + assert (E : existsb too_big args = true); [|by rewrite E].
      apply existsb_exists. apply Exists_exists in Hi as (i & Hin & Ht). exists i.
      rewrite too_big_spec. split; [by apply list_elem_of_In|by apply Z.leb_le].
Qed.
(** The two functions that return ids. *)
Inductive get_call : nr_ids -> nr_ids -> (bool -> ids -> M (cst W H) (Z * ids)) -> Prop :=
  | get_resgid : get_call NR_getresgid32 NR_getresgid sys_getresgid32
  | get_resuid : get_call NR_getresuid32 NR_getresuid sys_getresuid32.

Lemma get_call_runs n32 n16 f big p s : get_call n32 n16 f ->
  f big p s = (let! (rc, d) := sysq s32 (q_ids n32) in
               let p := store_id store32 p d in
               let! enosys := missing rc in
               if enosys then
                 if has_null p then ret (EFAULT, p)
                 else
                   let p := (Some 0, Some 0, Some 0) in
                   let! (rc, d) := sysq s32 (q_ids n16) in
                   ret (rc, store_id (store16 big) p d)
               else ret (rc, p)) s.
Proof. by intros []. Qed.

Lemma store16_zero big a : store16 big 0 a = if big then u16 a * 2 ^ 16 else u16 a.
Proof. unfold store16. rewrite Z.mod_0_l by lia. destruct big; lia. Qed.

(** C32. [getresgid32] and [getresuid32] store the ids of the call of 32 bits, or,
    on a kernel without it, those of the call of 16 bits; but on a processor with
    the most significant byte first these end up in the upper half of each id.  A
    null pointer makes them return the positive number EFAULT instead. *)
Theorem get_ids_fallback n32 n16 f big p s r d w : get_call n32 n16 f -> q_ids n32 (world s) = (r, d, w) ->
  (forall v, gives v r -> f big p s = Ret (v, store_id store32 p d) (Cst (errno s) w (hnd s))) /\
  (fails ENOSYS r -> d = None -> has_null p = true -> f big p s = Ret (EFAULT, p) (Cst ENOSYS w (hnd s))) /\
  (fails ENOSYS r -> d = None -> has_null p = false ->
     forall r2 a b c w2, q_ids n16 w = (r2, Some (a, b, c), w2) -> gives 0 r2 ->
     f big p s = Ret (0, if big then (Some (u16 a * 2 ^ 16), Some (u16 b * 2 ^ 16), Some (u16 c * 2 ^ 16))
                         else (Some (u16 a), Some (u16 b), Some (u16 c))) (Cst ENOSYS w2 (hnd s))).
Proof.
  intros Hf Hq. rewrite (get_call_runs _ _ _ big p s Hf). unfold bind. split_and!.
  - intros v Hv. rewrite (sysq_gives _ _ _ _ _ v Hq Hv). by rewrite missing_no by apply Hv.
  - intros He -> Hn. rewrite (sysq_fails _ _ _ _ _ _ Hq He), missing_err. cbn. by rewrite Hn.
  - intros He -> Hn r2 a b c w2 H2 Hv. rewrite (sysq_fails _ _ _ _ _ _ Hq He), missing_err. cbn. rewrite Hn.
    rewrite (sysq_gives _ (Cst ENOSYS w (hnd s)) _ _ _ 0 H2 Hv). unfold ret. cbn [store_id option_map fst snd errno hnd].
    rewrite !store16_zero. by destruct big.
Qed.

(** C33. [sigaction] where the kernel may have only the old call.  With the new one
    it installs the action, on i386 with a restorer, and reports what the kernel
    does.  Without it, it makes the old call with the first word of the mask and
    the error number of the caller; the old action comes back with handler, flags,
    restorer and first word of mask as the kernel gave them, but with the further
    words of the mask of the action that is being installed (zeros, if none is). *)
Theorem sigaction_fallback i386 restore_rt restore words ooa signum act oldact s r d w :
  q_rt_sigaction signum (option_map (with_restorer i386 restore_rt restore) act) (is_ptr oldact) (world s) = (r, d, w) ->
  let run := sys_sigaction_old i386 restore_rt restore words ooa signum act oldact s in
  (forall v, gives v r -> run = Ret (v, stored oldact d) (Cst (errno s) w (hnd s))) /\
  (forall e, fails e r -> e <> ENOSYS -> run = Ret (-1, stored oldact d) (Cst e w (hnd s))) /\
  (fails ENOSYS r -> d = None ->
     forall r2 o w2, q_sigaction signum (option_map old_of act) (is_ptr oldact) w = (r2, o, w2) ->
     (forall e, fails e r2 -> run = Ret (-1, oldact) (Cst e w2 (hnd s))) /\
     (forall a, gives 0 r2 -> o = Some a ->
        run = Ret (0, match oldact with
                      | Some _ => Some (Sigaction (old_handler_ a) (old_flags a) (old_restorer a)
                          (<[0%nat := old_mask a]> (match act with Some n => sa_mask n | None => replicate words 0 end)))
                      | None => None
                      end) (Cst (errno s) w2 (hnd s)))).
Proof.
  intros Hq. cbv zeta. unfold sys_sigaction_old, bind, get_errno. split_and!.
  - intros v Hv. rewrite (sysq_gives _ _ _ _ _ v Hq Hv). by rewrite missing_no by apply Hv.
  - intros e He Hn. rewrite (sysq_fails _ _ _ _ _ e Hq He), missing_err. by rewrite (proj2 (Z.eqb_neq _ _) Hn).
  - intros He -> r2 o w2 H2. rewrite (sysq_fails _ _ _ _ _ _ Hq He), missing_err. cbn [Z.eqb Pos.eqb ENOSYS].
    unfold set_errno. cbn [world hnd]. assert (E : stored oldact None = oldact) by by destruct oldact. rewrite E.
    set (s2 := Cst (errno s) w (hnd s)). split.
    + intros e He2. by rewrite (sysq_fails _ s2 _ _ _ e H2 He2).
    + intros a Hv ->. rewrite (sysq_gives _ s2 _ _ _ 0 H2 Hv). destruct oldact, act; done.
Qed.

(** The number that a kernel makes of two registers. *)
Definition joined (big : bool) (a b : Z) : Z := if big then a * 2 ^ 32 + b else b * 2 ^ 32 + a.

Lemma words_joined big off : joined big (words_of big off).1 (words_of big off).2 = u64 off.
Proof.
  assert (E : u32 off = u64 off mod 2 ^ 32).
  { unfold u32, u64. rewrite (Z.mod_eq off (2 ^ 64)) by lia.
    replace (off - 2 ^ 64 * (off / 2 ^ 64)) with (off + (- (off / 2 ^ 64) * 2 ^ 32) * 2 ^ 32) by lia.
    by rewrite Z_mod_plus_full. }
  pose proof (Z.div_mod (u64 off) (2 ^ 32)). unfold joined, words_of. destruct big; cbn [fst snd]; lia.
Qed.

(** C34. Where an offset of 64 bits takes two registers, [pread64], [pwrite64],
    [readahead] and [fallocate] pass two numbers that make the offset, whatever the
    byte order; with the padding of ARM and MIPS they start at an even register, as
    they do in [fallocate] without it. *)
Theorem wide_arguments big pad fd buf count off mode len : exists a b a' b',
  joined big a b = u64 off /\ joined big a' b' = u64 len /\
  (exists pre, (pad = true -> Nat.even (length pre) = true) /\
     sys_pread64 big pad fd buf count off = sysn (W := W) (H := H) s64 (q_call NR_pread64 (pre ++ [a; b])) /\
     sys_pwrite64 big pad fd buf count off = sysn (W := W) (H := H) s64 (q_call NR_pwrite64 (pre ++ [a; b]))) /\
  (exists pre, (pad = true -> Nat.even (length pre) = true) /\
     sys_readahead big pad fd off count = sys (W := W) (H := H) NR_readahead (pre ++ [a; b; count])) /\
  sys_fallocate big fd mode off len = sys (W := W) (H := H) NR_fallocate ([fd; mode] ++ [a; b] ++ [a'; b']).
Proof.
  exists (words_of big off).1, (words_of big off).2, (words_of big len).1, (words_of big len).2.
  split; [apply words_joined|]. split; [apply words_joined|]. split_and!.
  - exists ([fd; buf; count] ++ LSS_LLARG_PAD pad). split; [by intros ->|]. by destruct pad.
  - exists ([fd] ++ LSS_LLARG_PAD pad). split; [by intros ->|]. by destruct pad.
  - done.
Qed.

(** [mmap] refuses an offset inside a page; otherwise the kernel finds the offset
    again if it is below 16 TB (with longs of 32 bits). *)
Theorem mmap_pages (s l p f d o : Z) (st : cst W H) : 0 <= o -> long_bits = 32 ->
  (o mod 4096 <> 0 -> sys_mmap s l p f d o st = Ret (2 ^ 32 - 1) (Cst EINVAL (world st) (hnd st))) /\
  (o mod 4096 = 0 -> exists page, sys_mmap s l p f d o st = sysn to_pointer (q_call NR_mmap2 [s; l; p; f; d; page]) st /\
     (u32 page * 4096 = o <-> o < 2 ^ 44)).
Proof.
  intros Ho Hb. unfold sys_mmap. rewrite Z.rem_mod_nonneg by lia. split; intros Hm.
  - rewrite (proj2 (Z.eqb_neq _ _)) by done. cbn [negb]. unfold to_pointer, bind, set_errno, ret. by rewrite Hb.
  - rewrite Hm. cbn [negb Z.eqb]. eexists. split; [reflexivity|]. rewrite Z.quot_div_nonneg by lia.
    unfold to_off_t. rewrite Hb. change (32 - 1) with 31. unfold u32.
    rewrite Zminus_mod_idemp_l. replace (o / 4096 + 2 ^ 31 - 2 ^ 31) with (o / 4096) by lia.
    pose proof (Z.div_mod o 4096). pose proof (Z.mod_pos_bound (o / 4096) (2 ^ 32)).
    assert (Hd : 0 <= o / 4096) by (apply Z.div_pos; lia). split; intros; [lia|].
    rewrite Z.mod_small; lia.
Qed.

(** The timeout of [ppoll] is that of [poll]. *)
Lemma timeout_exact t : match timeout_ts t with
  | Some (sec, nsec) => 0 <= t /\ sec * 1000000000 + nsec = t * 1000000 /\ 0 <= nsec < 1000000000
  | None => t < 0
  end.
Proof.
  unfold timeout_ts. destruct (0 <=? t) eqn:E; b2p; [|done].
  rewrite Z.quot_div_nonneg, Z.rem_mod_nonneg by lia. pose proof (Z.div_mod t 1000). pose proof (Z.mod_pos_bound t 1000). lia.
Qed.
End Facts.

(** ** An old kernel for i386: it has the older calls only, and logs them *)

Module OldKernel.

#[export] Instance i386 : Abi := neg_abi 32 (or_introl eq_refl).

Definition log := list (nr * list Z).
Definition enosys : raw := Raw (-38) 0.
Definition is_new (n : nr) : bool :=
  match n with
  | NR_setfsgid32 | NR_setfsuid32 | NR_setresgid32 | NR_setresuid32 | NR_rt_sigsuspend => true
  | _ => false
  end.

#[export] Instance old_kernel : KernelCalls log := {
  q_call n args w := if is_new n then (enosys, w) else (Raw 0 0, (n, args) :: w);
  q_ids n w :=
    match n with
    | NR_getresgid | NR_getresuid => (Raw 0 0, Some (1000, 1001, 1002), w)
    | _ => (enosys, None, w)
    end;
  q_rt_sigaction _ _ _ w := (enosys, None, w);
  q_sigaction _ _ _ w := (Raw 0 0, Some (OldSigaction 7 6 5 4), w);
  q_rt_sigpending w := (enosys, None, w);
  q_sigpending w := (Raw 0 0, Some 2, w);
  q_socketcall op args w := (Raw 3 0, w);
  q_ppoll _ _ _ w := (Raw 0 0, w) }.

Lemma enosys_fails : fails ENOSYS enosys.
Proof. split; [by compute|done]. Qed.
Lemma zero_gives : gives 0 (Raw 0 0).
Proof. split; [by compute|by compute]. Qed.

Definition start : cst log unit := Cst 5 [] tt.

Lemma set_ids_fallback_witness :
  sys_setresgid32 100 200 300 start = Ret 0 (Cst ENOSYS [(NR_setresgid, [100; 200; 300])] tt) /\
  sys_setresgid32 (-1) 200 300 start = Ret 22 (Cst ENOSYS [] tt).
Proof.
  split.
  - destruct (set_ids_fallback (H1 := old_kernel) NR_setresgid32 NR_setresgid [100; 200; 300] (sys_setresgid32 100 200 300)
      start enosys [] (set_resgid 100 200 300) eq_refl) as (_ & _ & Hf).
    exact (proj1 (Hf enosys_fails) ltac:(by_compute)).
  - destruct (set_ids_fallback (H1 := old_kernel) NR_setresgid32 NR_setresgid [-1; 200; 300] (sys_setresgid32 (-1) 200 300)
      start enosys [] (set_resgid (-1) 200 300) eq_refl) as (_ & _ & Hf).
    exact (proj2 (Hf enosys_fails) ltac:(by_compute)).
Defined.

Lemma get_ids_fallback_witness :
  sys_getresuid32 false (Some 9, Some 9, Some 9) start = Ret (0, (Some 1000, Some 1001, Some 1002)) (Cst ENOSYS [] tt) /\
  sys_getresuid32 true (Some 9, Some 9, Some 9) start =
    Ret (0, (Some 65536000, Some 65601536, Some 65667072)) (Cst ENOSYS [] tt) /\
  sys_getresuid32 false (None, Some 9, Some 9) start = Ret (14, (None, Some 9, Some 9)) (Cst ENOSYS [] tt).
Proof.
  split; [|split].
  - apply (get_ids_fallback (H1 := old_kernel) NR_getresuid32 NR_getresuid sys_getresuid32 false (Some 9, Some 9, Some 9) start enosys None []
      get_resuid eq_refl) with (r2 := Raw 0 0) (a := 1000) (b := 1001) (c := 1002);
      [exact enosys_fails|reflexivity..|exact zero_gives].
  - apply (get_ids_fallback (H1 := old_kernel) NR_getresuid32 NR_getresuid sys_getresuid32 true (Some 9, Some 9, Some 9) start enosys None []
      get_resuid eq_refl) with (r2 := Raw 0 0) (a := 1000) (b := 1001) (c := 1002);
      [exact enosys_fails|reflexivity..|exact zero_gives].
  - apply (get_ids_fallback (H1 := old_kernel) NR_getresuid32 NR_getresuid sys_getresuid32 false (None, Some 9, Some 9) start enosys None []
      get_resuid eq_refl); [exact enosys_fails|reflexivity..].
Defined.

(** Installing an action with the mask (1, 2): the old action comes back with the
    mask (6, 2), although the kernel said 6 and knows no second word. *)
Lemma sigaction_fallback_witness :
  sys_sigaction_old true 1 2 2 (OldSigaction 0 0 0 0) 11 (Some (Sigaction 3 0 0 [1; 2])) (Some (Sigaction 9 9 9 [9; 9])) start =
  Ret (0, Some (Sigaction 7 5 4 [6; 2])) (Cst 5 [] tt).
Proof.
  apply (sigaction_fallback (H1 := old_kernel) true 1 2 2 (OldSigaction 0 0 0 0) 11 (Some (Sigaction 3 0 0 [1; 2]))
    (Some (Sigaction 9 9 9 [9; 9])) start enosys None [] eq_refl) with (r2 := Raw 0 0) (o := Some (OldSigaction 7 6 5 4))
    (w2 := []) (a := OldSigaction 7 6 5 4); [exact enosys_fails|reflexivity..|exact zero_gives|reflexivity].
Defined.

Lemma mmap_pages_witness :
  sys_mmap 0 4096 1 2 3 5 start = Ret (2 ^ 32 - 1) (Cst EINVAL [] tt) /\
  exists page, sys_mmap 0 4096 1 2 3 8192 start = sysn to_pointer (q_call NR_mmap2 [0; 4096; 1; 2; 3; page]) start /\
    u32 page * 4096 = 8192.
Proof.
  split; [by apply (mmap_pages (H0 := i386) (H1 := old_kernel) 0 4096 1 2 3 5 start)|].
  destruct (proj2 (mmap_pages (H0 := i386) (H1 := old_kernel) 0 4096 1 2 3 8192 start ltac:(lia) eq_refl) eq_refl) as (page & H1 & H2).
  exists page. split; [exact H1|by apply H2].
Defined.
End OldKernel.
