(* ===== verification/KernelSpec.v ===== *)
(** What the kernel documents about the calls the program makes, as classes:
    the theorems of the other files are proved against these interfaces, and
    [ToyKernel] is an instance of all of them.

    - [OutFile W out]: the file open on descriptor [out]; [sink] is what has been
      written to it so far.
    - [Interrupts W]: calls fail with EINTR only finitely often; the range of
      the results of open, close and fcntl.
    - [WriteReady W out]: a write to [out] that is not interrupted accepts at
      least one byte.
    - [Files W]: opening and reading files and pipes; [unread] is what is still
      to be read from a descriptor.
    - [AuxvWhole W]: 16-byte reads are not cut short.
    - [ReadReady W]: reads of open descriptors fail only by being interrupted. *)
From S2P Require Import Prelude Syscall.

(** The kernel's error results. *)
Definition is_err (r : Z) : Prop := -4095 <= r <= -1.

(** The largest object size, PTRDIFF_MAX. *)
Definition SSIZE_LIM : Z := 2 ^ 63.

Class OutFile (W : Type) `{KernelIO W} `{AddressSpace} (out : Z) := {
  sink : W -> list Z;
  k_write_out : forall p n w r u w', 0 <= n -> k_write out p n w = (r, u, w') ->
    (is_err r /\ sink w' = sink w) \/
    (0 <= r <= n /\ sink w' = sink w ++ ztake r (content p n));
  k_write_other : forall fd p n w r u w', fd <> out -> k_write fd p n w = (r, u, w') ->
    sink w' = sink w;
  k_read_sink : forall fd n w r d w', k_read fd n w = (r, d, w') -> sink w' = sink w;
  k_open_sink : forall p f m w r u w', k_open p f m w = (r, u, w') -> sink w' = sink w;
  k_open_fresh : forall p f m w r u w', k_open p f m w = (r, u, w') -> 0 <= r -> s32 r <> out;
  k_close_sink : forall fd w r u w', fd <> out -> k_close fd w = (r, u, w') -> sink w' = sink w;
  k_pipe_sink : forall w r p w', k_pipe w = (r, p, w') -> sink w' = sink w;
  k_fcntl_sink : forall fd c a w r u w', k_fcntl fd c a w = (r, u, w') -> sink w' = sink w;
}.

Class Interrupts (W : Type) `{KernelIO W} := {
  intr : W -> nat;
  k_read_intr : forall fd n w r d w', k_read fd n w = (r, d, w') ->
    (intr w' <= intr w)%nat /\ (r = - EINTR -> (intr w' < intr w)%nat);
  k_write_intr : forall fd p n w r u w', k_write fd p n w = (r, u, w') ->
    (intr w' <= intr w)%nat /\ (r = - EINTR -> (intr w' < intr w)%nat);
  k_open_intr : forall p f m w r u w', k_open p f m w = (r, u, w') ->
    (intr w' <= intr w)%nat /\ (r = - EINTR -> (intr w' < intr w)%nat);
  k_close_intr : forall fd w r u w', k_close fd w = (r, u, w') ->
    (intr w' <= intr w)%nat /\ (r = - EINTR -> (intr w' < intr w)%nat);
  k_fcntl_intr : forall fd c a w r u w', k_fcntl fd c a w = (r, u, w') ->
    (intr w' <= intr w)%nat /\ (r = - EINTR -> (intr w' < intr w)%nat);
  k_pipe_intr : forall w r p w', k_pipe w = (r, p, w') -> (intr w' <= intr w)%nat;
  k_open_range : forall p f m w r u w', k_open p f m w = (r, u, w') -> is_err r \/ 0 <= r < 2 ^ 31;
  k_fcntl_range : forall fd c a w r u w', k_fcntl fd c a w = (r, u, w') -> is_err r \/ 0 <= r < 2 ^ 31;
  k_close_range : forall fd w r u w', k_close fd w = (r, u, w') -> is_err r \/ r = 0;
}.

Class WriteReady (W : Type) `{KernelIO W} (out : Z) :=
  k_write_ready : forall p n w r u w', 0 < n -> k_write out p n w = (r, u, w') ->
    r = - EINTR \/ 0 < r.

Class Files (W : Type) `{KernelIO W} `{AddressSpace} := {
  unread : W -> Z -> list Z;
  rd_open : W -> Z -> Prop;
  pipe_of : W -> Z -> option Z;     (* from the write end of a pipe to its read end *)
  slots : W -> nat;                 (* descriptors that can still be opened *)
  has_file : string -> Prop;
  file_bytes : string -> list Z;
  k_read_in : forall fd n w r d w', rd_open w fd -> 0 < n -> k_read fd n w = (r, d, w') ->
    (is_err r /\ unread w' fd = unread w fd) \/
    (0 <= r <= n /\ d = ztake r (unread w fd) /\ zlen d = r /\
     unread w' fd = zdrop r (unread w fd) /\ (r = 0 -> unread w fd = []));
  k_read_frame : forall fd n w r d w', k_read fd n w = (r, d, w') ->
    (forall f, f <> fd -> unread w' f = unread w f) /\
    (forall f, rd_open w f -> rd_open w' f) /\ (forall f, pipe_of w' f = pipe_of w f) /\
    (slots w <= slots w')%nat;
  k_write_frame : forall fd p n w r u w', k_write fd p n w = (r, u, w') ->
    (forall f, pipe_of w fd <> Some f -> unread w' f = unread w f) /\
    (forall f, rd_open w f -> rd_open w' f) /\ (forall f, pipe_of w' f = pipe_of w f) /\
    (slots w <= slots w')%nat;
  k_open_in : forall p m w r u w', k_open p O_RDONLY m w = (r, u, w') -> 0 <= r ->
    ~ rd_open w r /\ rd_open w' r /\ unread w' r = file_bytes p /\ r < 2 ^ 31 /\
    (forall f, pipe_of w f <> Some r);
  k_open_ok : forall p m w r u w', has_file p -> (0 < slots w)%nat ->
    k_open p O_RDONLY m w = (r, u, w') -> r = - EINTR \/ 0 <= r;
  k_open_frame : forall p f m w r u w', k_open p f m w = (r, u, w') ->
    (forall f, (0 <= r -> f <> r) -> unread w' f = unread w f) /\
    (forall f, rd_open w f -> rd_open w' f) /\ (forall f, pipe_of w' f = pipe_of w f) /\
    (r < 0 -> (slots w <= slots w')%nat) /\ (slots w <= S (slots w'))%nat;
  k_close_frame : forall fd w r u w', k_close fd w = (r, u, w') ->
    (forall f, f <> fd -> unread w' f = unread w f) /\
    (forall f, f <> fd -> rd_open w f -> rd_open w' f) /\ (forall f, pipe_of w' f = pipe_of w f) /\
    (slots w <= slots w')%nat;
  k_fcntl_frame : forall fd c a w r u w', k_fcntl fd c a w = (r, u, w') ->
    (forall f, unread w' f = unread w f) /\
    (forall f, rd_open w f -> rd_open w' f) /\ (forall f, pipe_of w' f = pipe_of w f) /\
    (slots w <= slots w')%nat;
}.

Class ReadReady (W : Type) `{Files W} :=
  k_read_ready : forall fd n w r d w', rd_open w fd -> 0 < n -> k_read fd n w = (r, d, w') ->
    r = - EINTR \/ 0 <= r.

(** Reading an auxv entry returns all of it if it is there. *)
Class AuxvWhole (W : Type) `{Files W} :=
  k_read_whole : forall fd w r d w', rd_open w fd -> k_read fd 16 w = (r, d, w') -> 0 <= r ->
    r = Z.min 16 (zlen (unread w fd)).

(** The calls leave every descriptor but [fd] as it was. *)
Definition rd_frame {W} `{Files W} (fd : Z) (w w' : W) : Prop :=
  (forall f, f <> fd -> unread w' f = unread w f) /\
  (forall f, rd_open w f -> rd_open w' f) /\ (forall f, pipe_of w' f = pipe_of w f) /\
  (slots w <= slots w')%nat.

Lemma rd_frame_refl {W} `{Files W} fd w : rd_frame fd w w.
Proof. by split_and!. Qed.

Lemma rd_frame_trans {W} `{Files W} fd w1 w2 w3 :
  rd_frame fd w1 w2 -> rd_frame fd w2 w3 -> rd_frame fd w1 w3.
Proof.
  intros (A1 & A2 & A3 & A4) (B1 & B2 & B3 & B4). split_and!; auto; try lia; intros f.
  - intros Hf. by rewrite B1, A1.
  - by rewrite B3, A3.
Qed.

(** Nothing that can be read has changed. *)
Definition reads_same {W} `{Files W} (w w' : W) : Prop :=
  (forall f, unread w' f = unread w f) /\
  (forall f, rd_open w f -> rd_open w' f) /\ (forall f, pipe_of w' f = pipe_of w f) /\
  (slots w <= slots w')%nat.

#[export] Instance reads_same_preorder {W} `{Files W} : PreOrder reads_same.
Proof.
  split.
  - intros w. by split_and!.
  - intros w1 w2 w3 (A1 & A2 & A3 & A4) (B1 & B2 & B3 & B4).
    split_and!; auto; try lia; intros f; [by rewrite B1, A1|by rewrite B3, A3].
Qed.

#[export] Hint Resolve rd_frame_refl rd_frame_trans : coredump.

(** ** Raw results *)

Lemma s32_small x : - 2 ^ 31 <= x < 2 ^ 31 -> s32 x = x.
Proof. intros. unfold s32. rewrite Z.mod_small; lia. Qed.

Lemma s64_small x : - 2 ^ 63 <= x < 2 ^ 63 -> s64 x = x.
Proof. intros. unfold s64. rewrite Z.mod_small; lia. Qed.

Lemma u64_small x : 0 <= x < 2 ^ 64 -> u64 x = x.
Proof. intros. unfold u64. by rewrite Z.mod_small. Qed.

(** An error result becomes -1 and its number goes to errno. *)
Lemma LSS_RETURN_err cast r e : is_err r -> LSS_RETURN cast r e = (cast (-1), - r).
Proof.
  unfold is_err, LSS_RETURN, u64. intros Hr.
  replace (r mod 2 ^ 64) with (r + 2 ^ 64).
  2:{ symmetry. rewrite <- (Z_mod_plus_full r 1), Z.mul_1_l. apply Z.mod_small. lia. }
  replace (-4095 mod 2 ^ 64) with (-4095 + 2 ^ 64) by reflexivity.
  destruct (_ <=? _) eqn:E; [|b2p; lia]. f_equal. apply s32_small. lia.
Qed.

(** Any other result in the range of the return type is kept, and errno too. *)
Lemma LSS_RETURN_ok cast r e : 0 <= r < 2 ^ 63 -> LSS_RETURN cast r e = (cast r, e).
Proof.
  unfold LSS_RETURN. intros Hr. rewrite (u64_small r) by lia.
  change (u64 (-4095)) with (2 ^ 64 - 4095).
  destruct (_ <=? _) eqn:E; [b2p; lia|done].
Qed.

(** ** Pointers *)

Definition ptr_ok (p : ptr) : Prop :=
  match p with PLocal _ off => 0 <= off | PMem _ => True end.

Section Content.
Context `{AddressSpace}.

Lemma length_peek_bytes a n : length (peek_bytes a n) = n.
Proof. revert a. induction n as [|n IH]; intros a; simpl; auto. Qed.

Lemma peek_bytes_app a n m :
  peek_bytes a (n + m) = peek_bytes a n ++ peek_bytes (a + Z.of_nat n) m.
Proof.
  revert a. induction n as [|n IH]; intros a; cbn [Nat.add peek_bytes app].
  - f_equal. lia.
  - rewrite IH. do 3 f_equal. lia.
Qed.

Lemma drop_peek_bytes a n k :
  drop k (peek_bytes a n) = peek_bytes (a + Z.of_nat k) (n - k).
Proof.
  destruct (decide (k <= n)%nat) as [Hk|Hk].
  - replace n with (k + (n - k))%nat at 1 by lia. rewrite peek_bytes_app.
    apply drop_app_length'. by rewrite length_peek_bytes.
  - rewrite drop_ge by (rewrite length_peek_bytes; lia).
    by replace (n - k)%nat with 0%nat by lia.
Qed.

(** Advancing the pointer drops the bytes passed over. *)
Lemma content_advance p n r : ptr_ok p -> 0 <= r <= n ->
  content (ptr_add p r) (n - r) = zdrop r (content p n).
Proof.
  destruct p as [l off|a]; cbn [ptr_ok ptr_add content]; intros Hp Hr.
  - unfold slice, ztake, zdrop.
    rewrite skipn_firstn_comm, drop_drop. f_equal; [lia|]. f_equal. lia.
  - unfold zdrop. rewrite drop_peek_bytes. f_equal; lia.
Qed.

Lemma ptr_ok_add p r : ptr_ok p -> 0 <= r -> ptr_ok (ptr_add p r).
Proof. destruct p; simpl; [lia|done]. Qed.

Lemma content_local l : content (local l) (zlen l) = l.
Proof. unfold content, local, slice. rewrite zdrop_0. apply ztake_all. lia. Qed.

Lemma zlen_content_le p n : 0 <= n -> zlen (content p n) <= n.
Proof.
  intros. destruct p as [l off|a]; cbn; unfold zlen.
  - unfold slice, ztake. rewrite length_take. lia.
  - rewrite length_peek_bytes. lia.
Qed.

Lemma zlen_content_mem a n : 0 <= n -> zlen (content (PMem a) n) = n.
Proof. intros. unfold zlen, content. rewrite length_peek_bytes. lia. Qed.
End Content.

(** ** Loop rules *)

Section LoopRules.
Context {W H A : Type}.
Implicit Types s : cst W H.

Lemma wlp_MY_NO_INTR (I : cst W H -> Prop) (Q : Z * A * Z -> cst W H -> Prop) X fuel
    (fn : Z -> M (cst W H) (Z * A * Z)) my s :
  (forall my s, I s -> wlp (fn my) (fun r s' =>
     (r.1.1 < 0 -> r.2 = EINTR -> I s') /\ (~ (r.1.1 < 0 /\ r.2 = EINTR) -> Q r s')) X s) ->
  I s -> wlp (MY_NO_INTR fuel fn my) Q X s.
Proof.
  intros Hfn. revert my s. induction fuel as [|fuel IH]; intros my s Hs; [done|].
  cbn [MY_NO_INTR]. wp_step. eapply wlp_mono; [by apply Hfn| |done].
  intros [[rc a] e] s' [H1 H2]; cbn in *.
  destruct (_ && _)%bool eqn:E; b2p.
  - apply IH. auto.
  - apply wlp_ret, H2. lia.
Qed.

Lemma wp_MY_NO_INTR (I : cst W H -> Prop) (mu : cst W H -> nat)
    (Q : Z * A * Z -> cst W H -> Prop) fuel (fn : Z -> M (cst W H) (Z * A * Z)) my s :
  (forall my s, I s -> wp (fn my) (fun r s' =>
     (r.1.1 < 0 -> r.2 = EINTR -> I s' /\ (mu s' < mu s)%nat) /\
     (~ (r.1.1 < 0 /\ r.2 = EINTR) -> Q r s')) s) ->
  I s -> (mu s < fuel)%nat -> wp (MY_NO_INTR fuel fn my) Q s.
Proof.
  intros Hfn. revert my s. induction fuel as [|fuel IH]; intros my s Hs Hmu; [lia|].
  cbn [MY_NO_INTR]. wp_step. eapply wp_mono; [by apply Hfn|].
  intros [[rc a] e] s' [H1 H2]; cbn in *.
  destruct (_ && _)%bool eqn:E; b2p.
  - destruct H1 as [??]; auto. apply IH; [done|lia].
  - apply wp_ret, H2. lia.
Qed.

Lemma wlp_NO_INTR_on (I : cst W H -> Prop) (Q : A -> cst W H -> Prop) X (rc_of : A -> Z) fuel
    (fn : M (cst W H) A) s :
  (forall s, I s -> wlp fn (fun a s' =>
     (rc_of a < 0 -> errno s' = EINTR -> I s') /\
     (~ (rc_of a < 0 /\ errno s' = EINTR) -> Q a s')) X s) ->
  I s -> wlp (NO_INTR_on rc_of fuel fn) Q X s.
Proof.
  intros Hfn. revert s. induction fuel as [|fuel IH]; intros s Hs; [done|].
  cbn [NO_INTR_on]. wp_step. eapply wlp_mono; [by apply Hfn| |done].
  intros a s' [H1 H2]. wp_step. unfold get_errno, wlp at 1.
  destruct (_ && _)%bool eqn:E; b2p.
  - apply IH. auto.
  - apply wlp_ret, H2. lia.
Qed.

Lemma wp_NO_INTR_on (I : cst W H -> Prop) (mu : cst W H -> nat) (Q : A -> cst W H -> Prop)
    (rc_of : A -> Z) fuel (fn : M (cst W H) A) s :
  (forall s, I s -> wp fn (fun a s' =>
     (rc_of a < 0 -> errno s' = EINTR -> I s' /\ (mu s' < mu s)%nat) /\
     (~ (rc_of a < 0 /\ errno s' = EINTR) -> Q a s')) s) ->
  I s -> (mu s < fuel)%nat -> wp (NO_INTR_on rc_of fuel fn) Q s.
Proof.
  intros Hfn. revert s. induction fuel as [|fuel IH]; intros s Hs Hmu; [lia|].
  cbn [NO_INTR_on]. wp_step. eapply wp_mono; [by apply Hfn|].
  intros a s' [H1 H2]. wp_step. unfold get_errno, wp at 1.
  destruct (_ && _)%bool eqn:E; b2p.
  - destruct H1 as [??]; auto. apply IH; [done|lia].
  - apply wp_ret, H2. lia.
Qed.
End LoopRules.

(** A loop over a call without data. *)
Lemma wp_NO_INTR {W H : Type} (I : cst W H -> Prop) (mu : cst W H -> nat)
    (Q : Z -> cst W H -> Prop) fuel (k : W -> Z * unit * W) s :
  (forall s r u w', I s -> k (world s) = (r, u, w') ->
     (is_err r -> r = - EINTR -> I (Cst EINTR w' (hnd s)) /\ (mu (Cst EINTR w' (hnd s)) < mu s)%nat) /\
     (is_err r -> r <> - EINTR -> Q (-1) (Cst (- r) w' (hnd s))) /\
     (~ is_err r -> 0 <= r < 2 ^ 31 /\ Q r (Cst (errno s) w' (hnd s)))) ->
  I s -> (mu s < fuel)%nat -> wp (NO_INTR fuel (syscall_ s32 k)) Q s.
Proof.
  intros Hk. apply wp_NO_INTR_on. intros s1 HI. unfold syscall_. apply wp_bind.
  unfold wp at 1, syscall. destruct (k (world s1)) as [[r []] w'] eqn:E.
  destruct (Hk s1 r tt w' HI E) as (H1 & H2 & H3).
  assert (D : is_err r \/ ~ is_err r) by (unfold is_err; lia).
  destruct D as [D|D].
  - rewrite LSS_RETURN_err by done. apply wp_ret. cbn. split.
    + intros _ Hr. assert (Er : r = - EINTR) by lia. rewrite Hr. by apply H1.
    + intros Hn. apply H2; [done|]. intros ->. apply Hn. split; [done|]. unfold EINTR. lia.
  - destruct (H3 D) as [Hr HQ]. rewrite LSS_RETURN_ok by lia. apply wp_ret. cbn.
    rewrite s32_small by lia. split; [lia|done].
Qed.

(** A system call whose kernel part satisfies [R]. *)
Lemma wlp_syscall {W H A : Type} cast (k : W -> Z * A * W) Q X (s : cst W H) :
  (forall r a w', k (world s) = (r, a, w') ->
     Q ((LSS_RETURN cast r (errno s)).1, a)
       (Cst (LSS_RETURN cast r (errno s)).2 w' (hnd s))) ->
  wlp (syscall cast k) Q X s.
Proof.
  intros Hk. unfold wlp, syscall. destruct (k (world s)) as [[r a] w'] eqn:E.
  specialize (Hk r a w' eq_refl). by destruct (LSS_RETURN _ _ _).
Qed.

Lemma wp_syscall {W H A : Type} cast (k : W -> Z * A * W) Q (s : cst W H) :
  (forall r a w', k (world s) = (r, a, w') ->
     Q ((LSS_RETURN cast r (errno s)).1, a)
       (Cst (LSS_RETURN cast r (errno s)).2 w' (hnd s))) ->
  wp (syscall cast k) Q s.
Proof.
  intros Hk. unfold wp, syscall. destruct (k (world s)) as [[r a] w'] eqn:E.
  specialize (Hk r a w' eq_refl). by destruct (LSS_RETURN _ _ _).
Qed.

Lemma wlp_syscall0 {W H A : Type} cast (k : W -> Z * A * W) my Q X (s : cst W H) :
  (forall r a w', k (world s) = (r, a, w') ->
     Q ((LSS_RETURN cast r my).1, a, (LSS_RETURN cast r my).2) (Cst (errno s) w' (hnd s))) ->
  wlp (syscall0 cast k my) Q X s.
Proof.
  intros Hk. unfold wlp, syscall0. destruct (k (world s)) as [[r a] w'] eqn:E.
  specialize (Hk r a w' eq_refl). by destruct (LSS_RETURN _ _ _).
Qed.

Lemma wp_syscall0 {W H A : Type} cast (k : W -> Z * A * W) my Q (s : cst W H) :
  (forall r a w', k (world s) = (r, a, w') ->
     Q ((LSS_RETURN cast r my).1, a, (LSS_RETURN cast r my).2) (Cst (errno s) w' (hnd s))) ->
  wp (syscall0 cast k my) Q s.
Proof.
  intros Hk. unfold wp, syscall0. destruct (k (world s)) as [[r a] w'] eqn:E.
  specialize (Hk r a w' eq_refl). by destruct (LSS_RETURN _ _ _).
Qed.
