(* ===== verification/ToyKernel.v ===== *)
(** A small concrete kernel: every interface of [KernelSpec] holds of it, so the
    hypotheses of the theorems can be met, and the program runs on it.

    Files are given by their contents; descriptor 1 is the output file.  Reads
    and writes are interrupted [t_intr] times and then move at most [chunk]
    bytes; a write from a faulty address fails with EFAULT. *)
From S2P Require Import Prelude Syscall KernelSpec.

Record toy := Toy {
  t_unread : Z -> list Z;
  t_open : list Z;
  t_pipes : list (Z * Z);      (* write end, read end *)
  t_sink : list Z;
  t_next : Z;
  t_intr : nat }.

Definition upd {A : Type} (f : Z -> A) (k : Z) (v : A) : Z -> A :=
  fun k' => if k' =? k then v else f k'.

Fixpoint assoc (f : Z) (l : list (Z * Z)) : option Z :=
  match l with
  | [] => None
  | (a, b) :: l' => if a =? f then Some b else assoc f l'
  end.

Definition t_pipe_of (w : toy) (f : Z) : option Z := assoc f (t_pipes w).

Definition t_is_open (w : toy) (f : Z) : bool := bool_decide (f ∈ t_open w).

Lemma upd_same {A} (f : Z -> A) k v : upd f k v k = v.
Proof. unfold upd. by rewrite Z.eqb_refl. Qed.

Lemma upd_other {A} (f : Z -> A) k v k' : k' <> k -> upd f k v k' = f k'.
Proof. unfold upd. intros. destruct (_ =? _) eqn:E; [b2p; done|done]. Qed.

Lemma assoc_in f l b : assoc f l = Some b -> exists p, p ∈ l /\ p.2 = b.
Proof.
  induction l as [|[x y] l IH]; simpl; [done|]. destruct (x =? f).
  - intros [= ->]. exists (x, b). split; [left|done].
  - intros Hl. destruct (IH Hl) as (p & Hp & <-). exists p. split; [by right|done].
Qed.

Section Toy.
Context `{AddressSpace}.
Variables (files : string -> option (list Z)) (faulty : Z -> bool) (chunk : Z).

Definition toy_out : Z := 1.

Definition toy_read (fd n : Z) (w : toy) : Z * list Z * toy :=
  match t_intr w with
  | S i => (- EINTR, [], Toy (t_unread w) (t_open w) (t_pipes w) (t_sink w) (t_next w) i)
  | O =>
      if t_is_open w fd then
        let r := Z.max 0 (Z.min (Z.min n (Z.max 1 chunk)) (zlen (t_unread w fd))) in
        (r, ztake r (t_unread w fd),
         Toy (upd (t_unread w) fd (zdrop r (t_unread w fd))) (t_open w) (t_pipes w) (t_sink w) (t_next w) O)
      else (- EBADF, [], w)
  end.

Definition ptr_faulty (p : ptr) : bool :=
  match p with PLocal _ _ => false | PMem a => faulty a end.

Definition toy_write (fd : Z) (p : ptr) (n : Z) (w : toy) : Z * unit * toy :=
  match t_intr w with
  | S i => (- EINTR, tt, Toy (t_unread w) (t_open w) (t_pipes w) (t_sink w) (t_next w) i)
  | O =>
      if ptr_faulty p then (- EFAULT, tt, w)
      else
        let r := Z.max 0 (Z.min n (Z.max 1 chunk)) in
        let data := ztake r (content p n) in
        let unr := match t_pipe_of w fd with
                   | Some rd => upd (t_unread w) rd (t_unread w rd ++ data)
                   | None => t_unread w
                   end in
        let snk := if fd =? toy_out then t_sink w ++ data else t_sink w in
        (r, tt, Toy unr (t_open w) (t_pipes w) snk (t_next w) O)
  end.

(** A descriptor that is not in use. *)
Definition toy_free (w : toy) (f : Z) : bool :=
  (2 <=? f) && (f <? 1024) && negb (t_is_open w f) && forallb (fun p => negb (p.2 =? f)) (t_pipes w).

Definition toy_open (p : string) (flags mode : Z) (w : toy) : Z * unit * toy :=
  let fd := t_next w in
  match files p with
  | Some l =>
      if toy_free w fd then
        (fd, tt, Toy (upd (t_unread w) fd l) (fd :: t_open w) (t_pipes w) (t_sink w) (fd + 1) (t_intr w))
      else (-24, tt, w)
  | None => (-2, tt, w)
  end.

Definition toy_close (fd : Z) (w : toy) : Z * unit * toy :=
  if t_is_open w fd then
    (0, tt, Toy (t_unread w) (filter (fun f => f <> fd) (t_open w)) (t_pipes w) (t_sink w) (t_next w) (t_intr w))
  else (- EBADF, tt, w).

Definition toy_pipe (w : toy) : Z * (Z * Z) * toy :=
  let fd := t_next w in
  if toy_free w fd then
    (0, (fd, fd + 1),
     Toy (upd (t_unread w) fd []) (fd :: t_open w) ((fd + 1, fd) :: t_pipes w) (t_sink w) (fd + 2) (t_intr w))
  else (-24, (-1, -1), w).

#[local] Instance ToyIO : KernelIO toy := {|
  k_read := toy_read;
  k_write := toy_write;
  k_open := toy_open;
  k_close := toy_close;
  k_pipe := toy_pipe;
  k_dup f w := (- EBADF, tt, w);
  k_dup2 f g w := (- EBADF, tt, w);
  k_fcntl f c a w := (0, tt, w);
  k_poll u t w := (2, [POLLIN; POLLOUT], w) |}.

Ltac toy_cases Hk :=
  repeat match type of Hk with
  | context [match ?x with _ => _ end] => destruct x eqn:?
  end; injection Hk as <- <- <-.

#[local] Instance ToyOut : OutFile toy toy_out.
Proof.
  refine {| sink := t_sink |}; cbn [k_read k_write k_open k_close k_pipe ToyIO].
  - intros p n w r u w' Hn Hk. unfold toy_write in Hk. toy_cases Hk; cbn.
    all: try (left; unfold is_err, EINTR, EFAULT; split; [lia|done]).
    all: try (rewrite Z.eqb_refl in *; done).
    all: right; split; [lia|done].
  - intros fd p n w r u w' Hfd Hk. unfold toy_write in Hk. toy_cases Hk; cbn; try done.
    all: b2p; done.
  - intros fd n w r d w' Hk. unfold toy_read in Hk. by toy_cases Hk.
  - intros p f m w r u w' Hk. unfold toy_open in Hk. by toy_cases Hk.
  - intros p f m w r u w' Hk Hr. unfold toy_open in Hk. toy_cases Hk; try lia.
    unfold toy_free in *. b2p. rewrite s32_small by lia. unfold toy_out. lia.
  - intros fd w r u w' _ Hk. unfold toy_close in Hk. by toy_cases Hk.
  - intros w r p w' Hk. unfold toy_pipe in Hk. by toy_cases Hk.
  - intros fd c a w r u w' Hk. by toy_cases Hk.
Defined.

#[local] Instance ToyInterrupts : Interrupts toy.
Proof.
  refine {| intr := t_intr |}; cbn [k_read k_write k_open k_close k_pipe k_fcntl ToyIO].
  - intros fd n w r d w' Hk. unfold toy_read in Hk. toy_cases Hk; cbn; rewrite ?Heqn0; unfold EINTR, EBADF; split; lia.
  - intros fd p n w r d w' Hk. unfold toy_write in Hk. toy_cases Hk; cbn; rewrite ?Heqn0; unfold EINTR, EFAULT; split; lia.
  - intros p f m w r u w' Hk. unfold toy_open in Hk. toy_cases Hk; cbn; unfold EINTR; unfold toy_free in *; b2p; split; lia.
  - intros fd w r u w' Hk. unfold toy_close in Hk. toy_cases Hk; cbn; unfold EINTR, EBADF; split; lia.
  - intros fd c a w r u w' Hk. toy_cases Hk; unfold EINTR; split; lia.
  - intros w r p w' Hk. unfold toy_pipe in Hk. toy_cases Hk; cbn; lia.
  - intros p f m w r u w' Hk. unfold toy_open in Hk. unfold is_err.
    toy_cases Hk; unfold toy_free in *; b2p; lia.
  - intros fd c a w r u w' Hk. toy_cases Hk. lia.
  - intros fd w r u w' Hk. unfold toy_close in Hk. unfold is_err.
    toy_cases Hk; unfold EBADF; lia.
Defined.

Lemma toy_write_ready : (forall a, faulty a = false) -> WriteReady toy toy_out.
Proof.
  intros Hnf p n w r u w' Hn Hk. cbn [k_write ToyIO] in Hk. unfold toy_write in Hk. toy_cases Hk.
  all: try (left; reflexivity). all: try (right; lia).
  all: unfold ptr_faulty in *; destruct p; [done|congruence].
Qed.

Lemma toy_free_pipe w f g : toy_free w f = true -> t_pipe_of w g <> Some f.
Proof.
  unfold toy_free, t_pipe_of. intros Hf Hp. b2p.
  destruct (assoc_in _ _ _ Hp) as (p & Hin & Hp2).
  assert (Hall : forallb (fun p => negb (p.2 =? f)) (t_pipes w) = true) by done.
  rewrite forallb_forall in Hall. specialize (Hall p).
  rewrite Hp2, Z.eqb_refl in Hall. cbn in Hall. apply list_elem_of_In in Hin. by apply Hall in Hin.
Qed.

(** All descriptors from [t_next] on are free. *)
Definition toy_slots (w : toy) : nat :=
  if (2 <=? t_next w) && forallb (fun f => f <? t_next w) (t_open w) &&
     forallb (fun p => p.2 <? t_next w) (t_pipes w)
  then Z.to_nat (1024 - t_next w) else 0.

Lemma toy_slots_free w : (0 < toy_slots w)%nat -> toy_free w (t_next w) = true.
Proof.
  unfold toy_slots, toy_free, t_is_open. destruct (_ && _)%bool eqn:E; [|lia]. intros Hs.
  b2p. repeat (apply andb_true_iff; split).
  - apply Z.leb_le. lia.
  - apply Z.ltb_lt. lia.
  - apply negb_true_iff, bool_decide_eq_false. intros Hin.
    assert (A : forallb (fun f => f <? t_next w) (t_open w) = true) by done.
    rewrite forallb_forall in A. apply list_elem_of_In, A in Hin. b2p. lia.
  - assert (A : forallb (fun p => p.2 <? t_next w) (t_pipes w) = true) by done.
    rewrite forallb_forall in A |- *. intros p Hp. apply A in Hp. b2p.
    apply negb_true_iff, Z.eqb_neq. lia.
Qed.

Lemma forallb_lt_mono (l : list Z) a b : a <= b ->
  forallb (fun f => f <? a) l = true -> forallb (fun f => f <? b) l = true.
Proof.
  intros Hab A. rewrite forallb_forall in A |- *. intros x Hx. apply A in Hx. b2p. lia.
Qed.

Lemma toy_slots_open w fd l : fd = t_next w ->
  (toy_slots w <= S (toy_slots (Toy (upd (t_unread w) fd l) (fd :: t_open w) (t_pipes w)
     (t_sink w) (fd + 1) (t_intr w))))%nat.
Proof.
  intros ->. unfold toy_slots. cbn [t_next t_open t_pipes forallb].
  destruct ((_ && _) && _)%bool eqn:E; [|lia]. b2p.
  replace (t_next w <? t_next w + 1) with true by (symmetry; apply Z.ltb_lt; lia).
  rewrite (forallb_lt_mono (t_open w) (t_next w)) by (done || lia).
  assert (A : forallb (fun p => p.2 <? t_next w) (t_pipes w) = true) by done.
  replace (forallb (fun p : Z * Z => p.2 <? t_next w + 1) (t_pipes w)) with true.
  2:{ symmetry. rewrite forallb_forall in A |- *. intros p Hp. apply A in Hp. b2p. lia. }
  replace (2 <=? t_next w + 1) with true by (symmetry; apply Z.leb_le; lia). cbn. lia.
Qed.

Lemma toy_slots_close w fd :
  (toy_slots w <= toy_slots (Toy (t_unread w) (filter (fun f => f <> fd) (t_open w)) (t_pipes w)
     (t_sink w) (t_next w) (t_intr w)))%nat.
Proof.
  unfold toy_slots. cbn [t_next t_open t_pipes].
  destruct ((_ && _) && _)%bool eqn:E; [|lia]. b2p.
  replace (forallb (fun f => f <? t_next w) (filter (fun f => f <> fd) (t_open w))) with true.
  2:{ symmetry. assert (A : forallb (fun f => f <? t_next w) (t_open w) = true) by done.
      rewrite forallb_forall in A |- *. intros x Hx. apply A.
      apply list_elem_of_In. apply list_elem_of_In, list_elem_of_filter in Hx. apply Hx. }
  replace (forallb (fun p : Z * Z => p.2 <? t_next w) (t_pipes w)) with true by done.
  replace (2 <=? t_next w) with true by (symmetry; apply Z.leb_le; lia). done.
Qed.

#[local] Instance ToyFiles : Files toy.
Proof.
  refine {| unread := t_unread; rd_open w f := t_is_open w f = true; pipe_of := t_pipe_of;
            slots := toy_slots; has_file p := files p <> None;
            file_bytes p := default [] (files p) |};
    cbn [k_read k_write k_open k_close k_pipe k_fcntl ToyIO].
  - intros fd n w r d w' Ho Hn Hk. unfold toy_read in Hk. rewrite Ho in Hk. toy_cases Hk; cbn.
    + right. rewrite upd_same. set (m := Z.max 0 _).
      pose proof (zlen_nonneg (t_unread w fd)).
      split_and!; [lia|lia|done|rewrite zlen_ztake; lia|done|].
      intros. apply nil_length_inv. unfold zlen in *. lia.
    + left. unfold is_err, EINTR. split; [lia|done].
  - intros fd n w r d w' Hk. unfold toy_read in Hk. toy_cases Hk; cbn; try done.
    split_and!; try done. intros. by rewrite upd_other.
  - intros fd p n w r u w' Hk. unfold toy_write in Hk. toy_cases Hk; cbn; try done.
    all: split_and!; try done; intros f Hf; rewrite upd_other; congruence.
  - intros p m w r u w' Hk Hr. unfold toy_open in Hk. toy_cases Hk; cbn; try lia.
    split_and!; try (rewrite upd_same; done).
    + unfold toy_free in *. b2p. congruence.
    + unfold t_is_open. cbn. apply bool_decide_eq_true. left.
    + unfold toy_free in *. b2p. lia.
    + intros f. by apply toy_free_pipe.
  - intros p m w r u w' Hf Hs Hk. unfold toy_open in Hk. rewrite toy_slots_free in Hk by done.
    destruct (files p); [|done]. injection Hk as <- <- <-. right.
    apply toy_slots_free in Hs. unfold toy_free in Hs. b2p. lia.
  - intros p f m w r u w' Hk. unfold toy_open in Hk. toy_cases Hk; cbn.
    2,3: split_and!; try done; lia.
    split_and!; try done.
    + intros g Hg. apply upd_other, Hg. unfold toy_free in *. b2p. lia.
    + unfold t_is_open. cbn. intros g Hg. apply bool_decide_eq_true in Hg.
      apply bool_decide_eq_true. by right.
    + unfold toy_free in *. b2p. lia.
    + by apply toy_slots_open.
  - intros fd w r u w' Hk. unfold toy_close in Hk. toy_cases Hk; cbn; try done.
    split_and!; try done; [|apply toy_slots_close].
    unfold t_is_open. cbn. intros g Hg Ho. apply bool_decide_eq_true in Ho.
    apply bool_decide_eq_true, list_elem_of_filter. done.
  - intros fd c a w r u w' Hk. by toy_cases Hk.
Defined.

#[local] Instance ToyReadReady : ReadReady toy.
Proof.
  intros fd n w r d w' Ho Hn Hk. cbn in Ho. cbn [k_read ToyIO] in Hk.
  unfold toy_read in Hk. rewrite Ho in Hk. toy_cases Hk; lia.
Qed.

Lemma toy_auxv_whole : 16 <= chunk -> AuxvWhole toy.
Proof.
  intros Hc fd w r d w' Ho Hk Hr. cbn in Ho. cbn [k_read ToyIO] in Hk.
  unfold toy_read in Hk. rewrite Ho in Hk. cbn. pose proof (zlen_nonneg (t_unread w fd)).
  unfold EINTR in *. toy_cases Hk; lia.
Qed.
End Toy.

(** ** An instance

    The witnesses of the theorems run on it. *)

(** Memory: zero up to 4160, then the address modulo 251. *)
#[export] Instance ex_memory : AddressSpace := fun a => if a <? 4160 then 0 else a mod 251.

(** The auxv: one entry and the terminator. *)
Definition ex_aux : list (list Z) := [le 8 6 ++ le 8 64; le 8 0 ++ le 8 0].

(** The files of the process. *)
Definition ex_maps_text : list Z := bytes
"1000-1080 r-xp 00000000 08:01 42 /bin/app
2000-2040 rw-p 00000000 00:00 0 [heap]
3000-3040 r--p 00000000 00:00 0 [vvar]
".

Definition ex_smaps_text : list Z := bytes
"1000-1080 r-xp 00000000 08:01 42 /bin/app
Size:                  0 kB
AnonHugePages:         0 kB
VmFlags: rd ex mr mw me de
2000-2040 rw-p 00000000 00:00 0  [heap]
Size:                  0 kB
Anonymous:             4 kB
VmFlags: rd wr mr mw me ac
3000-3040 r--p 00000000 00:00 0  [vvar]
Size:                  0 kB
VmFlags: rd mr pf de dd
".

Definition ex_files (p : string) : option (list Z) :=
  if String.eqb p "/proc/self/auxv" then Some (concat ex_aux)
  else if String.eqb p "/proc/self/maps" then Some ex_maps_text
  else if String.eqb p "/proc/self/smaps" then Some ex_smaps_text
  else None.

(** Two interrupted calls, then 100 bytes per call. *)
Definition ex_world : toy := Toy (fun _ => []) [] [] [] 3 2.

#[export] Instance ex_io : KernelIO toy := ToyIO ex_files (fun _ => false) 100.
#[export] Instance ex_out : OutFile toy toy_out := ToyOut ex_files (fun _ => false) 100.
#[export] Instance ex_interrupts : Interrupts toy := ToyInterrupts ex_files (fun _ => false) 100.
#[export] Instance ex_fs : Files toy := ToyFiles ex_files (fun _ => false) 100.
#[export] Instance ex_read_ready : ReadReady toy := ToyReadReady ex_files (fun _ => false) 100.
#[export] Instance ex_ready : WriteReady toy toy_out :=
  toy_write_ready ex_files (fun _ => false) 100 (fun _ => eq_refl).
#[export] Instance ex_whole : AuxvWhole toy :=
  toy_auxv_whole ex_files (fun _ => false) 100 ltac:(lia).

(** The fuel of the instances. *)
Definition ex_fuel : nat := 5000.
