(* ===== verification/CIO.v ===== *)
(** Input and output primitives of [elfcore.c]: [c_read], [c_write], the output
    functions [SimpleWriter], [LimitWriter] and [PipeWriter] with their
    [is_done] companions, and [FlushPipe]. *)
From S2P Require Import Prelude Syscall KernelSpec.

(** [struct WriterFds] *)
Record WriterFds := mkWriterFds {
  max_length : Z;
  write_fd : Z;
  compressed_fd : Z;
  out_fd : Z }.

Definition set_max_length (m : Z) (fds : WriterFds) : WriterFds :=
  mkWriterFds m (write_fd fds) (compressed_fd fds) (out_fd fds).

Section CIO.
Context {W H : Type} `{KernelIO W}.
Abbreviation P A := (M (cst W H) A).

(** Bound on the iterations of each loop. *)
Variable fuel : nat.

(** [c_read]: never returns EINTR; the global [errno] changes only on failure. *)
Definition c_read (f n : Z) : P (Z * list Z) :=
  if 0 <? n then
    let! (rc, d, my_errno) := MY_NO_INTR fuel (sys0_read f n) 0 in
    if rc <? 0 then set_errno my_errno ;;! ret (rc, d) else ret (rc, d)
  else ret (0, []).

(** The loop of [c_write]; [len] bytes at [buf] are left of [nbytes]. *)
Fixpoint c_write_loop (n : nat) (f nbytes : Z) (buf : ptr) (len : Z) : P Z :=
  match n with
  | O => out_of_fuel
  | S n' =>
      if 0 <? len then
        let! (rc, _, my_errno) := MY_NO_INTR fuel (sys0_write f buf len) 0 in
        if rc <? 0 then set_errno my_errno ;;! ret rc
        else if rc =? 0 then ret (nbytes - len)
        else c_write_loop n' f nbytes (ptr_add buf rc) (len - rc)
      else ret (nbytes - len)
  end.

(** [c_write]: never returns EINTR, and no short writes. *)
Definition c_write (f : Z) (buf : ptr) (nbytes : Z) : P Z :=
  c_write_loop fuel f nbytes buf nbytes.
End CIO.

(** ** Writing to a pipe: the handle is the file descriptor. *)
Section Simple.
Context {W : Type} `{KernelIO W}.
Variable fuel : nat.

Definition SimpleDone (f : Z) : Z := 0.

Definition SimpleWriter (buf : ptr) (nbytes : Z) : M (cst W Z) Z :=
  let! f := get_hnd in c_write fuel f buf nbytes.
End Simple.

(** ** Writing to a file with a size limit, directly or through a compressor:
    the handle is the [WriterFds] structure. *)
Section Limited.
Context {W : Type} `{KernelIO W}.
Variable fuel : nat.
Abbreviation P A := (M (cst W WriterFds) A).

Definition PipeDone (fds : WriterFds) : Z := if max_length fds =? 0 then 1 else 0.

(** [fds->max_length -= rc] *)
Definition take_max_length (rc : Z) : P unit :=
  let! fds := get_hnd in set_hnd (set_max_length (u64 (max_length fds - rc)) fds).

Definition LimitWriter (buf : ptr) (nbytes : Z) : P Z :=
  let! fds := get_hnd in
  let nbytes := if max_length fds <? nbytes then max_length fds else nbytes in
  let! rc := c_write fuel (out_fd fds) buf nbytes in
  (if 0 <? rc then take_max_length rc else ret tt) ;;!
  ret rc.

Definition scratch_size : Z := 4096.

(** The [while (1)] loop that copies compressed data to the output file;
    [None] is [return -1]. *)
Fixpoint drain_compressed (n : nat) : P (option unit) :=
  match n with
  | O => out_of_fuel
  | S n' =>
      let! fds := get_hnd in
      let l := if max_length fds <? scratch_size then max_length fds else scratch_size in
      set_errno (-1) ;;!
      let! (rc, scratch) := NO_INTR_on fst fuel (sys_read (compressed_fd fds) l) in
      if rc <? 0 then
        let! e := get_errno in
        if e =? EAGAIN then ret (Some tt) else ret None
      else if rc =? 0 then
        set_hnd (set_max_length 0 fds) ;;! ret (Some tt)
      else
        let! rc := c_write fuel (out_fd fds) (local scratch) rc in
        if rc <=? 0 then ret None
        else take_max_length rc ;;! drain_compressed n'
  end.

(** One turn of the loop of [PipeWriter] from [buf], [len]: the new [buf],
    [len], and whether the loop goes on; [None] is [return -1]. *)
Definition pipe_turn (buf : ptr) (len : Z) : P (option (ptr * Z * bool)) :=
  let! fds := get_hnd in
  let! (nfds, revents) :=
    sys_poll [(compressed_fd fds, POLLIN); (write_fd fds, POLLOUT)] (-1) in
  if nfds <? 0 then ret (Some (buf, len, false))
  else
    let r0 := default 0 (revents !! 0%nat) in
    let r1 := default 0 (revents !! 1%nat) in
    let? nfds :=
      (if (0 <? nfds) && negb (Z.land r0 POLLIN =? 0)
       then let? _ := drain_compressed fuel in ret (Some (nfds - 1))
       else ret (Some nfds)) in
    if (0 <? nfds) && negb (Z.land r1 POLLOUT =? 0) then
      let! rc := NO_INTR fuel (sys_write (write_fd fds) buf len) in
      let! e := get_errno in
      if (rc <? 0) && negb (e =? EAGAIN) then ret None
      else ret (Some (ptr_add buf rc, len - rc, true))
    else ret (Some (buf, len, true)).

Fixpoint pipe_loop (n : nat) (nbytes : Z) (buf : ptr) (len : Z) : P Z :=
  match n with
  | O => out_of_fuel
  | S n' =>
      let! fds := get_hnd in
      if (0 <? max_length fds) && (0 <? len) then
        let! o := pipe_turn buf len in
        match o with
        | None => ret (-1)
        | Some (_, len', false) => ret (nbytes - len')
        | Some (buf', len', true) => pipe_loop n' nbytes buf' len'
        end
      else ret (nbytes - len)
  end.

Definition PipeWriter (buf : ptr) (nbytes : Z) : P Z := pipe_loop fuel nbytes buf nbytes.

(** The loop of [FlushPipe]. *)
Fixpoint flush_loop (n : nat) : P Z :=
  match n with
  | O => out_of_fuel
  | S n' =>
      let! fds := get_hnd in
      if 0 <? max_length fds then
        let l := if max_length fds <? scratch_size then max_length fds else scratch_size in
        let! (rc, scratch) := NO_INTR_on fst fuel (sys_read (compressed_fd fds) l) in
        if rc <? 0 then ret (-1)
        else if rc =? 0 then ret 0
        else
          let! wrc := c_write fuel (out_fd fds) (local scratch) rc in
          if negb (wrc =? rc) then ret (-1)
          else take_max_length rc ;;! flush_loop n'
      else ret 0
  end.

Definition FlushPipe : P Z :=
  let! fds := get_hnd in
  let! flags := NO_INTR fuel (sys_fcntl (compressed_fd fds) F_GETFL 0) in
  NO_INTR fuel (sys_fcntl (compressed_fd fds) F_SETFL (Z.land flags (Z.lnot O_NONBLOCK))) ;;!
  flush_loop fuel.
End Limited.

(** ** What an output function promises to [CreateElfCore]

    [CoreWriter]: whatever happens, the bytes that reach the output are a prefix
    of the bytes passed, and a result other than -1 is their number.
    [LimitedWriter]: on a file that accepts data, a writer with [room] left
    writes as much as fits ([None] is no limit); [nmax l] is what may be asked of it
    when [l] has been written. *)
Definition quiet {W} `{KernelIO W} (own : Z -> Prop) (w w' : W) : Prop :=
  (exists fd n r d, ~ own fd /\ k_read fd n w = (r, d, w')) \/
  (exists p f m r u, k_open p f m w = (r, u, w')) \/
  (exists fd r u, ~ own fd /\ k_close fd w = (r, u, w')).

(** [own] are the descriptors the writer uses; reading, opening and closing other
    files does not concern it. *)
Class WriterFrame {W H : Type} `{KernelIO W}
    (inv : cst W H -> Prop) (out : cst W H -> list Z) (own : Z -> Prop) := {
  writer_quiet : forall s e w', inv s -> quiet own (world s) w' ->
    inv (Cst e w' (hnd s)) /\ out (Cst e w' (hnd s)) = out s;
  own_fresh : forall p f m s r u w', inv s -> k_open p f m (world s) = (r, u, w') -> 0 <= r -> ~ own (s32 r);
}.

Class CoreWriter {W H : Type} `{KernelIO W} `{AddressSpace}
    (writer : ptr -> Z -> M (cst W H) Z) (inv : cst W H -> Prop) (out : cst W H -> list Z)
    (own : Z -> Prop) := {
  core_frame :: WriterFrame inv out own;
  writer_prefix : forall p n s, ptr_ok p -> 0 <= n < SSIZE_LIM -> inv s ->
    wlp (writer p n)
      (fun rc s' => inv s' /\ exists k, 0 <= k <= n /\ (rc = k \/ rc = -1) /\
         out s' = out s ++ ztake k (content p n))
      (fun _ _ => False) s;
}.

Definition room_min (n : Z) (r : option Z) : Z :=
  match r with Some m => Z.min n m | None => n end.

Definition room_sub (r : option Z) (n : Z) : option Z :=
  match r with Some m => Some (m - n) | None => None end.

Class LimitedWriter {W H : Type} `{Files W}
    (writer : ptr -> Z -> M (cst W H) Z) (inv : cst W H -> Prop) (out : cst W H -> list Z)
    (own : Z -> Prop) (room : H -> option Z) (nmax : list Z -> Z) := {
  limited_frame :: WriterFrame inv out own;
  room_nonneg : forall s m, inv s -> room (hnd s) = Some m -> 0 <= m;
  nmax_app : forall l l', nmax l - zlen l' <= nmax (l ++ l');
  writer_limited : forall p n s, ptr_ok p -> 0 <= n < nmax (out s) -> inv s ->
    wp (writer p n)
      (fun rc s' => inv s' /\ rc = room_min n (room (hnd s)) /\ room (hnd s') = room_sub (room (hnd s)) rc /\
         out s' = out s ++ ztake rc (content p n) /\ reads_same (world s) (world s')) s;
}.

Section CWrite.
Context {W H : Type} `{OutFile W out}.
Implicit Types s : cst W H.

(** Whatever the kernel does, [c_write] puts a prefix of the buffer in the
    file; a non-negative result is the length of that prefix. *)
Lemma c_write_loop_sink fuel n nbytes buf len s :
  ptr_ok buf -> 0 <= len < SSIZE_LIM ->
  wlp (c_write_loop fuel n out nbytes buf len)
    (fun rc s' => hnd s' = hnd s /\ exists k, 0 <= k <= len /\
       (rc = nbytes - len + k \/ rc = -1) /\
       sink (world s') = sink (world s) ++ ztake k (content buf len))
    (fun _ _ => False) s.
Proof.
  unfold SSIZE_LIM.
  revert buf len s. induction n as [|n IH]; intros buf len s Hp Hlen; [done|].
  cbn [c_write_loop]. destruct (0 <? len) eqn:E0; b2p.
  2:{ apply wlp_ret. split; [done|]. exists 0. rewrite ztake_0, app_nil_r. split_and!; (done || lia). }
  wp_step.
  apply (wlp_MY_NO_INTR (fun s' => hnd s' = hnd s /\ sink (world s') = sink (world s))); [|done].
  intros my s1 [Hh Hs]. apply wlp_syscall0. intros r a w' Hk.
  destruct (k_write_out _ _ _ _ _ _ (Z.lt_le_incl _ _ E0) Hk) as [[He Hw]|[Hr Hw]].
  - rewrite LSS_RETURN_err by done. cbn. split; [by rewrite Hw|]. intros _.
    destruct (s64 (-1) <? 0) eqn:E1; [|done].
    wp_step. cbn. split; [done|]. exists 0. rewrite ztake_0, app_nil_r, Hw.
    split_and!; (done || lia || by right).
  - rewrite LSS_RETURN_ok, s64_small by lia. cbn. split; [lia|]. intros _.
    destruct (r <? 0) eqn:E1; b2p; [lia|]. destruct (r =? 0) eqn:E2; b2p.
    + apply wlp_ret. cbn. split; [done|]. exists 0. subst r.
      rewrite Hw, Hs. split_and!; (done || lia).
    + eapply wlp_mono; [apply IH; [apply ptr_ok_add; [done|lia]|lia] | | done].
      cbn. intros rc s' (Hh' & k & Hk' & Hrc & Hs'). split; [by rewrite Hh'|].
      exists (r + k). split; [lia|]. split; [lia|].
      rewrite Hs', Hw, Hs, content_advance by (done || lia).
      by rewrite <- app_assoc, <- ztake_split by lia.
Qed.

Context `{!Interrupts W} `{!WriteReady W out}.

(** On a file that accepts data, [c_write] writes the whole buffer. *)
Lemma c_write_loop_all fuel n nbytes buf len s :
  ptr_ok buf -> 0 <= len < SSIZE_LIM -> len < Z.of_nat n -> (intr (world s) < fuel)%nat ->
  wp (c_write_loop fuel n out nbytes buf len)
    (fun rc s' => hnd s' = hnd s /\ errno s' = errno s /\ rc = nbytes /\
       (intr (world s') <= intr (world s))%nat /\
       sink (world s') = sink (world s) ++ content buf len) s.
Proof.
  unfold SSIZE_LIM.
  revert buf len s. induction n as [|n IH]; intros buf len s Hp Hlen Hn Hf; [lia|].
  cbn [c_write_loop]. destruct (0 <? len) eqn:E0; b2p.
  2:{ apply wp_ret. assert (len = 0) as -> by lia. repeat split; [lia|lia|].
      destruct buf as [l off|a]; cbn; [unfold slice; by rewrite ztake_0, app_nil_r|by rewrite app_nil_r]. }
  wp_step.
  apply (wp_MY_NO_INTR (fun s' => hnd s' = hnd s /\ errno s' = errno s /\
     (intr (world s') <= intr (world s))%nat /\ sink (world s') = sink (world s))
     (fun s' => intr (world s'))); [|split_and!; (done || lia)|done].
  intros my s1 (Hh & He1 & Hi & Hs). apply wp_syscall0. intros r a w' Hk.
  destruct (k_write_out _ _ _ _ _ _ (Z.lt_le_incl _ _ E0) Hk) as [[He Hw]|[Hr Hw]];
  destruct (k_write_intr _ _ _ _ _ _ _ Hk) as [Hi1 Hi2];
  destruct (k_write_ready _ _ _ _ _ _ E0 Hk) as [Hr'|Hr'];
  [|unfold is_err in *; lia|unfold EINTR in *; lia|].
  - rewrite LSS_RETURN_err by done. cbn. rewrite Hw. specialize (Hi2 Hr'). rewrite Hr'. split.
    + intros _ _. split_and!; (done || lia).
    + by intros [].
  - rewrite LSS_RETURN_ok, s64_small by lia. cbn. split; [lia|]. intros _.
    destruct (r <? 0) eqn:E1; b2p; [lia|]. destruct (r =? 0) eqn:E2; b2p; [lia|].
    eapply wp_mono; [apply IH; [apply ptr_ok_add; [done|lia]|lia|lia|cbn; lia] | ].
    cbn. intros rc s' (Hh' & He' & Hrc & Hi3 & Hs'). repeat split; try congruence; [lia|].
    rewrite Hs', Hw, Hs, content_advance by (done || lia).
    by rewrite <- app_assoc, ztake_zdrop.
Qed.
End CWrite.

(** ** [c_read] *)
Section CRead.
Context {W H : Type} `{Files W}.
Implicit Types s : cst W H.

(** What a read of [n] bytes from [fd] returned and did. *)
Definition read_post (fd : Z) s (r : Z * list Z) s' : Prop :=
  hnd s' = hnd s /\ rd_frame fd (world s) (world s') /\
  ((r.1 = -1 /\ unread (world s') fd = unread (world s) fd) \/
   (0 <= r.1 /\ errno s' = errno s /\ r.2 = ztake r.1 (unread (world s) fd) /\ zlen r.2 = r.1 /\
    unread (world s') fd = zdrop r.1 (unread (world s) fd) /\
    (r.1 = 0 -> unread (world s) fd = []))).

Lemma c_read_post fuel fd n s :
  rd_open (world s) fd -> 0 < n < SSIZE_LIM ->
  wlp (c_read fuel fd n) (fun r s' => read_post fd s r s' /\ r.1 <= n) (fun _ _ => False) s.
Proof.
  unfold SSIZE_LIM. intros Hop Hn. unfold c_read.
  destruct (0 <? n) eqn:E0; b2p; [|lia]. wp_step.
  apply (wlp_MY_NO_INTR (fun s' => hnd s' = hnd s /\ rd_open (world s') fd /\
    errno s' = errno s /\
    rd_frame fd (world s) (world s') /\ unread (world s') fd = unread (world s) fd));
    [|split_and!; auto with coredump].
  intros my s1 (Hh & Ho & He & Hf & Hu). apply wlp_syscall0. intros r d w' Hk.
  pose proof (k_read_frame _ _ _ _ _ _ Hk) as Hfr.
  assert (Hf' : rd_frame fd (world s) w') by (eapply rd_frame_trans; [exact Hf|exact Hfr]).
  destruct (k_read_in _ _ _ _ _ _ Ho E0 Hk) as [[Her Hu']|(Hr & Hd & Hl & Hu' & Hz)].
  - rewrite LSS_RETURN_err by done. cbn. split.
    + intros _ _. split_and!; auto; [apply Hfr, Ho|congruence].
    + intros _. destruct (s64 (-1) <? 0) eqn:E1; [|done]. wp_step. cbn. split; [|cbn; lia].
      split_and!; auto. left. split; [done|]. cbn. congruence.
  - rewrite LSS_RETURN_ok, s64_small by lia. cbn. split; [lia|]. intros _.
    destruct (r <? 0) eqn:E1; b2p; [lia|]. apply wlp_ret. cbn. split; [|lia].
    split_and!; auto. right. cbn. rewrite <- Hu. split_and!; auto; lia.
Qed.

Context `{!Interrupts W} `{!ReadReady W}.

Lemma c_read_ready fuel fd n s :
  rd_open (world s) fd -> 0 < n < SSIZE_LIM -> (intr (world s) < fuel)%nat ->
  wp (c_read fuel fd n) (fun r s' => read_post fd s r s' /\ 0 <= r.1 <= n /\
    (intr (world s') <= intr (world s))%nat) s.
Proof.
  intros Hop Hn Hfu. eapply wp_mono; [eapply (wp_conj _ (fun r s' => 0 <= r.1 /\
    (intr (world s') <= intr (world s))%nat)); [|by apply c_read_post]|].
  2:{ intros a s' [[P0 P1] [P2 P3]]. by split_and!. }
  unfold SSIZE_LIM in *. unfold c_read.
  destruct (0 <? n) eqn:E0; b2p; [|lia]. wp_step.
  apply (wp_MY_NO_INTR (fun s' => rd_open (world s') fd /\
    (intr (world s') <= intr (world s))%nat) (fun s' => intr (world s'))); [|by split|done].
  intros my s1 [Ho Hi]. apply wp_syscall0. intros r d w' Hk.
  pose proof (k_read_frame _ _ _ _ _ _ Hk) as (_ & Hfr & _ & _).
  destruct (k_read_intr _ _ _ _ _ _ Hk) as [Hi1 Hi2].
  destruct (k_read_in _ _ _ _ _ _ Ho E0 Hk) as [[Her Hu']|(Hr & _)];
  destruct (k_read_ready _ _ _ _ _ _ Ho E0 Hk) as [Hr'|Hr'];
    [|unfold is_err in *; lia|unfold EINTR in *; lia|].
  - rewrite LSS_RETURN_err by done. specialize (Hi2 Hr'). subst r. cbn. split; [|by intros []].
    intros _ _. split_and!; [by apply Hfr|lia|lia].
  - rewrite LSS_RETURN_ok, s64_small by lia. cbn. split; [lia|]. intros _.
    destruct (r <? 0) eqn:E1; b2p; [lia|]. apply wp_ret. cbn. split; lia.
Qed.
End CRead.

Section SinkFrame.
Context {W H : Type} `{OutFile W out}.
Implicit Types s : cst W H.

Definition sink_same s s' : Prop := sink (world s') = sink (world s) /\ hnd s' = hnd s.

Lemma c_read_sink fuel fd n s : wlp (c_read fuel fd n) (fun _ s' => sink_same s s') (fun _ _ => False) s.
Proof.
  unfold c_read. destruct (0 <? n); [|by apply wlp_ret]. wp_step.
  apply (wlp_MY_NO_INTR (fun s' => sink_same s s')); [|done].
  intros my s1 [Hs Hh]. apply wlp_syscall0. intros r d w' Hk.
  pose proof (k_read_sink _ _ _ _ _ _ Hk) as Hw.
  destruct (LSS_RETURN s64 r my) as [rc e]. cbn.
  split; [split; cbn; congruence|]. intros _.
  destruct (rc <? 0); repeat (wp_step; cbn); split; cbn; congruence.
Qed.
End SinkFrame.

(** ** The writers keep their promises *)

(** The output file is not one end of a pipe that the program reads itself. *)
Definition not_piped {W} `{Files W} (fd : Z) (w : W) : Prop := forall f, pipe_of w fd <> Some f.

Section WriteFrame.
Context {W H : Type} `{Files W}.
Implicit Types s : cst W H.

Lemma reads_same_not_piped fd (w w' : W) : reads_same w w' -> not_piped fd w -> not_piped fd w'.
Proof. intros (_ & _ & Hp & _) Hn f. by rewrite Hp. Qed.

(** Writing to it changes nothing that can be read. *)
Lemma c_write_frame fuel n fd nbytes buf len s :
  not_piped fd (world s) ->
  wlp (c_write_loop fuel n fd nbytes buf len)
    (fun _ s' => reads_same (world s) (world s')) (fun _ _ => False) s.
Proof.
  revert buf len s. induction n as [|n IH]; intros buf len s Hp; [done|].
  cbn [c_write_loop]. destruct (0 <? len); [|by apply wlp_ret]. wp_step.
  apply (wlp_MY_NO_INTR (fun s' => reads_same (world s) (world s'))); [|done].
  intros my s1 Hs. apply wlp_syscall0. intros r a w' Hk.
  assert (Hw : reads_same (world s) w').
  { etransitivity; [exact Hs|].
    destruct (k_write_frame _ _ _ _ _ _ _ Hk) as (A1 & A2 & A3 & A4). split_and!; auto.
    intros f. apply A1. by eapply reads_same_not_piped. }
  destruct (LSS_RETURN s64 r my) as [rc e]. cbn. split; [done|]. intros _.
  destruct (rc <? 0); [by wp_step|]. destruct (rc =? 0); [by wp_step|].
  eapply wlp_mono; [apply IH; cbn; by eapply reads_same_not_piped| |done].
  cbn. intros _ s' Hs'. by etransitivity.
Qed.
End WriteFrame.

Lemma ztake_content_le `{AddressSpace} p n m k :
  ptr_ok p -> 0 <= k <= m -> m <= n -> ztake k (content p m) = ztake k (content p n).
Proof.
  intros Hp Hk Hm. destruct p as [l off|a]; cbn.
  - unfold slice. rewrite !ztake_ztake by lia. done.
  - unfold ztake. replace (Z.to_nat n) with (Z.to_nat m + (Z.to_nat n - Z.to_nat m))%nat by lia.
    rewrite peek_bytes_app, take_app_le; [done|]. rewrite length_peek_bytes. lia.
Qed.

Section Writers.
Context {W : Type} `{!KernelIO W} `{!AddressSpace} {out : Z} `{!OutFile W out}.
Variable fuel : nat.

Definition simple_inv (s : cst W Z) : Prop := hnd s = out.

Lemma quiet_sink (w w' : W) : quiet (eq out) w w' -> sink w' = sink w.
Proof.
  intros [(fd & n & r & d & _ & Hk)|[(p & f & m & r & u & Hk)|(fd & r & u & Hf & Hk)]].
  - by eapply k_read_sink.
  - by eapply k_open_sink.
  - eapply k_close_sink; [|exact Hk]. by apply not_eq_sym.
Qed.

(** An invariant that depends on the handle only. *)
Lemma handle_frame {Hd : Type} (I : Hd -> Prop) :
  WriterFrame (fun s : cst W Hd => I (hnd s)) (fun s => sink (world s)) (eq out).
Proof.
  split.
  - intros s e w' Hi Hq. split; [done|]. by apply quiet_sink.
  - intros. by eapply not_eq_sym, k_open_fresh.
Qed.

#[export] Instance SimpleWriter_prefix :
  CoreWriter (SimpleWriter fuel) simple_inv (fun s => sink (world s)) (eq out).
Proof.
  split; [apply (handle_frame (fun h => h = out))|]. intros p n s Hp Hn Hi. unfold SimpleWriter. wp_step. unfold wlp at 1, get_hnd.
  rewrite Hi. eapply wlp_mono; [by apply c_write_loop_sink| |done].
  intros rc s' (Hh & k & Hk & Hrc & Hs). split; [unfold simple_inv in *; congruence|].
  exists k. split_and!; auto; lia.
Qed.

Definition limit_inv (s : cst W WriterFds) : Prop :=
  out_fd (hnd s) = out /\ 0 <= max_length (hnd s) < 2 ^ 64.

(** [LimitWriter] after [c_write] returned. *)
Lemma wlp_LimitWriter p n s (Q : Z -> cst W WriterFds -> Prop) X :
  let m := Z.min n (max_length (hnd s)) in
  wlp (c_write fuel (out_fd (hnd s)) p m)
    (fun rc s' => Q rc (if 0 <? rc then
         Cst (errno s') (world s') (set_max_length (u64 (max_length (hnd s') - rc)) (hnd s'))
       else s')) X s ->
  wlp (LimitWriter fuel p n) Q X s.
Proof.
  intros m Hm. unfold LimitWriter. wp_step. unfold wlp at 1, get_hnd. wp_step.
  replace (if max_length (hnd s) <? n then max_length (hnd s) else n) with m
    by (unfold m; destruct (_ <? n) eqn:E; b2p; lia).
  eapply wlp_mono; [exact Hm| |done]. intros rc s' HQ. cbn in HQ.
  by destruct (0 <? rc).
Qed.

#[export] Instance LimitWriter_prefix :
  CoreWriter (LimitWriter fuel) limit_inv (fun s => sink (world s)) (eq out).
Proof.
  split; [apply (handle_frame (fun h => out_fd h = out /\ 0 <= max_length h < 2 ^ 64))|].
  intros p n s Hp Hn [Ho Hm]. unfold SSIZE_LIM in *. apply wlp_LimitWriter.
  rewrite Ho. eapply wlp_mono; [apply c_write_loop_sink; [done|unfold SSIZE_LIM; lia]| |done].
  intros rc s' (Hh & k & Hk & Hrc & Hs).
  rewrite ztake_content_le with (n := n) in Hs by (done || lia).
  unfold limit_inv. destruct (0 <? rc) eqn:E; b2p; cbn; rewrite Hh; cbn.
  - split; [split; [done|]|]; [rewrite u64_small; lia|].
    exists k. split_and!; auto; lia.
  - split; [done|]. exists k. split_and!; auto; lia.
Qed.

Context `{!Files W} `{!Interrupts W} `{!WriteReady W out}.

(** The output accepts data. *)
Definition ready {Hd : Type} (s : cst W Hd) : Prop :=
  (intr (world s) < fuel)%nat /\ not_piped out (world s).

Lemma c_write_ready {Hd : Type} p n (s : cst W Hd) :
  ptr_ok p -> 0 <= n < SSIZE_LIM -> n < Z.of_nat fuel -> ready s ->
  wp (c_write fuel out p n) (fun rc s' => hnd s' = hnd s /\ rc = n /\ ready s' /\
     sink (world s') = sink (world s) ++ content p n /\ reads_same (world s) (world s')) s.
Proof.
  intros Hp Hn Hf [Hi Hnp].
  eapply wp_mono; [eapply wp_conj; [by apply c_write_loop_all|by apply c_write_frame]|].
  cbn. intros rc s' [(Hh & He & -> & Hint & Hs) Hfr]. split_and!; try done.
  split; [lia|by eapply reads_same_not_piped].
Qed.

Lemma ready_frame {Hd : Type} (I : Hd -> Prop) :
  WriterFrame (fun s : cst W Hd => I (hnd s) /\ ready s) (fun s => sink (world s)) (eq out).
Proof.
  split; [|intros; by eapply not_eq_sym, k_open_fresh].
  intros s e w' [Hi [Hr Hp]] Hq. split; [|by apply quiet_sink]. split; [done|].
  unfold ready, not_piped in *. cbn.
  destruct Hq as [(fd & n & r & d & _ & Hk)|[(p & f & m & r & u & Hk)|(fd & r & u & Hf & Hk)]].
  - destruct (k_read_intr _ _ _ _ _ _ Hk). destruct (k_read_frame _ _ _ _ _ _ Hk) as (_ & _ & E & _).
    split; [lia|]. intros g. by rewrite E.
  - destruct (k_open_intr _ _ _ _ _ _ _ Hk). destruct (k_open_frame _ _ _ _ _ _ _ Hk) as (_ & _ & E & _).
    split; [lia|]. intros g. by rewrite E.
  - destruct (k_close_intr _ _ _ _ _ Hk). destruct (k_close_frame _ _ _ _ _ Hk) as (_ & _ & E & _).
    split; [lia|]. intros g. by rewrite E.
Qed.

Definition nmax : Z := Z.min (Z.of_nat fuel) SSIZE_LIM.

#[export] Instance SimpleWriter_limited :
  LimitedWriter (SimpleWriter fuel) (fun s => simple_inv s /\ ready s)
    (fun s => sink (world s)) (eq out) (fun _ => None) (fun _ => nmax).
Proof.
  split; [apply (ready_frame (fun h => h = out))|done|intros l l'; pose proof (zlen_nonneg l'); lia|]. unfold nmax, SSIZE_LIM. intros p n s Hp Hn [Hi Hr]. unfold SimpleWriter. wp_step.
  unfold wp at 1, get_hnd. rewrite Hi.
  eapply wp_mono; [apply c_write_ready; unfold SSIZE_LIM; (done || lia)|].
  intros rc s' (Hh & -> & Hr' & Hs & Hfr). unfold simple_inv in *.
  split_and!; try congruence; try done. rewrite Hs. f_equal. cbn.
  by rewrite ztake_all by (apply zlen_content_le; lia).
Qed.

#[export] Instance LimitWriter_limited :
  LimitedWriter (LimitWriter fuel) (fun s => limit_inv s /\ ready s)
    (fun s => sink (world s)) (eq out) (fun h => Some (max_length h)) (fun _ => nmax).
Proof.
  split; [apply (ready_frame (fun h => out_fd h = out /\ 0 <= max_length h < 2 ^ 64))| |intros l l'; pose proof (zlen_nonneg l'); lia|].
  { intros s m [[_ Hm] _] [= <-]. lia. }
  unfold nmax, SSIZE_LIM. intros p n s Hp Hn [[Ho Hm] Hr].
  set (m := Z.min n (max_length (hnd s))).
  assert (Hw : wp (c_write fuel (out_fd (hnd s)) p m) (fun rc s' => hnd s' = hnd s /\ rc = m /\
     ready s' /\ sink (world s') = sink (world s) ++ content p m /\
     reads_same (world s) (world s')) s).
  { rewrite Ho. apply c_write_ready; unfold SSIZE_LIM; (done || lia). }
  apply wp_run in Hw as (rc & s' & Hrun & Hh & -> & Hi & Hs & Hfr).
  unfold LimitWriter. wp_step. unfold wp at 1, get_hnd. wp_step.
  replace (if max_length (hnd s) <? n then max_length (hnd s) else n) with m
    by (unfold m; destruct (_ <? n) eqn:E; b2p; lia).
  unfold wp at 1. rewrite Hrun. clear Hrun. unfold limit_inv. cbn [room_min room_sub].
  assert (Hc : content p m = ztake m (content p n)).
  { rewrite <- (ztake_content_le p n m m) by (done || lia).
    by rewrite ztake_all by (apply zlen_content_le; lia). }
  destruct (0 <? m) eqn:E; b2p; cbn; rewrite Hh; cbn.
  - rewrite u64_small by lia. split_and!; try (done || lia). by rewrite Hs, Hc.
  - split_and!; try (done || lia); [f_equal; lia|by rewrite Hs, Hc].
Qed.
End Writers.
