(* ===== verification/IOClaims.v ===== *)
(** What the input and output primitives guarantee ([c_read], [c_write],
    [LimitWriter], [FlushPipe]), and what [PipeWriter] does on a full pipe, with
    instances on the example kernel. *)
From S2P Require Import Prelude Syscall KernelSpec ToyKernel CIO.

(** ** Flushing the compressor *)

Section Flush.
Context {W : Type} `{!KernelIO W} `{!AddressSpace} {out : Z} `{!OutFile W out} `{!Files W}
        `{!Interrupts W} `{!WriteReady W out} `{!ReadReady W}.
Variable fuel : nat.
Implicit Types (s : cst W WriterFds).

(** A read that is repeated while it is interrupted. *)
Lemma read_no_intr fd n s :
  rd_open (world s) fd -> 0 < n < 2 ^ 63 -> (intr (world s) < fuel)%nat ->
  wp (NO_INTR_on fst fuel (sys_read fd n)) (fun r s' => hnd s' = hnd s /\ 0 <= r.1 <= n /\
     sink (world s') = sink (world s) /\ (intr (world s') <= intr (world s))%nat /\
     rd_frame fd (world s) (world s') /\
     r.2 = ztake r.1 (unread (world s) fd) /\ zlen r.2 = r.1 /\
     unread (world s') fd = zdrop r.1 (unread (world s) fd) /\
     (r.1 = 0 -> unread (world s) fd = [])) s.
Proof.
  intros Hop Hn Hf. unfold sys_read.
  apply (wp_NO_INTR_on (fun s' => hnd s' = hnd s /\ sink (world s') = sink (world s) /\
      (intr (world s') <= intr (world s))%nat /\ rd_frame fd (world s) (world s') /\
      rd_open (world s') fd /\ unread (world s') fd = unread (world s) fd)
    (fun s' => intr (world s'))); [|split_and!; auto with coredump|done].
  intros s1 (Hh & Hs & Hi & Hfr & Ho & Hu). apply wp_syscall. intros r d w' Hk.
  pose proof (k_read_frame _ _ _ _ _ _ Hk) as Hfr'.
  pose proof (k_read_sink _ _ _ _ _ _ Hk) as Hs'.
  destruct (k_read_intr _ _ _ _ _ _ Hk) as [Hi1 Hi2].
  assert (Hfr2 : rd_frame fd (world s) w') by (eapply rd_frame_trans; [exact Hfr|exact Hfr']).
  destruct (k_read_in _ _ _ _ _ _ Ho (proj1 Hn) Hk) as [[Her Hu']|(Hr & Hd & Hl & Hu' & Hz)].
  - destruct (k_read_ready _ _ _ _ _ _ Ho (proj1 Hn) Hk) as [->|?]; [|unfold is_err in *; lia].
    rewrite LSS_RETURN_err by done. cbn. specialize (Hi2 eq_refl). split; [|by intros []].
    intros _ _. split_and!; (congruence || lia || done || by apply Hfr').
  - rewrite LSS_RETURN_ok by lia. cbn. rewrite s64_small by lia. split; [lia|]. intros _.
    rewrite <- Hu. split_and!; (congruence || lia || auto).
Qed.

(** The state of the loop of [FlushPipe]. *)
Definition flushing (data : list Z) s : Prop :=
  out_fd (hnd s) = out /\ 0 <= max_length (hnd s) < 2 ^ 64 /\
  rd_open (world s) (compressed_fd (hnd s)) /\ unread (world s) (compressed_fd (hnd s)) = data /\
  ready (out := out) fuel s.

Lemma flush_loop_copies : scratch_size < Z.of_nat fuel ->
  forall n data s, flushing data s -> zlen data < Z.of_nat n ->
  wp (flush_loop fuel n) (fun rc s' => rc = 0 /\
     sink (world s') = sink (world s) ++ ztake (max_length (hnd s)) data /\
     max_length (hnd s') = max_length (hnd s) - Z.min (max_length (hnd s)) (zlen data)) s.
Proof.
  unfold scratch_size. intros Hfu n. induction n as [|n IH]; intros data s Hfl Hn;
    pose proof (zlen_nonneg data) as Hd0; [lia|].
  destruct Hfl as (Ho & Hm & Hop & Hun & Hi & Hnp). cbn [flush_loop]. wp_step. unfold wp at 1, get_hnd.
  destruct (0 <? max_length (hnd s)) eqn:E; b2p.
  2:{ apply wp_ret. replace (max_length (hnd s)) with 0 by lia.
      rewrite ztake_0, app_nil_r. split_and!; (done || lia). }
  set (l := if _ <? _ then _ else _).
  assert (Hl : 0 < l <= max_length (hnd s) /\ l <= 4096).
  { unfold l. destruct (_ <? _) eqn:E1; b2p; unfold scratch_size in *; lia. }
  clearbody l. wp_step. eapply wp_mono; [apply read_no_intr; (done || lia)|].
  intros [rc scratch] s1 (Hh1 & Hrc & Hs1 & Hi1 & Hfr1 & Hd & Hl1 & Hu1 & Hz).
  cbn [fst snd] in *. destruct (rc <? 0) eqn:E1; b2p; [lia|]. destruct (rc =? 0) eqn:E2; b2p.
  { apply wp_ret. assert (Hnil : data = []) by (rewrite <- Hun; auto).
    rewrite Hnil, Hs1, Hh1, (zlen_nil (A := Z)). unfold ztake.
    rewrite take_nil, app_nil_r. split_and!; (done || lia). }
  assert (Hnp1 : not_piped out (world s1)).
  { intros f. destruct Hfr1 as (_ & _ & Hp & _). by rewrite Hp. }
  assert (Hrcd : rc <= zlen data).
  { rewrite <- Hl1, Hd, Hun. apply zlen_ztake_le. }
  wp_step. rewrite Ho. eapply wp_mono.
  { apply (c_write_ready fuel (local scratch) rc s1); [done|unfold SSIZE_LIM; lia|lia|].
    split; [lia|done]. }
  cbn beta. intros wrc s2 (Hh2 & -> & [Hi2 Hnp2] & Hs2 & Hrs2). rewrite Z.eqb_refl. cbn [negb].
  rewrite <- Hl1 in Hs2 at 1. rewrite content_local in Hs2.
  wp_step. unfold take_max_length. wp_step. unfold wp at 1, get_hnd, set_hnd, wp at 1.
  rewrite Hh2, Hh1. rewrite u64_small by lia. destruct Hrs2 as (Hru & Hro & _ & _).
  destruct Hfr1 as (_ & Hfo & _ & _).
  eapply wp_mono; [apply (IH (zdrop rc data))|].
  - unfold flushing. cbn. split_and!; try done; try lia.
    + apply Hro, Hfo, Hop.
    + rewrite Hru, Hu1. by rewrite Hun.
  - rewrite zlen_zdrop; lia.
  - cbn. intros r s' (-> & Hs' & Hm'). split; [done|]. split.
    + rewrite Hs', Hs2, Hs1, <- app_assoc. f_equal. rewrite Hd, Hun.
      rewrite <- ztake_split by lia. f_equal. lia.
    + rewrite Hm', zlen_zdrop; lia.
Qed.

Lemma fcntl_no_intr fd c a s : (intr (world s) < fuel)%nat ->
  wp (NO_INTR fuel (sys_fcntl fd c a)) (fun _ s' => hnd s' = hnd s /\
     sink (world s') = sink (world s) /\ (intr (world s') <= intr (world s))%nat /\
     reads_same (world s) (world s')) s.
Proof.
  intros Hf. unfold sys_fcntl.
  apply (wp_NO_INTR (fun s' => hnd s' = hnd s /\ sink (world s') = sink (world s) /\
      (intr (world s') <= intr (world s))%nat /\ reads_same (world s) (world s'))
    (fun s' => intr (world s'))); [|split_and!; done|done].
  intros s1 r u w' (Hh & Hs & Hi & Hr) Hk.
  pose proof (k_fcntl_sink _ _ _ _ _ _ _ Hk) as Hs'.
  pose proof (k_fcntl_frame _ _ _ _ _ _ _ Hk) as Hr'.
  destruct (k_fcntl_intr _ _ _ _ _ _ _ Hk) as [Hi1 Hi2].
  assert (Hr2 : reads_same (world s) w') by (etransitivity; [exact Hr|exact Hr']).
  split_and!.
  - intros _ He. specialize (Hi2 He). cbn. split_and!; (congruence || lia || done).
  - intros _ _. cbn. split_and!; (congruence || lia || done).
  - intros He. destruct (k_fcntl_range _ _ _ _ _ _ _ Hk); [done|].
    cbn. split_and!; (congruence || lia || done).
Qed.
End Flush.

(** ** Claims *)

(** Whatever the kernel does, [c_write] changes the file only by appending a
    prefix of the buffer; a result that is not -1 is the length of the prefix. *)
Theorem c_write_prefix {W Hd : Type} `{OutFile W out} fuel buf nbytes (s : cst W Hd) :
  ptr_ok buf -> 0 <= nbytes < SSIZE_LIM ->
  wlp (c_write fuel out buf nbytes)
    (fun rc s' => hnd s' = hnd s /\ exists k, 0 <= k <= nbytes /\ (rc = k \/ rc = -1) /\
       sink (world s') = sink (world s) ++ ztake k (content buf nbytes))
    (fun _ _ => False) s.
Proof.
  intros Hp Hn. eapply wlp_mono; [by apply c_write_loop_sink| |done].
  intros rc s' (Hh & k & Hk & Hrc & Hs). split; [done|]. exists k. split_and!; auto; lia.
Qed.

(** C20. On a file that accepts data, [c_write] terminates, is not disturbed by
    interruptions and short writes, and writes the whole buffer. *)
Theorem c_write_whole {W Hd : Type} `{!KernelIO W} `{!AddressSpace} {out : Z} `{!OutFile W out}
    `{!Interrupts W} `{!WriteReady W out} fuel buf nbytes (s : cst W Hd) :
  ptr_ok buf -> 0 <= nbytes < SSIZE_LIM -> nbytes < Z.of_nat fuel -> (intr (world s) < fuel)%nat ->
  wp (c_write fuel out buf nbytes)
    (fun rc s' => rc = nbytes /\ hnd s' = hnd s /\ errno s' = errno s /\
       sink (world s') = sink (world s) ++ content buf nbytes) s.
Proof.
  intros Hp Hn Hf Hi. eapply wp_mono; [by apply c_write_loop_all|].
  intros rc s' (?&?&?&_&?). by split_and!.
Qed.

(** [c_read] never returns because of an interruption; it returns what comes
    next in the file, and 0 only at its end. *)
Theorem c_read_next {W Hd : Type} `{Files W} `{!Interrupts W} `{!ReadReady W} fuel fd n (s : cst W Hd) :
  rd_open (world s) fd -> 0 < n < SSIZE_LIM -> (intr (world s) < fuel)%nat ->
  wp (c_read fuel fd n) (fun r s' => 0 <= r.1 <= n /\ r.2 = ztake r.1 (unread (world s) fd) /\
     zlen r.2 = r.1 /\ unread (world s') fd = zdrop r.1 (unread (world s) fd) /\
     (r.1 = 0 -> unread (world s) fd = []) /\ errno s' = errno s /\ hnd s' = hnd s) s.
Proof.
  intros Ho Hn Hf. eapply wp_mono; [by apply c_read_ready|].
  intros r s' ((Hh & _ & [[Hr _]|(Hr & He & Hdt & Hl & Hu & Hz)]) & Hr' & _); [lia|].
  split_and!; (done || lia).
Qed.

(** C21. [LimitWriter] writes as much of the buffer as the limit allows and takes
    it off the limit, which is never exceeded. *)
Theorem LimitWriter_limit {W : Type} `{!KernelIO W} `{!AddressSpace} {out : Z} `{!OutFile W out}
    `{!Files W} `{!Interrupts W} `{!WriteReady W out} fuel buf nbytes (s : cst W WriterFds) :
  ptr_ok buf -> 0 <= nbytes < nmax fuel -> limit_inv (out := out) s -> ready (out := out) fuel s ->
  wp (LimitWriter fuel buf nbytes) (fun rc s' =>
     rc = Z.min nbytes (max_length (hnd s)) /\
     max_length (hnd s') = max_length (hnd s) - rc /\
     sink (world s') = sink (world s) ++ ztake rc (content buf nbytes)) s.
Proof.
  intros Hp Hn Hi Hr. eapply wp_mono; [by apply (writer_limited (writer := LimitWriter fuel))|].
  intros rc s' (_ & Hrc & Hm & Ho & _). cbn in Hrc, Hm. injection Hm as Hm. by split_and!.
Qed.

(** [FlushPipe] copies what the compressor still has to say to the output
    file, up to the limit, and returns 0. *)
Theorem FlushPipe_copies {W : Type} `{!KernelIO W} `{!AddressSpace} {out : Z} `{!OutFile W out}
    `{!Files W} `{!Interrupts W} `{!WriteReady W out} `{!ReadReady W} fuel data (s : cst W WriterFds) :
  scratch_size < Z.of_nat fuel -> zlen data < Z.of_nat fuel -> flushing (out := out) fuel data s ->
  wp (FlushPipe fuel) (fun rc s' => rc = 0 /\
     sink (world s') = sink (world s) ++ ztake (max_length (hnd s)) data /\
     max_length (hnd s') = max_length (hnd s) - Z.min (max_length (hnd s)) (zlen data)) s.
Proof.
  intros Hf Hn (Ho & Hm & Hop & Hun & Hi & Hnp). unfold FlushPipe. wp_step. unfold wp at 1, get_hnd.
  wp_step. eapply wp_mono; [by apply fcntl_no_intr|]. intros flags s1 (Hh1 & Hs1 & Hi1 & Hr1).
  wp_step. eapply wp_mono; [apply fcntl_no_intr; lia|]. intros _ s2 (Hh2 & Hs2 & Hi2 & Hr2).
  assert (Hr : reads_same (world s) (world s2)) by by etransitivity.
  assert (Eh : hnd s2 = hnd s) by congruence. pose proof Hr as (Hru & Hro & Hrp & _).
  eapply wp_mono; [apply (flush_loop_copies fuel Hf fuel data s2); [|done]|].
  - unfold flushing. rewrite Eh, Hru. split_and!; auto; try lia. split; [lia|].
    by eapply reads_same_not_piped.
  - intros rc s' (-> & Hs' & Hm'). rewrite Eh in Hs', Hm'. split_and!; (congruence || done).
Qed.

(** ** A pipe that is full

    [write_fd] is non-blocking: the kernel may answer EAGAIN although poll has
    just reported room. *)

Lemma errno_range e : 0 < e < 4096 -> e <> EINTR -> is_err (- e).
Proof. unfold is_err. lia. Qed.

Section Again.
Context {W : Type} `{!KernelIO W}.
Variable fuel : nat.
Implicit Types (s : cst W WriterFds).

(** One turn in which only [write_fd] is ready, and the kernel answers [r]. *)
Lemma pipe_turn_write buf len s r revents w1 u w2 :
  (0 < fuel)%nat -> default 0 (revents !! 0%nat) = 0 -> default 0 (revents !! 1%nat) = POLLOUT ->
  k_poll [(compressed_fd (hnd s), POLLIN); (write_fd (hnd s), POLLOUT)] (-1) (world s) = (1, revents, w1) ->
  k_write (write_fd (hnd s)) buf len w1 = (r, u, w2) ->
  (r = - EAGAIN -> pipe_turn fuel buf len s = Ret (Some (ptr_add buf (-1), len + 1, true)) (Cst EAGAIN w2 (hnd s))) /\
  (0 <= r < 2 ^ 31 -> pipe_turn fuel buf len s = Ret (Some (ptr_add buf r, len - r, true)) (Cst (errno s) w2 (hnd s))).
Proof.
  intros Hf H0 H1 Hp Hw. destruct u. destruct fuel as [|f]; [lia|].
  assert (Epoll : sys_poll [(compressed_fd (hnd s), POLLIN); (write_fd (hnd s), POLLOUT)] (-1) s =
    Ret (1, revents) (Cst (errno s) w1 (hnd s))).
  { unfold sys_poll, syscall. rewrite Hp. by rewrite LSS_RETURN_ok. }
  split; intros Hr; unfold pipe_turn, bind at 1, get_hnd; unfold bind at 1; rewrite Epoll; cbn [Z.ltb Z.compare];
    rewrite H0, H1; change (negb (Z.land 0 POLLIN =? 0)) with false; rewrite andb_false_r;
    unfold obind at 1, bind at 1, ret at 1;
    change ((0 <? 1) && negb (Z.land POLLOUT POLLOUT =? 0)) with true; cbv iota;
    unfold NO_INTR, sys_write, syscall_; cbn [NO_INTR_on]; unfold bind, syscall, ret, get_errno; cbn [world errno hnd];
    rewrite Hw.
  - subst r. by rewrite LSS_RETURN_err.
  - rewrite LSS_RETURN_ok, s64_small by lia. cbv beta iota. cbn [errno world hnd].
    rewrite (proj2 (Z.ltb_ge r 0)) by lia. cbn [andb]. by rewrite (proj2 (Z.ltb_ge r 0)) by lia.
Qed.
End Again.

(** C39. When the compressor's pipe is full after all (EAGAIN), [PipeWriter] steps
    back: the next write starts one byte before the buffer and is one byte
    longer, and when it is accepted [PipeWriter] reports success.  The compressor
    is given a byte that does not belong to the core file. *)
Theorem PipeWriter_steps_back {W : Type} `{!KernelIO W} fuel buf nbytes (s : cst W WriterFds) ev1 w1 u1 w2 ev2 w3 u3 w4 :
  (2 < fuel)%nat -> 0 < nbytes < 2 ^ 31 - 1 -> 0 < max_length (hnd s) ->
  default 0 (ev1 !! 0%nat) = 0 -> default 0 (ev1 !! 1%nat) = POLLOUT ->
  default 0 (ev2 !! 0%nat) = 0 -> default 0 (ev2 !! 1%nat) = POLLOUT ->
  let poll := k_poll [(compressed_fd (hnd s), POLLIN); (write_fd (hnd s), POLLOUT)] (-1) in
  poll (world s) = (1, ev1, w1) -> k_write (write_fd (hnd s)) buf nbytes w1 = (- EAGAIN, u1, w2) ->
  poll w2 = (1, ev2, w3) -> k_write (write_fd (hnd s)) (ptr_add buf (-1)) (nbytes + 1) w3 = (nbytes + 1, u3, w4) ->
  PipeWriter fuel buf nbytes s = Ret nbytes (Cst EAGAIN w4 (hnd s)).
Proof.
  intros Hf Hn Hm A1 A2 B1 B2 poll P1 W1 P2 W2. unfold PipeWriter.
  destruct (pipe_turn_write fuel buf nbytes s _ _ _ _ _ ltac:(lia) A1 A2 P1 W1) as [T1 _].
  destruct (pipe_turn_write fuel (ptr_add buf (-1)) (nbytes + 1) (Cst EAGAIN w2 (hnd s)) _ _ _ _ _ ltac:(lia) B1 B2 P2 W2)
    as [_ T2].
  assert (Hstep : forall n b l s1, 0 < l -> hnd s1 = hnd s -> pipe_loop fuel (S n) nbytes b l s1 =
    match pipe_turn fuel b l s1 with
    | Ret (Some (b', l', true)) s2 => pipe_loop fuel n nbytes b' l' s2
    | Ret (Some (_, l', false)) s2 => Ret (nbytes - l') s2
    | Ret None s2 => Ret (-1) s2
    | Exited c s2 => Exited c s2 | Execed p s2 => Execed p s2 | Aborted s2 => Aborted s2
    | OutOfFuel => OutOfFuel
    end).
  { intros n b l s1 Hl Hh. cbn [pipe_loop]. unfold bind at 1, get_hnd. rewrite Hh.
    rewrite (proj2 (Z.ltb_lt 0 (max_length (hnd s)))), (proj2 (Z.ltb_lt 0 l)) by done. cbn [andb]. unfold bind.
    by destruct (pipe_turn fuel b l s1) as [[[[b' l'] []]|] s2| | | |]. }
  assert (Hfu : exists n, fuel = S (S (S n))) by (exists (fuel - 3)%nat; lia). destruct Hfu as [n En].
  rewrite En at 2. rewrite Hstep by (done || lia). rewrite T1 by done. rewrite Hstep by (done || lia).
  rewrite T2 by lia. rewrite Z.sub_diag. cbn [pipe_loop]. unfold bind at 1, get_hnd. cbn [hnd].
  rewrite andb_false_r. unfold ret. f_equal. lia.
Qed.

(** C40. When the compressor has died with its input pipe full and its output read to
    the end, poll keeps reporting an error and a hang-up, which [PipeWriter] does not
    look at: it polls for ever, and the threads of the process stay stopped. *)
Theorem PipeWriter_spins {W : Type} `{!KernelIO W} (dead : W -> Prop) fuel buf nbytes (s : cst W WriterFds) :
  (forall w, dead w -> exists r revents w',
     k_poll [(compressed_fd (hnd s), POLLIN); (write_fd (hnd s), POLLOUT)] (-1) w = (r, revents, w') /\ 0 <= r < 2 ^ 31 /\
     Z.land (default 0 (revents !! 0%nat)) POLLIN = 0 /\ Z.land (default 0 (revents !! 1%nat)) POLLOUT = 0 /\ dead w') ->
  dead (world s) -> 0 < nbytes -> 0 < max_length (hnd s) -> PipeWriter fuel buf nbytes s = OutOfFuel.
Proof.
  intros Hd Hs Hn Hm. unfold PipeWriter. enough (forall n s1, dead (world s1) -> hnd s1 = hnd s ->
    pipe_loop fuel n nbytes buf nbytes s1 = OutOfFuel) by eauto.
  induction n as [|n IH]; intros s1 H1 E1; [done|]. cbn [pipe_loop]. unfold bind at 1, get_hnd. rewrite E1.
  rewrite (proj2 (Z.ltb_lt 0 (max_length (hnd s)))), (proj2 (Z.ltb_lt 0 nbytes)) by done. cbn [andb].
  destruct (Hd _ H1) as (r & revents & w' & Hp & Hr & Hi & Ho & Hd').
  unfold pipe_turn, bind, get_hnd, sys_poll, syscall. rewrite E1, Hp, LSS_RETURN_ok, s32_small by lia. cbn [world errno hnd].
  rewrite (proj2 (Z.ltb_ge r 0)) by lia. rewrite Hi. change (negb (0 =? 0)) with false. rewrite andb_false_r. unfold obind, bind, ret.
  rewrite Ho, andb_false_r. by apply IH.
Qed.

(** ** Instances *)

Definition ex_buf : ptr := local (bytes "hello, core").
Definition ex_simple : cst toy Z := Cst 0 ex_world toy_out.

Lemma c_write_prefix_witness :
  wlp (c_write 200 toy_out ex_buf 11)
    (fun rc s' => hnd s' = hnd ex_simple /\ exists k, 0 <= k <= 11 /\ (rc = k \/ rc = -1) /\
       sink (world s') = sink (world ex_simple) ++ ztake k (content ex_buf 11))
    (fun _ _ => False) ex_simple.
Proof. apply (c_write_prefix 200 ex_buf 11 ex_simple); [done|by_compute]. Defined.

Lemma c_write_whole_witness :
  wp (c_write 200 toy_out ex_buf 11)
    (fun rc s' => rc = 11 /\ hnd s' = hnd ex_simple /\ errno s' = errno ex_simple /\
       sink (world s') = sink (world ex_simple) ++ content ex_buf 11) ex_simple.
Proof. apply (c_write_whole 200 ex_buf 11 ex_simple); [done|by_compute..]. Defined.

(** A descriptor with 250 bytes to read. *)
Definition ex_data : list Z := map Z.of_nat (seq 0 250).
Definition ex_reading : toy := Toy (fun fd => if fd =? 2 then ex_data else []) [2] [] [] 3 2.

Lemma c_read_next_witness :
  wp (c_read 10 2 4096) (fun r s' => 0 <= r.1 <= 4096 /\ r.2 = ztake r.1 (unread ex_reading 2) /\
     zlen r.2 = r.1 /\ unread (world s') 2 = zdrop r.1 (unread ex_reading 2) /\
     (r.1 = 0 -> unread ex_reading 2 = []) /\ errno s' = 0 /\ hnd s' = tt) (Cst 0 ex_reading tt).
Proof. apply (c_read_next 10 2 4096 (Cst 0 ex_reading tt)); [done|by_compute..]. Defined.

Definition ex_limited (m : Z) (w : toy) : cst toy WriterFds := Cst 0 w (mkWriterFds m (-1) 2 toy_out).

Lemma LimitWriter_limit_witness :
  wp (LimitWriter 200 ex_buf 11) (fun rc s' =>
     rc = Z.min 11 5 /\ max_length (hnd s') = 5 - rc /\
     sink (world s') = [] ++ ztake rc (content ex_buf 11)) (ex_limited 5 ex_world).
Proof.
  pose proof (LimitWriter_limit 200 ex_buf 11 (ex_limited 5 ex_world)) as P.
  cbn [hnd ex_limited max_length] in P. apply P; clear P; [done|by_compute| |].
  - split; [done|by_compute].
  - split; [by_compute|done].
Defined.

Lemma FlushPipe_copies_witness :
  wp (FlushPipe ex_fuel) (fun rc s' => rc = 0 /\
     sink (world s') = [] ++ ztake 200 ex_data /\
     max_length (hnd s') = 200 - Z.min 200 (zlen ex_data)) (ex_limited 200 ex_reading).
Proof.
  pose proof (FlushPipe_copies ex_fuel ex_data (ex_limited 200 ex_reading)) as P.
  cbn [hnd ex_limited max_length] in P. apply P; clear P; [by_compute|by_compute|].
  split_and!; try done. split; [by_compute|done].
Defined.

(** A kernel that answers the first write with EAGAIN and accepts the second, and
    keeps what it was asked to write. *)
Module Full.
#[local] Instance full_io : KernelIO (list (ptr * Z)) := {|
  k_read f n w := (- EAGAIN, [], w);
  k_write f p n w := (match w with [] => - EAGAIN | _ => n end, tt, w ++ [(p, n)]);
  k_open p f m w := (- EBADF, tt, w);
  k_close f w := (0, tt, w);
  k_pipe w := (- EBADF, (-1, -1), w);
  k_dup f w := (- EBADF, tt, w);
  k_dup2 f g w := (- EBADF, tt, w);
  k_fcntl f c a w := (0, tt, w);
  k_poll u t w := (1, [0; POLLOUT], w) |}.

Lemma PipeWriter_steps_back_witness :
  PipeWriter 5 (PMem 4096) 64 (Cst 0 [] (mkWriterFds 1000 7 6 1)) =
  Ret 64 (Cst EAGAIN [(PMem 4096, 64); (PMem 4095, 65)] (mkWriterFds 1000 7 6 1)).
Proof.
  apply (PipeWriter_steps_back 5 (PMem 4096) 64 (Cst 0 [] (mkWriterFds 1000 7 6 1))
    [0; POLLOUT] [] tt [(PMem 4096, 64)] [0; POLLOUT] [(PMem 4096, 64)] tt); (done || lia).
Defined.
End Full.

(** A compressor that has died: POLLHUP of its output, POLLERR of its input. *)
Module Dead.
#[local] Instance dead_io : KernelIO unit := {|
  k_read f n w := (0, [], w);
  k_write f p n w := (- 32, tt, w);
  k_open p f m w := (- EBADF, tt, w);
  k_close f w := (0, tt, w);
  k_pipe w := (- EBADF, (-1, -1), w);
  k_dup f w := (- EBADF, tt, w);
  k_dup2 f g w := (- EBADF, tt, w);
  k_fcntl f c a w := (0, tt, w);
  k_poll u t w := (2, [16; 8], w) |}.

Lemma PipeWriter_spins_witness :
  PipeWriter 500 (PMem 4096) 64 (Cst 0 tt (mkWriterFds 1000 7 6 1)) = OutOfFuel.
Proof.
  apply (PipeWriter_spins (fun _ => True) 500 (PMem 4096) 64 (Cst 0 tt (mkWriterFds 1000 7 6 1))); try done.
  intros w _. exists 2, [16; 8], w. split_and!; done.
Defined.
End Dead.
