(* ===== verification/FileOps.v ===== *)
(** Opening and closing files for reading, as the program does it: until the call
    is not interrupted. *)
From S2P Require Import Prelude Syscall KernelSpec CIO.

Section FileOps.
Context {W Hd : Type} `{!KernelIO W} `{!AddressSpace} `{!Files W} `{!Interrupts W}.
Context (fuel : nat).
Implicit Types (s : cst W Hd).

(** Nothing but what concerns descriptor [fd], and perhaps [errno], has changed;
    [n] descriptors more are in use. *)
Definition fd_frame (fd : Z) (n : nat) s s' : Prop :=
  hnd s' = hnd s /\ (intr (world s') <= intr (world s))%nat /\
  (forall f, f <> fd -> unread (world s') f = unread (world s) f) /\
  (forall f, f <> fd -> rd_open (world s) f -> rd_open (world s') f) /\
  (forall f, pipe_of (world s') f = pipe_of (world s) f) /\
  (slots (world s) <= n + slots (world s'))%nat.

Lemma fd_frame_trans fd n m s1 s2 s3 : fd_frame fd n s1 s2 -> fd_frame fd m s2 s3 -> fd_frame fd (n + m) s1 s3.
Proof.
  intros (A1 & A2 & A3 & A4 & A5 & A6) (B1 & B2 & B3 & B4 & B5 & B6).
  split_and!; [congruence|lia| | | |lia]; intros f.
  - intros Hf. by rewrite B3, A3.
  - auto.
  - by rewrite B5, A5.
Qed.

(** At most [n] descriptors more are in use, and nothing else has changed. *)
Definition opened (n : nat) s s' : Prop :=
  hnd s' = hnd s /\ (intr (world s') <= intr (world s))%nat /\
  (forall f, rd_open (world s) f -> rd_open (world s') f /\ unread (world s') f = unread (world s) f) /\
  (forall f, pipe_of (world s') f = pipe_of (world s) f) /\
  (slots (world s) <= n + slots (world s'))%nat.

Lemma opened_trans n m s1 s2 s3 : opened n s1 s2 -> opened m s2 s3 -> opened (n + m) s1 s3.
Proof.
  intros (A1 & A2 & A3 & A4 & A5) (B1 & B2 & B3 & B4 & B5). split_and!; [congruence|lia| | |lia]; intros f.
  - intros Hf. destruct (A3 f Hf) as [Hf2 E]. destruct (B3 f Hf2) as [? E2]. split; [done|congruence].
  - by rewrite B4, A4.
Qed.

Lemma fd_frame_opened fd n s s' : ~ rd_open (world s) fd -> fd_frame fd n s s' -> opened n s s'.
Proof.
  intros Hfd (A1 & A2 & A3 & A4 & A5 & A6). split_and!; auto. intros f Hf. assert (f <> fd) by (intros ->; done). auto.
Qed.

Lemma open_file p s : has_file p -> (0 < slots (world s))%nat -> (intr (world s) < fuel)%nat ->
  wp (NO_INTR fuel (sys_open p O_RDONLY 0)) (fun fd s' => 0 <= fd /\ ~ rd_open (world s) fd /\
    rd_open (world s') fd /\ unread (world s') fd = file_bytes p /\
    (forall f, pipe_of (world s) f <> Some fd) /\ fd_frame fd 1 s s') s.
Proof.
  intros Hf Hsl Hi. unfold sys_open.
  apply (wp_NO_INTR (fun s' => hnd s' = hnd s /\ (intr (world s') <= intr (world s))%nat /\
      reads_same (world s) (world s')) (fun s' => intr (world s'))); [|split_and!; done|done].
  intros s1 r u w' (Hh & Hi1 & Hr1 & Hr2 & Hr3 & Hr4) Hk.
  destruct (k_open_intr _ _ _ _ _ _ _ Hk) as [I1 I2].
  destruct (k_open_frame _ _ _ _ _ _ _ Hk) as (F1 & F2 & F3 & F4 & F5).
  split_and!.
  - intros He Hr. unfold is_err in He. specialize (I2 Hr). cbn. split; [|lia]. split_and!; try done; [lia|].
    split_and!.
    + intros f. rewrite <- Hr1. apply F1. lia.
    + auto.
    + intros f. by rewrite F3.
    + lia.
  - intros He Hne. assert (Hs1 : (0 < slots (world s1))%nat) by lia.
    destruct (k_open_ok _ _ _ _ _ _ Hf Hs1 Hk); unfold is_err in *; lia.
  - intros Hne. destruct (k_open_range _ _ _ _ _ _ _ Hk) as [|Hr]; [done|]. split; [done|].
    destruct (k_open_in _ _ _ _ _ _ Hk (proj1 Hr)) as (Hn & Ho & Hu & _ & Hp). cbn. unfold fd_frame. cbn.
    split_and!; try done; try lia.
    + intros Ho1. apply Hn. auto.
    + intros f. rewrite <- Hr3. apply Hp.
    + intros f Hne'. rewrite <- Hr1. apply F1. auto.
    + auto.
    + intros f. by rewrite F3.
Qed.

Lemma close_file fd s : (intr (world s) < fuel)%nat ->
  wp (NO_INTR fuel (sys_close fd)) (fun _ s' => fd_frame fd 0 s s') s.
Proof.
  intros Hi. unfold sys_close.
  apply (wp_NO_INTR (fun s' => fd_frame fd 0 s s') (fun s' => intr (world s'))); [|split_and!; (done || lia)|done].
  intros s1 r u w' Hf Hk. destruct (k_close_intr _ _ _ _ _ Hk) as [I1 I2].
  destruct (k_close_frame _ _ _ _ _ Hk) as (F1 & F2 & F3 & F4).
  assert (Hf2 : forall e, fd_frame fd 0 s (Cst e w' (hnd s1))).
  { intros e. apply (fd_frame_trans fd 0 0 s s1); [done|]. by split_and!. }
  split_and!; auto.
  intros Hne. destruct (k_close_range _ _ _ _ _ Hk) as [|Er]; [done|]. split; [lia|auto].
Qed.
End FileOps.
