(* ===== verification/ProcIO.v ===== *)
(** Buffered reading of /proc files ([struct io], [GetChar], [GetHexHelper]) and
    [LeadingZeros], from [elfcore.c]. *)
From S2P Require Import Prelude Syscall KernelSpec CIO.

(** [struct io]: the descriptor, and the part of [buf] between [data] and [end]
    (both null at first), that is, what was read and not yet returned. *)
Record io := mkIo { io_fd : Z; io_data : list Z }.

Definition io_buf_size : Z := 4096.

Section ProcIO.
Context {W H : Type} `{KernelIO W}.
Variable fuel : nat.
Abbreviation P A := (M (cst W H) A).

Definition GetChar (i : io) : P (Z * io) :=
  match io_data i with
  | [] =>
      let! (n, buf) := c_read fuel (io_fd i) io_buf_size in
      if n <=? 0 then
        (if n =? 0 then set_errno 0 else ret tt) ;;! ret (-1, i)
      else
        match buf with
        | c :: rest => ret (c, mkIo (io_fd i) rest)
        | [] => ret (-1, i)    (* not reached: [n] bytes were stored *)
        end
  | c :: rest => ret (c, mkIo (io_fd i) rest)
  end.

(** The guard of the loop of [GetHexHelper]. *)
Definition is_hex (ch : Z) : bool :=
  ((ord "0" <=? ch) && (ch <=? ord "9")) ||
  ((ord "A" <=? ch) && (ch <=? ord "F")) ||
  ((ord "a" <=? ch) && (ch <=? ord "f")).

(** [ch < 'A' ? ch - '0' : (ch & 0xF) + 9] *)
Definition hex_digit (ch : Z) : Z :=
  if ch <? ord "A" then ch - ord "0" else Z.land ch 15 + 9.

(** [ *hex = ( *hex << 4) | digit ] on a [size_t] *)
Definition hex_step (hex ch : Z) : Z := Z.lor (u64 (Z.shiftl hex 4)) (hex_digit ch).

Fixpoint GetHexLoop (n : nat) (i : io) (hex : Z) (read_first : bool) (init_char : Z)
    : P (Z * Z * io) :=
  match n with
  | O => out_of_fuel
  | S n' =>
      let! (ch, i) := (if read_first then GetChar i else ret (init_char, i)) in
      if is_hex ch then GetHexLoop n' i (hex_step hex ch) true init_char
      else ret (ch, hex, i)
  end.

(** Returns the first character that is no digit, the number, and the stream. *)
Definition GetHexHelper (i : io) (read_first : bool) (init_char : Z) : P (Z * Z * io) :=
  GetHexLoop fuel i 0 read_first init_char.

Definition GetHex (i : io) : P (Z * Z * io) := GetHexHelper i true 0.

Definition GetHexWithInitChar (i : io) (init_char : Z) : P (Z * Z * io) :=
  GetHexHelper i false init_char.

(** The loop of [LeadingZeros].  [buf] is the page buffer and [pos] the index
    [ptr] points to; a page that cannot be read through the pipe counts as
    zero. *)
Fixpoint LeadingZerosLoop (n : nat) (rd wr mem len pagesize count : Z) (buf : list Z) (pos : nat)
    : P Z :=
  match n with
  | O => out_of_fuel
  | S n' =>
      if count <? len then
        let! p :=
          (if count mod pagesize =? 0 then
             let! rc := c_write fuel wr (PMem (mem + count)) pagesize in
             if rc <? 0 then ret None
             else
               let! (rc, d) := c_read fuel rd pagesize in
               if rc <? 0 then ret None else ret (Some (d ++ zdrop rc buf, 0%nat))
           else ret (Some (buf, pos))) in
        match p with
        | None => LeadingZerosLoop n' rd wr mem len pagesize (count + pagesize) buf pos
        | Some (buf, pos) =>
            if negb (default 0 (buf !! pos) =? 0) then ret count
            else LeadingZerosLoop n' rd wr mem len pagesize (count + 1) buf (S pos)
        end
      else ret count
  end.

(** [uninit] is what the stack holds where [buf] is allocated. *)
Definition LeadingZeros (uninit : list Z) (rd wr mem len pagesize : Z) : P Z :=
  let! count := LeadingZerosLoop fuel rd wr mem len pagesize 0 uninit 0 in
  ret (Z.land count (u64 (Z.lnot (pagesize - 1)))).
End ProcIO.
