(* ===== verification/LeadingZeros.v ===== *)
(** [LeadingZeros] of [elfcore.c]: it counts the pages at the start of a segment
    that are zero or cannot be read, by passing them through a pipe. *)
From S2P Require Import Prelude Syscall KernelSpec ToyKernel CIO ProcIO.

(** What [LeadingZeros] assumes of the pipe: a page of memory can be written to it at
    once when it is empty, unless it cannot be read, and comes out at once. *)
Class PipePage (W : Type) `{Files W} (pagesize : Z) := {
  readable : Z -> bool;
  k_pipe_write : forall fd f a w r u w', pipe_of w fd = Some f -> unread w f = [] -> a mod pagesize = 0 ->
    k_write fd (PMem a) pagesize w = (r, u, w') ->
    (r = - EINTR /\ unread w' f = []) \/
    (if readable a then r = pagesize /\ unread w' f = content (PMem a) pagesize
     else is_err r /\ r <> - EINTR /\ unread w' f = []);
  k_pipe_read : forall fd f w r d w', pipe_of w fd = Some f -> rd_open w f ->
    zlen (unread w f) = pagesize -> k_read f pagesize w = (r, d, w') -> r = - EINTR \/ r = pagesize }.

(** A page that counts as zero. *)
Definition blank `{PipePage W pagesize} (a : Z) : bool :=
  negb (readable a) || forallb (fun b => b =? 0) (content (PMem a) pagesize).

(** The number of blank pages at the start of the [n] pages at [mem]. *)
Fixpoint blank_pages `{PipePage W pagesize} (n : nat) (mem : Z) : nat :=
  match n with
  | O => O
  | S n' => if blank mem then S (blank_pages n' (mem + pagesize)) else O
  end.

Lemma page_mask k n : 0 <= k < 64 -> 0 <= n < 2 ^ 64 ->
  Z.land n (u64 (Z.lnot (2 ^ k - 1))) = 2 ^ k * (n / 2 ^ k).
Proof.
  intros Hk Hn. unfold u64. assert (Hp : 0 < 2 ^ k) by (apply Z.pow_pos_nonneg; lia).
  rewrite <- Z.land_ones, Z.land_assoc by lia.
  assert (E : Z.land n (Z.lnot (2 ^ k - 1)) = 2 ^ k * (n / 2 ^ k)).
  { change (2 ^ k - 1) with (Z.pred (2 ^ k)). rewrite <- Z.ones_equiv, <- Z.ldiff_land.
    rewrite Z.ldiff_ones_r, Z.shiftr_div_pow2, Z.shiftl_mul_pow2 by lia. lia. }
  rewrite E, Z.land_ones by lia. apply Z.mod_small.
  pose proof (Z.mul_div_le n (2 ^ k) Hp). pose proof (Z.div_pos n (2 ^ k)). nia.
Qed.

Section LeadingZeros.
Context {W Hd : Type} `{!KernelIO W} `{!AddressSpace} `{!Files W} `{!Interrupts W} {pagesize : Z}
  `{!PipePage W pagesize}.
Context (fuel : nat) (rd wr : Z) (s0 : cst W Hd).
Hypothesis (page_pos : 0 < pagesize < SSIZE_LIM).
Hypothesis (fuel_page : pagesize < Z.of_nat fuel).
Implicit Types (s : cst W Hd).

(** The pipe holds [l], and nothing else has changed since [s0]. *)
Definition piped (l : list Z) s : Prop :=
  pipe_of (world s) wr = Some rd /\ rd_open (world s) rd /\ unread (world s) rd = l /\
  (intr (world s) <= intr (world s0))%nat /\ hnd s = hnd s0 /\ rd_frame rd (world s0) (world s).

Lemma piped_write l w' e s : piped l s -> (exists p n r u, k_write wr p n (world s) = (r, u, w')) ->
  piped (unread w' rd) (Cst e w' (hnd s)).
Proof.
  intros (Hp & Ho & _ & Hi & Hh & Hf) (p & n & r & u & Hk).
  destruct (k_write_frame _ _ _ _ _ _ _ Hk) as (F1 & F2 & F3 & F4).
  destruct (k_write_intr _ _ _ _ _ _ _ Hk) as [I1 _].
  split_and!; cbn; auto; [by rewrite F3|lia|].
  eapply rd_frame_trans; [exact Hf|]. split_and!; auto. intros f Hne. apply F1. congruence.
Qed.

Lemma write_page a s : a mod pagesize = 0 -> piped [] s -> (intr (world s) < fuel)%nat ->
  wp (c_write fuel wr (PMem a) pagesize) (fun rc s' =>
    if readable a then rc = pagesize /\ piped (content (PMem a) pagesize) s'
    else rc < 0 /\ piped [] s') s.
Proof.
  intros Ha Hpi Hfi. unfold c_write. assert (Hn : (1 < fuel)%nat) by lia. revert Hn. generalize fuel at 1 3.
  intros n Hn. destruct n as [|[|n]]; [lia..|]. cbn [c_write_loop]. destruct (0 <? pagesize) eqn:E0; b2p; [|lia]. wp_step.
  apply (wp_MY_NO_INTR (fun s' => piped [] s') (fun s' => intr (world s'))); [|done|done].
  intros my s1 Hp1. apply wp_syscall0. intros r u w' Hk.
  assert (Hw : forall e, piped (unread w' rd) (Cst e w' (hnd s1))).
  { intros e. eapply piped_write; [exact Hp1|]. by exists (PMem a), pagesize, r, u. }
  pose proof Hp1 as (P1 & P2 & P3 & _).
  destruct (k_write_intr _ _ _ _ _ _ _ Hk) as [_ Hi].
  destruct (k_pipe_write _ _ _ _ _ _ _ P1 P3 Ha Hk) as [[-> Hu]|Hr].
  - rewrite LSS_RETURN_err by done. cbn. split; [|by intros []].
    intros _ _. split; [|auto]. specialize (Hw EINTR). rewrite Hu in Hw. exact Hw.
  - destruct (readable a).
    + destruct Hr as [-> Hu]. unfold SSIZE_LIM in *. rewrite LSS_RETURN_ok, s64_small by lia. cbn. split; [lia|].
      intros _. destruct (pagesize <? 0) eqn:E1; b2p; [lia|]. destruct (pagesize =? 0) eqn:E2; b2p; [lia|].
      rewrite Z.sub_diag. change (0 <? 0) with false. cbv iota. apply wp_ret.
      split; [lia|]. specialize (Hw (errno s1)). rewrite Hu in Hw. exact Hw.
    + destruct Hr as (He & Hne & Hu). rewrite LSS_RETURN_err by done. cbn. split.
      { intros _ Hr. unfold EINTR in *. lia. }
      intros _. split; [done|]. specialize (Hw (errno s1)). rewrite Hu in Hw. exact Hw.
Qed.

Lemma read_page l s : zlen l = pagesize -> piped l s -> (intr (world s) < fuel)%nat ->
  wp (c_read fuel rd pagesize) (fun r s' => r = (pagesize, l) /\ piped [] s') s.
Proof.
  intros Hl Hpi Hfi. unfold c_read. destruct (0 <? pagesize) eqn:E0; b2p; [|lia]. wp_step.
  apply (wp_MY_NO_INTR (fun s' => piped l s') (fun s' => intr (world s'))); [|done|done].
  intros my s1 (P1 & P2 & P3 & P4 & P5 & P6). apply wp_syscall0. intros r d w' Hk.
  pose proof (k_read_frame _ _ _ _ _ _ Hk) as Hfr. pose proof Hfr as (_ & F2 & F3 & _).
  destruct (k_read_intr _ _ _ _ _ _ Hk) as [I1 I2].
  assert (Hw : forall e, piped (unread w' rd) (Cst e w' (hnd s1))).
  { intros e. split_and!; cbn; auto; [by rewrite F3|lia|]. eapply rd_frame_trans; [exact P6|exact Hfr]. }
  assert (Hz : zlen (unread (world s1) rd) = pagesize) by by rewrite P3.
  unfold SSIZE_LIM in *.
  destruct (k_pipe_read _ _ _ _ _ _ P1 P2 Hz Hk) as [->|Hr],
    (k_read_in _ _ _ _ _ _ P2 E0 Hk) as [[He Hu]|(H0 & Hd1 & Hl1 & Hu & _)];
    try (unfold is_err, EINTR in *; lia).
  - rewrite LSS_RETURN_err by done. cbn. split; [|by intros []]. intros _ _. split; [|auto].
    specialize (Hw EINTR). rewrite Hu, P3 in Hw. exact Hw.
  - subst r. rewrite LSS_RETURN_ok, s64_small by lia. cbn. split; [lia|]. intros _.
    destruct (pagesize <? 0) eqn:E1; b2p; [lia|]. apply wp_ret. rewrite P3 in *. split.
    + f_equal. rewrite Hd1. apply ztake_all. lia.
    + specialize (Hw (errno s1)). rewrite Hu, zdrop_all in Hw by lia. exact Hw.
Qed.

(** *** The loop *)

Context (mem len : Z).
Hypothesis (aligned : mem mod pagesize = 0).

(** What the loop returns from page [j] on, with [m] pages to come. *)
Definition counted (j m : nat) (c : Z) s : Prop :=
  c / pagesize = Z.of_nat j + Z.of_nat (blank_pages m (mem + pagesize * Z.of_nat j)) /\
  0 <= c <= len /\ piped [] s.

Abbreviation loop n count buf pos := (LeadingZerosLoop fuel n rd wr mem len pagesize count buf pos).

Lemma counted_nonblank j m L a b c s : 0 <= c <= len ->
  pagesize * Z.of_nat j <= c < pagesize * Z.of_nat j + pagesize -> piped [] s ->
  readable (mem + pagesize * Z.of_nat j) = true -> content (PMem (mem + pagesize * Z.of_nat j)) pagesize = L ->
  L = a ++ b -> head b <> Some 0 -> b <> [] -> counted j (S m) c s.
Proof.
  intros Hc Hj Hp Hr HL Hab Hb Hne. split; [|done]. cbn [blank_pages].
  assert (E : blank (mem + pagesize * Z.of_nat j) = false).
  { unfold blank. rewrite Hr. cbn [negb orb]. rewrite HL, Hab. destruct b as [|x b]; [done|].
    rewrite forallb_app. cbn [forallb]. rewrite (proj2 (Z.eqb_neq x 0)) by (intros ->; done).
    apply andb_false_r. }
  rewrite E. symmetry. apply Z.div_unique with (c - pagesize * Z.of_nat j); lia.
Qed.

Lemma counted_blank j m c s : blank (mem + pagesize * Z.of_nat j) = true -> counted (S j) m c s -> counted j (S m) c s.
Proof.
  intros E (Hc & Hl & Hp). split; [|done]. cbn [blank_pages]. rewrite E.
  replace (mem + pagesize * Z.of_nat j + pagesize) with (mem + pagesize * Z.of_nat (S j)) by lia. lia.
Qed.

(** The bytes of a page that has been read. *)
Lemma scan_page j m L rest : len = pagesize * Z.of_nat (j + S m) -> zlen L = pagesize ->
  readable (mem + pagesize * Z.of_nat j) = true -> content (PMem (mem + pagesize * Z.of_nat j)) pagesize = L ->
  (forall n buf pos s, piped [] s -> pagesize * Z.of_nat m < Z.of_nat n ->
     wp (loop n (pagesize * Z.of_nat (S j)) buf pos) (counted (S j) m) s) ->
  forall todo seen n s, L = seen ++ todo -> Forall (fun b => b = 0) seen -> todo <> [] ->
  piped [] s -> zlen todo + pagesize * Z.of_nat m <= Z.of_nat n ->
  wp (if negb (default 0 ((L ++ rest) !! length seen) =? 0) then ret (pagesize * Z.of_nat j + zlen seen)
      else loop n (pagesize * Z.of_nat j + zlen seen + 1) (L ++ rest) (S (length seen)))
    (counted j (S m)) s.
Proof.
  intros Hlen HL Hr Hc Hnext. induction todo as [|b todo IH]; intros seen n s HLs Hseen Hne Hp Hn; [done|].
  assert (Hlook : (L ++ rest) !! length seen = Some b).
  { rewrite HLs, <- app_assoc, lookup_app_r, Nat.sub_diag by lia. done. }
  rewrite Hlook. change (default 0 (Some b)) with b. pose proof HL as HL'. rewrite HLs, zlen_app, zlen_cons in HL'.
  pose proof (zlen_nonneg seen). pose proof (zlen_nonneg todo). rewrite zlen_cons in Hn.
  destruct (b =? 0) eqn:Eb; b2p; cbn [negb].
  2:{ apply wp_ret. eapply (counted_nonblank j m L seen (b :: todo)); eauto; [nia|lia|cbn; congruence]. }
  subst b. destruct todo as [|b todo].
  - rewrite zlen_nil in *.
    replace (pagesize * Z.of_nat j + zlen seen + 1) with (pagesize * Z.of_nat (S j)) by lia.
    eapply wp_mono; [apply Hnext; [done|lia]|]. cbn beta. intros c s' Hc'. apply counted_blank; [|done].
    unfold blank. rewrite Hc, HLs, forallb_app. cbn [forallb]. rewrite !andb_true_r.
    apply orb_true_iff. right. apply forallb_forall. intros x Hx. rewrite Forall_forall in Hseen.
    by apply Z.eqb_eq, Hseen, list_elem_of_In.
  - destruct n as [|n]; [rewrite zlen_cons in Hn; pose proof (zlen_nonneg todo); nia|]. cbn [LeadingZerosLoop].
    rewrite zlen_cons in *. pose proof (zlen_nonneg todo).
    destruct (_ <? len) eqn:E1; b2p; [|nia].
    assert (Em : (pagesize * Z.of_nat j + zlen seen + 1) mod pagesize = zlen seen + 1).
    { symmetry. apply Z.mod_unique with (Z.of_nat j); lia. }
    rewrite Em. destruct (zlen seen + 1 =? 0) eqn:E2; b2p; [lia|]. wp_step. apply wp_ret.
    assert (Hs : length (seen ++ [0]) = S (length seen)) by (rewrite length_app; cbn; lia).
    assert (Hz : zlen (seen ++ [0]) = zlen seen + 1) by by rewrite zlen_app.
    specialize (IH (seen ++ [0]) n s). rewrite Hs, Hz, Z.add_assoc in IH.
    apply IH; [by rewrite <- app_assoc|apply Forall_app; split; [done|by repeat constructor]|done|done|].
    lia.
Qed.

Lemma LeadingZerosLoop_spec m : forall j n buf pos s, len = pagesize * Z.of_nat (j + m) -> piped [] s ->
  (intr (world s0) < fuel)%nat -> pagesize * Z.of_nat m < Z.of_nat n ->
  wp (loop n (pagesize * Z.of_nat j) buf pos) (counted j m) s.
Proof.
  induction m as [|m IH]; intros j n buf pos s Hlen Hp Hf Hn; (destruct n as [|n]; [nia|]); cbn [LeadingZerosLoop].
  { destruct (_ <? len) eqn:E; b2p; [nia|]. apply wp_ret. split; [|split; [nia|done]].
    cbn [blank_pages]. rewrite Z.mul_comm, Z.div_mul by lia. lia. }
  destruct (_ <? len) eqn:E; b2p; [|nia].
  rewrite Z.mul_comm, Z.mod_mul, Z.eqb_refl by lia. rewrite Z.mul_comm. wp_step. wp_step.
  assert (Hi : forall l s, piped l s -> (intr (world s) < fuel)%nat).
  { intros l s1 (_ & _ & _ & Hi & _). lia. }
  assert (Hal : (mem + pagesize * Z.of_nat j) mod pagesize = 0) by by rewrite Z.mul_comm, Z.mod_add by lia.
  eapply wp_mono; [apply write_page; eauto|]. intros rc s1 Hrc.
  destruct (readable (mem + pagesize * Z.of_nat j)) eqn:Er.
  - destruct Hrc as [-> Hp1]. rewrite (proj2 (Z.ltb_ge pagesize 0)) by lia. wp_step.
    assert (Hz : zlen (content (PMem (mem + pagesize * Z.of_nat j)) pagesize) = pagesize).
    { apply zlen_content_mem. lia. }
    eapply wp_mono; [apply (read_page _ _ Hz Hp1); eauto|]. intros r s2 (-> & Hp2).
    rewrite (proj2 (Z.ltb_ge pagesize 0)) by lia. apply wp_ret.
    pose proof (scan_page j m (content (PMem (mem + pagesize * Z.of_nat j)) pagesize) (zdrop pagesize buf)
      Hlen Hz Er eq_refl) as Hs.
    specialize (Hs ltac:(intros; apply IH; auto; lia) (content (PMem (mem + pagesize * Z.of_nat j)) pagesize) [] n s2).
    cbn [length] in Hs. change (zlen (@nil Z)) with 0 in Hs. rewrite !Z.add_0_r in Hs. apply Hs; auto; [|lia].
    intros E0. rewrite E0, zlen_nil in Hz. lia.
  - destruct Hrc as [Hneg Hp1]. rewrite (proj2 (Z.ltb_lt rc 0)) by done. apply wp_ret.
    replace (pagesize * Z.of_nat j + pagesize) with (pagesize * Z.of_nat (S j)) by lia.
    eapply wp_mono; [apply IH; auto; [lia|nia]|]. intros c s' Hc. apply counted_blank; [|done].
    unfold blank. by rewrite Er.
Qed.
End LeadingZeros.

(** The result, when the page size is a power of two and the segment consists of
    pages. *)
Lemma LeadingZeros_pages {W Hd : Type} `{!KernelIO W} `{!AddressSpace} `{!Files W} `{!Interrupts W} {k : Z}
    `{!PipePage W (2 ^ k)} fuel uninit rd wr mem (n : nat) (s : cst W Hd) :
  0 <= k < 63 -> mem mod 2 ^ k = 0 -> 2 ^ k * Z.of_nat n < Z.of_nat fuel -> 2 ^ k < Z.of_nat fuel -> 2 ^ k * Z.of_nat n < 2 ^ 64 ->
  (intr (world s) < fuel)%nat -> pipe_of (world s) wr = Some rd -> rd_open (world s) rd ->
  unread (world s) rd = [] ->
  wp (LeadingZeros fuel uninit rd wr mem (2 ^ k * Z.of_nat n) (2 ^ k)) (fun z s' =>
    z = 2 ^ k * Z.of_nat (blank_pages n mem) /\ piped rd wr s [] s') s.
Proof.
  intros Hk Hal Hf1 Hf2 Hlen Hi Hp Ho Hu. unfold LeadingZeros.
  assert (Hpos : 0 < 2 ^ k < SSIZE_LIM).
  { unfold SSIZE_LIM. split; [apply Z.pow_pos_nonneg; lia|apply Z.pow_lt_mono_r; lia]. }
  pose proof (LeadingZerosLoop_spec fuel rd wr s Hpos Hf2 mem (2 ^ k * Z.of_nat n) Hal n 0 fuel uninit 0 s) as Hloop.
  rewrite Z.mul_0_r in Hloop. wp_step.
  eapply wp_mono; [apply Hloop; auto; split_and!; auto with coredump|].
  intros c s' (Hc & Hl & Hp'). apply wp_ret. split; [|done].
  rewrite page_mask by lia. rewrite Hc. rewrite Z.mul_0_r, Z.add_0_r. lia.
Qed.

(** C18. [LeadingZeros] terminates and returns the size of the longest run of
    pages at the start of a segment, which starts with a page, that are zero or cannot be read; the rest
    of the world, and the pipe it uses, are left as they were. *)
Theorem LeadingZeros_skips {W Hd : Type} `{!KernelIO W} `{!AddressSpace} `{!Files W} `{!Interrupts W} {k : Z}
    `{!PipePage W (2 ^ k)} fuel uninit rd wr mem (n : nat) (s : cst W Hd) :
  0 <= k < 63 -> mem mod 2 ^ k = 0 -> 2 ^ k * Z.of_nat n < Z.of_nat fuel -> 2 ^ k < Z.of_nat fuel -> 2 ^ k * Z.of_nat n < 2 ^ 64 ->
  (intr (world s) < fuel)%nat -> pipe_of (world s) wr = Some rd -> rd_open (world s) rd ->
  unread (world s) rd = [] ->
  wp (LeadingZeros fuel uninit rd wr mem (2 ^ k * Z.of_nat n) (2 ^ k)) (fun z s' =>
    exists m : nat, z = 2 ^ k * Z.of_nat m /\ (m <= n)%nat /\
      (forall j : nat, (j < m)%nat -> blank (pagesize := 2 ^ k) (mem + 2 ^ k * Z.of_nat j) = true) /\
      ((m < n)%nat -> blank (pagesize := 2 ^ k) (mem + z) = false) /\
      hnd s' = hnd s /\ reads_same (world s) (world s')) s.
Proof.
  intros. eapply wp_mono; [by apply LeadingZeros_pages|]. intros z s' (Hz & P1 & P2 & P3 & P4 & P5 & F1 & F2 & F3 & F4).
  exists (blank_pages n mem). split; [done|]. assert (Hb : forall n a, (blank_pages n a <= n)%nat /\
    (forall j : nat, (j < blank_pages n a)%nat -> blank (pagesize := 2 ^ k) (a + 2 ^ k * Z.of_nat j) = true) /\
    ((blank_pages n a < n)%nat -> blank (pagesize := 2 ^ k) (a + 2 ^ k * Z.of_nat (blank_pages n a)) = false)).
  { clear. induction n as [|n IH]; intros a; cbn [blank_pages]; [split_and!; lia|].
    destruct (blank a) eqn:E; [|split_and!; [lia|lia|by rewrite Z.mul_0_r, Z.add_0_r]].
    destruct (IH (a + 2 ^ k)) as (B1 & B2 & B3). split_and!; [lia| |].
    - intros [|j] Hj; [by rewrite Z.mul_0_r, Z.add_0_r|]. rewrite <- (B2 j) by lia. f_equal. lia.
    - intros Hlt. rewrite <- B3 by lia. f_equal. lia. }
  destruct (Hb n mem) as (B1 & B2 & B3). rewrite Hz. split_and!; try done.
  split_and!; auto. intros f. destruct (decide (f = rd)) as [->|]; [congruence|auto].
Qed.

(** *** On the example kernel *)

Lemma toy_pipe_page `{AddressSpace} files faulty chunk (pagesize : Z) : 0 < pagesize <= chunk ->
  @PipePage toy (ToyIO files faulty chunk) _ (ToyFiles files faulty chunk) pagesize.
Proof.
  intros Hp. refine {| readable a := negb (faulty a) |}.
  - intros fd f a w r u w' Hpi Hu _ Hk. cbn [k_write ToyIO] in Hk. unfold toy_write in Hk. cbn in Hpi, Hu.
    rewrite Hpi, Hu in Hk. cbn [ptr_faulty app] in Hk.
    destruct (t_intr w) as [|i]; [|injection Hk as <- <- <-; by left]. right.
    destruct (faulty a); injection Hk as <- <- <-; cbn [negb].
    + split_and!; [|done|done]. unfold is_err, EFAULT. lia.
    + split; [lia|]. cbn [unread ToyFiles t_unread]. rewrite upd_same. replace (Z.max 0 (pagesize `min` Z.max 1 chunk)) with pagesize by lia.
      apply ztake_all. rewrite zlen_content_mem; lia.
  - intros fd f w r d w' Hpi Ho Hz Hk. cbn [k_read ToyIO] in Hk. unfold toy_read in Hk. cbn in Ho, Hz. rewrite Ho in Hk.
    destruct (t_intr w) as [|i]; injection Hk as <- <- <-; [right; lia|by left].
Defined.

#[export] Instance ex_pipe_page : PipePage toy (2 ^ 6) :=
  toy_pipe_page ex_files (fun _ => false) 100 (2 ^ 6) ltac:(lia).

(** A pipe: 3 is its read end, 4 its write end. *)
Definition ex_piped : toy := Toy (fun _ => []) [3] [(4, 3)] [] 5 2.

(** The page at 4096 is zero, the one at 4160 is not. *)
Lemma LeadingZeros_skips_witness :
  wp (LeadingZeros 300 [] 3 4 4096 (2 ^ 6 * 3) (2 ^ 6)) (fun z s' =>
    exists m : nat, z = 2 ^ 6 * Z.of_nat m /\ (m <= 3)%nat /\
      (forall j : nat, (j < m)%nat -> blank (pagesize := 2 ^ 6) (4096 + 2 ^ 6 * Z.of_nat j) = true) /\
      ((m < 3)%nat -> blank (pagesize := 2 ^ 6) (4096 + z) = false) /\
      hnd s' = tt /\ reads_same ex_piped (world s')) (Cst 0 ex_piped tt).
Proof. apply (LeadingZeros_skips 300 [] 3 4 4096 3 (Cst 0 ex_piped tt)); (done || by_compute). Defined.
