(* ===== verification/Smaps.v ===== *)
(** Reading the memory mappings: the part of [CreateElfCore] in [elfcore.c] that
    counts the lines of /proc/self/maps and parses /proc/self/smaps into the
    [mappings] array. *)
From S2P Require Import Prelude Syscall KernelSpec CIO ProcIO.

Definition PF_X : Z := 1.
Definition PF_W : Z := 2.
Definition PF_R : Z := 4.
Definition PF_MASK : Z := 7.
Definition FNAME_MAX : Z := 256.

(** [struct mapping]; [name] holds the [name_len] bytes before the NUL. *)
Record mapping := mkMapping {
  start_address : Z;
  end_address : Z;
  offset : Z;
  write_size : Z;
  flags : Z;
  is_anon : bool;
  name : list Z }.

Definition name_len (m : mapping) : Z := zlen (name m).

Definition set_write_size (n : Z) (m : mapping) : mapping :=
  mkMapping (start_address m) (end_address m) (offset m) n (flags m) (is_anon m) (name m).

(** The header line of a segment, as read. *)
Record header := mkHeader {
  h_start : Z;
  h_end : Z;
  h_flags : Z;
  h_offset : Z;
  h_name : list Z }.

Definition nl : Z := 10.
Definition sp : Z := ord " ".

(** [is_device]: a path under /dev/ other than /dev/zero. *)
Definition DEV_PATH : list Z := bytes "/dev/".
Definition DEV_ZERO : list Z := bytes "zero".
Definition DEV_PLEN : Z := zlen DEV_PATH.
Definition DEV_ZLEN : Z := zlen DEV_ZERO.

Definition is_device (nm : list Z) : bool :=
  (DEV_PLEN <=? zlen nm) &&
  bool_decide (ztake DEV_PLEN nm = DEV_PATH) &&
  (negb (zlen nm =? DEV_PLEN + DEV_ZLEN) ||
   negb (bool_decide (ztake DEV_ZLEN (zdrop DEV_PLEN nm) = DEV_ZERO))).

(** [mapp->is_anon = !mapp->name_len || mapp->name[0] == '['] *)
Definition name_is_anon (nm : list Z) : bool :=
  match nm with
  | [] => true
  | c :: _ => c =? ord "["
  end.

(** The loop that trims trailing spaces. *)
Fixpoint trim_leading (l : list Z) : list Z :=
  match l with
  | c :: l' => if c =? sp then trim_leading l' else l
  | [] => []
  end.

Definition trim_trailing (l : list Z) : list Z := rev (trim_leading (rev l)).

Section Smaps.
Context {W H : Type} `{KernelIO W} `{AddressSpace}.
Variable fuel : nat.
(** aarch64 also treats the [pf] flag as "don't dump". *)
Variable aarch64 : bool.
Abbreviation P A := (M (cst W H) A).

(** [while ((ch = GetChar(&io)) >= 0) num_mappings += (ch == '\n')] *)
Fixpoint count_lines (n : nat) (i : io) (num_mappings : Z) : P (Z * io) :=
  match n with
  | O => out_of_fuel
  | S n' =>
      let! (ch, i) := GetChar fuel i in
      if 0 <=? ch then count_lines n' i (s32 (num_mappings + (if ch =? nl then 1 else 0)))
      else ret (num_mappings, i)
  end.

(** Read flags: one bit per character up to the next space ([uint16_t]). *)
Fixpoint read_flags (n : nat) (i : io) (fl : Z) : P (option (Z * io)) :=
  match n with
  | O => out_of_fuel
  | S n' =>
      let! (ch, i) := GetChar fuel i in
      if ch =? sp then ret (Some (fl, i))
      else if ch <? 0 then ret None
      else read_flags n' i
             (Z.lor (u16 (Z.shiftl fl 1)) (if ch =? ord "-" then 0 else 1))
  end.

(** [while (ch == ' ') ch = GetChar(&io)] *)
Fixpoint skip_spaces (n : nat) (ch : Z) (i : io) : P (Z * io) :=
  match n with
  | O => out_of_fuel
  | S n' =>
      if ch =? sp then let! (ch, i) := GetChar fuel i in skip_spaces n' ch i
      else ret (ch, i)
  end.

(** [while (ch != ' ' && ch != '\n') { if (ch < 0) goto read_error; ch = GetChar(&io); }] *)
Fixpoint skip_word (n : nat) (ch : Z) (i : io) : P (option (Z * io)) :=
  match n with
  | O => out_of_fuel
  | S n' =>
      if negb (ch =? sp) && negb (ch =? nl) then
        if ch <? 0 then ret None
        else let! (ch, i) := GetChar fuel i in skip_word n' ch i
      else ret (Some (ch, i))
  end.

(** Device numbers or inode number, with the spaces around. *)
Definition skip_field (ch : Z) (i : io) : P (option (Z * io)) :=
  let! (ch, i) := skip_spaces fuel ch i in
  let? (ch, i) := skip_word fuel ch i in
  let! (ch, i) := skip_spaces fuel ch i in
  ret (Some (ch, i)).

(** Remember the file name, truncated to FNAME_MAX-1 bytes. *)
Fixpoint read_name (n : nat) (ch : Z) (i : io) (acc : list Z) : P (option (list Z * io)) :=
  match n with
  | O => out_of_fuel
  | S n' =>
      if negb (ch =? nl) then
        if ch <? 0 then ret None
        else
          let acc := if zlen acc <? FNAME_MAX - 1 then acc ++ [ch] else acc in
          let! (ch, i) := GetChar fuel i in
          read_name n' ch i acc
      else ret (Some (trim_trailing acc, i))
  end.

(** [while (ch != '\n') { if (ch < 0) goto read_error; ch = GetChar(&io); }] *)
Fixpoint skip_line (n : nat) (ch : Z) (i : io) : P (option io) :=
  match n with
  | O => out_of_fuel
  | S n' =>
      if negb (ch =? nl) then
        if ch <? 0 then ret None
        else let! (ch, i) := GetChar fuel i in skip_line n' ch i
      else ret (Some i)
  end.

(** The header line; [ch] is its first character.  [None] is [goto read_error]. *)
Definition read_header (ch : Z) (i : io) : P (option (header * io)) :=
  let! (c1, start, i) := GetHexWithInitChar fuel i ch in
  if negb (c1 =? ord "-") then ret None
  else
    let! (c2, end_, i) := GetHex fuel i in
    if negb (c2 =? sp) then ret None
    else
      let? (fl, i) := read_flags fuel i 0 in
      let! (ch, off, i) := GetHex fuel i in
      if negb (ch =? sp) then ret None
      else
        let? (ch, i) := skip_field ch i in
        let? (ch, i) := skip_field ch i in
        let? (nm, i) := read_name fuel ch i [] in
        ret (Some (mkHeader start end_ fl off nm, i)).

(** [while ( *str && ch == *str) { ch = GetChar(&io); ++str; }]: the character
    reached, and whether the whole keyword was matched. *)
Fixpoint match_keyword (str : list Z) (ch : Z) (i : io) : P (Z * bool * io) :=
  match str with
  | [] => ret (ch, true, i)
  | c :: str' =>
      if ch =? c then let! (ch, i) := GetChar fuel i in match_keyword str' ch i
      else ret (ch, false, i)
  end.

(** [while (ch >= 'a' && ch <= 'z') ch = GetChar(&io)] *)
Fixpoint skip_letters (n : nat) (ch : Z) (i : io) : P (Z * io) :=
  match n with
  | O => out_of_fuel
  | S n' =>
      if (ord "a" <=? ch) && (ch <=? ord "z") then
        let! (ch, i) := GetChar fuel i in skip_letters n' ch i
      else ret (ch, i)
  end.

(** If [ch] is the first letter [c] of a two-letter flag, read the second one
    and report whether it is [d]. *)
Definition check_flag (c d ch : Z) (i : io) : P (bool * Z * io) :=
  if ch =? c then
    let! (ch, i) := GetChar fuel i in ret (ch =? d, ch, i)
  else ret (false, ch, i).

(** The flags after [VmFlags:]; the boolean is [dontdump]. *)
Fixpoint read_vmflags (n : nat) (ch : Z) (i : io) : P (bool * Z * io) :=
  match n with
  | O => out_of_fuel
  | S n' =>
      if ch =? sp then
        let! (ch, i) := skip_spaces fuel ch i in
        let! (dd, ch, i) := check_flag (ord "d") (ord "d") ch i in
        if dd then ret (true, ch, i)
        else
          let! (pf, ch, i) :=
            (if aarch64 then check_flag (ord "p") (ord "f") ch i else ret (false, ch, i)) in
          if pf then ret (true, ch, i)
          else
            let! (ch, i) := skip_letters fuel ch i in
            read_vmflags n' ch i
      else ret (false, ch, i)
  end.

(** The [switch (ch)]: updated [has_anonymous_pages], [dontdump] and [ch];
    [None] is [goto read_error]. *)
Definition read_detail (ch : Z) (i : io) (has_anon : bool) : P (option (bool * bool * Z * io)) :=
  if ch =? ord "A" then
    let! (ch, found, i) := match_keyword (bytes "Anonymous:") ch i in
    if found : bool then
      let! (ch, i) := skip_spaces fuel ch i in
      if (ch <? ord "0") || (ord "9" <? ch) then ret None
      else ret (Some (negb (ch =? ord "0"), false, ch, i))
    else ret (Some (has_anon, false, ch, i))
  else if ch =? ord "V" then
    let! (ch, found, i) := match_keyword (bytes "VmFlags:") ch i in
    if found : bool then
      let! (dontdump, ch, i) := read_vmflags fuel ch i in
      ret (Some (has_anon, dontdump, ch, i))
    else ret (Some (has_anon, false, ch, i))
  else ret (Some (has_anon, false, ch, i)).

(** [ch < 1 || (ch >= '0' && ch <= '9') || (ch >= 'a' && ch <= 'f')]: end of
    file, or the start of the next segment. *)
Definition ends_details (ch : Z) : bool :=
  (ch <? 1) || ((ord "0" <=? ch) && (ch <=? ord "9")) || ((ord "a" <=? ch) && (ch <=? ord "f")).

(** The loop over the lines that follow a header: has_anonymous_pages,
    dontdump, and the character that ended it. *)
Fixpoint read_details (n : nat) (device dontdump has_anon : bool) (i : io)
    : P (option (bool * bool * Z * io)) :=
  match n with
  | O => out_of_fuel
  | S n' =>
      let! (ch, i) := GetChar fuel i in
      if ends_details ch then ret (Some (has_anon, dontdump, ch, i))
      else if device || dontdump then read_details n' device dontdump has_anon i
      else
        let? (has_anon, dd, ch, i) := read_detail ch i has_anon in
        let? i := skip_line fuel ch i in
        read_details n' device dd has_anon i
  end.

(** Drop the private/shared bit. *)
Definition access_flags (fl : Z) : Z := Z.land (Z.shiftr fl 1) PF_MASK.

(** The first four bytes of a segment are ELFMAG. *)
Definition has_elf_magic (a : Z) : bool :=
  (peek a =? 127) && (peek (a + 1) =? ord "E") &&
  (peek (a + 2) =? ord "L") && (peek (a + 3) =? ord "F").

(** The amount of a segment's content to write. *)
Definition segment_write_size (anon has_anon : bool) (fl off start end_ pagesize : Z) : Z :=
  if anon || has_anon || negb (Z.land fl PF_W =? 0) then u64 (end_ - start)
  else if negb anon && (off =? 0) && negb (Z.land fl PF_R =? 0) && has_elf_magic start
  then pagesize
  else 0.

Variable uninit : list Z.

(** From the end of the details to the end of the loop body: [None] when the
    segment is not kept. *)
Definition keep_segment (rd wr pagesize : Z) (h : header) (has_anon dontdump : bool)
    : P (option mapping) :=
  let fl := access_flags (h_flags h) in
  let anon := name_is_anon (h_name h) in
  if is_device (h_name h) || dontdump || (Z.land fl PF_R =? 0) then ret None
  else
    let! z := LeadingZeros fuel uninit rd wr (h_start h) (u64 (h_end h - h_start h)) pagesize in
    let start := u64 (h_start h + z) in
    if h_end h =? start then ret None
    else
      ret (Some (mkMapping start (h_end h) (h_offset h)
                   (segment_write_size anon has_anon fl (h_offset h) start (h_end h) pagesize)
                   fl anon (h_name h))).

(** The loop over the segments: [n] is [endmap - mapp], the number of array
    slots left, [kept] the mappings before [mapp], last one first. *)
Fixpoint read_mappings (n : nat) (rd wr pagesize ch : Z) (i : io) (kept : list mapping)
    : P (option (list mapping * io)) :=
  match n with
  | O => ret (Some (rev kept, i))
  | S n' =>
      let? (h, i) := read_header ch i in
      let? (has_anon, dontdump, ch, i) := read_details fuel (is_device (h_name h)) false false i in
      let! o := keep_segment rd wr pagesize h has_anon dontdump in
      read_mappings n' rd wr pagesize ch i
        (match o with Some m => m :: kept | None => kept end)
  end.
End Smaps.
