(* ===== verification/Stream.v ===== *)
(** Character streams: [GetChar] and the number parser of [elfcore.c] seen as
    operations on the text that is still to come from the file. *)
From S2P Require Import Prelude Syscall KernelSpec CIO ProcIO Smaps.

(** The value that [GetHexHelper] computes for a row of digits. *)
Definition hex_value (acc : Z) (ds : list Z) : Z := fold_left hex_step ds acc.

(** [t] does not start with a character that satisfies [P]. *)
Definition not_at (P : Z -> bool) (t : list Z) : Prop :=
  match t with c :: _ => P c = false | [] => True end.

Section Stream.
Context {W Hd : Type} `{!KernelIO W} `{!AddressSpace} `{!Files W} `{!Interrupts W} `{!ReadReady W}.
Context (fuel : nat) (fd : Z) (s0 : cst W Hd).
Hypothesis (fuel_ok : (intr (world s0) < fuel)%nat).
Implicit Types (s : cst W Hd) (i : io) (t : list Z).

(** [i] is the stream of [fd], and [t] is what is left of its text; nothing but
    the position of [fd] has changed since [s0]. *)
Definition at_ i t s : Prop :=
  io_fd i = fd /\ rd_open (world s) fd /\ io_data i ++ unread (world s) fd = t /\
  (intr (world s) <= intr (world s0))%nat /\ hnd s = hnd s0 /\ rd_frame fd (world s0) (world s).

(** The character [ch] has just been read and the text from it on is [t]; at the
    end of the file it is -1, with [errno] zero. *)
Definition cur (ch : Z) i t s : Prop :=
  match t with
  | [] => ch = -1 /\ errno s = 0 /\ at_ i [] s
  | c :: t' => ch = c /\ at_ i t' s
  end.

Lemma GetChar_at i t s : at_ i t s -> wp (GetChar fuel i) (fun r s' => cur r.1 r.2 t s') s.
Proof.
  intros (Hfd & Ho & Ht & Hi & Hh & Hf). unfold GetChar. destruct (io_data i) as [|c rest] eqn:E.
  2:{ apply wp_ret. rewrite <- Ht. cbn. split; [done|]. by split_and!. }
  wp_step. rewrite Hfd. eapply wp_mono; [apply c_read_ready; [done|unfold io_buf_size, SSIZE_LIM; lia|lia]|].
  intros [n buf] s1 ((Hh1 & Hf1 & [[Hn _]|(Hn & He & Hb & Hl & Hu & Hz)]) & Hn1 & Hi1); cbn [fst snd] in *; [lia|].
  assert (Hf2 : rd_frame fd (world s0) (world s1)) by eauto with coredump.
  pose proof (proj1 (proj2 Hf1) _ Ho) as Ho1.
  destruct (n <=? 0) eqn:E1; b2p.
  - assert (n = 0) as -> by lia. rewrite Hz in Ht by done. cbn in Ht. subst t.
    wp_step. unfold wp at 1, set_errno. cbn. split_and!; try done. unfold at_. cbn.
    rewrite E, Hu, (Hz eq_refl). split_and!; (done || lia || congruence).
  - destruct buf as [|c rest]; [rewrite zlen_nil in Hl; lia|]. apply wp_ret.
    assert (Hsp : c :: rest ++ unread (world s1) fd = t).
    { rewrite <- Ht, Hu. cbn. rewrite <- (ztake_zdrop n (unread (world s) fd)) at 2. by rewrite <- Hb. }
    rewrite <- Hsp. cbn. split; [done|]. split_and!; try done; [lia|congruence].
Qed.

(** *** Skipping and collecting *)

Lemma skip_spaces_cur n k t : (k < n)%nat -> not_at (fun c => c =? sp) t -> forall ch i s,
  cur ch i (replicate k sp ++ t) s -> wp (skip_spaces fuel n ch i) (fun r s' => cur r.1 r.2 t s') s.
Proof.
  revert n. induction k as [|k IH]; intros n Hn Ht ch i s Hc; (destruct n as [|n]; [lia|]); cbn [skip_spaces].
  - cbn [replicate app] in Hc. assert (E : (ch =? sp) = false).
    { destruct t as [|c t]; cbn in *; [destruct Hc as (-> & _)|destruct Hc as [-> _]]; done. }
    rewrite E. by apply wp_ret.
  - destruct Hc as [-> Ha]. rewrite Z.eqb_refl. wp_step. eapply wp_mono; [by apply GetChar_at|].
    intros [ch' i'] s' Hc'. apply IH; [lia|done|done].
Qed.

Definition printable (c : Z) : Prop := 0 <= c /\ c <> nl.
Definition word_char (c : Z) : Prop := printable c /\ c <> sp.

Lemma skip_word_cur n w t : (length w < n)%nat -> Forall word_char w ->
  not_at (fun c => negb (c =? sp) && negb (c =? nl)) t -> t <> [] -> forall ch i s,
  cur ch i (w ++ t) s ->
  wp (skip_word fuel n ch i) (fun r s' => exists ch' i', r = Some (ch', i') /\ cur ch' i' t s') s.
Proof.
  intros Hn Hw Ht Hne. revert n Hn. induction Hw as [|c w [[H0 H1] H2] Hw IH]; intros n Hn ch i s Hc;
    (destruct n as [|n]; [cbn in Hn; lia|]); cbn [skip_word].
  - assert (E : negb (ch =? sp) && negb (ch =? nl) = false).
    { destruct t as [|c t]; [done|]. by destruct Hc as [-> _]. }
    rewrite E. apply wp_ret. eauto.
  - destruct Hc as [-> Ha]. rewrite (proj2 (Z.eqb_neq c sp)), (proj2 (Z.eqb_neq c nl)) by done. cbn [negb andb].
    destruct (c <? 0) eqn:E; b2p; [lia|]. wp_step. eapply wp_mono; [by apply GetChar_at|].
    intros [ch' i'] s' Hc'. apply IH; [cbn in Hn; lia|done].
Qed.

Lemma skip_line_cur n w t : (length w < n)%nat -> Forall printable w -> forall ch i s,
  cur ch i (w ++ nl :: t) s ->
  wp (skip_line fuel n ch i) (fun r s' => exists i', r = Some i' /\ at_ i' t s') s.
Proof.
  intros Hn Hw. revert n Hn. induction Hw as [|c w [H0 H1] Hw IH]; intros n Hn ch i s Hc;
    (destruct n as [|n]; [cbn in Hn; lia|]); cbn [skip_line]; destruct Hc as [-> Ha].
  - rewrite Z.eqb_refl. cbn [negb]. apply wp_ret. eauto.
  - rewrite (proj2 (Z.eqb_neq c nl)) by done. cbn [negb].
    destruct (c <? 0) eqn:E; b2p; [lia|]. wp_step. eapply wp_mono; [by apply GetChar_at|].
    intros [ch' i'] s' Hc'. apply IH; [cbn in Hn; lia|done].
Qed.

Lemma skip_letters_cur n w t : (length w < n)%nat -> Forall (fun c => ord "a" <= c <= ord "z") w ->
  not_at (fun c => (ord "a" <=? c) && (c <=? ord "z")) t -> forall ch i s,
  cur ch i (w ++ t) s -> wp (skip_letters fuel n ch i) (fun r s' => cur r.1 r.2 t s') s.
Proof.
  intros Hn Hw Ht. revert n Hn. induction Hw as [|c w [H0 H1] Hw IH]; intros n Hn ch i s Hc;
    (destruct n as [|n]; [cbn in Hn; lia|]); cbn [skip_letters].
  - assert (E : (ord "a" <=? ch) && (ch <=? ord "z") = false).
    { destruct t as [|c t]; cbn in Hc; [by destruct Hc as (-> & _)|by destruct Hc as [-> _]]. }
    rewrite E. by apply wp_ret.
  - destruct Hc as [-> Ha]. rewrite (proj2 (Z.leb_le _ _) H0), (proj2 (Z.leb_le _ _) H1). cbn [andb].
    wp_step. eapply wp_mono; [by apply GetChar_at|].
    intros [ch' i'] s' Hc'. apply IH; [cbn in Hn; lia|done].
Qed.

(** The name is cut at [FNAME_MAX - 1] characters, then at its last character
    that is not a space. *)
Lemma read_name_cur n nm t : (length nm < n)%nat -> Forall printable nm -> forall acc ch i s,
  zlen acc <= FNAME_MAX - 1 -> cur ch i (nm ++ nl :: t) s ->
  wp (read_name fuel n ch i acc) (fun r s' => exists i',
    r = Some (trim_trailing (ztake (FNAME_MAX - 1) (acc ++ nm)), i') /\ at_ i' t s') s.
Proof.
  intros Hn Hw. revert n Hn. induction Hw as [|c w [H0 H1] Hw IH]; intros n Hn acc ch i s Hacc Hc;
    (destruct n as [|n]; [cbn in Hn; lia|]); cbn [read_name]; destruct Hc as [-> Ha].
  - rewrite Z.eqb_refl. cbn [negb]. apply wp_ret. exists i. split; [|done].
    rewrite app_nil_r, ztake_all by done. done.
  - rewrite (proj2 (Z.eqb_neq c nl)) by done. cbn [negb].
    destruct (c <? 0) eqn:E; b2p; [lia|]. wp_step. eapply wp_mono; [by apply GetChar_at|].
    intros [ch' i'] s' Hc'. destruct (zlen acc <? FNAME_MAX - 1) eqn:E1; b2p.
    + eapply wp_mono; [apply IH; [cbn in Hn; lia|autorewrite with zlen; lia|done]|].
      cbn beta. intros r s2 (i2 & -> & Ha2). exists i2. split; [|done]. by rewrite <- app_assoc.
    + eapply wp_mono; [apply IH; [cbn in Hn; lia|done|done]|].
      cbn beta. intros r s2 (i2 & -> & Ha2). exists i2. split; [|done]. do 3 f_equal.
      rewrite !ztake_app_le by lia. done.
Qed.

(** *** Numbers *)

Lemma not_hex_at ch i t s : not_at is_hex t -> cur ch i t s -> is_hex ch = false.
Proof. destruct t as [|c t]; cbn; [by intros _ (-> & _)|by intros ? [-> _]]. Qed.

Lemma GetHexLoop_at ds t : not_at is_hex t -> forall n hex x i s, (length ds < n)%nat ->
  Forall (fun c => is_hex c = true) ds -> at_ i (ds ++ t) s ->
  wp (GetHexLoop fuel n i hex true x) (fun r s' => exists ch i',
    r = (ch, hex_value hex ds, i') /\ cur ch i' t s') s.
Proof.
  intros Ht. induction ds as [|c ds IH]; intros n hex x i s Hn Hds Ha;
    (destruct n as [|n]; [cbn in Hn; lia|]); cbn [GetHexLoop]; wp_step;
    (eapply wp_mono; [by apply GetChar_at|]); intros [ch i'] s' Hc; cbn [fst snd] in Hc.
  - rewrite (not_hex_at _ _ _ _ Ht Hc). apply wp_ret. eauto.
  - destruct Hc as [-> Ha']. inversion_clear Hds as [|? ? Hc Hds']. rewrite Hc.
    apply IH; [cbn in Hn; lia|done|done].
Qed.

(** A number whose first digit has been read. *)
Lemma GetHexLoop_cur ds t n hex ch i s : not_at is_hex t -> (length ds < n)%nat ->
  Forall (fun c => is_hex c = true) ds -> cur ch i (ds ++ t) s ->
  wp (GetHexLoop fuel n i hex false ch) (fun r s' => exists ch' i',
    r = (ch', hex_value hex ds, i') /\ cur ch' i' t s') s.
Proof.
  intros Ht Hn Hds Hc. destruct n as [|n]; [lia|]. cbn [GetHexLoop]. wp_step. apply wp_ret.
  destruct ds as [|c ds].
  - rewrite (not_hex_at _ _ _ _ Ht Hc). apply wp_ret. eauto.
  - destruct Hc as [-> Ha]. inversion_clear Hds as [|? ? Hx Hds']. rewrite Hx.
    change (hex_value hex (c :: ds)) with (hex_value (hex_step hex c) ds).
    apply GetHexLoop_at; [done|cbn in Hn; lia|done|done].
Qed.
End Stream.

(** ** Numbers are read as they are printed *)

(** The hexadecimal digits of [v], [n] of them, as the kernel prints them. *)
Definition hex_char (d : Z) : Z := if d <? 10 then ord "0" + d else ord "a" + (d - 10).

Fixpoint hex_digits (n : nat) (v : Z) : list Z :=
  match n with
  | O => []
  | S n' => hex_digits n' (v / 16) ++ [hex_char (v mod 16)]
  end.

Lemma hex_char_spec d : 0 <= d < 16 -> is_hex (hex_char d) = true /\ hex_digit (hex_char d) = d.
Proof.
  intros Hd. assert (E : forallb (fun d => is_hex (hex_char d) && (hex_digit (hex_char d) =? d)) (map Z.of_nat (seq 0 16)) = true)
    by done.
  rewrite forallb_forall in E. specialize (E d). rewrite andb_true_iff, Z.eqb_eq in E. apply E.
  apply in_map_iff. exists (Z.to_nat d). split; [lia|]. apply in_seq. lia.
Qed.

Lemma hex_step_digit acc d : 0 <= acc -> 0 <= d < 16 -> hex_step acc (hex_char d) = (16 * acc + d) mod 2 ^ 64.
Proof.
  intros Ha Hd. unfold hex_step, u64. destruct (hex_char_spec d Hd) as [_ ->].
  rewrite Z.shiftl_mul_pow2 by lia. change (2 ^ 64) with (2 ^ 4 * 2 ^ 60). change (2 ^ 4) with 16.
  rewrite (Z.mul_comm acc), Zmult_mod_distr_l.
  assert (E : Z.lor (16 * (acc mod 2 ^ 60)) d = 16 * (acc mod 2 ^ 60) + d).
  { rewrite (Z.mul_comm 16). change 16 with (2 ^ 4). rewrite <- Z.shiftl_mul_pow2 by lia.
    symmetry. apply Z.add_nocarry_lor. apply Z.bits_inj'. intros n Hn. rewrite Z.land_spec, Z.bits_0.
    destruct (Z.ltb_spec n 4); [by rewrite Z.shiftl_spec_low|].
    rewrite andb_comm. rewrite (Z.bits_above_log2 d n); [done|lia|].
    destruct (decide (d = 0)) as [->|]; [cbn; lia|]. apply Z.log2_lt_pow2; [lia|].
    assert (2 ^ 4 <= 2 ^ n) by (apply Z.pow_le_mono_r; lia). lia. }
  rewrite E. pose proof (Z.mod_pos_bound acc (2 ^ 60) ltac:(lia)).
  pose proof (Z.div_mod acc (2 ^ 60) ltac:(lia)).
  apply Z.mod_unique with (acc / 2 ^ 60); [left; lia|lia].
Qed.

Lemma hex_digits_hex n v : 0 <= v -> Forall (fun c => is_hex c = true) (hex_digits n v).
Proof.
  revert v. induction n as [|n IH]; intros v Hv; cbn; [constructor|].
  apply Forall_app. split; [apply IH, Z.div_pos; lia|]. repeat constructor.
  apply hex_char_spec. apply Z.mod_pos_bound. lia.
Qed.

Lemma hex_value_digits n : forall v, 0 <= v < 16 ^ Z.of_nat n -> v < 2 ^ 64 -> hex_value 0 (hex_digits n v) = v.
Proof.
  unfold hex_value. induction n as [|n IH]; intros v Hv Hlt; [cbn in *; lia|].
  cbn [hex_digits]. rewrite fold_left_app. rewrite Nat2Z.inj_succ, Z.pow_succ_r in Hv by lia.
  pose proof (Z.div_mod v 16 ltac:(lia)). pose proof (Z.mod_pos_bound v 16 ltac:(lia)).
  rewrite IH; [|split; [apply Z.div_pos; lia|apply Z.div_lt_upper_bound; lia]|].
  2:{ apply Z.div_lt_upper_bound; lia. }
  cbn [fold_left]. rewrite hex_step_digit by (done || apply Z.div_pos; lia). rewrite Z.mod_small; lia.
Qed.

Lemma length_hex_digits n v : length (hex_digits n v) = n.
Proof. revert v. induction n as [|n IH]; intros v; cbn; [done|]. rewrite length_app, IH. cbn. lia. Qed.
