(* ===== verification/SmapsText.v ===== *)
(** The parser of /proc/self/smaps in [elfcore.c], against the text that the
    kernel prints: each segment is a header line, the lines that describe it and
    the line of its flags. *)
From S2P Require Import Prelude Syscall KernelSpec ToyKernel CIO ProcIO Smaps Stream.

(** ** The text of a segment *)

Record seg_header := mkSeg {
  s_start : Z; s_start_w : nat;       (* number and number of digits *)
  s_end : Z; s_end_w : nat;
  s_perms : Z * Z * Z * Z;            (* rwxp *)
  s_off : Z; s_off_w : nat;
  s_dev : list Z; s_ino : list Z;
  s_pad : nat;                        (* spaces before the name *)
  s_name : list Z }.

Definition perms_text (p : Z * Z * Z * Z) : list Z := let '(r, w, x, s) := p in [r; w; x; s].

Definition header_text (g : seg_header) : list Z :=
  hex_digits (s_start_w g) (s_start g) ++ ord "-" :: hex_digits (s_end_w g) (s_end g) ++ sp ::
  perms_text (s_perms g) ++ sp :: hex_digits (s_off_w g) (s_off g) ++ replicate 1 sp ++ s_dev g ++
  replicate 1 sp ++ s_ino g ++ replicate (s_pad g) sp ++ s_name g ++ [nl].

Definition number_ok (v : Z) (w : nat) : Prop := 0 <= v < 16 ^ Z.of_nat w /\ v < 2 ^ 64.

Record header_ok (g : seg_header) : Prop := {
  hd_start : number_ok (s_start g) (s_start_w g);
  hd_end : number_ok (s_end g) (s_end_w g);
  hd_off : number_ok (s_off g) (s_off_w g);
  hd_perms : Forall word_char (perms_text (s_perms g));
  hd_dev : s_dev g <> [] /\ Forall word_char (s_dev g);
  hd_ino : s_ino g <> [] /\ Forall word_char (s_ino g);
  hd_pad : (0 < s_pad g)%nat \/ s_name g = [];
  hd_name : Forall printable (s_name g) /\ not_at (fun c => c =? sp) (s_name g) }.

(** The lines about its size and contents. *)
Inductive line : Type :=
  | Anonymous (spaces : nat) (digit1 : Z) (rest : list Z)
  | Other (text : list Z).

Definition line_text (l : line) : list Z :=
  match l with
  | Anonymous k d rest => bytes "Anonymous:" ++ replicate k sp ++ d :: rest
  | Other w => w
  end.

Definition prefix_free (kw w : list Z) : Prop := forall rest, w <> kw ++ rest.

Definition line_ok (l : line) : Prop :=
  match l with
  | Anonymous _ d rest => ord "0" <= d <= ord "9" /\ Forall printable rest
  | Other w => w <> [] /\ Forall printable w /\ not_at ends_details w /\
      prefix_free (bytes "Anonymous:") w /\ prefix_free (bytes "VmFlags:") w
  end.

(** The line of the flags, which comes last: two letters each. *)
Definition vm_text (fs : list (Z * Z)) (k : nat) : list Z :=
  concat (map (fun f : Z * Z => [sp; f.1; f.2]) fs) ++ replicate k sp.

Definition vm_line (v : option (list (Z * Z) * nat)) : list Z :=
  match v with Some (fs, k) => bytes "VmFlags:" ++ vm_text fs k ++ [nl] | None => [] end.

Definition letter (c : Z) : Prop := ord "a" <= c <= ord "z".
Definition flag_ok (f : Z * Z) : Prop := letter f.1 /\ letter f.2.
Definition vm_ok (v : option (list (Z * Z) * nat)) : Prop :=
  match v with Some (fs, _) => Forall flag_ok fs | None => True end.

Definition details_text (ls : list line) (v : option (list (Z * Z) * nat)) : list Z :=
  concat (map (fun l => line_text l ++ [nl]) ls) ++ vm_line v.

(** The next segment, or the end of the file. *)
Definition ends (t : list Z) : Prop := match t with c :: _ => ends_details c = true | [] => True end.

(** ** What it means *)

Definition has_anonymous (a : bool) (ls : list line) : bool :=
  fold_left (fun a l => match l with Anonymous _ d _ => negb (d =? ord "0") | Other _ => a end) ls a.

Definition dont_dump (aarch64 : bool) (f : Z * Z) : bool :=
  (f.1 =? ord "d") && (f.2 =? ord "d") || aarch64 && (f.1 =? ord "p") && (f.2 =? ord "f").

Definition vm_dont_dump (aarch64 : bool) (v : option (list (Z * Z) * nat)) : bool :=
  match v with Some (fs, _) => existsb (dont_dump aarch64) fs | None => false end.

(** The permissions as ELF segment flags. *)
Definition perm_bit (c b : Z) : Z := if c =? ord "-" then 0 else b.

Definition perms_flags (p : Z * Z * Z * Z) : Z :=
  let '(r, w, x, _) := p in perm_bit r PF_R + perm_bit w PF_W + perm_bit x PF_X.

Definition segment_name (g : seg_header) : list Z := trim_trailing (ztake (FNAME_MAX - 1) (s_name g)).

(** [h] is what the header line says. *)
Definition header_of (g : seg_header) (h : header) : Prop :=
  h_start h = s_start g /\ h_end h = s_end g /\ h_offset h = s_off g /\
  access_flags (h_flags h) = perms_flags (s_perms g) /\ h_name h = segment_name g.

(** Everything in the header is shorter than the fuel. *)
Lemma header_lengths (fuel : nat) g : (length (header_text g) < fuel)%nat ->
  (s_start_w g < fuel)%nat /\ (s_end_w g < fuel)%nat /\ (s_off_w g < fuel)%nat /\ (4 < fuel)%nat /\
  (length (s_dev g) < fuel)%nat /\ (length (s_ino g) < fuel)%nat /\ (s_pad g < fuel)%nat /\
  (length (s_name g) < fuel)%nat.
Proof.
  unfold header_text. destruct (s_perms g) as [[[? ?] ?] ?]. cbn [perms_text].
  repeat (rewrite length_app || cbn [length]). rewrite !length_hex_digits, !length_replicate. lia.
Qed.

(** ** Reading the header *)

Section Text.
Context {W Hd : Type} `{!KernelIO W} `{!AddressSpace} `{!Files W} `{!Interrupts W} `{!ReadReady W}.
Context (fuel : nat) (fd : Z) (s0 : cst W Hd) (aarch64 : bool).
Hypothesis (fuel_ok : (intr (world s0) < fuel)%nat).
Implicit Types (s : cst W Hd) (i : io) (t : list Z).

Abbreviation at_ := (at_ fd s0).
Abbreviation cur := (cur fd s0).

Definition flags_value (acc : Z) (fl : list Z) : Z :=
  fold_left (fun a c => Z.lor (u16 (Z.shiftl a 1)) (if c =? ord "-" then 0 else 1)) fl acc.

Lemma read_flags_at fl t : Forall word_char fl -> forall n acc i s, (length fl < n)%nat ->
  at_ i (fl ++ sp :: t) s ->
  wp (read_flags fuel n i acc) (fun r s' => exists i', r = Some (flags_value acc fl, i') /\ at_ i' t s') s.
Proof.
  induction 1 as [|c fl [[H0 _] H2] _ IH]; intros n acc i s Hn Ha;
    (destruct n as [|n]; [cbn in Hn; lia|]); cbn [read_flags]; wp_step;
    (eapply wp_mono; [by apply (GetChar_at fuel fd s0)|]); intros [ch i'] s' [E Ha']; cbn [fst snd] in E, Ha'; subst ch.
  - rewrite Z.eqb_refl. apply wp_ret. eauto.
  - rewrite (proj2 (Z.eqb_neq c sp)) by done. destruct (c <? 0) eqn:E; b2p; [lia|].
    apply IH; [cbn in Hn; lia|done].
Qed.

Lemma access_flags_perms p : access_flags (flags_value 0 (perms_text p)) = perms_flags p.
Proof.
  destruct p as [[[r w] x] q]. unfold flags_value, perms_flags, perm_bit. cbn [perms_text fold_left].
  destruct (r =? _), (w =? _), (x =? _), (q =? _); reflexivity.
Qed.

(** One field of digits or letters and the spaces after it; [k] spaces come first. *)
Lemma skip_field_cur k w k2 t : w <> [] -> Forall word_char w -> not_at (fun c => c =? sp) t ->
  not_at (fun c => negb (c =? sp) && negb (c =? nl)) (replicate k2 sp ++ t) -> replicate k2 sp ++ t <> [] ->
  (k < fuel)%nat -> (k2 < fuel)%nat -> (length w < fuel)%nat -> forall ch i s,
  cur ch i (replicate k sp ++ w ++ replicate k2 sp ++ t) s ->
  wp (skip_field fuel ch i) (fun r s' => exists ch' i', r = Some (ch', i') /\ cur ch' i' t s') s.
Proof.
  intros Hne Hw Ht Hend Hn Hk Hk2 Hl ch i s Hc. unfold skip_field. wp_step.
  eapply wp_mono; [apply (skip_spaces_cur fuel fd s0 fuel_ok fuel k (w ++ replicate k2 sp ++ t)); [done| |done]|].
  { destruct w as [|c w]; [done|]. inversion_clear Hw as [|? ? [_ Hc'] _]. by apply Z.eqb_neq. }
  intros [ch1 i1] s1 Hc1. wp_step.
  eapply wp_mono; [by apply (skip_word_cur fuel fd s0 fuel_ok fuel w (replicate k2 sp ++ t))|].
  cbn beta. intros r s2 (ch2 & i2 & -> & Hc2). wp_step.
  eapply wp_mono; [by apply (skip_spaces_cur fuel fd s0 fuel_ok fuel k2 t)|].
  intros [ch3 i3] s3 Hc3. apply wp_ret. eauto.
Qed.

Lemma number_read v w : number_ok v w -> Forall (fun c => is_hex c = true) (hex_digits w v) /\
  hex_value 0 (hex_digits w v) = v /\ length (hex_digits w v) = w.
Proof.
  intros [Hv Hlt]. split_and!; [apply hex_digits_hex, Hv|by apply hex_value_digits|apply length_hex_digits].
Qed.

Lemma read_header_cur g t ch i s : header_ok g -> (length (header_text g) < fuel)%nat ->
  cur ch i (header_text g ++ t) s ->
  wp (read_header fuel ch i) (fun r s' => exists h i', r = Some (h, i') /\ header_of g h /\ at_ i' t s') s.
Proof.
  intros [Hst Hen Hof Hpe [Hd1 Hd2] [Hi1 Hi2] Hpad [Hn1 Hn2]] Hlen Hc.
  destruct (header_lengths fuel g Hlen) as (L1 & L2 & L3 & L4 & L5 & L6 & L7 & L8).
  destruct (number_read _ _ Hst) as (A1 & A2 & A3), (number_read _ _ Hen) as (B1 & B2 & B3),
    (number_read _ _ Hof) as (C1 & C2 & C3).
  unfold header_text in Hc. repeat (rewrite <- app_assoc in Hc || rewrite <- app_comm_cons in Hc).
  unfold read_header, GetHexWithInitChar, GetHex, GetHexHelper. wp_step.
  eapply wp_mono; [eapply (GetHexLoop_cur fuel fd s0 fuel_ok); [|by rewrite A3|exact A1|exact Hc]; done|].
  cbn beta. intros r s1 (c1 & i1 & -> & -> & Ha1). rewrite A2. rewrite Z.eqb_refl. cbn [negb]. wp_step.
  eapply wp_mono; [eapply (GetHexLoop_at fuel fd s0 fuel_ok); [|by rewrite B3|exact B1|exact Ha1]; done|].
  cbn beta. intros r s2 (c2 & i2 & -> & -> & Ha2). rewrite B2, Z.eqb_refl. cbn [negb]. wp_step.
  eapply wp_mono; [eapply (read_flags_at (perms_text (s_perms g))); [done| |exact Ha2]|].
  { by destruct (s_perms g) as [[[? ?] ?] ?]. }
  cbn beta. intros r s3 (i3 & -> & Ha3). wp_step.
  eapply wp_mono; [eapply (GetHexLoop_at fuel fd s0 fuel_ok); [|by rewrite C3|exact C1|exact Ha3]; done|].
  cbn beta. intros r s4 (c4 & i4 & -> & Hc4). cbn [replicate app] in Hc4. rewrite C2.
  pose proof Hc4 as [-> _]. rewrite Z.eqb_refl. cbn [negb]. wp_step.
  eapply wp_mono; [apply (skip_field_cur 1 (s_dev g) 1 (s_ino g ++ replicate (s_pad g) sp ++ s_name g ++ nl :: t));
    try done; try lia|].
  { destruct (s_ino g) as [|c w]; [done|]. inversion_clear Hi2 as [|? ? [_ Hx] _]. by apply Z.eqb_neq. }
  cbn beta. intros r s5 (c5 & i5 & -> & Hc5). wp_step.
  eapply wp_mono; [apply (skip_field_cur 0 (s_ino g) (s_pad g) (s_name g ++ nl :: t)); try done; try lia|].
  { destruct (s_name g); done. }
  { destruct (s_pad g); [|done]. destruct Hpad as [|Hpad]; [lia|]. by rewrite Hpad. }
  { destruct (s_pad g); [|done]. by destruct (s_name g). }
  cbn beta. intros r s6 (c6 & i6 & -> & Hc6). wp_step.
  eapply wp_mono; [apply (read_name_cur fuel fd s0 fuel_ok fuel (s_name g) t); done|].
  cbn beta. intros r s7 (i7 & -> & Ha7). apply wp_ret. eexists _, i7. split; [reflexivity|]. split; [|done].
  split_and!; try done. apply access_flags_perms.
Qed.

(** *** Keywords *)

Lemma match_keyword_full kw t : forall ch i s, cur ch i (kw ++ t) s ->
  wp (match_keyword fuel kw ch i) (fun r s' => exists ch' i', r = (ch', true, i') /\ cur ch' i' t s') s.
Proof.
  induction kw as [|c kw IH]; intros ch i s Hc; cbn [match_keyword].
  - apply wp_ret. eauto.
  - destruct Hc as [-> Ha]. rewrite Z.eqb_refl. wp_step.
    eapply wp_mono; [by apply (GetChar_at fuel fd s0)|]. intros [ch' i'] s' Hc'. by apply IH.
Qed.

(** A line that does not start with the keyword: part of it is read. *)
Lemma match_keyword_other kw t : Forall printable kw -> forall w ch i s, prefix_free kw w -> Forall printable w ->
  cur ch i (w ++ nl :: t) s ->
  wp (match_keyword fuel kw ch i) (fun r s' => exists ch' i' w', r = (ch', false, i') /\ Forall printable w' /\
    (length w' <= length w)%nat /\ cur ch' i' (w' ++ nl :: t) s') s.
Proof.
  induction 1 as [|c kw [_ Hc] _ IH]; intros w ch i s Hp Hw Hcur; cbn [match_keyword].
  - exfalso. by apply (Hp w).
  - destruct w as [|x w].
    + destruct Hcur as [-> Ha]. rewrite (proj2 (Z.eqb_neq nl c)) by done. apply wp_ret.
      exists nl, i, []. split_and!; auto. done.
    + destruct Hcur as [-> Ha]. inversion_clear Hw as [|? ? Hx Hw']. destruct (x =? c) eqn:E; b2p.
      * subst x. wp_step. eapply wp_mono; [by apply (GetChar_at fuel fd s0)|]. intros [ch' i'] s' Hc'.
        eapply wp_mono; [apply (IH w); [|done|exact Hc']|].
        { intros rest Hr. apply (Hp rest). cbn. by rewrite Hr. }
        cbn beta. intros r s2 (ch2 & i2 & w2 & -> & H1 & H2 & H3). exists ch2, i2, w2. cbn. split_and!; auto.
      * apply wp_ret. exists x, i, (x :: w). split_and!; auto. done.
Qed.

(** *** Flags *)

(** Somewhere in the line that [t] comes after, [n] characters before its end at
    the most. *)
Definition in_line (n : nat) t ch i s : Prop :=
  exists w, Forall printable w /\ (length w <= n)%nat /\ cur ch i (w ++ nl :: t) s.

Lemma letter_facts c : letter c -> printable c /\ c <> sp /\ (ord "a" <=? c) && (c <=? ord "z") = true.
Proof.
  unfold letter, printable, nl, sp. change (ord "a") with 97. change (ord "z") with 122. change (ord " ") with 32.
  intros. split_and!; lia.
Qed.

Definition head_is (c : Z) t : bool := match t with x :: _ => x =? c | [] => false end.

Lemma check_flag_cur c d x t ch i s : 0 <= d -> cur ch i (x :: t) s ->
  wp (check_flag fuel c d ch i) (fun r s' => r.1.1 = (x =? c) && head_is d t /\
    cur r.1.2 r.2 (if x =? c then t else x :: t) s') s.
Proof.
  intros Hd0 [-> Ha]. unfold check_flag. destruct (x =? c) eqn:E.
  - wp_step. eapply wp_mono; [by apply (GetChar_at fuel fd s0)|]. intros [ch' i'] s' Hc.
    apply wp_ret. split; [|done]. destruct t as [|y t]; cbn in *; destruct Hc as [-> _]; [|done].
    apply Z.eqb_neq. lia.
  - apply wp_ret. split; [done|]. by split.
Qed.

Lemma vm_text_cons a b fs k : vm_text ((a, b) :: fs) k = sp :: a :: b :: vm_text fs k.
Proof. done. Qed.

Lemma vm_text_printable fs k : Forall flag_ok fs -> Forall printable (vm_text fs k).
Proof.
  induction 1 as [|[a b] fs [Ha Hb] _ IH].
  - unfold vm_text. cbn. apply Forall_replicate. split; [done|done].
  - rewrite vm_text_cons. apply Forall_cons. split; [done|].
    apply Forall_cons. split; [by apply letter_facts|]. apply Forall_cons. split; [by apply letter_facts|done].
Qed.

(** After a flag comes a space, if anything. *)
Lemma vm_text_next fs k t : exists c r, vm_text fs k ++ nl :: t = c :: r /\ (c = sp \/ c = nl).
Proof.
  destruct fs as [|[a b] fs].
  - unfold vm_text. cbn. destruct k; cbn; eauto.
  - rewrite vm_text_cons. cbn. eauto.
Qed.

Lemma not_letter_next fs k t : not_at (fun c => (ord "a" <=? c) && (c <=? ord "z")) (vm_text fs k ++ nl :: t).
Proof. destruct (vm_text_next fs k t) as (c & r & -> & [->| ->]); done. Qed.

(** The rest of a flag. *)
Lemma skip_rest w fs k t ch i s : Forall letter w -> (length w < fuel)%nat ->
  cur ch i (w ++ vm_text fs k ++ nl :: t) s ->
  wp (skip_letters fuel fuel ch i) (fun r s' => cur r.1 r.2 (vm_text fs k ++ nl :: t) s') s.
Proof. intros. apply (skip_letters_cur fuel fd s0 fuel_ok fuel w); auto using not_letter_next. Qed.

Lemma in_line_suffix n w v t ch i s : Forall printable (w ++ v) -> (length (w ++ v) <= n)%nat ->
  cur ch i (v ++ nl :: t) s -> in_line n t ch i s.
Proof.
  intros Hp Hl Hc. exists v. apply Forall_app in Hp as [_ Hp]. rewrite length_app in Hl.
  split_and!; [done|lia|done].
Qed.

(** The body of the loop over the flags. *)
Definition one_flag (ch : Z) (i : io) : M (cst W Hd) (bool * Z * io) :=
  let! (dd, ch, i) := check_flag fuel (ord "d") (ord "d") ch i in
  if dd : bool then ret (true, ch, i)
  else
    let! (pf, ch, i) := (if aarch64 then check_flag fuel (ord "p") (ord "f") ch i else ret (false, ch, i)) in
    if pf : bool then ret (true, ch, i)
    else let! (ch, i) := skip_letters fuel fuel ch i in ret (false, ch, i).

Lemma read_vmflags_step n ch i s : read_vmflags fuel aarch64 (S n) ch i s =
  (if ch =? sp then
     let! (ch, i) := skip_spaces fuel fuel ch i in
     let! (d, ch, i) := one_flag ch i in
     if d : bool then ret (true, ch, i) else read_vmflags fuel aarch64 n ch i
   else ret (false, ch, i)) s.
Proof.
  cbn [read_vmflags]. destruct (ch =? sp); [|done]. unfold one_flag, bind.
  destruct (skip_spaces fuel fuel ch i s) as [[c1 i1] s1| | | |]; try done.
  destruct (check_flag fuel _ _ c1 i1 s1) as [[[[] c2] i2] s2| | | |]; try done.
  destruct aarch64.
  - destruct (check_flag fuel (ord "p") (ord "f") c2 i2 s2) as [[[[] c3] i3] s3| | | |]; try done.
    by destruct (skip_letters fuel fuel c3 i3 s3) as [[c4 i4] s4| | | |].
  - unfold ret at 1 3. by destruct (skip_letters fuel fuel c2 i2 s2) as [[c4 i4] s4| | | |].
Qed.

(** One flag: whether it asks not to dump the segment, and otherwise it is skipped. *)
Lemma flag_letters a b fs k t ch i s : letter a -> letter b -> (2 < fuel)%nat ->
  cur ch i (a :: b :: vm_text fs k ++ nl :: t) s ->
  wp (one_flag ch i)
    (fun r s' => r.1.1 = dont_dump aarch64 (a, b) /\
       (if r.1.1 : bool then cur r.1.2 r.2 (b :: vm_text fs k ++ nl :: t) s'
        else cur r.1.2 r.2 (vm_text fs k ++ nl :: t) s')) s.
Proof.
  intros Ha Hb Hf Hc. unfold one_flag. wp_step. eapply wp_mono; [apply (check_flag_cur (ord "d") (ord "d")); [done|exact Hc]|].
  intros [[dd ch1] i1] s1 [E Hc1]. cbn [fst snd head_is] in *. unfold dont_dump. cbn [fst snd].
  destruct dd.
  { apply wp_ret. cbn. rewrite <- E. split; [done|]. symmetry in E. b2p. subst a. exact Hc1. }
  rewrite <- E. cbn [orb].
  assert (Hrest : forall w ch i s, Forall letter w -> (length w <= 2)%nat ->
    cur ch i (w ++ vm_text fs k ++ nl :: t) s ->
    wp (let! (ch, i) := skip_letters fuel fuel ch i in ret (false, ch, i))
      (fun r s' => r.1.1 = false /\ (if r.1.1 : bool then cur r.1.2 r.2 (b :: vm_text fs k ++ nl :: t) s'
        else cur r.1.2 r.2 (vm_text fs k ++ nl :: t) s')) s).
  { intros w ch2 i2 s2 Hw Hl Hc2. wp_step. eapply wp_mono; [apply (skip_rest w fs k t); [done|lia|done]|].
    intros [ch3 i3] s3 Hc3. by apply wp_ret. }
  destruct aarch64; cbn [andb]; wp_step.
  2:{ apply wp_ret. cbn. destruct (a =? ord "d"); [apply (Hrest [b])|apply (Hrest [a; b])]; auto; by repeat constructor. }
  destruct (a =? ord "d") eqn:Ea; b2p.
  - subst a. eapply wp_mono; [apply (check_flag_cur (ord "p") (ord "f")); [done|exact Hc1]|].
    intros [[pf ch2] i2] s2 [E2 Hc2]. cbn [fst snd] in *.
    destruct (vm_text_next fs k t) as (c & r & Er & Hcr).
    assert (pf = false) as ->.
    { rewrite E2, Er. cbn. destruct Hcr as [->| ->]; by rewrite andb_false_r. }
    destruct (b =? ord "p"); [apply (Hrest [])|apply (Hrest [b])]; auto; by repeat constructor.
  - eapply wp_mono; [apply (check_flag_cur (ord "p") (ord "f")); [done|exact Hc1]|].
    intros [[pf ch2] i2] s2 [E2 Hc2]. cbn [fst snd head_is] in *. rewrite <- E2.
    destruct pf.
    { apply wp_ret. cbn. split; [done|]. symmetry in E2. b2p. subst a. exact Hc2. }
    destruct (a =? ord "p"); [apply (Hrest [b])|apply (Hrest [a; b])]; auto; by repeat constructor.
Qed.

(** The end of the line is no flag. *)
Lemma no_flag_cur t ch i s : (2 < fuel)%nat -> cur ch i (nl :: t) s ->
  wp (one_flag ch i) (fun r s' => r.1.1 = false /\ cur r.1.2 r.2 (nl :: t) s') s.
Proof.
  intros Hf Hc. unfold one_flag. wp_step.
  eapply wp_mono; [apply (check_flag_cur (ord "d") (ord "d")); [done|exact Hc]|].
  intros [[dd ch1] i1] s1 [E Hc1]. change (nl =? ord "d") with false in *. cbn [fst snd andb] in *. subst dd.
  assert (Hrest : forall ch i s, cur ch i (nl :: t) s ->
    wp (let! (ch, i) := skip_letters fuel fuel ch i in ret (false, ch, i))
      (fun r s' => r.1.1 = false /\ cur r.1.2 r.2 (nl :: t) s') s).
  { intros ch2 i2 s2 Hc2. wp_step. eapply wp_mono;
      [apply (skip_letters_cur fuel fd s0 fuel_ok fuel [] (nl :: t)); [cbn; lia|apply Forall_nil_2|done|exact Hc2]|].
    intros [ch3 i3] s3 Hc3. by apply wp_ret. }
  wp_step. destruct aarch64; [|apply wp_ret; by apply Hrest].
  eapply wp_mono; [apply (check_flag_cur (ord "p") (ord "f")); [done|exact Hc1]|].
  intros [[pf ch2] i2] s2 [E Hc2]. change (nl =? ord "p") with false in *. cbn [fst snd andb] in *. subst pf. by apply Hrest.
Qed.

(** All of them. *)
Lemma read_vmflags_cur fs k t : Forall flag_ok fs -> (2 < fuel)%nat -> (k < fuel)%nat ->
  forall n ch i s, (S (length fs) < n)%nat -> cur ch i (vm_text fs k ++ nl :: t) s ->
  wp (read_vmflags fuel aarch64 n ch i) (fun r s' =>
    r.1.1 = existsb (dont_dump aarch64) fs /\
    exists w, Forall printable w /\ (length w <= length (vm_text fs k))%nat /\ cur r.1.2 r.2 (w ++ nl :: t) s') s.
Proof.
  intros Hfs Hf Hk. induction Hfs as [|[a b] fs [Ha Hb] Hfs IH]; intros n ch i s Hn Hc;
    (destruct n as [|n]; [cbn in Hn; lia|]); (eapply wp_ext; [apply read_vmflags_step|]).
  - destruct k as [|k].
    { destruct Hc as [-> Ha]. change (nl =? sp) with false. apply wp_ret. split; [done|]. exists [].
      split_and!; [constructor|done|by split]. }
    pose proof Hc as [-> _]. rewrite Z.eqb_refl. wp_step.
    eapply wp_mono; [by apply (skip_spaces_cur fuel fd s0 fuel_ok fuel (S k) (nl :: t))|].
    intros [ch1 i1] s1 Hc1. wp_step.
    eapply wp_mono; [apply (no_flag_cur t); [done|exact Hc1]|].
    intros [[d ch2] i2] s2 [E Hc2]. cbn [fst snd] in *. subst d.
    destruct n as [|n]; [cbn in Hn; lia|]. cbn [read_vmflags]. pose proof Hc2 as [-> _].
    change (nl =? sp) with false. apply wp_ret. split; [done|]. exists [].
    split_and!; [constructor|cbn; lia|done].
  - rewrite vm_text_cons in Hc. pose proof Hc as [-> _]. rewrite Z.eqb_refl. wp_step.
    eapply wp_mono; [apply (skip_spaces_cur fuel fd s0 fuel_ok fuel 1 (a :: b :: vm_text fs k ++ nl :: t));
      [lia|by apply Z.eqb_neq, letter_facts|done]|].
    intros [ch1 i1] s1 Hc1. wp_step. eapply wp_mono; [by apply (flag_letters a b fs k t)|].
    intros [[d ch2] i2] s2 [E Hc2]. cbn [fst snd] in *. cbn [existsb]. rewrite <- E. rewrite vm_text_cons.
    destruct d.
    + apply wp_ret. split; [done|]. exists (b :: vm_text fs k). split_and!; [|cbn; lia|done].
      apply Forall_cons. split; [by apply letter_facts|by apply vm_text_printable].
    + eapply wp_mono; [apply IH; [cbn in Hn; lia|done]|]. cbn beta. intros r s3 (Er & w & Hw & Hl & Hc3).
      split; [done|]. exists w. split_and!; [done|cbn; lia|done].
Qed.

(** *** Lines *)

Lemma in_line_weaken n m t ch i s : (n <= m)%nat -> in_line n t ch i s -> in_line m t ch i s.
Proof. intros Hn (w & Hw & Hl & Hc). exists w. split_and!; [done|lia|done]. Qed.

Lemma keyword_printable : Forall printable (bytes "Anonymous:") /\ Forall printable (bytes "VmFlags:").
Proof. split; repeat (apply Forall_cons; split; [done|]); apply Forall_nil_2. Qed.

Lemma read_detail_line l t ch i s ha : line_ok l -> (length (line_text l) < fuel)%nat ->
  cur ch i (line_text l ++ nl :: t) s ->
  wp (read_detail fuel aarch64 ch i ha) (fun r s' => exists ch' i',
    r = Some (has_anonymous ha [l], false, ch', i') /\ in_line (length (line_text l)) t ch' i' s') s.
Proof.
  destruct keyword_printable as [HA HV]. destruct l as [k d rest|w]; cbn [line_ok line_text has_anonymous fold_left].
  - intros [Hdg Hr] Hl Hc. rewrite <- app_assoc in Hc. pose proof Hc as [-> _]. unfold read_detail.
    change (Z.eqb _ (ord "A")) with true. cbv iota. wp_step.
    eapply wp_mono; [by apply match_keyword_full|].
    cbn beta. intros r s1 (ch1 & i1 & -> & Hc1). wp_step. rewrite length_app, length_app in Hl.
    rewrite length_replicate in Hl. rewrite <- app_assoc in Hc1.
    eapply wp_mono; [apply (skip_spaces_cur fuel fd s0 fuel_ok fuel k (d :: rest ++ nl :: t)); [lia| |done]|].
    { apply Z.eqb_neq. unfold sp. change (ord " ") with 32. change (ord "0") with 48 in Hdg. lia. }
    intros [ch2 i2] s2 Hc2. cbn [fst snd] in *. pose proof Hc2 as [-> _].
    rewrite (proj2 (Z.ltb_ge d (ord "0"))), (proj2 (Z.ltb_ge (ord "9") d)) by apply Hdg. apply wp_ret.
    exists d, i2. split; [done|]. exists (d :: rest). split_and!; [|rewrite !length_app, length_replicate; cbn; lia|done].
    apply Forall_cons. split; [|done]. unfold printable, nl. change (ord "0") with 48 in Hdg. lia.
  - intros (Hne & Hw & _ & H1 & H2) Hl Hc. destruct w as [|c w]; [done|]. pose proof Hc as [-> Ha].
    assert (Hk : forall kw s, Forall printable kw -> prefix_free kw (c :: w) -> cur c i (c :: w ++ nl :: t) s ->
      wp (match_keyword fuel kw c i) (fun r s' => exists ch' i', r = (ch', false, i') /\
        in_line (length (c :: w)) t ch' i' s') s).
    { intros kw s1 Hkw Hp Hc1. eapply wp_mono; [by apply (match_keyword_other kw t Hkw (c :: w))|].
      cbn beta. intros r s2 (ch2 & i2 & w2 & -> & ? & ? & ?). exists ch2, i2. split; [done|]. by exists w2. }
    unfold read_detail. destruct (c =? ord "A"); [|destruct (c =? ord "V")].
    + wp_step. eapply wp_mono; [by apply Hk|]. cbn beta. intros r s2 (ch2 & i2 & -> & Hi).
      apply wp_ret. eauto.
    + wp_step. eapply wp_mono; [by apply Hk|]. cbn beta. intros r s2 (ch2 & i2 & -> & Hi).
      apply wp_ret. eauto.
    + apply wp_ret. exists c, i. split; [done|]. by exists (c :: w).
Qed.

Lemma read_detail_flags fs k t ch i s ha : Forall flag_ok fs ->
  (length (bytes "VmFlags:" ++ vm_text fs k) < fuel)%nat ->
  cur ch i (bytes "VmFlags:" ++ vm_text fs k ++ nl :: t) s ->
  wp (read_detail fuel aarch64 ch i ha) (fun r s' => exists ch' i',
    r = Some (ha, existsb (dont_dump aarch64) fs, ch', i') /\ in_line (length (vm_text fs k)) t ch' i' s') s.
Proof.
  intros Hfs Hl Hc. pose proof Hc as [-> _]. unfold read_detail. change (Z.eqb _ (ord "A")) with false.
  change (Z.eqb _ (ord "V")) with true. cbv iota. wp_step.
    eapply wp_mono; [by apply match_keyword_full|].
  cbn beta. intros r s1 (ch1 & i1 & -> & Hc1). wp_step.
  assert (Hlen : (2 < fuel /\ k < fuel /\ S (length fs) < fuel)%nat).
  { unfold vm_text in Hl. rewrite !length_app, length_replicate in Hl. cbn [bytes length] in Hl.
    assert (length fs <= length (concat (map (fun f : Z * Z => [sp; f.1; f.2]) fs)))%nat; [|lia].
    clear. induction fs; cbn; lia. }
  destruct Hlen as (L1 & L2 & L3).
  eapply wp_mono; [by apply (read_vmflags_cur fs k t)|]. intros [[d ch2] i2] s2 (E & Hi).
  cbn [fst snd] in *. subst d. apply wp_ret. eauto.
Qed.

(** All the lines of a segment that is neither a device nor marked. *)
Lemma read_details_at ls v t : Forall line_ok ls -> vm_ok v -> ends t -> 
  (length (details_text ls v) < fuel)%nat -> forall n ha i s, (S (length ls) < n)%nat ->
  at_ i (details_text ls v ++ t) s ->
  wp (read_details fuel aarch64 n false false ha i) (fun r s' => exists ch i',
    r = Some (has_anonymous ha ls, vm_dont_dump aarch64 v, ch, i') /\ cur ch i' t s') s.
Proof.
  intros Hls Hv Ht. induction Hls as [|l ls Hl Hls IH]; intros Hlen n ha i s Hn Ha.
  - assert (Hstop : forall n dd ha i s, (0 < n)%nat -> at_ i t s ->
      wp (read_details fuel aarch64 n false dd ha i) (fun r s' => exists ch i',
        r = Some (ha, dd, ch, i') /\ cur ch i' t s') s).
    { intros m dd ha2 i2 s2 Hm Ha2. destruct m as [|m]; [lia|]. cbn [read_details]. wp_step.
      eapply wp_mono; [by apply (GetChar_at fuel fd s0)|]. intros [ch i'] s' Hc. cbn [fst snd] in Hc.
      assert (E : ends_details ch = true).
      { destruct t as [|c t]; [by destruct Hc as (-> & _)|by destruct Hc as [-> _]]. }
      rewrite E. apply wp_ret. eauto. }
    destruct v as [[fs k]|]; [|apply Hstop; [lia|done]].
    destruct n as [|n]; [cbn in Hn; lia|]. cbn [read_details]. wp_step.
    eapply wp_mono; [by apply (GetChar_at fuel fd s0)|]. intros [ch i'] s1 Hc1. cbn [fst snd] in Hc1.
    unfold details_text in Hc1, Hlen. cbn [map concat app vm_line] in Hc1, Hlen.
    rewrite <- app_assoc, <- app_assoc in Hc1. pose proof Hc1 as [-> _].
    change (ends_details (ord "V")) with false. cbn [orb]. wp_step. rewrite !length_app in Hlen. cbn [length] in Hlen.
    eapply wp_mono; [apply (read_detail_flags fs k t); [done|rewrite length_app; lia|done]|].
    cbn beta. intros r s2 (ch2 & i2 & -> & w & Hw & Hl & Hc2). wp_step.
    eapply wp_mono; [apply (skip_line_cur fuel fd s0 fuel_ok fuel w t); [lia|done|done]|].
    cbn beta. intros r s3 (i3 & -> & Ha3). apply Hstop; [lia|done].
  - destruct n as [|n]; [cbn in Hn; lia|]. cbn [read_details]. wp_step.
    eapply wp_mono; [by apply (GetChar_at fuel fd s0)|]. intros [ch i'] s1 Hc1. cbn [fst snd] in Hc1.
    unfold details_text in Hc1, Hlen. cbn [map concat] in Hc1, Hlen. rewrite <- !app_assoc in Hc1, Hlen.
    change (concat (map ?f ls) ++ vm_line v) with (details_text ls v) in Hlen.
    change (concat (map ?f ls) ++ vm_line v ++ t) with ((concat (map f ls)) ++ (vm_line v ++ t)) in Hc1.
    rewrite (app_assoc (concat _)) in Hc1. fold (details_text ls v) in Hc1, Hlen.
    rewrite !length_app in Hlen. cbn [length] in Hlen.
    rewrite <- (app_assoc (line_text l)) in Hc1. cbn [app] in Hc1.
    assert (E : ends_details ch = false).
    { destruct l as [k d rest|w].
      - by destruct Hc1 as [-> _].
      - destruct Hl as (Hne & _ & He & _). destruct w; [done|]. by destruct Hc1 as [-> _]. }
    rewrite E. cbn [orb]. wp_step.
    eapply wp_mono; [apply (read_detail_line l (details_text ls v ++ t)); [done|lia|exact Hc1]|].
    cbn beta. intros r s2 (ch2 & i2 & -> & w & Hw & Hlw & Hc2). wp_step.
    eapply wp_mono; [apply (skip_line_cur fuel fd s0 fuel_ok fuel w (details_text ls v ++ t)); [lia|done|done]|].
    cbn beta. intros r s3 (i3 & -> & Ha3). eapply wp_mono; [apply IH; [lia|cbn in Hn; lia|done]|].
    cbn beta. intros r s4 (ch4 & i4 & -> & Hc4). exists ch4, i4. split; [|done].
    by destruct l.
Qed.
End Text.
