(* ===== verification/ElfTypes.v ===== *)
(** The structures a core file is made of, and their layout in memory and in the
    file (x86-64, little-endian): the ELF headers of <elf.h>, the note contents
    declared in [elfcore.c], and the register set of [elfcore.h]. *)
From S2P Require Import Prelude Syscall KernelSpec.

(** ** Constants of <elf.h> *)

Definition ELFMAG0 : Z := 127.
Definition ELFMAG1 : Z := ord "E".
Definition ELFMAG2 : Z := ord "L".
Definition ELFMAG3 : Z := ord "F".
Definition ELFCLASS64 : Z := 2.
Definition ELFDATA2LSB : Z := 1.
Definition ELFDATA2MSB : Z := 2.
Definition EV_CURRENT : Z := 1.
Definition ET_CORE : Z := 4.
Definition EM_X86_64 : Z := 62.
Definition PT_LOAD : Z := 1.
Definition PT_NOTE : Z := 4.
Definition NT_PRSTATUS : Z := 1.
Definition NT_FPREGSET : Z := 2.
Definition NT_PRPSINFO : Z := 3.
Definition NT_PRXREG : Z := 4.
Definition NT_AUXV : Z := 6.
Definition NT_FILE : Z := 1179208773.          (* 0x46494c45 *)
Definition AT_NULL : Z := 0.
Definition AT_SYSINFO_EHDR : Z := 33.

Definition sizeof_long : Z := 8.
Definition sizeof_Ehdr : Z := 64.
Definition sizeof_Phdr : Z := 56.
Definition sizeof_Shdr : Z := 64.
Definition sizeof_Nhdr : Z := 12.
Definition sizeof_auxv_t : Z := 16.
Definition sizeof_regs : Z := 216.
Definition sizeof_fpregs : Z := 512.
Definition sizeof_prstatus : Z := 336.
Definition sizeof_prpsinfo : Z := 136.
Definition sizeof_core_user : Z := 928.

(** [sex]: non-zero for big-endian machines. *)
Definition sex : Z := if nth 0 (le 4 1) 0 =? 0 then 1 else 0.

(** ** ELF headers *)

Record Ehdr := mkEhdr {
  e_ident : list Z;                              (* 16 bytes *)
  e_type : Z; e_machine : Z; e_version : Z; e_entry : Z; e_phoff : Z; e_shoff : Z;
  e_flags : Z; e_ehsize : Z; e_phentsize : Z; e_phnum : Z; e_shentsize : Z;
  e_shnum : Z; e_shstrndx : Z }.

Definition Ehdr_bytes (e : Ehdr) : list Z :=
  e_ident e ++ le 2 (e_type e) ++ le 2 (e_machine e) ++ le 4 (e_version e) ++
  le 8 (e_entry e) ++ le 8 (e_phoff e) ++ le 8 (e_shoff e) ++ le 4 (e_flags e) ++
  le 2 (e_ehsize e) ++ le 2 (e_phentsize e) ++ le 2 (e_phnum e) ++ le 2 (e_shentsize e) ++
  le 2 (e_shnum e) ++ le 2 (e_shstrndx e).

Record Phdr := mkPhdr {
  p_type : Z; p_flags : Z; p_offset : Z; p_vaddr : Z; p_paddr : Z;
  p_filesz : Z; p_memsz : Z; p_align : Z }.

Definition Phdr_bytes (p : Phdr) : list Z :=
  le 4 (p_type p) ++ le 4 (p_flags p) ++ le 8 (p_offset p) ++ le 8 (p_vaddr p) ++
  le 8 (p_paddr p) ++ le 8 (p_filesz p) ++ le 8 (p_memsz p) ++ le 8 (p_align p).

Record Nhdr := mkNhdr { n_namesz : Z; n_descsz : Z; n_type : Z }.

Definition Nhdr_bytes (n : Nhdr) : list Z :=
  le 4 (n_namesz n) ++ le 4 (n_descsz n) ++ le 4 (n_type n).

(** ** Registers: [struct i386_regs] on x86-64 ([elfcore.h]) *)

Record regs := mkRegs {
  r15 : Z; r14 : Z; r13 : Z; r12 : Z; rbp : Z; rbx : Z; r11 : Z; r10 : Z;
  r9 : Z; r8 : Z; rax : Z; rcx : Z; rdx : Z; rsi : Z; rdi : Z; orig_rax : Z;
  rip : Z; cs : Z; eflags : Z; rsp : Z; ss : Z; fs_base : Z; gs_base : Z;
  ds : Z; es : Z; fs : Z; gs : Z }.

Definition regs_list (r : regs) : list Z :=
  [r15 r; r14 r; r13 r; r12 r; rbp r; rbx r; r11 r; r10 r; r9 r; r8 r; rax r; rcx r; rdx r;
   rsi r; rdi r; orig_rax r; rip r; cs r; eflags r; rsp r; ss r; fs_base r; gs_base r;
   ds r; es r; fs r; gs r].

Definition regs_bytes (r : regs) : list Z := concat (map (le 8) (regs_list r)).

(** ** [struct elf_timeval], [struct prstatus], [struct prpsinfo] *)

Record elf_timeval := mkTimeval { tv_sec : Z; tv_usec : Z }.

Definition timeval_bytes (t : elf_timeval) : list Z := le 8 (tv_sec t) ++ le 8 (tv_usec t).

Record prstatus := mkPrstatus {
  pr_info : Z * Z * Z;                           (* si_signo, si_code, si_errno *)
  pr_cursig : Z; pr_sigpend : Z; pr_sighold : Z;
  pr_pid : Z; pr_ppid : Z; pr_pgrp : Z; pr_sid : Z;
  pr_utime : elf_timeval; pr_stime : elf_timeval;
  pr_cutime : elf_timeval; pr_cstime : elf_timeval;
  pr_reg : regs; pr_fpvalid : Z }.

(** Padding after [pr_cursig] and at the end. *)
Definition prstatus_bytes (p : prstatus) : list Z :=
  le 4 (pr_info p).1.1 ++ le 4 (pr_info p).1.2 ++ le 4 (pr_info p).2 ++
  le 2 (pr_cursig p) ++ replicate 2 0 ++ le 8 (pr_sigpend p) ++ le 8 (pr_sighold p) ++
  le 4 (pr_pid p) ++ le 4 (pr_ppid p) ++ le 4 (pr_pgrp p) ++ le 4 (pr_sid p) ++
  timeval_bytes (pr_utime p) ++ timeval_bytes (pr_stime p) ++
  timeval_bytes (pr_cutime p) ++ timeval_bytes (pr_cstime p) ++
  regs_bytes (pr_reg p) ++ le 4 (pr_fpvalid p) ++ replicate 4 0.

(** [prstatus->pr_pid = pid; prstatus->pr_reg = *regs] *)
Definition set_thread (pid : Z) (r : regs) (p : prstatus) : prstatus :=
  mkPrstatus (pr_info p) (pr_cursig p) (pr_sigpend p) (pr_sighold p)
    pid (pr_ppid p) (pr_pgrp p) (pr_sid p)
    (pr_utime p) (pr_stime p) (pr_cutime p) (pr_cstime p) r (pr_fpvalid p).

Record prpsinfo := mkPrpsinfo {
  pr_state : Z; pr_sname : Z; pr_zomb : Z; pr_nice : Z; pr_flag : Z; pr_uid : Z; pr_gid : Z;
  ps_pid : Z; ps_ppid : Z; ps_pgrp : Z; ps_sid : Z;
  pr_fname : list Z;                             (* 16 bytes *)
  pr_psargs : list Z }.                          (* 80 bytes *)

Definition prpsinfo_bytes (p : prpsinfo) : list Z :=
  le 1 (pr_state p) ++ le 1 (pr_sname p) ++ le 1 (pr_zomb p) ++ le 1 (pr_nice p) ++
  replicate 4 0 ++ le 8 (pr_flag p) ++ le 4 (pr_uid p) ++ le 4 (pr_gid p) ++
  le 4 (ps_pid p) ++ le 4 (ps_ppid p) ++ le 4 (ps_pgrp p) ++ le 4 (ps_sid p) ++
  pr_fname p ++ pr_psargs p.

(** ** Notes supplied by the application ([struct CoredumperNote]) *)
Record CoredumperNote := mkNote {
  note_name : list Z;                            (* without the NUL *)
  note_type : Z;
  description_size : Z;
  description : list Z }.

(** ** Sizes *)

Lemma zlen_Ehdr e : zlen (e_ident e) = 16 -> zlen (Ehdr_bytes e) = sizeof_Ehdr.
Proof. intros Hi. unfold Ehdr_bytes. autorewrite with zlen. rewrite Hi. done. Qed.

Lemma zlen_Phdr p : zlen (Phdr_bytes p) = sizeof_Phdr.
Proof. unfold Phdr_bytes. by autorewrite with zlen. Qed.

Lemma zlen_Nhdr n : zlen (Nhdr_bytes n) = sizeof_Nhdr.
Proof. unfold Nhdr_bytes. by autorewrite with zlen. Qed.

Lemma zlen_regs r : zlen (regs_bytes r) = sizeof_regs.
Proof. unfold regs_bytes, regs_list. cbn [map concat]. by autorewrite with zlen. Qed.

Lemma zlen_timeval t : zlen (timeval_bytes t) = 16.
Proof. unfold timeval_bytes. by autorewrite with zlen. Qed.

Lemma zlen_prstatus p : zlen (prstatus_bytes p) = sizeof_prstatus.
Proof.
  unfold prstatus_bytes. autorewrite with zlen. rewrite zlen_regs, !zlen_timeval. done.
Qed.

Lemma zlen_prpsinfo p :
  zlen (pr_fname p) = 16 -> zlen (pr_psargs p) = 80 -> zlen (prpsinfo_bytes p) = sizeof_prpsinfo.
Proof. intros H1 H2. unfold prpsinfo_bytes. autorewrite with zlen. rewrite H1, H2. done. Qed.

#[export] Hint Rewrite zlen_Phdr zlen_Nhdr zlen_regs zlen_timeval zlen_prstatus : zlen.
