(* ===== verification/Vdso.v ===== *)
(** The auxiliary vector and the vdso: [CountAUXV] and [SanitizeVDSO] of
    [elfcore.c]. *)
From S2P Require Import Prelude Syscall KernelSpec CIO ElfTypes.

(** An [n]-byte unsigned integer of the address space. *)
Definition peek_le `{AddressSpace} (a : Z) (n : nat) : Z := unle (peek_bytes a n).

(** [ehdr->e_phoff], [ehdr->e_phnum] of the Elf64_Ehdr at [a]. *)
Definition mem_e_phoff `{AddressSpace} (a : Z) : Z := peek_le (a + 32) 8.
Definition mem_e_phnum `{AddressSpace} (a : Z) : Z := peek_le (a + 56) 2.

(** The Elf64_Phdr at [a], and element [i] of an array of them. *)
Definition mem_Phdr `{AddressSpace} (a : Z) : Phdr :=
  mkPhdr (peek_le a 4) (peek_le (a + 4) 4) (peek_le (a + 8) 8) (peek_le (a + 16) 8)
    (peek_le (a + 24) 8) (peek_le (a + 32) 8) (peek_le (a + 40) 8) (peek_le (a + 48) 8).

Definition phdr_at `{AddressSpace} (phdr i : Z) : Phdr := mem_Phdr (u64 (phdr + i * sizeof_Phdr)).

(** The check of the program headers after the first. *)
Definition vdso_phdr_ok (start end_ : Z) (p : Phdr) : bool :=
  negb (p_type p =? PT_LOAD) &&
  (Z.land (p_vaddr p) (8 - 1) =? 0) &&
  negb ((p_vaddr p <=? start) || (end_ <=? u64 (p_vaddr p + p_filesz p))).

(** [SanitizeVDSO]: the address given, or 0 (NULL) when the alleged vdso is not sane. *)
Definition SanitizeVDSO `{AddressSpace} (ehdr start end_ : Z) : Z :=
  if (ehdr =? 0) || negb (Z.land ehdr (8 - 1) =? 0) then 0
  else if end_ <=? u64 (ehdr + sizeof_Ehdr) then 0
  else if negb (Z.land (mem_e_phoff ehdr) (8 - 1) =? 0) then 0
  else
    let phdr := u64 (ehdr + mem_e_phoff ehdr) in
    let phnum := mem_e_phnum ehdr in
    if (phdr <=? start) || (end_ <=? u64 (phdr + phnum * sizeof_Phdr)) then 0
    else
      let p0 := phdr_at phdr 0 in
      if negb (p_type p0 =? PT_LOAD) || negb (p_vaddr p0 =? start) ||
         (end_ <=? u64 (p_vaddr p0 + p_memsz p0)) then 0
      else if forallb (vdso_phdr_ok start end_)
                (map (fun i => phdr_at phdr (Z.of_nat i)) (seq 1 (Z.to_nat phnum - 1)))
      then ehdr else 0.

(** The program headers of the vdso at [ehdr]. *)
Definition vdso_phdrs `{AddressSpace} (ehdr : Z) : list Phdr :=
  map (fun i => phdr_at (u64 (ehdr + mem_e_phoff ehdr)) (Z.of_nat i))
    (seq 0 (Z.to_nat (mem_e_phnum ehdr))).

(** Those that get a program header of their own in the core file. *)
Definition vdso_extra `{AddressSpace} (ehdr : Z) : list Phdr :=
  if ehdr =? 0 then [] else filter (fun p => p_type p <> PT_LOAD) (vdso_phdrs ehdr).

Section CountAUXV.
Context {W H : Type} `{KernelIO W}.
Variable fuel : nat.
Abbreviation P A := (M (cst W H) A).

(** [auxv.a_type] and [auxv.a_un.a_val]. *)
Definition a_type (auxv : list Z) : Z := unle (ztake 8 auxv).
Definition a_val (auxv : list Z) : Z := unle (ztake 8 (zdrop 8 auxv)).

Fixpoint count_auxv (n : nat) (fd num_auxv vdso_ehdr : Z) : P (Z * Z) :=
  match n with
  | O => out_of_fuel
  | S n' =>
      let! (nread, auxv) := NO_INTR_on fst fuel (sys_read fd sizeof_auxv_t) in
      if negb (nread =? sizeof_auxv_t) then ret (num_auxv, vdso_ehdr)
      else
        let num_auxv := num_auxv + 1 in
        let vdso_ehdr := if a_type auxv =? AT_SYSINFO_EHDR then a_val auxv else vdso_ehdr in
        if negb (a_type auxv =? AT_NULL) then count_auxv n' fd num_auxv vdso_ehdr
        else ret (num_auxv, vdso_ehdr)
  end.

(** [CountAUXV]: the number of entries and the address of the vdso. *)
Definition CountAUXV : P (Z * Z) :=
  let! fd := NO_INTR fuel (sys_open "/proc/self/auxv" O_RDONLY 0) in
  let! r := (if 0 <=? fd then count_auxv fuel fd 0 0 else ret (0, 0)) in
  NO_INTR fuel (sys_close fd) ;;!
  ret r.
End CountAUXV.

Lemma unle_nonneg l : 0 <= unle l.
Proof.
  induction l as [|b l IH]; cbn [unle]; [lia|]. pose proof (Z.mod_pos_bound b 256). lia.
Qed.

Lemma vdso_extra_filesz `{AddressSpace} ehdr : Forall (fun p => 0 <= p_filesz p) (vdso_extra ehdr).
Proof.
  unfold vdso_extra. destruct (ehdr =? 0); [constructor|]. apply Forall_forall.
  intros p [_ Hp]%list_elem_of_filter. unfold vdso_phdrs in Hp.
  apply list_elem_of_fmap in Hp as (i & -> & _). apply unle_nonneg.
Qed.
