(* ===== verification/ElfCore.v ===== *)
(** [CreateElfCore] of [elfcore.c]: computing the layout of the core file and
    writing it. *)
From S2P Require Import Prelude Syscall KernelSpec CIO ProcIO Smaps ElfTypes Vdso.

(** ** Layout *)

(** 4-byte padding: [if (n % 4 != 0) 4 - n % 4]. *)
Definition align4 (n : Z) : Z := if negb (n mod 4 =? 0) then 4 - n mod 4 else 0.

Definition CORE_NAME : list Z := bytes "CORE" ++ [0; 0; 0; 0].

(** [3 * sizeof(long) + mapp->name_len + 1] for each mapping that goes to the
    NT_FILE note: the number of entries and the length of the description. *)
Definition file_mappings (ms : list mapping) : list mapping :=
  filter (fun m => is_anon m = false) ms.

Definition nt_file_count (ms : list mapping) : Z := zlen (file_mappings ms).

Definition nt_file_desc_len (ms : list mapping) : Z :=
  foldr (fun m n => 3 * sizeof_long + name_len m + 1 + n) 0 (file_mappings ms).

(** Space of one extra note. *)
Definition extra_note_size (n : CoredumperNote) : Z :=
  let name_size := zlen (note_name n) + 1 in
  sizeof_Nhdr + name_size + description_size n + align4 name_size + align4 (description_size n).

(** The size of the PT_NOTE segment. *)
Definition notes_filesz (user : option (list Z)) (num_threads : Z) (extra : list CoredumperNote)
    (num_auxv : Z) (ms : list mapping) : Z :=
  u64 (sizeof_Nhdr + 8 + sizeof_prpsinfo +
       (match user with Some _ => sizeof_Nhdr + 8 + sizeof_core_user | None => 0 end) +
       num_threads * (sizeof_Nhdr + 8 + sizeof_prstatus + sizeof_Nhdr + 8 + sizeof_fpregs) +
       foldr (fun n a => extra_note_size n + a) 0 extra +
       (if negb (num_auxv =? 0) then 8 + sizeof_Nhdr + num_auxv * sizeof_auxv_t else 0) +
       (if 0 <? nt_file_count ms then
          sizeof_Nhdr + 8 + 2 * sizeof_long + nt_file_desc_len ms + align4 (nt_file_desc_len ms)
        else 0)).

(** The offset of the note segment. *)
Definition notes_offset (num_phdrs : Z) : Z := u64 (sizeof_Ehdr + num_phdrs * sizeof_Phdr).

Definition note_align (offset filesz pagesize : Z) : Z :=
  let a := pagesize - u64 (offset + filesz) mod pagesize in
  if a =? pagesize then 0 else a.

(** *** Limiting by priority *)

(** The first mapping of greatest [write_size], as the loop finds it: its index
    and size; [best] is the one found so far. *)
Fixpoint find_largest (ms : list mapping) (i : nat) (best : option (nat * Z)) : option (nat * Z) :=
  match ms with
  | [] => best
  | m :: ms' =>
      find_largest ms' (S i)
        (match best with
         | None => Some (i, write_size m)
         | Some (_, b) => if b <? write_size m then Some (i, write_size m) else best
         end)
  end.

(** [total_core_size], from [offset + filesz + vdso_size]. *)
Definition total_core_size (base : Z) (ms : list mapping) : Z :=
  u64 (base + foldr (fun m n => write_size m + n) 0 ms).

(** The [while (1)] loop; it zeroes one mapping each time it continues. *)
Fixpoint prioritize (n : nat) (base max : Z) (ms : list mapping) : list mapping :=
  match n with
  | O => ms
  | S n' =>
      let total := total_core_size base ms in
      match find_largest ms 0 None with
      | Some (k, ws) =>
          if max <? total then
            let space_needed := total - max in
            if 0 <? ws then
              if ws <? space_needed then prioritize n' base max (alter (set_write_size 0) k ms)
              else alter (set_write_size (ws - space_needed)) k ms
            else ms
          else ms
      | None => ms
      end
  end.

(** The size of the vdso sections at the end of the file. *)
Definition vdso_size (extra : list Phdr) : Z := u64 (foldr (fun p n => p_filesz p + n) 0 extra).

(** [if (prioritize_max_length > 0)]; one iteration per mapping and a last one. *)
Definition limit_by_priority (prioritize_max_length offset filesz : Z) (extra : list Phdr)
    (ms : list mapping) : list mapping :=
  if 0 <? prioritize_max_length then
    prioritize (S (length ms)) (offset + filesz + vdso_size extra) prioritize_max_length ms
  else ms.

(** *** Program headers *)

Definition note_phdr (offset filesz : Z) : Phdr := mkPhdr PT_NOTE 0 offset 0 0 filesz 0 0.

(** The PT_LOAD headers; [offset] and [filesz] are those of the previous one. *)
Fixpoint load_phdrs (offset filesz pagesize : Z) (ms : list mapping) : list Phdr :=
  match ms with
  | [] => []
  | m :: ms' =>
      let offset := u64 (offset + filesz) in
      mkPhdr PT_LOAD (Z.land (flags m) PF_MASK) offset (start_address m) 0 (write_size m)
        (u64 (end_address m - start_address m)) pagesize
      :: load_phdrs offset (write_size m) pagesize ms'
  end.

(** [offset + filesz] after the PT_LOAD headers. *)
Fixpoint load_end (offset filesz : Z) (ms : list mapping) : Z :=
  match ms with
  | [] => u64 (offset + filesz)
  | m :: ms' => load_end (u64 (offset + filesz)) (write_size m) ms'
  end.

(** The headers copied from the vdso; [offset] is where the first one goes. *)
Fixpoint extra_phdrs (offset : Z) (ps : list Phdr) : list Phdr :=
  match ps with
  | [] => []
  | p :: ps' =>
      mkPhdr (p_type p) (p_flags p) offset (p_vaddr p) 0 (p_filesz p) (p_memsz p) (p_align p)
      :: extra_phdrs (u64 (offset + p_filesz p)) ps'
  end.

(** The ELF header. *)
Definition core_ehdr (num_phdrs : Z) : Ehdr :=
  mkEhdr
    ([ELFMAG0; ELFMAG1; ELFMAG2; ELFMAG3; ELFCLASS64;
      if negb (sex =? 0) then ELFDATA2MSB else ELFDATA2LSB; EV_CURRENT] ++ replicate 9 0)
    ET_CORE EM_X86_64 EV_CURRENT 0 sizeof_Ehdr 0 0 sizeof_Ehdr sizeof_Phdr num_phdrs
    sizeof_Shdr 0 0.

(** A thread to dump: [pids[i]], [regs+i], [fpregs+i]. *)
Record thread := mkThread { t_pid : Z; t_regs : regs; t_fpregs : list Z }.

(** The mapping that covers the vdso is checked; no such mapping, no vdso. *)
Fixpoint check_vdso `{AddressSpace} (address : Z) (ms : list mapping) : Z :=
  match ms with
  | [] => 0
  | m :: ms' =>
      if negb (Z.land (flags m) PF_R =? 0) && (start_address m <=? address) &&
         (address <? end_address m)
      then SanitizeVDSO address (start_address m) (end_address m)
      else check_vdso address ms'
  end.

(** ** Writing *)

Section Write.
Context {W H : Type} `{KernelIO W} `{AddressSpace}.
Variable fuel : nat.
(** [writer], called on the handle that is part of the state. *)
Variable writer : ptr -> Z -> M (cst W H) Z.
Abbreviation P A := (M (cst W H) A).

(** [writer(handle, p, n) != n]: leave with [None]. *)
Definition put (p : ptr) (n : Z) : P (option unit) :=
  let! rc := writer p n in
  if u64 rc =? n then ret (Some tt) else ret None.

(** A local object written as a whole. *)
Definition put_bytes (l : list Z) : P (option unit) := put (local l) (zlen l).

Fixpoint put_all {A : Type} (f : A -> P (option unit)) (l : list A) : P (option unit) :=
  match l with
  | [] => ret (Some tt)
  | x :: l' => let? _ := f x in put_all f l'
  end.

(** A note named CORE. *)
Definition put_core_note (type descsz : Z) (desc : P (option unit)) : P (option unit) :=
  let? _ := put_bytes (Nhdr_bytes (mkNhdr 5 descsz type)) in
  let? _ := put_bytes CORE_NAME in
  desc.

(** [WriteThreadRegs]: process status and integer registers, then the FPU
    registers. *)
Definition WriteThreadRegs (prstatus : prstatus) (t : thread) : P (option unit) :=
  let? _ := put_core_note NT_PRSTATUS sizeof_prstatus
              (put_bytes (prstatus_bytes (set_thread (t_pid t) (t_regs t) prstatus))) in
  put_core_note NT_FPREGSET sizeof_fpregs (put (local (t_fpregs t)) sizeof_fpregs).

(** The auxv note is copied entry by entry from /proc/self/auxv. *)
Fixpoint copy_auxv (n : nat) (fd : Z) : P (option unit) :=
  match n with
  | O => ret (Some tt)
  | S n' =>
      let! (nread, auxv) := NO_INTR_on fst fuel (sys_read fd sizeof_auxv_t) in
      if negb (nread =? sizeof_auxv_t) then NO_INTR fuel (sys_close fd) ;;! ret None
      else
        let! o := put (local auxv) sizeof_auxv_t in
        match o with
        | None => NO_INTR fuel (sys_close fd) ;;! ret None
        | Some _ => copy_auxv n' fd
        end
  end.

Definition write_auxv (num_auxv : Z) : P (option unit) :=
  if negb (num_auxv =? 0) then
    let! fd := NO_INTR fuel (sys_open "/proc/self/auxv" O_RDONLY 0) in
    if fd =? -1 then ret None
    else
      let! o := put_core_note NT_AUXV (u32 (num_auxv * sizeof_auxv_t)) (ret (Some tt)) in
      match o with
      | None => NO_INTR fuel (sys_close fd) ;;! ret None
      | Some _ => copy_auxv (Z.to_nat num_auxv) fd
      end
  else ret (Some tt).

(** The thread that called the dumper goes first; both loops count down. *)
Fixpoint write_main_thread (prstatus : prstatus) (main_pid : Z) (ts : list thread) : P (option unit) :=
  match ts with
  | [] => ret (Some tt)
  | t :: ts' =>
      if t_pid t =? main_pid then WriteThreadRegs prstatus t
      else write_main_thread prstatus main_pid ts'
  end.

Definition write_other_thread (prstatus : prstatus) (main_pid : Z) (t : thread) : P (option unit) :=
  if negb (t_pid t =? main_pid) then WriteThreadRegs prstatus t else ret (Some tt).

Definition write_threads (prstatus : prstatus) (main_pid : Z) (ts : list thread) : P (option unit) :=
  let? _ := write_main_thread prstatus main_pid (rev ts) in
  put_all (write_other_thread prstatus main_pid) (rev ts).

(** A note supplied by the application; sizes are [uint32_t] here. *)
Definition write_extra_note (n : CoredumperNote) : P (option unit) :=
  let namesz := u32 (zlen (note_name n) + 1) in
  let descsz := u32 (description_size n) in
  let? _ := put_bytes (Nhdr_bytes (mkNhdr namesz descsz (note_type n))) in
  let? _ := put (local (note_name n ++ [0])) namesz in
  let? _ := put (local [0; 0; 0]) (align4 namesz) in
  let? _ := put (local (description n)) descsz in
  put (local [0; 0; 0]) (align4 descsz).

(** start/end/file offset (in pages) of a file mapping, and its name. *)
Definition write_file_triple (pagesize : Z) (m : mapping) : P (option unit) :=
  put_bytes (le 8 (start_address m) ++ le 8 (end_address m) ++ le 8 (offset m / pagesize)).

Definition write_file_name (m : mapping) : P (option unit) :=
  put (local (name m ++ [0])) (name_len m + 1).

Definition write_nt_file (pagesize : Z) (ms : list mapping) : P (option unit) :=
  if 0 <? nt_file_count ms then
    let? _ := put_core_note NT_FILE (u32 (nt_file_desc_len ms + 2 * sizeof_long))
                (put_bytes (le 8 (nt_file_count ms) ++ le 8 pagesize)) in
    let? _ := put_all (write_file_triple pagesize) (file_mappings ms) in
    let? _ := put_all write_file_name (file_mappings ms) in
    if negb (nt_file_desc_len ms mod 4 =? 0)
    then put (local [0; 0; 0]) (4 - nt_file_desc_len ms mod 4)
    else ret (Some tt)
  else ret (Some tt).

(** Memory segments, and the contents of the vdso headers. *)
Definition write_segment (m : mapping) : P (option unit) :=
  if negb (write_size m =? 0) then put (PMem (start_address m)) (write_size m)
  else ret (Some tt).

Definition write_vdso_phdr (p : Phdr) : P (option unit) := put (PMem (p_vaddr p)) (p_filesz p).

(** Everything CreateElfCore writes, given the mappings, the number of auxv
    entries and the (checked) address of the vdso.  [None] is [goto done]. *)
Definition write_core (prpsinfo : prpsinfo) (user : option (list Z)) (prstatus : prstatus)
    (ts : list thread) (pagesize prioritize_max_length main_pid : Z)
    (notes : list CoredumperNote) (ms : list mapping) (num_auxv vdso : Z) : P (option unit) :=
  let extra := vdso_extra vdso in
  let num_phdrs := zlen ms + zlen extra + 1 in
  let filesz := notes_filesz user (zlen ts) notes num_auxv ms in
  let noffset := notes_offset num_phdrs in
  let nalign := note_align noffset filesz pagesize in
  let offset := u64 (noffset + nalign) in
  let? _ := put_bytes (Ehdr_bytes (core_ehdr num_phdrs)) in
  let? _ := put_bytes (Phdr_bytes (note_phdr noffset filesz)) in
  let ms := limit_by_priority prioritize_max_length offset filesz extra ms in
  let? _ := put_all (fun p => put_bytes (Phdr_bytes p)) (load_phdrs offset filesz pagesize ms) in
  let? _ := put_all (fun p => put_bytes (Phdr_bytes p)) (extra_phdrs (load_end offset filesz ms) extra) in
  let? _ := put_core_note NT_PRPSINFO sizeof_prpsinfo (put_bytes (prpsinfo_bytes prpsinfo)) in
  let? _ := (match user with
             | Some u => put_core_note NT_PRXREG sizeof_core_user (put (local u) sizeof_core_user)
             | None => ret (Some tt)
             end) in
  let? _ := write_auxv num_auxv in
  let? _ := write_threads prstatus main_pid ts in
  let? _ := put_all write_extra_note notes in
  let? _ := write_nt_file pagesize ms in
  let? _ := (if negb (nalign =? 0) then put_bytes (replicate (Z.to_nat nalign) 0)
             else ret (Some tt)) in
  let? _ := put_all write_segment ms in
  put_all write_vdso_phdr extra.

(** ** The whole function *)

Variable is_done : H -> Z.
Variable aarch64 : bool.
Variable uninit : list Z.

(** [read_error]: close the file being read, then [goto done]. *)
Definition read_error {A : Type} (fd : Z) : P (option A) :=
  NO_INTR fuel (sys_close fd) ;;! ret None.

(** Counting the mappings. *)
Definition count_mappings : P (option Z) :=
  let! fd := NO_INTR fuel (sys_open "/proc/self/maps" O_RDONLY 0) in
  if fd <? 0 then ret None
  else
    let! (num_mappings, _) := count_lines fuel fuel (mkIo fd []) 0 in
    let! e := get_errno in
    if negb (e =? 0) then read_error fd
    else NO_INTR fuel (sys_close fd) ;;! ret (Some num_mappings).

(** Reading the mappings. *)
Definition load_mappings (rd wr pagesize num_mappings : Z) : P (option (list mapping)) :=
  let! fd := NO_INTR fuel (sys_open "/proc/self/smaps" O_RDONLY 0) in
  if fd <? 0 then ret None
  else
    let! (ch, i) := GetChar fuel (mkIo fd []) in
    if ch <? 0 then read_error fd
    else
      let! o := read_mappings fuel aarch64 uninit (Z.to_nat num_mappings) rd wr pagesize ch i [] in
      match o with
      | None => read_error fd
      | Some (ms, _) => NO_INTR fuel (sys_close fd) ;;! ret (Some ms)
      end.

(** The body of [CreateElfCore] up to [done:]. *)
Definition create_body (prpsinfo : prpsinfo) (user : option (list Z)) (prstatus : prstatus)
    (ts : list thread) (pagesize prioritize_max_length main_pid : Z)
    (notes : list CoredumperNote) (loopback : Z * Z) : P (option unit) :=
  let? num_mappings := count_mappings in
  let! (num_auxv, vdso) := CountAUXV fuel in
  let? ms := load_mappings loopback.1 loopback.2 pagesize num_mappings in
  let vdso := if negb (vdso =? 0) then check_vdso vdso ms else 0 in
  write_core prpsinfo user prstatus ts pagesize prioritize_max_length main_pid notes
    ms num_auxv vdso.

Definition close_if_open (fd : Z) : P unit :=
  if 0 <=? fd then NO_INTR fuel (sys_close fd) ;;! ret tt else ret tt.

Definition CreateElfCore (prpsinfo : prpsinfo) (user : option (list Z)) (prstatus : prstatus)
    (ts : list thread) (pagesize prioritize_max_length main_pid : Z)
    (notes : list CoredumperNote) : P Z :=
  let! (prc, fds) := sys_pipe in
  let loopback := if prc <? 0 then (-1, -1) else fds in
  let! o := (if prc <? 0 then ret None
             else create_body prpsinfo user prstatus ts pagesize prioritize_max_length
                    main_pid notes loopback) in
  let rc := match o with Some _ => 0 | None => -1 end in
  let! h := get_hnd in
  let rc := if negb (is_done h =? 0) then 0 else rc in
  close_if_open loopback.1 ;;!
  close_if_open loopback.2 ;;!
  ret rc.
End Write.
