(* ===== verification/Closure.v ===== *)
(** What goes through the code of [CreateElfCore] that reads /proc: a property of
    computations that the system calls have and that sequencing preserves holds of
    the whole of it. *)
From S2P Require Import Prelude Syscall KernelSpec CIO ProcIO Smaps Vdso ElfCore.

(** *** The descriptors in a value

    The functions that read a stream return it: [holds mine a] says that the stream in
    the value [a], if there is one, is that of one of the descriptors [mine]. *)
Class Holds (A : Type) := holds : (Z -> Prop) -> A -> Prop.
#[export] Instance holds_io : Holds io := fun mine i => mine (io_fd i).
#[export] Instance holds_prod {A B} `{!Holds A} `{!Holds B} : Holds (A * B) := fun mine p => holds mine p.1 /\ holds mine p.2.
#[export] Instance holds_option {A} `{!Holds A} : Holds (option A) := fun mine o => match o with Some a => holds mine a | None => True end.
#[export] Instance holds_none {A} : Holds A | 100 := fun _ _ => True.

(** [K V m], for a property [V] of results, is such a property of [m], for code that
    reads and closes only the descriptors [mine] and writes to [wr] only. *)
Class Closed {W Hd : Type} `{KernelIO W} (fuel : nat) (mine : Z -> Prop) (wr : Z)
    (K : forall A : Type, (A -> Prop) -> M (cst W Hd) A -> Prop) := {
  closed_ret : forall A (V : A -> Prop) (a : A), V a -> K A V (ret a);
  closed_fuel : forall A (V : A -> Prop), K A V out_of_fuel;
  closed_mono : forall A (V U : A -> Prop) m, K A V m -> (forall a, V a -> U a) -> K A U m;
  closed_bind : forall A B (U : A -> Prop) (V : B -> Prop) (m : M (cst W Hd) A) (k : A -> M (cst W Hd) B),
    K A U m -> (forall a, U a -> K B V (k a)) -> K B V (bind m k);
  closed_get_errno : K Z any get_errno;
  closed_set_errno : forall e, K unit any (set_errno e);
  closed_sys_read : forall fd n, mine fd -> K _ any (sys_read fd n);
  closed_sys0_read : forall fd n my, mine fd -> K _ any (sys0_read fd n my);
  closed_sys0_write : forall p n my, K _ any (sys0_write wr p n my);
  closed_NO_INTR_on : forall A (f : A -> Z) (m : M (cst W Hd) A), K A any m -> K A any (NO_INTR_on f fuel m);
  closed_MY_NO_INTR : forall A (fn : Z -> M (cst W Hd) (Z * A * Z)) my,
    (forall my, K _ any (fn my)) -> K _ any (MY_NO_INTR fuel fn my);
  closed_close : forall fd, mine fd -> K Z any (NO_INTR fuel (sys_close fd));
  closed_open : forall A (V : A -> Prop) p (k : Z -> M (cst W Hd) A), (forall fd, mine fd -> K A V (k fd)) ->
    K A V (let! fd := NO_INTR fuel (sys_open p O_RDONLY 0) in k fd) }.

Create HintDb closed.

Section Closed.
Context {W Hd : Type} `{!KernelIO W} `{!AddressSpace} (fuel : nat) (mine : Z -> Prop) (wr : Z).
Context (K : forall A : Type, (A -> Prop) -> M (cst W Hd) A -> Prop) `{!Closed fuel mine wr K}.
Abbreviation closed m := (K _ (holds mine) m).

(** Code whose result holds no descriptor. *)
Lemma closed_any {A} `{!Holds A} (m : M (cst W Hd) A) : K A any m -> (forall a : A, holds mine a) -> closed m.
Proof. intros Hm Ha. eapply closed_mono; [exact Hm|auto]. Qed.

Lemma closed_then {A B} `{!Holds A} `{!Holds B} (m : M (cst W Hd) A) (k : A -> M (cst W Hd) B) :
  closed m -> (forall a, holds mine a -> closed (k a)) -> closed (bind m k).
Proof. apply closed_bind. Qed.

Lemma closed_obind {A B} `{!Holds A} `{!Holds B} (m : M (cst W Hd) (option A)) (k : A -> M (cst W Hd) (option B)) :
  closed m -> (forall a, holds mine a -> closed (k a)) -> closed (obind m k).
Proof. intros Hm Hk. apply closed_then; [done|]. intros [a|] Ha; [by apply Hk|by apply closed_ret]. Qed.

#[local] Hint Extern 1 (K _ _ _) => first [ apply closed_ret; cbn; by auto | apply closed_fuel
  | apply closed_any; [|by intros]; first [ apply closed_get_errno | apply closed_set_errno
    | apply closed_sys_read; assumption | apply closed_close; assumption
    | apply closed_NO_INTR_on; apply closed_sys_read; assumption ] ] : closed.

(** Goes through the code of a function. *)
Ltac through :=
  cbv zeta;
  repeat match goal with
  | H : holds _ _ |- _ => progress (hnf in H; cbn in H)
  | H : _ /\ _ |- _ => destruct H
  | |- K _ _ (bind _ _) => apply closed_then
  | |- K _ _ (obind _ _) => apply closed_obind
  | |- K _ _ (match ?x with _ => _ end) => destruct x
  | |- K _ _ _ => solve [eauto with closed]
  | |- forall _, _ => intros ?
  end.

Lemma closed_c_read fd n : mine fd -> closed (c_read fuel fd n).
Proof.
  intros Hf. unfold c_read. destruct (0 <? n); [|by apply closed_ret]. apply closed_then.
  - apply closed_any; [|by intros]. apply closed_MY_NO_INTR. intros my. by apply closed_sys0_read.
  - through.
Qed.

Lemma closed_c_write p n : closed (c_write fuel wr p n).
Proof.
  unfold c_write. enough (forall m p len, closed (c_write_loop fuel m wr n p len)) by done.
  induction m as [|m IH]; intros p' len; cbn [c_write_loop]; [apply closed_fuel|].
  destruct (0 <? len); [|by apply closed_ret]. apply closed_then.
  - apply closed_any; [|by intros]. apply closed_MY_NO_INTR. intros my. apply closed_sys0_write.
  - through.
Qed.
#[local] Hint Resolve closed_c_read closed_c_write : closed.

Lemma closed_GetChar i : mine (io_fd i) -> closed (GetChar fuel i).
Proof. unfold GetChar. through. Qed.
#[local] Hint Resolve closed_GetChar : closed.

Lemma closed_GetHexLoop n : forall i hex first c, mine (io_fd i) -> closed (GetHexLoop fuel n i hex first c).
Proof. induction n as [|n IH]; intros i hex first c Hi; cbn [GetHexLoop]; through. Qed.

Lemma closed_GetHex i : mine (io_fd i) -> closed (GetHex fuel i).
Proof. apply closed_GetHexLoop. Qed.

Lemma closed_GetHexInit i c : mine (io_fd i) -> closed (GetHexWithInitChar fuel i c).
Proof. apply closed_GetHexLoop. Qed.

Lemma closed_count_lines n : forall i k, mine (io_fd i) -> closed (count_lines fuel n i k).
Proof. induction n as [|n IH]; intros i k Hi; cbn [count_lines]; through. Qed.

Lemma closed_read_flags n : forall i fl, mine (io_fd i) -> closed (read_flags fuel n i fl).
Proof. induction n as [|n IH]; intros i fl Hi; cbn [read_flags]; through. Qed.

Lemma closed_skip_spaces n : forall c i, mine (io_fd i) -> closed (skip_spaces fuel n c i).
Proof. induction n as [|n IH]; intros c i Hi; cbn [skip_spaces]; through. Qed.

Lemma closed_skip_word n : forall c i, mine (io_fd i) -> closed (skip_word fuel n c i).
Proof. induction n as [|n IH]; intros c i Hi; cbn [skip_word]; through. Qed.

Lemma closed_read_name n : forall c i acc, mine (io_fd i) -> closed (read_name fuel n c i acc).
Proof. induction n as [|n IH]; intros c i acc Hi; cbn [read_name]; through. Qed.

Lemma closed_skip_line n : forall c i, mine (io_fd i) -> closed (skip_line fuel n c i).
Proof. induction n as [|n IH]; intros c i Hi; cbn [skip_line]; through. Qed.

Lemma closed_skip_letters n : forall c i, mine (io_fd i) -> closed (skip_letters fuel n c i).
Proof. induction n as [|n IH]; intros c i Hi; cbn [skip_letters]; through. Qed.

Lemma closed_match_keyword str : forall c i, mine (io_fd i) -> closed (match_keyword fuel str c i).
Proof. induction str as [|k str IH]; intros c i; cbn [match_keyword]; through. Qed.

Lemma closed_check_flag c d ch i : mine (io_fd i) -> closed (check_flag fuel c d ch i).
Proof. unfold check_flag. through. Qed.
#[local] Hint Resolve closed_GetHex closed_GetHexInit closed_count_lines closed_read_flags closed_skip_spaces
  closed_skip_word closed_read_name closed_skip_line closed_skip_letters closed_match_keyword closed_check_flag : closed.

Lemma closed_skip_field c i : mine (io_fd i) -> closed (skip_field fuel c i).
Proof. unfold skip_field. through. Qed.
#[local] Hint Resolve closed_skip_field : closed.

Lemma closed_read_header c i : mine (io_fd i) -> closed (read_header fuel c i).
Proof. unfold read_header. through. Qed.

Lemma closed_read_vmflags aarch64 n : forall c i, mine (io_fd i) -> closed (read_vmflags fuel aarch64 n c i).
Proof. induction n as [|n IH]; intros c i Hi; cbn [read_vmflags]; through. Qed.
#[local] Hint Resolve closed_read_header closed_read_vmflags : closed.

Lemma closed_read_detail aarch64 c i a : mine (io_fd i) -> closed (read_detail fuel aarch64 c i a).
Proof. unfold read_detail. through. Qed.
#[local] Hint Resolve closed_read_detail : closed.

Lemma closed_read_details aarch64 n : forall device dd a i, mine (io_fd i) -> closed (read_details fuel aarch64 n device dd a i).
Proof. induction n as [|n IH]; intros device dd a i Hi; cbn [read_details]; through. Qed.

Lemma closed_LeadingZerosLoop rd mem len ps n : forall count buf pos,
  mine rd -> closed (LeadingZerosLoop fuel n rd wr mem len ps count buf pos).
Proof. induction n as [|n IH]; intros count buf pos Hi; cbn [LeadingZerosLoop]; through. Qed.
#[local] Hint Resolve closed_read_details closed_LeadingZerosLoop : closed.

Lemma closed_keep_segment uninit rd ps h a dd : mine rd -> closed (keep_segment fuel uninit rd wr ps h a dd).
Proof. unfold keep_segment, LeadingZeros. through. Qed.
#[local] Hint Resolve closed_keep_segment : closed.

Lemma closed_read_mappings aarch64 uninit rd ps n : forall c i kept,
  mine rd -> mine (io_fd i) -> closed (read_mappings fuel aarch64 uninit n rd wr ps c i kept).
Proof. induction n as [|n IH]; intros c i kept Hr Hi; cbn [read_mappings]; through. Qed.

Lemma closed_count_auxv fd n : forall k v, mine fd -> closed (count_auxv fuel n fd k v).
Proof. induction n as [|n IH]; intros k v Hi; cbn [count_auxv]; through. Qed.
#[local] Hint Resolve closed_read_mappings closed_count_auxv : closed.

(** *** Reading /proc *)

Lemma closed_count_mappings : closed (count_mappings fuel).
Proof. apply closed_open. intros fd Hfd. unfold read_error. through. Qed.

Lemma closed_CountAUXV : closed (CountAUXV fuel).
Proof. apply closed_open. intros fd Hfd. through. Qed.

Lemma closed_load_mappings aarch64 uninit rd ps n : mine rd -> closed (load_mappings fuel aarch64 uninit rd wr ps n).
Proof. intros Hr. apply closed_open. intros fd Hfd. unfold read_error. through. Qed.
End Closed.
