(* ===== verification/Untouched.v ===== *)
(** The parts of [CreateElfCore] that read /proc do not disturb the output: whatever
    the kernel answers, they only read, open and close other files and write to the
    loopback pipe. *)
From S2P Require Import Prelude Syscall KernelSpec CIO ProcIO Smaps Vdso ElfCore Closure.

(** Making a pipe, as documented. *)
Class Pipes (W : Type) `{Files W} := {
  k_pipe_in : forall w r p w', k_pipe w = (r, p, w') ->
    (is_err r /\ reads_same w w') \/
    (r = 0 /\ 0 <= p.1 < 2 ^ 31 /\ 0 <= p.2 < 2 ^ 31 /\ ~ rd_open w p.1 /\
     rd_open w' p.1 /\ pipe_of w' p.2 = Some p.1 /\ unread w' p.1 = [] /\
     (forall f, f <> p.1 -> unread w' f = unread w f) /\ (forall f, rd_open w f -> rd_open w' f) /\
     (forall f, f <> p.2 -> pipe_of w' f = pipe_of w f) /\ (slots w <= 2 + slots w')%nat);
  k_pipe_ok : forall w r p w', k_pipe w = (r, p, w') -> (1 < slots w)%nat -> r = 0 }.

(** What a writer does not mind besides: its own descriptor is not that of a new
    pipe, and is not the write end of an old one. *)
Class PipeFrame {W H : Type} `{Files W} (inv : cst W H -> Prop) (out : cst W H -> list Z) (own : Z -> Prop) := {
  inv_errno : forall s e, inv s -> inv (Cst e (world s) (hnd s)) /\ out (Cst e (world s) (hnd s)) = out s;
  pipe_write_quiet : forall s e fd f p n r u w', inv s -> pipe_of (world s) fd = Some f ->
    k_write fd p n (world s) = (r, u, w') -> inv (Cst e w' (hnd s)) /\ out (Cst e w' (hnd s)) = out s;
  pipe_quiet : forall s e r p w', inv s -> k_pipe (world s) = (r, p, w') ->
    (0 <= r -> ~ own p.1 /\ ~ own p.2) /\ inv (Cst e w' (hnd s)) /\ out (Cst e w' (hnd s)) = out s }.

(** The descriptors of a new pipe are not that of the output. *)
Class PipeFresh (W : Type) `{KernelIO W} (out : Z) :=
  k_pipe_fresh : forall w r p w', k_pipe w = (r, p, w') -> 0 <= r -> p.1 <> out /\ p.2 <> out.

Section Writers.
Context {W : Type} `{!KernelIO W} `{!AddressSpace} {out : Z} `{!OutFile W out} `{!Files W} `{!Interrupts W}
  `{!Pipes W} `{!PipeFresh W out}.
Context (fuel : nat).

Lemma ready_pipe_frame {Hd : Type} (I : Hd -> Prop) :
  PipeFrame (fun s : cst W Hd => I (hnd s) /\ ready (out := out) fuel s) (fun s => sink (world s)) (eq out).
Proof.
  unfold ready, not_piped. split; [done| |].
  - intros s e fd f p n r u w' (Hi & Hr & Hp) Hf Hk. assert (fd <> out) as Hne by (intros ->; by eapply Hp).
    destruct (k_write_intr _ _ _ _ _ _ _ Hk). destruct (k_write_frame _ _ _ _ _ _ _ Hk) as (_ & _ & E & _).
    split; [|by eapply k_write_other]. split_and!; cbn; [done|lia|]. intros g. rewrite E. apply Hp.
  - intros s e r p w' (Hi & Hr & Hp) Hk. split; [intros Hr0; destruct (k_pipe_fresh _ _ _ _ Hk Hr0); by split; apply not_eq_sym|].
    split; [|by eapply k_pipe_sink]. pose proof (k_pipe_intr _ _ _ _ Hk). split_and!; cbn; [done|lia|].
    destruct (k_pipe_in _ _ _ _ Hk) as [[_ (_ & _ & E & _)]|(-> & _ & _ & _ & _ & _ & _ & _ & _ & E & _)]; intros g.
    + rewrite E. apply Hp.
    + rewrite E; [apply Hp|]. intros ->. by destruct (k_pipe_fresh _ _ _ _ Hk (Z.le_refl 0)).
Qed.

#[export] Instance SimpleWriter_pipe_frame :
  PipeFrame (fun s => simple_inv (out := out) s /\ ready (out := out) fuel s) (fun s => sink (world s)) (eq out).
Proof. apply (ready_pipe_frame (fun h => h = out)). Qed.

#[export] Instance LimitWriter_pipe_frame :
  PipeFrame (fun s => limit_inv (out := out) s /\ ready (out := out) fuel s) (fun s => sink (world s)) (eq out).
Proof. apply (ready_pipe_frame (fun h => out_fd h = out /\ 0 <= max_length h < 2 ^ 64)). Qed.
End Writers.

Section Keeps.
Context {W Hd : Type} `{!KernelIO W} `{!AddressSpace} `{!Files W} `{!Interrupts W}.
Context (inv : cst W Hd -> Prop) (out : cst W Hd -> list Z) (own : Z -> Prop).
Context `{!WriterFrame inv out own} `{!PipeFrame inv out own}.
Context (wr : Z) (fuel : nat) (own_fd : forall f, own f -> 0 <= f).
Implicit Types (s : cst W Hd).

(** The output is as it was in [s0], and [wr] is the write end of a pipe. *)
Definition untouched s0 s : Prop := inv s /\ out s = out s0 /\ exists f, pipe_of (world s) wr = Some f.

Definition keeps {A} (V : A -> Prop) (m : M (cst W Hd) A) : Prop := forall s0 s, untouched s0 s ->
  wlp m (fun a s' => untouched s0 s' /\ V a) (fun _ _ => False) s.

Lemma keeps_wlp {A} (V : A -> Prop) (m : M (cst W Hd) A) s0 s : keeps V m -> untouched s0 s ->
  wlp m (fun _ s' => untouched s0 s') (fun _ _ => False) s.
Proof. intros Hm Hs. eapply wlp_mono; [by apply Hm|by intros ? ? []|done]. Qed.

Lemma keeps_ret {A} (V : A -> Prop) (a : A) : V a -> keeps V (ret a).
Proof. by intros HV s0 s Hs. Qed.

Lemma keeps_fuel {A} (V : A -> Prop) : keeps V (@out_of_fuel _ A).
Proof. done. Qed.

Lemma keeps_mono {A} (V U : A -> Prop) (m : M (cst W Hd) A) : keeps V m -> (forall a, V a -> U a) -> keeps U m.
Proof. intros Hm HV s0 s Hs. eapply wlp_mono; [by apply Hm| |done]. intros a s' [? ?]. auto. Qed.

Lemma keeps_bind {A B} (U : A -> Prop) (V : B -> Prop) (m : M (cst W Hd) A) (k : A -> M (cst W Hd) B) :
  keeps U m -> (forall a, U a -> keeps V (k a)) -> keeps V (bind m k).
Proof. intros Hm Hk s0 s Hs. apply wlp_bind. eapply wlp_mono; [by apply Hm| |done]. intros a s' [Hs' Ha]. by apply Hk. Qed.

Lemma keeps_get_errno : keeps any get_errno.
Proof. by intros s0 s Hs. Qed.

Lemma keeps_set_errno e : keeps any (set_errno e).
Proof. intros s0 s (Hi & Ho & Hp). destruct (inv_errno s e Hi) as [? E]. split; [|done]. split_and!; [done|congruence|done]. Qed.
(** *** System calls *)

Lemma untouched_quiet s0 s e w' : untouched s0 s -> quiet own (world s) w' -> untouched s0 (Cst e w' (hnd s)).
Proof.
  intros (Hi & Ho & f & Hf) Hq. destruct (writer_quiet s e w' Hi Hq) as [? E]. split_and!; [done|congruence|].
  exists f. cbn. rewrite <- Hf.
  destruct Hq as [(fd & n & r & d & _ & Hk)|[(p & fl & m & r & u & Hk)|(fd & r & u & Hne & Hk)]].
  - by destruct (k_read_frame _ _ _ _ _ _ Hk) as (_ & _ & -> & _).
  - by destruct (k_open_frame _ _ _ _ _ _ _ Hk) as (_ & _ & -> & _).
  - by destruct (k_close_frame _ _ _ _ _ Hk) as (_ & _ & -> & _).
Qed.

Lemma untouched_write s0 s e p n r u w' : untouched s0 s -> k_write wr p n (world s) = (r, u, w') ->
  untouched s0 (Cst e w' (hnd s)).
Proof.
  intros (Hi & Ho & f & Hf) Hk. destruct (pipe_write_quiet s e wr f p n r u w' Hi Hf Hk) as [? E].
  split_and!; [done|congruence|]. exists f. cbn. by destruct (k_write_frame _ _ _ _ _ _ _ Hk) as (_ & _ & -> & _).
Qed.

Lemma keeps_MY_NO_INTR {A} (fn : Z -> M (cst W Hd) (Z * A * Z)) my :
  (forall my, keeps any (fn my)) -> keeps any (MY_NO_INTR fuel fn my).
Proof.
  intros Hfn s0 s Hs. apply (wlp_MY_NO_INTR (untouched s0)); [|done]. intros my' s1 Hs1.
  eapply wlp_mono; [by apply Hfn| |done]. by intros r s2 [? _].
Qed.

Lemma keeps_NO_INTR_on {A} (f : A -> Z) (fn : M (cst W Hd) A) : keeps any fn -> keeps any (NO_INTR_on f fuel fn).
Proof.
  intros Hfn s0 s Hs. apply (wlp_NO_INTR_on (untouched s0)); [|done]. intros s1 Hs1.
  eapply wlp_mono; [by apply Hfn| |done]. by intros r s2 [? _].
Qed.

Lemma keeps_syscall {A} cast (k : W -> Z * A * W) : (forall w r a w', k w = (r, a, w') -> quiet own w w') ->
  keeps any (syscall cast k).
Proof. intros Hk s0 s Hs. apply wlp_syscall. intros r a w' E. split; [|done]. eapply untouched_quiet; eauto. Qed.

Lemma keeps_close fd : ~ own fd -> keeps any (NO_INTR fuel (sys_close fd)).
Proof.
  intros Hf. apply keeps_NO_INTR_on. unfold sys_close, syscall_.
  apply (keeps_bind any); [|intros [] _; by apply keeps_ret]. apply keeps_syscall. intros w r a w' E. right. right. eauto.
Qed.

Lemma keeps_sys_read fd n : ~ own fd -> keeps any (sys_read fd n).
Proof. intros Hf. apply keeps_syscall. intros w r a w' E. left. eauto 10. Qed.

Lemma keeps_sys0_read fd n my : ~ own fd -> keeps any (sys0_read fd n my).
Proof.
  intros Hf s0 s Hs. apply wlp_syscall0. intros r a w' E. split; [|done]. eapply untouched_quiet; [done|]. left. eauto 10.
Qed.

Lemma keeps_sys0_write p n my : keeps any (sys0_write wr p n my).
Proof. intros s0 s Hs. apply wlp_syscall0. intros r a w' E. split; [|done]. by eapply untouched_write. Qed.

(** The descriptor that is opened is not the output's. *)
Lemma keeps_open {A} (V : A -> Prop) p (k : Z -> M (cst W Hd) A) : (forall fd, ~ own fd -> keeps V (k fd)) ->
  keeps V (let! fd := NO_INTR fuel (sys_open p O_RDONLY 0) in k fd).
Proof.
  intros Hk s0 s Hs. apply wlp_bind.
  apply wlp_mono with (P := fun fd s' => untouched s0 s' /\ ~ own fd) (X := fun _ _ => False); [| |done].
  - apply (wlp_NO_INTR_on (untouched s0)); [|done]. intros s1 Hs1. unfold sys_open, syscall_. wp_step. apply wlp_syscall.
    intros r u w' E. apply wlp_ret.
    assert (Hu : forall e, untouched s0 (Cst e w' (hnd s1))).
    { intros e. apply untouched_quiet; [done|]. right. left. eauto 10. }
    split; [by intros|]. intros _. split; [apply Hu|].
    destruct (k_open_range _ _ _ _ _ _ _ E) as [Hr|Hr].
    + rewrite LSS_RETURN_err by done. cbn. change (s32 (-1)) with (-1). intros Ho. specialize (own_fd _ Ho). lia.
    + rewrite LSS_RETURN_ok by lia. eapply own_fresh; [apply Hs1|exact E|lia].
  - intros fd s' [Hs' Hne]. by apply Hk.
Qed.

(** Going through the code. *)
#[export] Instance keeps_closed : Closed fuel (fun fd => ~ own fd) wr (@keeps).
Proof.
  split; intros; eauto using keeps_ret, keeps_fuel, keeps_mono, keeps_bind, keeps_get_errno, keeps_set_errno, keeps_sys_read,
    keeps_sys0_read, keeps_sys0_write, keeps_NO_INTR_on, keeps_MY_NO_INTR, keeps_close, keeps_open.
Qed.

Abbreviation keep m := (forall s0 s, untouched s0 s -> wlp m (fun _ s' => untouched s0 s') (fun _ _ => False) s).

Lemma keeps_count_mappings : keep (count_mappings fuel).
Proof. intros s0 s. eapply keeps_wlp. exact (closed_count_mappings fuel (fun fd => ~ own fd) wr (@keeps)). Qed.

Lemma keeps_CountAUXV : keep (CountAUXV fuel).
Proof. intros s0 s. eapply keeps_wlp. exact (closed_CountAUXV fuel (fun fd => ~ own fd) wr (@keeps)). Qed.

Lemma keeps_load_mappings aarch64 uninit rd ps n : ~ own rd -> keep (load_mappings fuel aarch64 uninit rd wr ps n).
Proof.
  intros Hr s0 s. eapply keeps_wlp. by apply (closed_load_mappings fuel (fun fd => ~ own fd) wr (@keeps) aarch64 uninit rd ps n).
Qed.
End Keeps.
