(* ===== verification/PipeWrite.v ===== *)
(** Writing through a compressor: [PipeWriter] feeds it and copies what it puts out
    to the file, [FlushPipe] copies the rest. *)
From S2P Require Import Prelude Syscall KernelSpec CIO IOClaims Closure Untouched.

(** ** A compressor

    What has passed through its two pipes since it was started: [ends] are the
    descriptors of the program, to its input and of its output; the bytes written to it
    and read from it, whether its input has been closed, whether its output is read
    without blocking, and what poll has reported of it since. *)
Record traffic := mkTraffic {
  ends : option (Z * Z);
  fed : list Z;
  came : list Z;
  at_end : bool;
  nonblock : bool;
  polled_in : bool;
  polled_out : bool }.

(** Poll has reported [event] of the descriptor with index [i]. *)
Definition reported (ev : list Z) (i : nat) (event : Z) : bool := negb (Z.land (default 0 (ev !! i)) event =? 0).

(** Calls that do not concern the compressor. *)
Inductive elsewhere {W : Type} `{KernelIO W} (zin zout : Z) : W -> W -> Prop :=
  | e_read f n w r d w' : f <> zout -> k_read f n w = (r, d, w') -> elsewhere zin zout w w'
  | e_write f p n w r u w' : f <> zin -> k_write f p n w = (r, u, w') -> elsewhere zin zout w w'
  | e_open p f m w r u w' : k_open p f m w = (r, u, w') -> elsewhere zin zout w w'
  | e_close f w r u w' : f <> zin -> f <> zout -> k_close f w = (r, u, w') -> elsewhere zin zout w w'
  | e_pipe w r p w' : k_pipe w = (r, p, w') -> elsewhere zin zout w w'
  | e_fcntl f c a w r u w' : f <> zout -> k_fcntl f c a w = (r, u, w') -> elsewhere zin zout w w'.

(** The descriptors of the compressor and of the output file. *)
Definition apart (zin zout out : Z) : Prop :=
  0 <= zin < 2 ^ 31 /\ 0 <= zout < 2 ^ 31 /\ 0 <= out < 2 ^ 31 /\ zin <> zout /\ zin <> out /\ zout <> out.

(** A compressor: of an input [l] it makes [packed l], and of one of no more than [cap]
    bytes never more than [most] bytes.  It stays until its input ends, and so poll
    always has something to report in the end.  A pipe of which poll has reported room
    takes at least one byte.  Other calls do not concern it, and its descriptors are
    not given out again. *)
Class Compressor (W : Type) (out : Z) (packed : list Z -> list Z) (cap most : Z) `{OutFile W out} `{!Files W} `{!Interrupts W} := {
  traffic_of : W -> traffic;
  z_apart : forall zin zout w, ends (traffic_of w) = Some (zin, zout) -> apart zin zout out;
  z_elsewhere : forall zin zout w w', ends (traffic_of w) = Some (zin, zout) -> elsewhere zin zout w w' -> traffic_of w' = traffic_of w;
  z_open : forall zin zout p f m w r u w', ends (traffic_of w) = Some (zin, zout) -> k_open p f m w = (r, u, w') -> 0 <= r ->
    s32 r <> zin /\ s32 r <> zout;
  z_pipe : forall zin zout w r p w', ends (traffic_of w) = Some (zin, zout) -> k_pipe w = (r, p, w') -> 0 <= r ->
    p.1 <> zin /\ p.1 <> zout /\ p.2 <> zin /\ p.2 <> zout;
  z_poll : forall zin zout w r ev w', ends (traffic_of w) = Some (zin, zout) ->
    k_poll [(zout, POLLIN); (zin, POLLOUT)] (-1) w = (r, ev, w') -> at_end (traffic_of w) = false ->
    let z := traffic_of w in
    let i := reported ev 0 POLLIN in let o := reported ev 1 POLLOUT in
    1 <= r < 2 ^ 31 /\ i || o = true /\ (i && o = true -> 2 <= r) /\
    traffic_of w' = mkTraffic (ends z) (fed z) (came z) false (nonblock z) i o /\
    reads_same w w' /\ sink w' = sink w /\ (intr w' <= intr w)%nat;
  z_read : forall zin zout n w r d w', ends (traffic_of w) = Some (zin, zout) -> 0 < n -> k_read zout n w = (r, d, w') ->
    let z := traffic_of w in let z' := traffic_of w' in
    ends z' = ends z /\ fed z' = fed z /\ at_end z' = at_end z /\ nonblock z' = nonblock z /\ polled_out z' = polled_out z /\ reads_same w w' /\
    (r = - EINTR /\ came z' = came z /\ polled_in z' = polled_in z \/
     r = - EAGAIN /\ came z' = came z /\ polled_in z = false /\ nonblock z = true \/
     0 < r <= n /\ came z' = came z ++ d /\ zlen d = r /\ (zlen (fed z) <= cap -> zlen (came z') <= most) \/
     r = 0 /\ came z' = came z /\ at_end z = true /\ came z = packed (fed z));
  z_write : forall zin zout p n w r u w', ends (traffic_of w) = Some (zin, zout) -> 0 < n -> k_write zin p n w = (r, u, w') ->
    let z := traffic_of w in let z' := traffic_of w' in polled_out z = true -> at_end z = false ->
    ends z' = ends z /\ came z' = came z /\ at_end z' = false /\ nonblock z' = nonblock z /\ reads_same w w' /\
    (r = - EINTR /\ fed z' = fed z /\ polled_out z' = true \/ 0 < r <= n /\ fed z' = fed z ++ ztake r (content p n));
  z_fcntl : forall zin zout c a w r u w', ends (traffic_of w) = Some (zin, zout) -> k_fcntl zout c a w = (r, u, w') ->
    let z := traffic_of w in let z' := traffic_of w' in
    ends z' = ends z /\ fed z' = fed z /\ came z' = came z /\ at_end z' = at_end z /\
    (c = F_SETFL -> at_end z = true -> r = - EINTR \/ nonblock z' = negb (Z.land a O_NONBLOCK =? 0));
  z_close : forall zin zout w r u w', ends (traffic_of w) = Some (zin, zout) -> k_close zin w = (r, u, w') ->
    let z := traffic_of w in let z' := traffic_of w' in
    ends z' = ends z /\ fed z' = fed z /\ came z' = came z /\ (r = - EINTR \/ at_end z' = true) }.

Section Pipe.
Context {W : Type} `{!KernelIO W} `{!AddressSpace} {out : Z} `{!OutFile W out} `{!Files W} `{!Interrupts W} `{!WriteReady W out}.
Context {zin zout : Z} {packed : list Z -> list Z} {cap most : Z} `{!Compressor W out packed cap most}.
Context (fuel : nat) (limit : Z) (base : list Z).
Hypothesis (fds_apart : apart zin zout out) (most_limit : 0 <= most < limit) (limit_range : limit < 2 ^ 64) (most_fuel : most < Z.of_nat fuel).
Implicit Types (s : cst W WriterFds).

Abbreviation tr s := (traffic_of (world s)).
(** The compressor runs and its pipes are these. *)
Abbreviation joined s := (ends (tr s) = Some (zin, zout)).

(** Writing to the file does not concern the compressor. *)
Lemma c_write_elsewhere n nbytes buf len s : joined s ->
  wlp (c_write_loop fuel n out nbytes buf len) (fun _ s' => tr s' = tr s) (fun _ _ => False) s.
Proof.
  destruct fds_apart as (_ & _ & _ & _ & Hne & _). revert buf len s. induction n as [|n IH]; intros buf len s Hj; [done|].
  cbn [c_write_loop]. destruct (0 <? len); [|by apply wlp_ret]. wp_step.
  apply (wlp_MY_NO_INTR (fun s' => tr s' = tr s)); [|done].
  intros my s1 Hs. apply wlp_syscall0. intros r a w' Hk.
  assert (Hw : traffic_of w' = tr s).
  { rewrite <- Hs. eapply z_elsewhere; [by rewrite Hs|]. eapply e_write; [|exact Hk]. by apply not_eq_sym. }
  destruct (LSS_RETURN s64 r my) as [rc e]. cbn. split; [done|]. intros _.
  destruct (rc <? 0); [by wp_step|]. destruct (rc =? 0); [by wp_step|].
  eapply wlp_mono; [apply IH; cbn; congruence| |done]. cbn. intros _ s' ->. done.
Qed.

(** What holds while the core file is written: the output file has what came out of
    the compressor, and that has been taken off the limit. *)
Definition piping s : Prop :=
  joined s /\ hnd s = mkWriterFds (limit - zlen (came (tr s))) zin zout out /\ sink (world s) = base ++ came (tr s) /\
  zlen (fed (tr s)) <= cap /\ zlen (came (tr s)) <= most /\ at_end (tr s) = false /\ ready (out := out) fuel s /\
  not_piped zin (world s).

(** Bytes from the compressor are copied to the output. *)
Lemma copy_out d s : joined s -> zlen d < Z.of_nat fuel -> zlen d < SSIZE_LIM -> ready (out := out) fuel s ->
  wp (c_write fuel out (local d) (zlen d)) (fun rc s' => rc = zlen d /\ hnd s' = hnd s /\ tr s' = tr s /\
     sink (world s') = sink (world s) ++ d /\ ready (out := out) fuel s' /\ reads_same (world s) (world s')) s.
Proof.
  intros Hj Hf Hl Hr. pose proof (zlen_nonneg d). eapply wp_mono.
  - eapply wp_conj; [apply (c_write_ready fuel (local d) (zlen d) s); [done|lia|lia|done]|by apply c_write_elsewhere].
  - cbn beta. intros rc s' [(Hh & -> & Hr' & Hs & Hrs) Ht]. rewrite content_local in Hs. by split_and!.
Qed.

(** What reading from the compressor leaves alone. *)
Definition passed s s' : Prop :=
  ends (tr s') = ends (tr s) /\ hnd s' = hnd s /\ sink (world s') = sink (world s) /\ (intr (world s') <= intr (world s))%nat /\ reads_same (world s) (world s') /\
  fed (tr s') = fed (tr s) /\ at_end (tr s') = at_end (tr s) /\ nonblock (tr s') = nonblock (tr s) /\
  polled_out (tr s') = polled_out (tr s).

Lemma passed_ready fd s s' : passed s s' -> ready (out := out) fuel s -> not_piped fd (world s) ->
  ready (out := out) fuel s' /\ not_piped fd (world s').
Proof.
  intros (_ & _ & _ & Hi & Hr & _) [Hf Hp] Hn. split; [split; [lia|]|]; by eapply reads_same_not_piped.
Qed.

Lemma read_out n s : joined s -> 0 < n < 2 ^ 63 -> (intr (world s) < fuel)%nat ->
  wp (NO_INTR_on fst fuel (sys_read zout n)) (fun r s' => passed s s' /\
    (r.1 = -1 /\ errno s' = EAGAIN /\ came (tr s') = came (tr s) /\ polled_in (tr s) = false /\ nonblock (tr s) = true \/
     0 < r.1 <= n /\ came (tr s') = came (tr s) ++ r.2 /\ zlen r.2 = r.1 /\ (zlen (fed (tr s)) <= cap -> zlen (came (tr s')) <= most) \/
     r.1 = 0 /\ came (tr s') = came (tr s) /\ at_end (tr s) = true /\ came (tr s) = packed (fed (tr s)))) s.
Proof.
  intros Hj Hn Hf. unfold sys_read.
  apply (wp_NO_INTR_on (fun s' => passed s s' /\ came (tr s') = came (tr s) /\ polled_in (tr s') = polled_in (tr s))
    (fun s' => intr (world s'))); [|by split_and!|done].
  intros s1 ((J & Hh & Hs & Hi & Hr & F & A & N & V) & C & R). apply wp_syscall. intros r d w' Hk.
  destruct (k_read_intr _ _ _ _ _ _ Hk) as [Hi1 Hi2]. pose proof (k_read_sink _ _ _ _ _ _ Hk) as Hs'.
  destruct (z_read zin _ _ _ _ _ _ (eq_trans J Hj) (proj1 Hn) Hk) as (J1 & F1 & A1 & N1 & V1 & Hr1 & Hcase).
  assert (Hp : forall e, passed s (Cst e w' (hnd s1))).
  { intros e. unfold passed. cbn. split_and!; try congruence; [lia|by etransitivity]. }
  destruct Hcase as [(-> & C1 & R1)|[(-> & C1 & R1 & N0)|[(Hrn & C1 & L1 & M1)|(-> & C1 & A0 & P0)]]].
  - rewrite LSS_RETURN_err by (unfold is_err, EINTR; lia). cbn. split; [|by intros []]. intros _ _.
    split; [|by apply Hi2]. split_and!; [apply Hp|congruence|congruence].
  - rewrite LSS_RETURN_err by (unfold is_err, EAGAIN; lia). cbn. split; [done|]. intros _. split; [apply Hp|].
    left. split_and!; [done|done|congruence..].
  - rewrite LSS_RETURN_ok, s64_small by lia. cbn. split; [lia|]. intros _. split; [apply Hp|]. right. left.
    rewrite <- F. split_and!; (done || lia || congruence).
  - rewrite LSS_RETURN_ok by lia. cbn. split; [done|]. intros _. split; [apply Hp|]. right. right.
    split_and!; [done|congruence..].
Qed.

(** What comes out is copied, which goes on until there is nothing more. *)
Lemma drain_copies n : forall s, piping s -> (Z.to_nat (most - zlen (came (tr s))) < n)%nat ->
  wp (drain_compressed fuel n) (fun o s' => o = Some tt /\ piping s' /\ fed (tr s') = fed (tr s) /\
    polled_out (tr s') = polled_out (tr s) /\ zlen (came (tr s)) <= zlen (came (tr s')) /\
    (polled_in (tr s) = true -> zlen (came (tr s)) < zlen (came (tr s'))) /\ reads_same (world s) (world s')) s.
Proof.
  induction n as [|n IH]; intros s (Hj & Hh & Hs & Hcap & Hm & Ha & Hr & Hp) Hn; [lia|]. cbn [drain_compressed].
  pose proof (zlen_nonneg (came (tr s))) as Hc0. wp_step. unfold wp at 1, get_hnd. rewrite Hh. cbn [max_length compressed_fd out_fd].
  set (l := if _ <? _ then _ else _). assert (Hl : 0 < l <= limit - zlen (came (tr s)) /\ l <= 4096).
  { unfold l. destruct (_ <? _) eqn:E; b2p; unfold scratch_size in *; lia. }
  clearbody l. wp_step. unfold wp at 1, set_errno. wp_step.
  eapply wp_mono; [apply read_out; [done|lia|apply Hr]|]. cbn [world hnd errno].
  intros [rc d] s1 [Hpass Hcase]. cbn [fst snd] in Hcase. pose proof Hpass as (Hj1 & Hh1 & Hs1 & Hi1 & Hr1 & F1 & A1 & N1 & V1).
  cbn [world hnd] in *. destruct (passed_ready zin _ _ Hpass Hr Hp) as [Hrd1 Hnp1].
  destruct Hcase as [(-> & He & C1 & R1 & _)|[(Hrc & C1 & L1 & M1)|(_ & _ & A0 & _)]]; [| |congruence].
  - change (-1 <? 0) with true. cbv iota. wp_step. unfold wp at 1, get_errno. rewrite He. apply wp_ret.
    split; [done|]. split_and!; [split_and!; congruence|done|done|by rewrite C1| |done]. congruence.
  - rewrite (proj2 (Z.ltb_ge rc 0)) by lia. destruct (rc =? 0) eqn:E; b2p; [lia|]. wp_step. rewrite <- L1.
    specialize (M1 Hcap). assert (zlen d <= most) by (rewrite C1, zlen_app in M1; lia).
    eapply wp_mono; [apply copy_out; [cbn [world] in *; congruence|lia|unfold SSIZE_LIM; lia|done]|].
    intros rc' s2 (-> & Hh2 & T2 & Hs2 & Hrd2 & Hr2). rewrite (proj2 (Z.leb_gt (zlen d) 0)) by lia.
    wp_step. unfold take_max_length. wp_step. unfold wp at 1, get_hnd, set_hnd, wp at 1.
    rewrite Hh2, Hh1, Hh. unfold set_max_length. cbn [max_length write_fd compressed_fd out_fd].
    assert (Ez : zlen (came (tr s1)) = zlen (came (tr s)) + zlen d) by (rewrite C1; apply zlen_app).
    rewrite u64_small by lia. eapply wp_mono; [apply IH|].
    + unfold piping. cbn [world hnd]. rewrite T2. split_and!; [congruence|f_equal; lia| |by rewrite F1|done|congruence|done|by eapply reads_same_not_piped].
      rewrite Hs2, Hs1, Hs, C1. by rewrite app_assoc.
    + cbn [world]. rewrite T2. lia.
    + cbn [world hnd]. rewrite T2. intros o s3 (-> & Hp3 & F3 & V3 & C3 & _ & R3). split; [done|]. split; [done|].
      split_and!; [congruence|congruence|lia|lia|]. etransitivity; [exact Hr1|]. by etransitivity.
Qed.

(** *** One turn *)

Lemma feed_in buf n s : 0 < n < 2 ^ 63 -> zlen (fed (tr s)) + n <= cap -> piping s -> polled_out (tr s) = true ->
  wp (NO_INTR fuel (sys_write zin buf n)) (fun rc s' => 0 < rc <= n /\ piping s' /\ came (tr s') = came (tr s) /\
    fed (tr s') = fed (tr s) ++ ztake rc (content buf n) /\ reads_same (world s) (world s')) s.
Proof.
  intros Hn Hcap Hpi Hw. unfold sys_write, syscall_. apply (wp_NO_INTR_on (fun s' => piping s' /\ came (tr s') = came (tr s) /\
      fed (tr s') = fed (tr s) /\ polled_out (tr s') = true /\ reads_same (world s) (world s'))
    (fun s' => intr (world s'))); [|by split_and!|apply Hpi].
  pose proof fds_apart as (_ & _ & _ & _ & Hne & _). clear Hpi Hw.
  intros s1 ((Hj & Hh & Hs & _ & Hm & Ha & Hr & Hp) & C1 & F1 & W1 & R1). wp_step. apply wp_syscall. intros r u w' Hk. apply wp_ret. cbn [fst].
  destruct (k_write_intr _ _ _ _ _ _ _ Hk) as [Hi1 Hi2].
  pose proof (k_write_other _ _ _ _ _ _ _ Hne Hk) as Hs'.
  destruct (z_write _ zout _ _ _ _ _ _ Hj (proj1 Hn) Hk W1 Ha) as (J' & C' & A' & N' & R' & Hcase).
  assert (Hp' : zlen (fed (traffic_of w')) <= cap -> forall e, piping (Cst e w' (hnd s1))).
  { intros Hc e. unfold piping. cbn. rewrite C'. destruct Hr. split_and!; try done; [congruence|congruence| |by eapply reads_same_not_piped].
    split; cbn; [lia|by eapply reads_same_not_piped]. }
  destruct Hcase as [(-> & F' & W')|[Hrn F']].
  - rewrite LSS_RETURN_err by (unfold is_err, EINTR; lia). cbn. split; [|by intros []]. intros _ _.
    split; [|by apply Hi2]. split_and!; [apply Hp'; rewrite F', F1; lia|congruence|congruence|done|by etransitivity].
  - rewrite LSS_RETURN_ok, s64_small by lia. cbn. split; [lia|]. intros _.
    split_and!; [lia|lia|apply Hp'|congruence|congruence|by etransitivity].
    rewrite F', F1, zlen_app. pose proof (zlen_ztake_at_most r (content buf n) ltac:(lia)). lia.
Qed.

(** What is left of the buffer after some of it has been taken. *)
Definition left_of (buf : ptr) (len : Z) (buf' : ptr) (len' : Z) : Prop :=
  ptr_ok buf' /\ 0 <= len' <= len /\ content buf' len' = zdrop (len - len') (content buf len).

Definition to_come s : Z := most - zlen (came (tr s)).

Lemma pipe_turn_moves buf len s : ptr_ok buf -> 0 < len < SSIZE_LIM -> zlen (fed (tr s)) + len <= cap -> piping s ->
  wp (pipe_turn fuel buf len) (fun o s' => exists buf' len', o = Some (buf', len', true) /\ piping s' /\ left_of buf len buf' len' /\
    fed (tr s') = fed (tr s) ++ ztake (len - len') (content buf len) /\ reads_same (world s) (world s') /\
    len' + to_come s' < len + to_come s) s.
Proof.
  unfold SSIZE_LIM. intros Hb Hl Hcap Hpi. unfold pipe_turn. wp_step. unfold wp at 1, get_hnd. pose proof Hpi as (Hj & Hh & Hs & _ & Hm & Ha & Hr & Hp).
  rewrite Hh. cbn [compressed_fd write_fd]. wp_step. unfold sys_poll. apply wp_syscall. intros r ev w' Hk.
  destruct (z_poll _ _ _ _ _ _ Hj Hk Ha) as (Hrr & Hio & Hboth & Ht & Hrs & Hsk & Hi). rewrite LSS_RETURN_ok, s32_small by lia.
  cbv beta iota. cbn [fst snd]. fold (reported ev 0 POLLIN) (reported ev 1 POLLOUT).
  rewrite (proj2 (Z.ltb_ge r 0)), (proj2 (Z.ltb_lt 0 r)) by lia. cbn [andb].
  set (i := reported ev 0 POLLIN) in *. set (o := reported ev 1 POLLOUT) in *.
  set (s1 := Cst _ w' _). assert (Hp1 : piping s1).
  { unfold piping, s1. cbn. rewrite Ht. destruct Hr. cbn. split_and!; try done; [congruence|lia| |by eapply reads_same_not_piped].
    split; cbn; [lia|by eapply reads_same_not_piped]. }
  wp_step. eapply wp_mono with (P := fun n s' => (exists m, n = Some m /\ (0 < m \/ o = false)) /\ piping s' /\
    fed (tr s') = fed (tr s) /\ polled_out (tr s') = o /\ reads_same (world s) (world s') /\ to_come s' <= to_come s /\
    (i = true -> to_come s' < to_come s)).
  - destruct i eqn:Ei.
    + wp_step. eapply wp_mono; [apply (drain_copies fuel s1 Hp1); unfold s1; cbn; rewrite Ht; cbn; pose proof (zlen_nonneg (came (tr s))); lia|].
      unfold s1. cbn [world]. rewrite Ht. cbn [fed came polled_out polled_in].
      intros ? s2 (-> & Hp2 & F2 & W2 & L2 & C2 & R2). specialize (C2 eq_refl). apply wp_ret. unfold to_come.
      split; [exists (r - 1); split; [done|]; destruct o; [left; specialize (Hboth eq_refl); lia|by right]|].
      split_and!; [done|done|done|by etransitivity|lia|lia].
    + apply wp_ret. unfold to_come, s1 in *. cbn [world hnd] in *. rewrite Ht. cbn.
      split; [exists r; split; [done|left; lia]|]. by split_and!.
  - intros n s2 ((m & -> & Hmo) & Hp2 & F2 & W2 & R2 & C2 & C2'). destruct o eqn:Eo.
    + destruct Hmo as [Hm0|]; [|done]. rewrite (proj2 (Z.ltb_lt 0 m)) by done. cbn [andb]. wp_step.
      eapply wp_mono; [by apply feed_in; [lia|rewrite F2; lia|..]|]. intros rc s3 (Hrc & Hp3 & C3 & F3 & R3). wp_step. unfold wp at 1, get_errno.
      rewrite (proj2 (Z.ltb_ge rc 0)) by lia. cbn [andb]. apply wp_ret. exists (ptr_add buf rc), (len - rc).
      replace (len - (len - rc)) with rc by lia. split; [done|]. split; [done|]. split.
      { split_and!; [by apply ptr_ok_add; [|lia]|lia|lia|]. rewrite content_advance by (done || lia). f_equal. lia. }
      split_and!; [congruence|by etransitivity|]. unfold to_come in *. rewrite C3. lia.
    + rewrite andb_false_r. apply wp_ret. exists buf, len. rewrite Z.sub_diag, ztake_0, app_nil_r. split; [done|].
      split; [done|]. split; [split_and!; [done|lia|lia|by rewrite Z.sub_diag]|]. split_and!; [done|done|].
      rewrite orb_false_r in Hio. specialize (C2' Hio). lia.
Qed.

(** *** The whole loop *)

Lemma pipe_loop_feeds n : forall nbytes buf len s, ptr_ok buf -> 0 <= len < SSIZE_LIM -> zlen (fed (tr s)) + len <= cap -> piping s ->
  len + to_come s < Z.of_nat n ->
  wp (pipe_loop fuel n nbytes buf len) (fun rc s' => rc = nbytes /\ piping s' /\
    fed (tr s') = fed (tr s) ++ ztake len (content buf len) /\ reads_same (world s) (world s')) s.
Proof.
  induction n as [|n IH]; intros nbytes buf len s Hb Hl Hcap Hp Hn; pose proof Hp as (_ & Hh & _ & _ & Hm & _); [unfold to_come in *; lia|].
  cbn [pipe_loop]. wp_step. unfold wp at 1, get_hnd. rewrite Hh. cbn [max_length].
  rewrite (proj2 (Z.ltb_lt 0 (limit - _))) by lia. cbn [andb]. destruct (0 <? len) eqn:E; b2p.
  2:{ apply wp_ret. replace len with 0 by lia. rewrite ztake_0, app_nil_r. split_and!; (done || lia). }
  wp_step. eapply wp_mono; [apply pipe_turn_moves; [done|lia|done|done]|].
  intros ? s1 (buf' & len' & -> & Hp1 & (Hb' & Hl' & Hc') & F1 & R1 & Hlt).
  assert (Hcap1 : zlen (fed (tr s1)) + len' <= cap).
  { rewrite F1, zlen_app. pose proof (zlen_ztake_at_most (len - len') (content buf len) ltac:(lia)). lia. }
  eapply wp_mono; [apply IH; (done || lia)|]. intros rc s2 (-> & Hp2 & F2 & R2). split; [done|]. split; [done|].
  split; [|by etransitivity]. rewrite F2, F1, Hc', <- app_assoc. f_equal. rewrite <- ztake_split by lia. f_equal. lia.
Qed.

(** ** The writer keeps its promises *)

Definition pipe_fds (f : Z) : Prop := f = zin \/ f = zout \/ f = out.

Lemma pipe_fds_nonneg f : pipe_fds f -> 0 <= f.
Proof. destruct fds_apart as (? & ? & ? & _). unfold pipe_fds. lia. Qed.

Lemma piping_same s e w' : piping s -> traffic_of w' = tr s -> sink w' = sink (world s) -> (intr w' <= intr (world s))%nat ->
  (forall f, pipe_fds f -> pipe_of w' f = pipe_of (world s) f) ->
  piping (Cst e w' (hnd s)) /\ fed (tr (Cst e w' (hnd s))) = fed (tr s).
Proof.
  intros (Hj & Hh & Hs & Hcap & Hm & Ha & [Hf Hp] & Hn) Ht Hk Hi He. unfold piping, ready, not_piped. cbn [world hnd]. rewrite Ht, Hk.
  split; [|done]. split_and!; (done || lia || idtac); intros g; rewrite He by (unfold pipe_fds; auto); [apply Hp|apply Hn].
Qed.

Lemma piping_elsewhere s w' : piping s -> elsewhere zin zout (world s) w' -> traffic_of w' = tr s.
Proof. intros (Hj & _) Hw. by eapply z_elsewhere. Qed.

#[export] Instance PipeWriter_frame : WriterFrame piping (fun s => fed (tr s)) pipe_fds.
Proof.
  split.
  - intros s e w' Hp [(fd & n & r & d & Hf & Hk)|[(p & f & m & r & u & Hk)|(fd & r & u & Hf & Hk)]]; apply piping_same; try done.
    + eapply piping_elsewhere; [done|]. eapply e_read; [|exact Hk]. intros ->. apply Hf. unfold pipe_fds. auto.
    + by eapply k_read_sink.
    + by destruct (k_read_intr _ _ _ _ _ _ Hk).
    + intros g _. by destruct (k_read_frame _ _ _ _ _ _ Hk) as (_ & _ & -> & _).
    + eapply piping_elsewhere; [done|]. by eapply e_open.
    + by eapply k_open_sink.
    + by destruct (k_open_intr _ _ _ _ _ _ _ Hk).
    + intros g _. by destruct (k_open_frame _ _ _ _ _ _ _ Hk) as (_ & _ & -> & _).
    + eapply piping_elsewhere; [done|]. eapply e_close; [| |exact Hk]; intros ->; apply Hf; unfold pipe_fds; auto.
    + eapply k_close_sink; [|exact Hk]. intros ->. apply Hf. unfold pipe_fds. auto.
    + by destruct (k_close_intr _ _ _ _ _ Hk).
    + intros g _. by destruct (k_close_frame _ _ _ _ _ Hk) as (_ & _ & -> & _).
  - intros p f m s r u w' Hp Hk Hr. destruct (z_open _ _ _ _ _ _ _ _ _ (proj1 Hp) Hk Hr). pose proof (k_open_fresh _ _ _ _ _ _ _ Hk Hr).
    by intros [|[|]].
Qed.

#[export] Instance PipeWriter_pipe_frame `{!Pipes W} `{!PipeFresh W out} : PipeFrame piping (fun s => fed (tr s)) pipe_fds.
Proof.
  split.
  - intros s e Hp. by apply piping_same.
  - intros s e fd f p n r u w' Hp Hf Hk. pose proof Hp as (_ & _ & _ & _ & _ & _ & [_ Hpo] & Hn).
    assert (fd <> zin) by (intros ->; by eapply Hn). assert (fd <> out) by (intros ->; by eapply Hpo).
    apply piping_same; [done| | | |].
    + eapply piping_elsewhere; [done|]. by eapply e_write.
    + by eapply k_write_other.
    + by destruct (k_write_intr _ _ _ _ _ _ _ Hk).
    + intros g _. by destruct (k_write_frame _ _ _ _ _ _ _ Hk) as (_ & _ & -> & _).
  - intros s e r p w' Hp Hk. split.
    { intros Hr. destruct (z_pipe _ _ _ _ _ _ (proj1 Hp) Hk Hr) as (? & ? & ? & ?). destruct (k_pipe_fresh _ _ _ _ Hk Hr). unfold pipe_fds. split; intros [|[|]]; congruence. }
    apply piping_same; [done| | | |].
    + eapply piping_elsewhere; [done|]. by eapply e_pipe.
    + by eapply k_pipe_sink.
    + by eapply k_pipe_intr.
    + intros g Hg. destruct (k_pipe_in _ _ _ _ Hk) as [[_ (_ & _ & E & _)]|(-> & _ & _ & _ & _ & _ & _ & _ & _ & E & _)]; [apply E|].
      apply E. intros ->. destruct (z_pipe _ _ _ _ _ _ (proj1 Hp) Hk (Z.le_refl 0)) as (? & ? & ? & ?).
      destruct (k_pipe_fresh _ _ _ _ Hk (Z.le_refl 0)). unfold pipe_fds in Hg. destruct Hg as [|[|]]; congruence.
Qed.

(** What the compressor and the fuel allow when [l] has been written. *)
Definition pipe_max (l : list Z) : Z := Z.min (Z.min (Z.of_nat fuel - most) (cap + 1 - zlen l)) SSIZE_LIM.

(** [PipeWriter] is a writer without a limit whose output is what the compressor is
    fed. *)
Lemma PipeWriter_limited : LimitedWriter (PipeWriter fuel) piping (fun s => fed (tr s)) pipe_fds (fun _ => None) pipe_max.
Proof.
  split; [apply PipeWriter_frame|done|intros l l'; unfold pipe_max; rewrite zlen_app; pose proof (zlen_nonneg l'); lia|]. unfold pipe_max. intros p n s Hp Hn Hpi. unfold PipeWriter. pose proof (zlen_nonneg (came (tr s))).
  eapply wp_mono; [apply pipe_loop_feeds; [done|lia|lia|done|unfold to_come; lia]|]. cbn. intros rc s' (-> & Hp' & F & R). by split_and!.
Qed.

(** ** Flushing *)

(** The input of the compressor is closed, and its output is read blocking. *)
Definition flushing s : Prop :=
  joined s /\ hnd s = mkWriterFds (limit - zlen (came (tr s))) zin zout out /\ sink (world s) = base ++ came (tr s) /\
  zlen (fed (tr s)) <= cap /\ zlen (came (tr s)) <= most /\ at_end (tr s) = true /\ nonblock (tr s) = false /\ ready (out := out) fuel s.

Lemma flush_loop_all n : forall s, flushing s -> to_come s < Z.of_nat n ->
  wp (flush_loop fuel n) (fun rc s' => rc = 0 /\ sink (world s') = base ++ packed (fed (tr s)) /\ (intr (world s') < fuel)%nat) s.
Proof.
  induction n as [|n IH]; intros s (Hj & Hh & Hs & Hcap & Hm & Ha & Hnb & Hr) Hn; unfold to_come in *; [lia|]. cbn [flush_loop].
  pose proof (zlen_nonneg (came (tr s))) as Hc0. wp_step. unfold wp at 1, get_hnd. rewrite Hh. cbn [max_length compressed_fd out_fd].
  rewrite (proj2 (Z.ltb_lt 0 (limit - _))) by lia.
  set (l := if _ <? _ then _ else _). assert (Hl : 0 < l <= limit - zlen (came (tr s)) /\ l <= 4096).
  { unfold l. destruct (_ <? _) eqn:E; b2p; unfold scratch_size in *; lia. }
  clearbody l. wp_step. eapply wp_mono; [apply read_out; [done|lia|apply Hr]|].
  intros [rc d] s1 [Hpass Hcase]. cbn [fst snd] in Hcase. pose proof Hpass as (Hj1 & Hh1 & Hs1 & Hi1 & Hr1 & F1 & A1 & N1 & V1).
  assert (Hrd1 : ready (out := out) fuel s1) by (destruct Hr; split; [lia|by eapply reads_same_not_piped]).
  destruct Hcase as [(_ & _ & _ & _ & N0)|[(Hrc & C1 & L1 & M1)|(-> & C1 & _ & P0)]]; [congruence| |].
  - rewrite (proj2 (Z.ltb_ge rc 0)) by lia. destruct (rc =? 0) eqn:E; b2p; [lia|]. wp_step. rewrite <- L1.
    specialize (M1 Hcap). assert (zlen d <= most) by (rewrite C1, zlen_app in M1; lia).
    eapply wp_mono; [apply copy_out; [cbn [world] in *; congruence|lia|unfold SSIZE_LIM; lia|done]|].
    intros rc' s2 (-> & Hh2 & T2 & Hs2 & Hrd2 & Hr2). rewrite Z.eqb_refl. cbn [negb].
    wp_step. unfold take_max_length. wp_step. unfold wp at 1, get_hnd, set_hnd, wp at 1.
    rewrite Hh2, Hh1, Hh. unfold set_max_length. cbn [max_length write_fd compressed_fd out_fd].
    assert (Ez : zlen (came (tr s1)) = zlen (came (tr s)) + zlen d) by (rewrite C1; apply zlen_app).
    rewrite u64_small by lia. eapply wp_mono; [apply IH|].
    + unfold flushing. cbn [world hnd]. rewrite T2. split_and!; [congruence|f_equal; lia| |by rewrite F1|done|congruence|congruence|done].
      rewrite Hs2, Hs1, Hs, C1. by rewrite app_assoc.
    + cbn [world]. rewrite T2. lia.
    + cbn [world]. rewrite T2, F1. done.
  - change (0 <? 0) with false. change (0 =? 0) with true. cbv iota. apply wp_ret. split; [done|]. split; [by rewrite Hs1, Hs, P0|apply Hrd1].
Qed.

(** The flags of the compressor's output are changed; of other descriptors, they do
    not matter. *)
Definition same_but_flags {Hd : Type} (s t : cst W Hd) : Prop :=
  ends (traffic_of (world t)) = ends (traffic_of (world s)) /\ hnd t = hnd s /\ sink (world t) = sink (world s) /\ (intr (world t) <= intr (world s))%nat /\ reads_same (world s) (world t) /\
  fed (traffic_of (world t)) = fed (traffic_of (world s)) /\ came (traffic_of (world t)) = came (traffic_of (world s)) /\
  at_end (traffic_of (world t)) = at_end (traffic_of (world s)).

Lemma same_but_flags_trans {Hd : Type} (s1 s2 s3 : cst W Hd) : same_but_flags s1 s2 -> same_but_flags s2 s3 -> same_but_flags s1 s3.
Proof.
  intros (A0 & A1 & A2 & A3 & A4 & A5 & A6 & A7) (B0 & B1 & B2 & B3 & B4 & B5 & B6 & B7).
  unfold same_but_flags. split_and!; try congruence; [lia|by etransitivity].
Qed.

Lemma fcntl_flags {Hd : Type} fd c a (s : cst W Hd) : ends (traffic_of (world s)) = Some (zin, zout) -> (intr (world s) < fuel)%nat ->
  wp (NO_INTR fuel (sys_fcntl fd c a)) (fun _ (t : cst W Hd) => same_but_flags s t /\
    (fd = zout -> c = F_SETFL -> at_end (traffic_of (world s)) = true -> nonblock (traffic_of (world t)) = negb (Z.land a O_NONBLOCK =? 0))) s.
Proof.
  intros Hj Hf. unfold sys_fcntl. apply (wp_NO_INTR (fun t : cst W Hd => same_but_flags s t) (fun t : cst W Hd => intr (world t))); [|by split_and!|done].
  intros s1 r u w' Hs1 Hk. destruct (k_fcntl_intr _ _ _ _ _ _ _ Hk) as [Hi1 Hi2].
  pose proof (k_fcntl_sink _ _ _ _ _ _ _ Hk) as Hk'. pose proof (k_fcntl_frame _ _ _ _ _ _ _ Hk) as Hfr.
  assert (Hj1 : ends (traffic_of (world s1)) = Some (zin, zout)) by (destruct Hs1; congruence).
  assert (Ht : (ends (traffic_of w') = ends (traffic_of (world s1)) /\ fed (traffic_of w') = fed (traffic_of (world s1)) /\ came (traffic_of w') = came (traffic_of (world s1)) /\
      at_end (traffic_of w') = at_end (traffic_of (world s1))) /\
    (fd = zout -> c = F_SETFL -> at_end (traffic_of (world s)) = true -> r = - EINTR \/ nonblock (traffic_of w') = negb (Z.land a O_NONBLOCK =? 0))).
  { destruct (decide (fd = zout)) as [->|Hne]; [destruct (z_fcntl zin _ _ _ _ _ _ _ Hj1 Hk) as (? & ? & ? & ? & Hf2); split; [auto|]; intros _ Hc Hat; apply Hf2; [done|]; destruct Hs1 as (_ & _ & _ & _ & _ & _ & _ & ->); done|].
    rewrite (z_elsewhere (out := out) _ _ _ _ Hj1 (e_fcntl zin zout _ _ _ _ _ _ _ Hne Hk)). by split. }
  destruct Ht as [(J & F & C & A) Hnb].
  assert (Hsb : forall e, same_but_flags s (Cst e w' (hnd s1))).
  { intros e. eapply same_but_flags_trans; [exact Hs1|]. unfold same_but_flags. cbn. by split_and!. }
  split_and!.
  - intros _ Hr. split; [apply Hsb|]. by apply Hi2.
  - intros He Hne. split; [apply Hsb|]. intros H1 H2 H3. by destruct (Hnb H1 H2 H3).
  - intros He. destruct (k_fcntl_range _ _ _ _ _ _ _ Hk); [done|]. split; [done|]. split; [apply Hsb|].
    intros H1 H2 H3. destruct (Hnb H1 H2 H3); [unfold EINTR in *; lia|done].
Qed.

(** [FlushPipe] copies what is left, and the file has all that the compressor makes
    of its input. *)
Lemma FlushPipe_all s : joined s -> hnd s = mkWriterFds (limit - zlen (came (tr s))) zin zout out -> sink (world s) = base ++ came (tr s) ->
  zlen (fed (tr s)) <= cap -> zlen (came (tr s)) <= most -> at_end (tr s) = true -> ready (out := out) fuel s ->
  wp (FlushPipe fuel) (fun rc s' => rc = 0 /\ sink (world s') = base ++ packed (fed (tr s)) /\ (intr (world s') < fuel)%nat) s.
Proof.
  intros Hj Hh Hs Hcap Hm Ha Hr. unfold FlushPipe. wp_step. unfold wp at 1, get_hnd. rewrite Hh. cbn [compressed_fd].
  wp_step. eapply wp_mono; [apply fcntl_flags; [done|apply Hr]|]. intros flags s1 [H1 _].
  pose proof H1 as (J1 & _ & _ & I1 & _). destruct Hr as [Hi Hp].
  wp_step. eapply wp_mono; [apply fcntl_flags; [congruence|lia]|]. intros ? s2 [H2 Hnb].
  pose proof (same_but_flags_trans _ _ _ H1 H2) as (E0 & E1 & E2 & E3 & E4 & E5 & E6 & E7).
  pose proof H1 as (_ & _ & _ & _ & _ & _ & _ & A1). specialize (Hnb eq_refl eq_refl (eq_trans A1 Ha)). eapply wp_mono; [apply (flush_loop_all fuel)|].
  - unfold flushing, ready. rewrite E1, E2, E5, E6, E7. split_and!; try done; [congruence| |lia|by eapply reads_same_not_piped].
    rewrite Hnb. assert (E : Z.land (Z.land flags (Z.lnot O_NONBLOCK)) O_NONBLOCK = 0); [|by rewrite E].
    rewrite <- Z.land_assoc. rewrite (Z.land_comm (Z.lnot _)), Z.land_lnot_diag. apply Z.land_0_r.
  - unfold to_come. rewrite E6. pose proof (zlen_nonneg (came (tr s))). lia.
  - cbn beta. intros rc s3 (-> & Hs3 & Hi3). split; [done|]. split; [by rewrite Hs3, E5|done].
Qed.
End Pipe.
