(* ===== verification/SmapsClaims.v ===== *)
(** What the parser of /proc/self/smaps makes of a whole file, with instances on
    the example kernel. *)
From S2P Require Import Prelude Syscall KernelSpec ToyKernel CIO FileOps ProcIO LeadingZeros Smaps.
From S2P Require Import Stream SmapsText ElfTypes ElfCore.

(** ** A segment and its mapping *)

Record segment := mkSegment {
  g_header : seg_header;
  g_lines : list line;
  g_flags : option (list (Z * Z) * nat) }.

Definition segment_text (g : segment) : list Z := header_text (g_header g) ++ details_text (g_lines g) (g_flags g).

Definition pages (ps : Z) (g : segment) : nat := Z.to_nat ((s_end (g_header g) - s_start (g_header g)) / ps).

Record segment_ok (ps : Z) (g : segment) : Prop := {
  sg_header : header_ok (g_header g);
  sg_lines : Forall line_ok (g_lines g);
  sg_flags : vm_ok (g_flags g);
  sg_aligned : s_start (g_header g) mod ps = 0;
  sg_pages : s_end (g_header g) - s_start (g_header g) = ps * Z.of_nat (pages ps g);
  sg_digits : (0 < s_start_w (g_header g))%nat }.

(** No file is mapped: there is no name, or one in brackets. *)
Definition anonymous_name (nm : list Z) : bool := bool_decide (nm = [] \/ head nm = Some (ord "[")).

(** How much of a segment is to be written: all of it when it is anonymous, has
    been written to or can be, otherwise the first page when that may hold the
    headers of an ELF file, and nothing of other files. *)
Definition to_write `{AddressSpace} (ps : Z) (g : segment) (start : Z) : Z :=
  let h := g_header g in
  let '(_, w, _, _) := s_perms h in
  if anonymous_name (segment_name h) || has_anonymous false (g_lines g) || negb (w =? ord "-") then s_end h - start
  else if (s_off h =? 0) && bool_decide (peek_bytes start 4 = 127 :: bytes "ELF") then ps
  else 0.

(** The mapping a segment gives: none when it may not be read, asks not to be
    dumped or holds nothing but zeros; its start is moved past the zero pages. *)
Definition seg_mapping `{AddressSpace} `{PipePage W ps} (aarch64 : bool) (g : segment) : option mapping :=
  let h := g_header g in
  let '(r, _, _, _) := s_perms h in
  let start := s_start h + ps * Z.of_nat (blank_pages (pages ps g) (s_start h)) in
  if vm_dont_dump aarch64 (g_flags g) || (r =? ord "-") then None
  else if s_end h =? start then None
  else Some (mkMapping start (s_end h) (s_off h) (to_write ps g start) (perms_flags (s_perms h))
               (anonymous_name (segment_name h)) (segment_name h)).

Lemma name_is_anon_spec nm : name_is_anon nm = anonymous_name nm.
Proof.
  unfold anonymous_name. symmetry. destruct nm as [|c nm]; cbn [name_is_anon]; [apply bool_decide_true; by left|].
  destruct (Z.eqb_spec c (ord "[")) as [->|Hc]; [apply bool_decide_true; by right|].
  apply bool_decide_false. intros [|[= ?]]; done.
Qed.

Lemma perms_read r w x p : (Z.land (perms_flags (r, w, x, p)) PF_R =? 0) = (r =? ord "-").
Proof. unfold perms_flags, perm_bit. by destruct (r =? _), (w =? _), (x =? _). Qed.

Lemma perms_write r w x p : (Z.land (perms_flags (r, w, x, p)) PF_W =? 0) = (w =? ord "-").
Proof. unfold perms_flags, perm_bit. by destruct (r =? _), (w =? _), (x =? _). Qed.

Lemma elf_magic_spec `{AddressSpace} a : has_elf_magic a = bool_decide (peek_bytes a 4 = 127 :: bytes "ELF").
Proof.
  unfold has_elf_magic. cbn [peek_bytes bytes]. change (ord "E") with 69. change (ord "L") with 76. change (ord "F") with 70.
  replace (a + 1 + 1) with (a + 2) by lia. replace (a + 2 + 1) with (a + 3) by lia.
  destruct (_ && _)%bool eqn:E; symmetry; [apply bool_decide_true|apply bool_decide_false].
  - b2p. congruence.
  - intros [= H1 H2 H3 H4]. rewrite H1, H2, H3, H4 in E. done.
Qed.

Lemma write_size_spec `{AddressSpace} ps g start : 0 <= s_end (g_header g) - start < 2 ^ 64 ->
  Z.land (perms_flags (s_perms (g_header g))) PF_R <> 0 ->
  segment_write_size (name_is_anon (segment_name (g_header g))) (has_anonymous false (g_lines g))
    (perms_flags (s_perms (g_header g))) (s_off (g_header g)) start (s_end (g_header g)) ps = to_write ps g start.
Proof.
  intros Hs Hr. unfold segment_write_size, to_write. destruct (s_perms _) as [[[r w] x] p].
  rewrite (proj2 (Z.eqb_neq _ _) Hr), perms_write, u64_small, elf_magic_spec, name_is_anon_spec by lia.
  destruct (anonymous_name _), (has_anonymous _ _), (w =? _), (s_off _ =? 0); done.
Qed.

(** Each segment is followed by the first digit of the next one, or nothing. *)
Lemma hex_ends n v : 0 <= v -> Forall (fun c => ends_details c = true) (hex_digits n v).
Proof.
  revert v. induction n as [|n IH]; intros v Hv; cbn; [constructor|].
  apply Forall_app. split; [apply IH, Z.div_pos; lia|]. repeat constructor.
  pose proof (Z.mod_pos_bound v 16 ltac:(lia)) as Hm. revert Hm. generalize (v mod 16). intros d Hm.
  assert (E : forallb (fun d => ends_details (hex_char d)) (map Z.of_nat (seq 0 16)) = true) by done.
  rewrite forallb_forall in E. apply E. apply in_map_iff. exists (Z.to_nat d). split; [lia|]. apply in_seq. lia.
Qed.

Lemma header_ends h t : header_ok h -> (0 < s_start_w h)%nat -> ends (header_text h ++ t).
Proof.
  intros [[Hv _] _ _ _ _ _ _ _] Hw. unfold header_text.
  pose proof (hex_ends (s_start_w h) (s_start h) (proj1 Hv)) as He.
  pose proof (length_hex_digits (s_start_w h) (s_start h)) as Hl.
  destruct (hex_digits (s_start_w h) (s_start h)) as [|c ds]; [cbn in Hl; lia|].
  by inversion_clear He.
Qed.

Lemma texts_end ps gs t : Forall (segment_ok ps) gs -> ends t -> ends (concat (map segment_text gs) ++ t).
Proof.
  destruct 1 as [|g gs [Hg _ _ _ _ Hw] _]; [done|]. intros _. cbn [map concat].
  unfold segment_text. rewrite <- !app_assoc. by apply header_ends.
Qed.

(** ** Reading it *)

Section ReadMappings.
Context {W Hd : Type} `{!KernelIO W} `{!AddressSpace} `{!Files W} `{!Interrupts W} `{!ReadReady W} {k : Z}
  `{!PipePage W (2 ^ k)}.
Context (fuel : nat) (aarch64 : bool) (uninit : list Z) (fd rd wr : Z) (s0 : cst W Hd).
Hypothesis (page_bits : 0 <= k < 63).
Hypothesis (fuel_ok : (intr (world s0) < fuel)%nat).
Hypothesis (fuel_page : 2 ^ k < Z.of_nat fuel).
Hypothesis (other_fd : fd <> rd).
Hypothesis (pipe0 : pipe_of (world s0) wr = Some rd).
Hypothesis (open0 : rd_open (world s0) rd).
Hypothesis (empty0 : unread (world s0) rd = []).
Implicit Types (s : cst W Hd) (i : io) (t : list Z).

Abbreviation ps := (2 ^ k).
Abbreviation at_ := (at_ fd s0).
Abbreviation cur := (cur fd s0).

(** Like [cur], but nothing is said about [errno] at the end of the file. *)
Definition next (ch : Z) i t s : Prop := match t with [] => at_ i [] s | c :: t' => ch = c /\ at_ i t' s end.

Lemma cur_next ch i t s : cur ch i t s -> next ch i t s.
Proof. destruct t; [by intros (_ & _ & ?)|done]. Qed.

Lemma at_piped i t s s' : at_ i t s -> piped rd wr s [] s' -> at_ i t s'.
Proof.
  intros (A1 & A2 & A3 & A4 & A5 & F1 & F2 & F3 & F4) (P1 & P2 & P3 & P4 & P5 & G1 & G2 & G3 & G4).
  split_and!; auto; [by rewrite G1|lia|congruence|]. split_and!; [|auto|by intros f; rewrite G3|lia].
  intros f Hf. destruct (decide (f = rd)) as [->|Hne]; [congruence|]. by rewrite G1, F1.
Qed.

Lemma next_piped ch i t s s' : next ch i t s -> piped rd wr s [] s' -> next ch i t s'.
Proof. destruct t; cbn; [apply at_piped|]. intros [-> Ha] Hp. split; [done|]. by eapply at_piped. Qed.

Lemma next_at ch i t s : next ch i t s -> exists u, at_ i u s.
Proof. destruct t; [eauto|]. intros [_ ?]. eauto. Qed.

(** The start, the pages and the flags that [keep_segment] works with. *)
Lemma keep_segment_spec g h ch i t s : segment_ok ps g -> header_of (g_header g) h ->
  is_device (segment_name (g_header g)) = false -> ps * Z.of_nat (pages ps g) < Z.of_nat fuel -> next ch i t s ->
  wp (keep_segment fuel uninit rd wr ps h (has_anonymous false (g_lines g)) (vm_dont_dump aarch64 (g_flags g)))
    (fun o s' => o = seg_mapping (ps := ps) aarch64 g /\ next ch i t s') s.
Proof.
  intros [[[Hst Hst2] [Hen Hen2] _ _ _ _ _ _] _ _ Hal Hpg _] (E1 & E2 & E3 & E4 & E5) Hdev Hf Hn.
  unfold keep_segment, seg_mapping. rewrite E1, E2, E3, E4, E5, Hdev. cbn [orb].
  destruct (s_perms (g_header g)) as [[[r w] x] pr] eqn:Ep. rewrite perms_read.
  destruct (vm_dont_dump _ _ || _) eqn:Ed; [by apply wp_ret|].
  destruct (next_at _ _ _ _ Hn) as (u & _ & _ & _ & A4 & A5 & F1 & F2 & F3 & F4).
  rewrite (u64_small (s_end _ - s_start _)) by (pose proof (Z.pow_nonneg 2 k); nia). rewrite Hpg. wp_step.
  eapply wp_mono; [apply (LeadingZeros_pages fuel uninit rd wr (s_start (g_header g)) (pages ps g) s);
    auto; [lia|lia|by rewrite F3|by rewrite F1]|].
  intros z s1 (-> & Hp). set (b := blank_pages _ _).
  assert (Hb : forall n a, (blank_pages (pagesize := ps) n a <= n)%nat).
  { clear. induction n as [|n IH]; intros a; cbn [blank_pages]; [lia|]. destruct (blank a); [|lia].
    specialize (IH (a + ps)). lia. }
  specialize (Hb (pages ps g) (s_start (g_header g))). fold b in Hb.
  rewrite u64_small by (pose proof (Z.pow_nonneg 2 k); nia).
  assert (0 <= s_end (g_header g) - (s_start (g_header g) + ps * Z.of_nat b) < 2 ^ 64) as Hr by (pose proof (Z.pow_nonneg 2 k); nia).
  destruct (s_end (g_header g) =? _); apply wp_ret; (split; [|by eapply next_piped]); [done|].
  apply orb_false_iff in Ed as [_ Ed]. rewrite <- Ep, (write_size_spec ps g), name_is_anon_spec; [done|done|].
  apply Z.eqb_neq. by rewrite Ep, perms_read.
Qed.

(** The fuel is enough for the text of a segment and for its bytes. *)
Definition fuel_for (g : segment) : Prop :=
  (length (segment_text g) < fuel)%nat /\ ps * Z.of_nat (pages ps g) < Z.of_nat fuel.

Lemma fuel_lengths g : (length (segment_text g) < fuel)%nat ->
  (length (header_text (g_header g)) < fuel)%nat /\ (length (details_text (g_lines g) (g_flags g)) < fuel)%nat /\
  (S (length (g_lines g)) < fuel)%nat.
Proof.
  unfold segment_text, details_text. rewrite !length_app. intros Hl.
  assert (length (g_lines g) <= length (concat (map (fun l => line_text l ++ [nl]) (g_lines g))))%nat.
  { clear. induction (g_lines g) as [|l ls IH]; cbn; [lia|]. rewrite !length_app. cbn. lia. }
  assert (2 < length (header_text (g_header g)))%nat; [|lia].
  unfold header_text. repeat (rewrite length_app || cbn [length]). lia.
Qed.

(** Reading some segments, and then what comes after them. *)
Lemma read_mappings_app gs t m (Q : option (list mapping * io) -> cst W Hd -> Prop) :
  Forall (segment_ok ps) gs -> ends t ->
  Forall (fun g => is_device (segment_name (g_header g)) = false) gs -> Forall fuel_for gs ->
  forall kept, (forall ch i s, next ch i t s ->
    wp (read_mappings fuel aarch64 uninit m rd wr ps ch i (rev (omap (seg_mapping (ps := ps) aarch64) gs) ++ kept)) Q s) ->
  forall ch i s, next ch i (concat (map segment_text gs) ++ t) s ->
  wp (read_mappings fuel aarch64 uninit (length gs + m) rd wr ps ch i kept) Q s.
Proof.
  intros Hgs He. induction Hgs as [|g gs Hg Hgs IH]; intros Hdev Hfu kept HQ ch i s Hn; [by apply HQ|].
  inversion_clear Hdev as [|? ? Hd1 Hd2]. inversion_clear Hfu as [|? ? [Hf1 Hf2] Hf3].
  destruct (fuel_lengths g Hf1) as (L1 & L2 & L3). cbn [map concat length Nat.add] in Hn |- *.
  unfold segment_text in Hn. rewrite <- !app_assoc in Hn. fold segment_text in Hn. cbn [read_mappings]. wp_step.
  set (u := concat (map segment_text gs) ++ t) in *.
  eapply wp_mono; [eapply (read_header_cur fuel fd s0 fuel_ok (g_header g) (details_text (g_lines g) (g_flags g) ++ u));
    [apply Hg|done|]|].
  { destruct (header_text (g_header g)) as [|c l] eqn:E; [|exact Hn].
    apply (f_equal length) in E. unfold header_text in E. rewrite !length_app in E. cbn [length] in E. lia. }
  cbn beta. intros r s1 (h & i1 & -> & Hh & Ha1). wp_step.
  assert (Ed : is_device (h_name h) = false) by (destruct Hh as (_ & _ & _ & _ & ->); done). rewrite Ed.
  eapply wp_mono; [apply (read_details_at fuel fd s0 aarch64 fuel_ok (g_lines g) (g_flags g) u);
    [apply Hg|apply Hg|by eapply texts_end|done|done|done]|].
  cbn beta. intros r s2 (ch2 & i2 & -> & Hc2). wp_step.
  eapply wp_mono; [eapply (keep_segment_spec g h); try done; by apply cur_next|].
  cbn beta. intros o s3 [-> Hn3]. apply IH; try done. intros ch4 i4 s4 Hn4.
  cbn [omap list_omap] in HQ. destruct (seg_mapping aarch64 g) as [m0|]; [|by apply HQ].
  cbn [rev] in HQ. setoid_rewrite <- app_assoc in HQ. by apply HQ.
Qed.

Lemma read_mappings_next gs : Forall (segment_ok ps) gs ->
  Forall (fun g => is_device (segment_name (g_header g)) = false) gs -> Forall fuel_for gs ->
  forall ch i s, next ch i (concat (map segment_text gs)) s ->
  wp (read_mappings fuel aarch64 uninit (length gs) rd wr ps ch i []) (fun r s' => exists i',
    r = Some (omap (seg_mapping (ps := ps) aarch64) gs, i') /\ at_ i' [] s') s.
Proof.
  intros Hgs Hdev Hfu ch i s Hn. rewrite <- (Nat.add_0_r (length gs)).
  apply (read_mappings_app gs [] 0); [done|done|done|done| |by rewrite app_nil_r].
  intros ch' i' s' Hn'. apply wp_ret. exists i'. rewrite app_nil_r, rev_involutive. done.
Qed.

(** A segment of a device: the search for the next segment stops at the "e" of
    "Size:", which is taken for the first digit of an address. *)
Lemma read_mappings_device h rest m ch i s kept : header_ok h -> (length (header_text h) < fuel)%nat ->
  is_device (segment_name h) = true -> next ch i (header_text h ++ bytes "Size:" ++ rest) s ->
  wp (read_mappings fuel aarch64 uninit (S (S m)) rd wr ps ch i kept) (fun r s' => r = None /\
    (intr (world s') < fuel)%nat) s.
Proof.
  intros Hh Hl Hdev Hn. assert (H4 : (4 < fuel)%nat) by (destruct (header_lengths fuel h Hl) as (_ & _ & _ & ? & _); done).
  cbn [read_mappings]. wp_step.
  eapply wp_mono; [eapply (read_header_cur fuel fd s0 fuel_ok h (bytes "Size:" ++ rest)); [done|done|]|].
  { destruct (header_text h) as [|c l] eqn:E; [|exact Hn].
    apply (f_equal length) in E. unfold header_text in E. rewrite !length_app in E. cbn [length] in E. lia. }
  cbn beta. intros r s1 (x & i1 & -> & Hx & Ha1). wp_step.
  assert (Ed : is_device (h_name x) = true) by (destruct Hx as (_ & _ & _ & _ & ->); done). rewrite Ed.
  assert (Hskip : forall n c t i s, ends_details c = false -> at_ i (c :: t) s ->
    forall Q, (forall i' s', at_ i' t s' -> wp (read_details fuel aarch64 n true false false i') Q s') ->
    wp (read_details fuel aarch64 (S n) true false false i) Q s).
  { intros n c t i2 s2 Hc Ha Q HQ. cbn [read_details]. wp_step. eapply wp_mono; [by apply (GetChar_at fuel fd s0)|].
    intros [c' i'] s' [Ec Ha']. cbn [fst snd] in *. subst c'. rewrite Hc. cbn [orb]. by apply HQ. }
  assert (Hf : exists n, fuel = S (S (S (S n)))).
  { exists (fuel - 4)%nat. lia. }
  destruct Hf as [n En]. rewrite En at 2.
  eapply (Hskip _ (ord "S")); [done|exact Ha1|]. intros i2 s2 Ha2.
  eapply (Hskip _ (ord "i")); [done|exact Ha2|]. intros i3 s3 Ha3.
  eapply (Hskip _ (ord "z")); [done|exact Ha3|]. intros i4 s4 Ha4.
  cbn [read_details]. wp_step. eapply wp_mono; [by apply (GetChar_at fuel fd s0)|].
  intros [c5 i5] s5 [Ec Ha5]. cbn [fst snd] in *. subst c5. change (ends_details _) with true. cbv iota. wp_step. wp_step.
  unfold keep_segment. rewrite Ed. cbn [orb]. wp_step. wp_step. unfold read_header, GetHexWithInitChar, GetHexHelper.
  wp_step. eapply wp_mono; [apply (GetHexLoop_cur fuel fd s0 fuel_ok [ord "e"] (bytes ":" ++ rest)); 
    [done|cbn; lia|by repeat constructor|by split]|].
  cbn beta. intros r s6 (c6 & i6 & -> & -> & Ha6). cbn [negb]. change (_ =? ord "-") with false. cbn [negb]. apply wp_ret.
  split; [done|]. destruct Ha6 as (_ & _ & _ & ? & _). lia.
Qed.
End ReadMappings.

(** ** Claims *)

(** Right after the file is opened. *)
Lemma at_open {W Hd : Type} `{!KernelIO W} `{!AddressSpace} `{!Files W} `{!Interrupts W} fd t (s : cst W Hd) :
  rd_open (world s) fd -> unread (world s) fd = t -> at_ fd s (mkIo fd []) t s.
Proof. intros Ho Hu. split_and!; auto with coredump. Qed.

(** Reading a file to its end and closing it leaves the others as they were. *)
Lemma at_closed {W Hd : Type} `{!KernelIO W} `{!AddressSpace} `{!Files W} `{!Interrupts W} fd i t (s s1 s2 s3 : cst W Hd) :
  fd_frame fd 1 s s1 -> at_ fd s1 i t s2 -> fd_frame fd 0 s2 s3 -> fd_frame fd 1 s s3.
Proof.
  intros F1 (_ & _ & _ & Hi & Hh & G1 & G2 & G3 & G4) F3.
  apply (fd_frame_trans fd 1 0 s s2); [|done]. apply (fd_frame_trans fd 1 0 s s1); [done|].
  split_and!; auto; lia.
Qed.

(** The text of a segment starts with a digit. *)
Lemma texts_next_nonneg {W Hd : Type} `{!KernelIO W} `{!AddressSpace} `{!Files W} `{!Interrupts W}
    ps gs ch i fd (s0 s : cst W Hd) : Forall (segment_ok ps) gs -> gs <> [] ->
  cur fd s0 ch i (concat (map segment_text gs)) s -> 0 <= ch.
Proof.
  intros Hgs Hne Hc. destruct Hgs as [|g gs [[[Hv _] _ _ _ _ _ _ _] _ _ _ _ Hw] _]; [done|].
  revert Hc. cbn [map concat]. unfold segment_text, header_text.
  pose proof (hex_digits_hex (s_start_w (g_header g)) (s_start (g_header g)) (proj1 Hv)) as He.
  pose proof (length_hex_digits (s_start_w (g_header g)) (s_start (g_header g))) as Hl.
  destruct (hex_digits _ (s_start _)) as [|c ds]; [cbn in Hl; lia|]. intros [-> _].
  inversion_clear He as [|? ? Hc _]. unfold is_hex in Hc. change (ord "0") with 48 in Hc.
  change (ord "A") with 65 in Hc. change (ord "a") with 97 in Hc. lia.
Qed.

Lemma count_mappings_spec {W Hd : Type} `{!KernelIO W} `{!AddressSpace} `{!Files W} `{!Interrupts W}
    `{!ReadReady W} fuel text (s : cst W Hd) :
  has_file "/proc/self/maps" -> file_bytes "/proc/self/maps" = text -> Forall (fun c => 0 <= c) text ->
  zlen (filter (fun c => c = nl) text) < 2 ^ 31 ->
  (0 < slots (world s))%nat -> (intr (world s) < fuel)%nat -> (length text < fuel)%nat ->
  wp (count_mappings fuel) (fun o s' =>
    o = Some (zlen (filter (fun c => c = nl) text)) /\ opened 1 s s') s.
Proof.
  intros Hf Ht Hpos Hfew Hs Hi Hl. unfold count_mappings. wp_step. eapply wp_mono; [by apply open_file|].
  intros fd s1 (Hfd & Hnew & Ho & Hu & _ & Hfr). destruct (fd <? 0) eqn:E; b2p; [lia|]. wp_step.
  assert (Hi1 : (intr (world s1) < fuel)%nat) by (destruct Hfr as (_ & ? & _); lia).
  assert (Hcount : forall n t num i s2, (length t < n)%nat -> Forall (fun c => 0 <= c) t ->
    0 <= num -> num + zlen (filter (fun c => c = nl) t) < 2 ^ 31 -> at_ fd s1 i t s2 ->
    wp (count_lines fuel n i num) (fun r s3 => r.1 = num + zlen (filter (fun c => c = nl) t) /\
      errno s3 = 0 /\ at_ fd s1 r.2 [] s3) s2).
  { induction n as [|n IH]; intros t num i s2 Hn Hp H0 Hlt Ha; [lia|]. cbn [count_lines]. wp_step.
    eapply wp_mono; [by apply (GetChar_at fuel fd s1)|]. intros [ch i'] s3 Hc. cbn [fst snd] in Hc.
    destruct t as [|c t].
    - destruct Hc as (-> & He & Ha'). apply wp_ret. split; [|done]. rewrite filter_nil, zlen_nil. cbn. lia.
    - destruct Hc as [-> Ha']. inversion_clear Hp as [|? ? Hc Hp']. rewrite (proj2 (Z.leb_le 0 c)) by done.
      pose proof (zlen_nonneg (filter (fun c => c = nl) t)) as Hz.
      assert (El : zlen (filter (fun c => c = nl) (c :: t)) = (if c =? nl then 1 else 0) + zlen (filter (fun c => c = nl) t)).
      { rewrite filter_cons. destruct (Z.eqb_spec c nl); [rewrite decide_True by done; rewrite zlen_cons; lia|by rewrite decide_False]. }
      rewrite El in *. rewrite s32_small by (destruct (c =? nl); lia).
      eapply wp_mono; [apply (IH t); [cbn in Hn; lia|done|destruct (c =? nl); lia|lia|done]|]. intros r s4 (-> & He & Ha4).
      split; [lia|done]. }
  eapply wp_mono; [apply (Hcount fuel text 0); [done|done|done|done|by apply at_open; [|rewrite Hu]]|].
  intros [num i2] s2 (En & He & Ha2). cbn [fst snd] in En, Ha2. subst num. wp_step. unfold wp at 1, get_errno. rewrite He. cbn [negb Z.eqb]. wp_step.
  eapply wp_mono; [apply close_file|].
  { destruct Ha2 as (_ & _ & _ & ? & _). lia. }
  intros rc s3 Hc. apply wp_ret. split; [done|].
  eapply fd_frame_opened; [|by eapply at_closed]. done.
Qed.

(** Counting the mappings: for every contents of /proc/self/maps the result
    is the number of its lines, if an [int] can hold it. *)
Theorem count_mappings_lines {W Hd : Type} `{!KernelIO W} `{!AddressSpace} `{!Files W} `{!Interrupts W}
    `{!ReadReady W} fuel text (s : cst W Hd) :
  has_file "/proc/self/maps" -> file_bytes "/proc/self/maps" = text -> Forall (fun c => 0 <= c) text ->
  zlen (filter (fun c => c = nl) text) < 2 ^ 31 ->
  (0 < slots (world s))%nat -> (intr (world s) < fuel)%nat -> (length text < fuel)%nat ->
  wp (count_mappings fuel) (fun o s' =>
    o = Some (zlen (filter (fun c => c = nl) text)) /\ hnd s' = hnd s) s.
Proof.
  intros Hf Ht Hpos Hfew Hs Hi Hl. eapply wp_mono; [by apply count_mappings_spec with (text := text)|].
  intros o s' [-> (Hh & _)]. done.
Qed.

Section Load.
Context {W Hd : Type} `{!KernelIO W} `{!AddressSpace} `{!Files W} `{!Interrupts W} `{!ReadReady W} {k : Z}
  `{!PipePage W (2 ^ k)}.
Context (fuel : nat) (aarch64 : bool) (uninit : list Z) (rd wr : Z) (s : cst W Hd).
Hypothesis (page_bits : 0 <= k < 63).
Hypothesis (there : has_file "/proc/self/smaps").
Hypothesis (slots_s : (0 < slots (world s))%nat).
Hypothesis (fuel_intr : (intr (world s) < fuel)%nat).

Lemma load_mappings_spec gs :
  2 ^ k < Z.of_nat fuel -> pipe_of (world s) wr = Some rd -> rd_open (world s) rd -> unread (world s) rd = [] ->
  file_bytes "/proc/self/smaps" = concat (map segment_text gs) -> gs <> [] -> Forall (segment_ok (2 ^ k)) gs ->
  Forall (fun g => is_device (segment_name (g_header g)) = false) gs -> Forall (fuel_for (k := k) fuel) gs ->
  wp (load_mappings fuel aarch64 uninit rd wr (2 ^ k) (zlen gs)) (fun o s' =>
    o = Some (omap (seg_mapping (ps := 2 ^ k) aarch64) gs) /\ opened 1 s s') s.
Proof.
  intros Hfp Hp Ho Hu Ht Hne Hgs Hdev Hfu. unfold load_mappings. wp_step. eapply wp_mono; [by apply open_file|].
  intros fd s1 (Hfd & Hnew & Ho1 & Hu1 & _ & Hfr). destruct (fd <? 0) eqn:E; b2p; [lia|]. wp_step.
  pose proof Hfr as (_ & Hi1 & F3 & F4 & F5 & _). assert (Hrd : fd <> rd) by (intros ->; done).
  assert (Hi : (intr (world s1) < fuel)%nat) by lia.
  eapply wp_mono; [apply (GetChar_at fuel fd s1 Hi); by apply at_open|]. intros [ch i] s2 Hc. cbn [fst snd] in Hc.
  rewrite Ht in Hc. destruct (ch <? 0) eqn:Ech.
  { b2p. pose proof (texts_next_nonneg _ _ _ _ _ _ _ Hgs Hne Hc). lia. }
  wp_step. unfold zlen. rewrite Nat2Z.id.
  eapply wp_mono; [apply (read_mappings_next fuel aarch64 uninit fd rd wr s1); auto;
    [by rewrite F5|by rewrite F3|by apply cur_next]|].
  cbn beta. intros r s3 (i3 & -> & Ha3). wp_step. eapply wp_mono; [apply close_file|].
  { destruct Ha3 as (_ & _ & _ & ? & _). lia. }
  intros rc s4 Hc4. apply wp_ret. cbn [rev app]. split; [done|].
  eapply fd_frame_opened; [|by eapply at_closed]. done.
Qed.

(** C13. Loading the mappings: from the text of /proc/self/smaps, if no segment in it
    is of a device, it makes exactly the mappings of the segments that may be read,
    are not marked "dd" and hold more than zeros, in their order, and it leaves the
    pipe as it was.  (With a device among them it fails, [device_mapping_fails].) *)
Theorem load_mappings_segments gs :
  2 ^ k < Z.of_nat fuel -> pipe_of (world s) wr = Some rd -> rd_open (world s) rd -> unread (world s) rd = [] ->
  file_bytes "/proc/self/smaps" = concat (map segment_text gs) -> gs <> [] -> Forall (segment_ok (2 ^ k)) gs ->
  Forall (fun g => is_device (segment_name (g_header g)) = false) gs -> Forall (fuel_for (k := k) fuel) gs ->
  wp (load_mappings fuel aarch64 uninit rd wr (2 ^ k) (zlen gs)) (fun o s' =>
    o = Some (omap (seg_mapping (ps := 2 ^ k) aarch64) gs) /\ hnd s' = hnd s /\
    rd_open (world s') rd /\ unread (world s') rd = []) s.
Proof.
  intros Hfp Hp Ho Hu Ht Hne Hgs Hdev Hfu. eapply wp_mono; [by apply load_mappings_spec|].
  intros o s' [-> (Hh & _ & Hr & _)]. destruct (Hr rd Ho) as [? E]. split_and!; [done|done|done|congruence].
Qed.

(** C38. A segment of a device is not skipped but makes the dump fail, unless it
    is the last one: the search for the header of the next segment stops in the
    middle of the line "Size:". *)
Theorem device_mapping_fails gs h rest num_mappings :
  2 ^ k < Z.of_nat fuel -> pipe_of (world s) wr = Some rd -> rd_open (world s) rd -> unread (world s) rd = [] ->
  file_bytes "/proc/self/smaps" = concat (map segment_text gs) ++ header_text h ++ bytes "Size:" ++ rest ->
  Forall (segment_ok (2 ^ k)) gs -> Forall (fun g => is_device (segment_name (g_header g)) = false) gs ->
  Forall (fuel_for (k := k) fuel) gs ->
  header_ok h -> (0 < s_start_w h)%nat -> (length (header_text h) < fuel)%nat -> is_device (segment_name h) = true ->
  zlen gs + 2 <= num_mappings ->
  wp (load_mappings fuel aarch64 uninit rd wr (2 ^ k) num_mappings) (fun o _ => o = None) s.
Proof.
  intros Hfp Hp Ho Hu Ht Hgs Hdev Hfu Hh Hw Hl Hdv Hn. unfold load_mappings. wp_step. eapply wp_mono; [by apply open_file|].
  intros fd s1 (Hfd & Hnew & Ho1 & Hu1 & _ & Hfr). destruct (fd <? 0) eqn:E; b2p; [lia|]. wp_step.
  pose proof Hfr as (_ & Hi1 & F3 & F4 & F5 & _). assert (Hrd : fd <> rd) by (intros ->; done).
  assert (Hi : (intr (world s1) < fuel)%nat) by lia.
  eapply wp_mono; [apply (GetChar_at fuel fd s1 Hi); by apply at_open|]. intros [ch i] s2 Hc. cbn [fst snd] in Hc.
  assert (Hclose : forall s, (intr (world s) < fuel)%nat ->
    wp (read_error fuel fd) (fun (o : option (list mapping)) (_ : cst W Hd) => o = None) s).
  { intros s3 H3. unfold read_error. wp_step. eapply wp_mono; [by apply close_file|]. done. }
  destruct (ch <? 0) eqn:Ech.
  { apply Hclose. destruct (next_at fd s1 ch i _ s2 (cur_next fd s1 ch i _ s2 Hc)) as (u & _ & _ & _ & ? & _). lia. }
  wp_step. replace (Z.to_nat num_mappings) with (length gs + (S (S (Z.to_nat (num_mappings - zlen gs - 2)))))%nat
    by (unfold zlen in *; lia).
  rewrite Ht in Hc.
  eapply wp_mono; [eapply (read_mappings_app fuel aarch64 uninit fd rd wr s1 page_bits Hi Hfp Hrd);
    [by rewrite F5|auto|by rewrite F3|exact Hgs| |exact Hdev|exact Hfu| |by apply cur_next]|].
  - by apply header_ends.
  - intros ch' i' s' Hn'. eapply (read_mappings_device fuel aarch64 uninit fd rd wr s1); eauto.
  - cbn beta. intros r s3 [-> H3]. by apply Hclose.
Qed.
End Load.

(** ** Instances *)

Lemma count_mappings_lines_witness :
  wp (count_mappings 300) (fun o s' =>
    o = Some (zlen (filter (fun c => c = nl) ex_maps_text)) /\ hnd s' = tt) (Cst 0 ex_world tt).
Proof. apply (count_mappings_lines 300 ex_maps_text (Cst 0 ex_world tt)); (done || by_compute). Defined.

Definition flag (f : string) : Z * Z := match bytes f with [a; b] => (a, b) | _ => (0, 0) end.

Definition ex_segment (start start_w end_ : Z) (perms : string) (dev ino : string) (pad : nat) (nm : string)
    (ls : list line) (fs : list string) : segment :=
  mkSegment (mkSeg start (Z.to_nat start_w) end_ (Z.to_nat start_w)
      (match bytes perms with [r; w; x; p] => (r, w, x, p) | _ => (0, 0, 0, 0) end)
      0 8 (bytes dev) (bytes ino) pad (bytes nm))
    ls (Some (map flag fs, 0%nat)).

Definition size_line : line := Other (bytes "Size:                  0 kB").

Definition ex_segments : list segment :=
  [ex_segment 4096 4 4224 "r-xp" "08:01" "42" 1 "/bin/app"
     [size_line; Other (bytes "AnonHugePages:         0 kB")] ["rd"; "ex"; "mr"; "mw"; "me"; "de"];
   ex_segment 8192 4 8256 "rw-p" "00:00" "0" 2 "[heap]"
     [size_line; Anonymous 13 (ord "4") (bytes " kB")] ["rd"; "wr"; "mr"; "mw"; "me"; "ac"];
   ex_segment 12288 4 12352 "r--p" "00:00" "0" 2 "[vvar]"
     [size_line] ["rd"; "mr"; "pf"; "de"; "dd"]].

Lemma ex_line_ok w : w <> [] -> Forall printable w -> not_at ends_details w ->
  negb (bool_decide (ztake 10 w = bytes "Anonymous:")) && negb (bool_decide (ztake 8 w = bytes "VmFlags:")) = true ->
  line_ok (Other w).
Proof.
  intros Hne Hp He Hk. b2p. apply bool_decide_eq_false in H, H0. split_and!; try done; intros rest ->;
    [apply H|apply H0]; done.
Qed.

Lemma ex_segments_ok : Forall (segment_ok (2 ^ 6)) ex_segments.
Proof.
  unfold ex_segments.
  repeat (apply Forall_cons; split); try apply Forall_nil_2; split.
  all: try (split; by_compute); try by_compute.
  all: repeat (apply Forall_cons; split); try apply Forall_nil_2.
  all: try (apply ex_line_ok; [done|by_compute|done|done]).
  all: try (split; by_compute).
  all: split; try by_compute; split; (done || by_compute).
Qed.

Lemma load_mappings_segments_witness :
  wp (load_mappings 500 false [] 3 4 (2 ^ 6) (zlen ex_segments)) (fun o s' =>
    o = Some (omap (seg_mapping (ps := 2 ^ 6) false) ex_segments) /\ hnd s' = tt /\
    rd_open (world s') 3 /\ unread (world s') 3 = []) (Cst 0 ex_piped tt).
Proof.
  apply (load_mappings_segments 500 false [] 3 4 (Cst 0 ex_piped tt)); try done; try by_compute.
  apply ex_segments_ok.
Defined.

(** A process with the GPU mapped before its heap. *)
Module Device.
Definition dev_header : seg_header :=
  g_header (ex_segment 8192 4 8256 "rw-s" "00:06" "3" 5 "/dev/dri/card0" [] []).

Definition dev_rest : list Z := bytes
"                  0 kB
VmFlags: rd wr sh mr mw me ms pf io de dd
3000-3040 rw-p 00000000 00:00 0  [heap]
".

Definition dev_text : list Z := concat (map segment_text (take 1 ex_segments)) ++ header_text dev_header ++ bytes "Size:" ++ dev_rest.

Definition dev_files (p : string) : option (list Z) := if String.eqb p "/proc/self/smaps" then Some dev_text else None.

#[local] Instance dev_io : KernelIO toy := ToyIO dev_files (fun _ => false) 100.
#[local] Instance dev_interrupts : Interrupts toy := ToyInterrupts dev_files (fun _ => false) 100.
#[local] Instance dev_fs : Files toy := ToyFiles dev_files (fun _ => false) 100.
#[local] Instance dev_read_ready : ReadReady toy := ToyReadReady dev_files (fun _ => false) 100.
#[local] Instance dev_pipe_page : PipePage toy (2 ^ 6) := toy_pipe_page dev_files (fun _ => false) 100 (2 ^ 6) ltac:(lia).

Lemma header_is_ok : header_ok dev_header.
Proof. split; try by_compute; split; (done || by_compute). Qed.

Lemma device_mapping_fails_witness :
  wp (load_mappings 500 false [] 3 4 (2 ^ 6) 3) (fun o _ => o = None) (Cst 0 ex_piped tt).
Proof.
  pose proof (device_mapping_fails (k := 6) 500 false [] 3 4 (Cst 0 ex_piped tt)) as P.
  apply (P ltac:(lia) ltac:(done) ltac:(by_compute) ltac:(by_compute) (take 1 ex_segments) dev_header dev_rest 3);
    clear P; try done; try by_compute.
  - apply Forall_take, ex_segments_ok.
  - apply header_is_ok.
Defined.
End Device.
