(* ===== verification/VdsoClaims.v ===== *)
(** What [CountAUXV] and [SanitizeVDSO] guarantee, with instances. *)
From S2P Require Import Prelude Syscall KernelSpec ToyKernel CIO FileOps ElfTypes Vdso ElfCore.

(** ** The auxiliary vector *)

Definition vdso_address (es : list (list Z)) : Z :=
  fold_left (fun v e => if a_type e =? AT_SYSINFO_EHDR then a_val e else v) es 0.

Section CountAUXV.
Context {W Hd : Type} `{!KernelIO W} `{!AddressSpace} `{!Files W} `{!Interrupts W} `{!ReadReady W} `{!AuxvWhole W}.
Context (fuel : nat) (fd : Z) (s0 : cst W Hd).
Hypothesis (fuel_ok : (intr (world s0) < fuel)%nat).
Implicit Types (s : cst W Hd).

(** [l] is what is left of the auxv; nothing else has changed since [s0]. *)
Definition auxv_at (l : list Z) s : Prop :=
  rd_open (world s) fd /\ unread (world s) fd = l /\ fd_frame fd 0 s0 s.

Lemma auxv_read e l s : zlen e = sizeof_auxv_t -> auxv_at (e ++ l) s ->
  wp (NO_INTR_on fst fuel (sys_read fd sizeof_auxv_t)) (fun r s' => r = (sizeof_auxv_t, e) /\ auxv_at l s') s.
Proof.
  intros He Ha. unfold sys_read.
  apply (wp_NO_INTR_on (auxv_at (e ++ l)) (fun s' => intr (world s'))); [|done|].
  2:{ destruct Ha as (_ & _ & _ & ? & _). lia. }
  clear s Ha. intros s (Ho & Hu & Hf). apply wp_syscall. intros r d w' Hk.
  pose proof (k_read_frame _ _ _ _ _ _ Hk) as (F1 & F2 & F3 & F4).
  destruct (k_read_intr _ _ _ _ _ _ Hk) as [I1 I2].
  assert (Hf2 : forall e', fd_frame fd 0 s0 (Cst e' w' (hnd s))).
  { intros e'. apply (fd_frame_trans fd 0 0 s0 s); [done|]. unfold fd_frame. cbn. split_and!; auto. }
  assert (H16 : 0 < sizeof_auxv_t) by done.
  destruct (k_read_in _ _ _ _ _ _ Ho H16 Hk) as [[Her Hu']|(Hr & Hdat & Hl & Hu' & _)].
  - destruct (k_read_ready _ _ _ _ _ _ Ho H16 Hk) as [->|?]; [|unfold is_err in *; lia].
    rewrite LSS_RETURN_err by done. cbn. split; [|by intros []]. intros _ _.
    split; [|by apply I2]. split_and!; cbn; [auto|congruence|apply Hf2].
  - assert (Er : r = sizeof_auxv_t).
    { unfold sizeof_auxv_t in *. rewrite (k_read_whole _ _ _ _ _ Ho Hk (proj1 Hr)), Hu, zlen_app, He.
      pose proof (zlen_nonneg l). lia. }
    clear Hl. subst r. unfold sizeof_auxv_t in *. rewrite LSS_RETURN_ok, s64_small by lia. cbn. split; [lia|]. intros _.
    split.
    + f_equal. rewrite Hdat, Hu, ztake_app_le by lia. apply ztake_all. lia.
    + split_and!; cbn; [auto| |apply Hf2]. rewrite Hu', Hu, zdrop_app_ge, He by lia. done.
Qed.

Lemma count_auxv_spec last rest : zlen last = sizeof_auxv_t -> a_type last = AT_NULL ->
  forall es n num v s, (length es < n)%nat -> Forall (fun e => zlen e = sizeof_auxv_t) es ->
  Forall (fun e => a_type e <> AT_NULL) es -> auxv_at (concat (es ++ [last]) ++ rest) s ->
  wp (count_auxv fuel n fd num v) (fun r s' =>
    r = (num + zlen (es ++ [last]),
         fold_left (fun v e => if a_type e =? AT_SYSINFO_EHDR then a_val e else v) (es ++ [last]) v) /\
    auxv_at rest s') s.
Proof.
  intros Hl Hnull. induction es as [|e es IH]; intros n num v s Hn Hes Htypes Ha;
    (destruct n as [|n]; [cbn in Hn; lia|]); cbn [count_auxv app concat fold_left] in *; rewrite <- app_assoc in Ha; wp_step.
  - eapply wp_mono; [by apply auxv_read|]. intros r s' [-> Ha']. cbn [negb]. rewrite Z.eqb_refl. cbn [negb].
    rewrite Hnull. cbn. split; [done|exact Ha'].
  - inversion_clear Hes as [|? ? He Hes']. inversion_clear Htypes as [|? ? Ht Htypes'].
    eapply wp_mono; [by apply auxv_read|]. intros r s' [-> Ha']. rewrite Z.eqb_refl. cbn [negb].
    rewrite (proj2 (Z.eqb_neq _ AT_NULL)) by done. cbn [negb].
    eapply wp_mono; [apply IH; [cbn in Hn; lia|done|done|exact Ha']|]. cbn beta. intros r s2 [-> Ha2]. split; [|done].
    f_equal. rewrite zlen_cons. lia.
Qed.
End CountAUXV.

Lemma CountAUXV_spec {W Hd : Type} `{!KernelIO W} `{!AddressSpace} `{!Files W} `{!Interrupts W} `{!ReadReady W}
    `{!AuxvWhole W} fuel es last rest (s : cst W Hd) :
  has_file "/proc/self/auxv" -> file_bytes "/proc/self/auxv" = concat (es ++ [last]) ++ rest ->
  Forall (fun e => zlen e = sizeof_auxv_t) (es ++ [last]) -> Forall (fun e => a_type e <> AT_NULL) es ->
  a_type last = AT_NULL -> (length es < fuel)%nat -> (0 < slots (world s))%nat -> (intr (world s) < fuel)%nat ->
  wp (CountAUXV fuel) (fun r s' => r = (zlen es + 1, vdso_address (es ++ [last])) /\ opened 1 s s') s.
Proof.
  intros Hf Hb Hes Hty Hnull Hn Hs Hi. apply Forall_app in Hes as [Hes Hlast]. inversion_clear Hlast as [|? ? Hl _].
  unfold CountAUXV. wp_step. eapply wp_mono; [by apply open_file|].
  intros fd s1 (Hfd & Hnew & Ho & Hu & _ & Hfr). rewrite (proj2 (Z.leb_le 0 fd)) by done. wp_step.
  assert (Hi1 : (intr (world s1) < fuel)%nat) by (destruct Hfr as (_ & ? & _); lia).
  eapply wp_mono; [apply (count_auxv_spec fuel fd s1 Hi1 last rest Hl Hnull es); auto|].
  { split; [done|]. split; [by rewrite Hu|]. split_and!; (done || lia). }
  intros r s2 [-> (_ & _ & Hf2)]. wp_step. eapply wp_mono; [apply close_file|].
  { destruct Hf2 as (_ & ? & _). lia. }
  intros rc s3 Hf3. apply wp_ret.
  split; [by rewrite zlen_app|]. eapply fd_frame_opened; [exact Hnew|].
  exact (fd_frame_trans fd 1 0 _ _ _ (fd_frame_trans fd 1 0 _ _ _ Hfr Hf2) Hf3).
Qed.

(** [CountAUXV] finds the number of entries of the auxv, up to and with its
    terminator, and the address of the vdso if there is an entry for it, and
    leaves no descriptor open. *)
Theorem CountAUXV_counts {W Hd : Type} `{!KernelIO W} `{!AddressSpace} `{!Files W} `{!Interrupts W} `{!ReadReady W}
    `{!AuxvWhole W} fuel es last rest (s : cst W Hd) :
  has_file "/proc/self/auxv" -> file_bytes "/proc/self/auxv" = concat (es ++ [last]) ++ rest ->
  Forall (fun e => zlen e = sizeof_auxv_t) (es ++ [last]) -> Forall (fun e => a_type e <> AT_NULL) es ->
  a_type last = AT_NULL -> (length es < fuel)%nat -> (0 < slots (world s))%nat -> (intr (world s) < fuel)%nat ->
  wp (CountAUXV fuel) (fun r s' => r = (zlen es + 1, vdso_address (es ++ [last])) /\ hnd s' = hnd s /\
    (forall f, rd_open (world s) f -> rd_open (world s') f /\ unread (world s') f = unread (world s) f)) s.
Proof.
  intros. eapply wp_mono; [by eapply CountAUXV_spec|]. intros r s' [-> (Hh & _ & Hr & _)]. auto.
Qed.

(** ** The vdso *)

Section Sanitize.
Context `{AddressSpace}.

(** The data of header [p] is between [start] and [end_], or its end is beyond
    the end of the address space. *)
Definition inside (start end_ : Z) (p : Phdr) : Prop :=
  p_vaddr p mod 8 = 0 /\ start < p_vaddr p /\
  (p_vaddr p + p_filesz p < end_ \/ 2 ^ 64 <= p_vaddr p + p_filesz p).

Lemma land7 x : Z.land x (8 - 1) = x mod 8.
Proof. by apply (Z.land_ones x 3). Qed.

Lemma phdr_ok_inside start end_ p : 0 <= p_vaddr p -> 0 <= p_filesz p -> vdso_phdr_ok start end_ p = true ->
  p_type p <> PT_LOAD /\ inside start end_ p.
Proof.
  unfold vdso_phdr_ok, inside. rewrite land7. intros Hv Hf Hok. b2p. split_and!; try lia.
  destruct (Z_lt_ge_dec (p_vaddr p + p_filesz p) (2 ^ 64)); [left|right; lia].
  rewrite u64_small in * by lia. lia.
Qed.
End Sanitize.

(** C19. When [SanitizeVDSO] does not refuse the vdso, it is aligned, and every
    program header that the dump copies for it, with its data, has an aligned
    address between [start] and [end], unless the end of its data wraps around
    the address space. *)
Theorem SanitizeVDSO_sound `{AddressSpace} ehdr start end_ :
  SanitizeVDSO ehdr start end_ = 0 \/
  (SanitizeVDSO ehdr start end_ = ehdr /\ ehdr mod 8 = 0 /\
   Forall (fun p => p_type p <> PT_LOAD /\ inside start end_ p) (vdso_extra ehdr)).
Proof.
  unfold SanitizeVDSO. destruct ((ehdr =? 0) || _) eqn:E1; [by left|]. destruct (end_ <=? _); [by left|].
  destruct (negb (Z.land (mem_e_phoff ehdr) _ =? 0)); [by left|]. cbn zeta. destruct ((_ <=? start) || _); [by left|].
  destruct (_ || _ || (end_ <=? _)) eqn:E5; [by left|].
  destruct (forallb _ _) eqn:E6; [|by left]. right. b2p. rewrite land7 in *. split_and!; [done|done|].
  unfold vdso_extra. rewrite (proj2 (Z.eqb_neq ehdr 0)) by done. unfold vdso_phdrs.
  rewrite forallb_forall in E6. apply Forall_forall. intros p [Hp Hin]%list_elem_of_filter.
  apply list_elem_of_fmap in Hin as (i & -> & Hi). apply list_elem_of_In, in_seq in Hi.
  assert (Hnz : i <> 0%nat). { intros ->. by apply Hp. }
  apply phdr_ok_inside; [apply unle_nonneg|apply unle_nonneg|]. apply E6. apply in_map_iff.
  exists i. split; [done|]. apply in_seq. lia.
Qed.

(** ** Instances *)

Lemma CountAUXV_counts_witness :
  wp (CountAUXV 10) (fun r s' => r = (2, 0) /\ hnd s' = tt /\
    (forall f, rd_open ex_world f -> rd_open (world s') f /\ unread (world s') f = unread ex_world f)) (Cst 0 ex_world tt).
Proof.
  apply (CountAUXV_counts 10 [le 8 6 ++ le 8 64] (le 8 0 ++ le 8 0) [] (Cst 0 ex_world tt)); (done || by_compute).
Defined.

(** A vdso whose second segment is almost as long as the address space: it ends,
    modulo 2^64, before the end of the mapping, and is accepted. *)
Module Wrapped.
Definition image : list Z :=
  Ehdr_bytes (core_ehdr 2) ++
  Phdr_bytes (mkPhdr PT_LOAD 5 0 8184 0 100 100 4096) ++
  Phdr_bytes (mkPhdr 2 4 0 8200 0 (2 ^ 64 - 8) 0 8).

#[local] Instance memory : AddressSpace := fun a => nth (Z.to_nat (a - 8192)) image 0.

(** [SanitizeVDSO] accepts a vdso with a segment that reaches far beyond the
    end of its mapping, which the dump then copies: the end of the segment is
    computed modulo 2^64. *)
Example SanitizeVDSO_wraps : SanitizeVDSO 8192 8184 12288 = 8192 /\
  Exists (fun p => 12288 <= p_vaddr p + p_filesz p) (vdso_extra 8192).
Proof. split; [by vm_compute|]. apply Exists_exists. eexists. split; [apply list_elem_of_here|]. by_compute. Qed.
End Wrapped.
