(* ===== verification/ElfImage.v ===== *)
(** What a core file contains, as a function of the dumped process: the
    specification that [write_core] is proved to implement.

    [core_image] is the file; [emits m img] says that [m] sends [img] to the
    output, cut at the limit if the output has one. *)
From S2P Require Import Prelude Syscall KernelSpec CIO ProcIO Smaps ElfTypes Vdso ElfCore.

(** ** The contents of the file *)

Definition zeros (n : Z) : list Z := replicate (Z.to_nat n) 0.

(** A note named CORE. *)
Definition core_note (type : Z) (desc : list Z) : list Z :=
  Nhdr_bytes (mkNhdr 5 (zlen desc) type) ++ CORE_NAME ++ desc.

Definition thread_notes (st : prstatus) (t : thread) : list Z :=
  core_note NT_PRSTATUS (prstatus_bytes (set_thread (t_pid t) (t_regs t) st)) ++
  core_note NT_FPREGSET (t_fpregs t).

(** The thread of [main_pid] first, then the others, last one first. *)
Fixpoint first_with (main_pid : Z) (ts : list thread) : list thread :=
  match ts with
  | [] => []
  | t :: ts' => if t_pid t =? main_pid then [t] else first_with main_pid ts'
  end.

Definition thread_order (main_pid : Z) (ts : list thread) : list thread :=
  first_with main_pid (rev ts) ++ filter (fun t => t_pid t <> main_pid) (rev ts).

Definition extra_note (n : CoredumperNote) : list Z :=
  Nhdr_bytes (mkNhdr (zlen (note_name n) + 1) (description_size n) (note_type n)) ++
  (note_name n ++ [0]) ++ zeros (align4 (zlen (note_name n) + 1)) ++
  description n ++ zeros (align4 (description_size n)).

Definition file_triple (pagesize : Z) (m : mapping) : list Z :=
  le 8 (start_address m) ++ le 8 (end_address m) ++ le 8 (offset m / pagesize).

Definition nt_file_desc (pagesize : Z) (ms : list mapping) : list Z :=
  (le 8 (nt_file_count ms) ++ le 8 pagesize) ++
  concat (map (file_triple pagesize) (file_mappings ms)) ++
  concat (map (fun m => name m ++ [0]) (file_mappings ms)).

Definition nt_file_note (pagesize : Z) (ms : list mapping) : list Z :=
  if 0 <? nt_file_count ms then
    core_note NT_FILE (nt_file_desc pagesize ms) ++ zeros (align4 (nt_file_desc_len ms))
  else [].

(** The note segment; [aux] is the contents of the auxv note. *)
Definition notes_image (info : prpsinfo) (user : option (list Z)) (st : prstatus)
    (ts : list thread) (pagesize main_pid : Z) (notes : list CoredumperNote)
    (ms : list mapping) (aux : list Z) : list Z :=
  core_note NT_PRPSINFO (prpsinfo_bytes info) ++
  (match user with Some u => core_note NT_PRXREG u | None => [] end) ++
  (match aux with [] => [] | _ => core_note NT_AUXV aux end) ++
  concat (map (thread_notes st) (thread_order main_pid ts)) ++
  concat (map extra_note notes) ++
  nt_file_note pagesize ms.

Section Image.
Context `{AddressSpace}.

Definition segment_image (m : mapping) : list Z := content (PMem (start_address m)) (write_size m).
Definition vdso_image (p : Phdr) : list Z := content (PMem (p_vaddr p)) (p_filesz p).

(** The program headers of the file. *)
Definition core_phdrs (noffset filesz pagesize : Z) (ms : list mapping) (extra : list Phdr) : list Phdr :=
  let offset := u64 (noffset + note_align noffset filesz pagesize) in
  note_phdr noffset filesz :: load_phdrs offset filesz pagesize ms ++
  extra_phdrs (load_end offset filesz ms) extra.

(** The file, for mappings [ms] whose [write_size] is final. *)
Definition core_image (info : prpsinfo) (user : option (list Z)) (st : prstatus)
    (ts : list thread) (pagesize main_pid : Z) (notes : list CoredumperNote)
    (ms : list mapping) (aux : list Z) (extra : list Phdr) : list Z :=
  let num_phdrs := zlen ms + zlen extra + 1 in
  let filesz := notes_filesz user (zlen ts) notes (zlen aux / sizeof_auxv_t) ms in
  let noffset := notes_offset num_phdrs in
  Ehdr_bytes (core_ehdr num_phdrs) ++
  concat (map Phdr_bytes (core_phdrs noffset filesz pagesize ms extra)) ++
  notes_image info user st ts pagesize main_pid notes ms aux ++
  zeros (note_align noffset filesz pagesize) ++
  concat (map segment_image ms) ++
  concat (map vdso_image extra).
End Image.

(** The inputs of CreateElfCore are C objects of the right sizes. *)
Record inputs_ok (info : prpsinfo) (user : option (list Z)) (ts : list thread)
    (notes : list CoredumperNote) (pagesize : Z) : Prop := {
  ok_fname : zlen (pr_fname info) = 16;
  ok_psargs : zlen (pr_psargs info) = 80;
  ok_user : forall u, user = Some u -> zlen u = sizeof_core_user;
  ok_fpregs : Forall (fun t => zlen (t_fpregs t) = sizeof_fpregs) ts;
  ok_notes : Forall (fun n => zlen (note_name n) + 1 < 2 ^ 32 /\
                              description_size n = zlen (description n) /\
                              description_size n < 2 ^ 32) notes;
  ok_pagesize : 0 < pagesize < 2 ^ 31 }.

(** The mappings describe parts of a 64-bit address space. *)
Definition mapping_ok (m : mapping) : Prop :=
  0 <= start_address m /\ start_address m <= end_address m < 2 ^ 64 /\
  0 <= write_size m < 2 ^ 64.

(** ** Emission *)

Definition fits (r : option Z) (n : Z) : Prop :=
  match r with Some m => n <= m | None => True end.

Section Emits.
Context {W Hd : Type} `{!KernelIO W} `{!AddressSpace} `{!Files W}.
Context (writer : ptr -> Z -> M (cst W Hd) Z) (inv : cst W Hd -> Prop)
        (out : cst W Hd -> list Z) (own : Z -> Prop) (room : Hd -> option Z) (nmax : list Z -> Z).
Context `{!LimitedWriter writer inv out own room nmax}.
Implicit Types (s : cst W Hd) (m : M (cst W Hd) (option unit)).

(** [img] went out if it fits, otherwise what fits of it. *)
Definition sent (img : list Z) (o : option unit) s s' : Prop :=
  match o with
  | Some _ => fits (room (hnd s)) (zlen img) /\
      room (hnd s') = room_sub (room (hnd s)) (zlen img) /\ out s' = out s ++ img
  | None => exists r, room (hnd s) = Some r /\ r < zlen img /\ room (hnd s') = Some 0 /\
      out s' = out s ++ ztake r img
  end.

(** [img] may be asked for, and is shorter than the largest object, PTRDIFF_MAX. *)
Definition allowed (img : list Z) s : Prop := zlen img < Z.min (nmax (out s)) SSIZE_LIM.

Definition emits (Pre : W -> Prop) m (img : list Z) (Post : W -> Prop) : Prop :=
  forall s, allowed img s -> inv s -> Pre (world s) ->
    wp m (fun o s' => inv s' /\ sent img o s s' /\ (o = Some tt -> Post (world s'))) s.

(** Preserved by whatever leaves the readable files alone. *)
Definition stable (Pre : W -> Prop) : Prop := forall w w', reads_same w w' -> Pre w -> Pre w'.

Lemma emits_nil Pre : emits Pre (ret (Some tt)) [] Pre.
Proof.
  intros s _ Hi Hp. apply wp_ret. split; [done|]. split; [|done]. cbn.
  destruct (room (hnd s)) as [r|] eqn:E; cbn; rewrite app_nil_r; [|done].
  pose proof (room_nonneg _ _ Hi E). rewrite zlen_nil. split_and!; [lia|f_equal; lia|done].
Qed.

Lemma sent_app i1 i2 o s s1 s2 :
  inv s -> sent i1 (Some tt) s s1 -> sent i2 o s1 s2 -> sent (i1 ++ i2) o s s2.
Proof.
  intros Hi (Hf & Hr & Ho) H2. unfold sent in *.
  pose proof (zlen_nonneg i1). pose proof (zlen_nonneg i2).
  destruct o.
  - destruct H2 as (Hf2 & Hr2 & Ho2). rewrite Hr in Hr2, Hf2.
    destruct (room (hnd s)) as [r|]; cbn in *; rewrite Ho2, Ho, <- app_assoc.
    + rewrite zlen_app. split_and!; auto; [lia|]. rewrite Hr2. f_equal. lia.
    + by split_and!.
  - destruct H2 as (r & Hr2 & Hlt & Hz & Ho2). rewrite Hr in Hr2.
    destruct (room (hnd s)) as [r0|]; cbn in *; [|done]. injection Hr2 as <-.
    exists r0. rewrite zlen_app. split_and!; auto; [lia|].
    rewrite Ho2, Ho, <- app_assoc, ztake_app_ge by lia. done.
Qed.

(** The first part of what is allowed, and the second one when the first has gone
    out. *)
Lemma allowed_l i1 i2 s : allowed (i1 ++ i2) s -> allowed i1 s.
Proof. unfold allowed. rewrite zlen_app. pose proof (zlen_nonneg i2). lia. Qed.

Lemma allowed_same img s s' : out s' = out s -> allowed img s -> allowed img s'.
Proof. unfold allowed. by intros ->. Qed.

Lemma allowed_r i1 i2 s s' : out s' = out s ++ i1 -> allowed (i1 ++ i2) s -> allowed i2 s'.
Proof.
  unfold allowed. intros ->. rewrite zlen_app. pose proof (zlen_nonneg i1). pose proof (nmax_app (out s) i1). lia.
Qed.

Lemma emits_seq Pre Mid Post m1 m2 i1 i2 :
  emits Pre m1 i1 Mid -> emits Mid m2 i2 Post ->
  emits Pre (let? _ := m1 in m2) (i1 ++ i2) Post.
Proof.
  intros H1 H2 s Hlen Hi Hp. pose proof (zlen_nonneg i2).
  apply wp_obind. eapply wp_mono; [apply H1; [by eapply allowed_l|done|done]|].
  intros [[]|] s1 (Hi1 & Hs1 & Hm1).
  - eapply wp_mono; [apply H2; [by eapply allowed_r; [apply Hs1|]|auto..]|]. intros o s2 (Hi2 & Hs2 & Hm2). split_and!; auto.
    by eapply sent_app.
  - split_and!; auto; [|done]. destruct Hs1 as (r & Hr & Hlt & Hz & Ho). exists r.
    pose proof (room_nonneg _ _ Hi Hr). rewrite zlen_app.
    split_and!; auto; [lia|]. by rewrite Ho, ztake_app_le by lia.
Qed.

Lemma emits_eq Pre Post m i1 i2 : i1 = i2 -> emits Pre m i1 Post -> emits Pre m i2 Post.
Proof. by intros ->. Qed.

Lemma emits_post Pre Post Post' m i :
  (forall w, Post w -> Post' w) -> emits Pre m i Post -> emits Pre m i Post'.
Proof.
  intros HP Hm s Hlen Hi Hp. eapply wp_mono; [by apply Hm|]. intros o s' (?&?&?). split_and!; auto.
Qed.

(** A call of the writer. *)
Lemma emits_put Pre p n : stable Pre -> ptr_ok p ->
  zlen (content p n) = n -> emits Pre (put writer p n) (content p n) Pre.
Proof.
  unfold emits, allowed, SSIZE_LIM. intros Hst Hp Hl s Hn Hi HP.
  pose proof (zlen_nonneg (content p n)) as Hn0. rewrite Hl in Hn, Hn0. unfold put. wp_step.
  eapply wp_mono; [apply writer_limited; (done || lia)|].
  intros rc s' (Hi' & -> & Hr & Ho & Hfr).
  assert (Hrm : 0 <= room_min n (room (hnd s)) <= n).
  { unfold room_min. destruct (room (hnd s)) eqn:E; [|lia].
    pose proof (room_nonneg _ _ Hi E). lia. }
  rewrite u64_small by lia.
  destruct (room_min n _ =? n) eqn:E; b2p; apply wp_ret; split_and!; auto; try (intros _; by eapply Hst); try done; cbn.
  - rewrite Hl. rewrite E in Hr, Ho. split_and!; auto.
    + unfold room_min in E. unfold fits. destruct (room (hnd s)) as [r|]; [lia|done].
    + rewrite Ho, ztake_all by lia. done.
  - unfold room_min in *. destruct (room (hnd s)) as [r|] eqn:Er; cbn in *; [|congruence].
    exists r. rewrite Hl. replace (Z.min n r) with r in * by lia.
    split_and!; auto; [lia|]. rewrite Hr. cbn. f_equal. lia.
Qed.

Lemma emits_local Pre l n : stable Pre -> zlen l = n -> emits Pre (put writer (local l) n) l Pre.
Proof.
  intros Hst <-. eapply emits_eq; [apply content_local|].
  apply emits_put; auto; [done|]. by rewrite content_local.
Qed.

Lemma emits_bytes Pre l : stable Pre -> emits Pre (put_bytes writer l) l Pre.
Proof. intros Hst. by apply emits_local. Qed.

(** 4-byte padding. *)
Lemma emits_pad Pre n : stable Pre ->
  emits Pre (put writer (local [0; 0; 0]) (align4 n)) (zeros (align4 n)) Pre.
Proof.
  intros Hst. assert (Ha : align4 n = 0 \/ align4 n = 1 \/ align4 n = 2 \/ align4 n = 3).
  { unfold align4. pose proof (Z.mod_pos_bound n 4). destruct (negb _) eqn:E; b2p; lia. }
  eapply emits_eq; [|apply emits_put; [done|done|]].
  - by destruct Ha as [->|[->|[->| ->]]].
  - by destruct Ha as [->|[->|[->| ->]]].
Qed.

Lemma emits_core_note Pre type (desc : list Z) descsz (m : M (cst W Hd) (option unit)) Post i :
  stable Pre -> descsz = zlen desc -> emits Pre m i Post ->
  emits Pre (put_core_note writer type descsz m)
    (Nhdr_bytes (mkNhdr 5 (zlen desc) type) ++ CORE_NAME ++ i) Post.
Proof.
  intros Hst -> Hm. eapply emits_seq; [by apply emits_bytes|].
  eapply emits_seq; [by apply emits_bytes|exact Hm].
Qed.

Lemma emits_put_all {A} Pre (f : A -> M (cst W Hd) (option unit)) (g : A -> list Z) l :
  Forall (fun x => emits Pre (f x) (g x) Pre) l ->
  emits Pre (put_all f l) (concat (map g l)) Pre.
Proof.
  induction 1 as [|x l Hx _ IH]; cbn [put_all map concat]; [apply emits_nil|].
  by eapply emits_seq.
Qed.
End Emits.

(** ** [write_core] emits the image *)

(** Limiting by priority changes nothing but [write_size]. *)
Definition resized (m m' : mapping) : Prop := m' = set_write_size (write_size m') m.

#[export] Instance resized_preorder : PreOrder resized.
Proof.
  split; unfold Reflexive, Transitive, resized, set_write_size.
  - by intros [].
  - intros [] [] [] H1 H2. injection H1; injection H2; intros; by subst.
Qed.

Lemma resized_alter k n ms :
  Forall2 resized ms (alter (set_write_size n) k ms).
Proof.
  revert k. induction ms as [|m ms IH]; intros [|k]; cbn; constructor; auto; reflexivity.
Qed.

Lemma prioritize_resized n base max ms : Forall2 resized ms (prioritize n base max ms).
Proof.
  revert ms. induction n as [|n IH]; intros ms; cbn [prioritize]; [reflexivity|].
  destruct (find_largest ms 0 None) as [[k ws]|]; [|reflexivity].
  destruct (max <? _); [|reflexivity].
  destruct (0 <? ws); [|reflexivity].
  destruct (ws <? _); [|apply resized_alter].
  etransitivity; [apply resized_alter|apply IH].
Qed.

Lemma limit_resized pml off fsz extra ms :
  Forall2 resized ms (limit_by_priority pml off fsz extra ms).
Proof.
  unfold limit_by_priority. destruct (0 <? pml); [apply prioritize_resized|reflexivity].
Qed.

Lemma file_mappings_resized ms ms' :
  Forall2 resized ms ms' -> Forall2 resized (file_mappings ms) (file_mappings ms').
Proof.
  induction 1 as [|m m' ms ms' Hm _ IH]; [constructor|]. unfold file_mappings in *.
  assert (E : is_anon m' = is_anon m) by (rewrite Hm; done).
  rewrite !filter_cons, E. destruct (decide (is_anon m = false)); [by constructor|done].
Qed.

Lemma nt_file_count_resized ms ms' :
  Forall2 resized ms ms' -> nt_file_count ms' = nt_file_count ms.
Proof.
  intros Hr. apply file_mappings_resized, Forall2_length in Hr.
  unfold nt_file_count, zlen. by rewrite Hr.
Qed.

Lemma nt_file_desc_len_resized ms ms' :
  Forall2 resized ms ms' -> nt_file_desc_len ms' = nt_file_desc_len ms.
Proof.
  intros Hr. apply file_mappings_resized in Hr. unfold nt_file_desc_len.
  induction Hr as [|m m' l l' Hm _ IH]; [done|]. cbn [foldr]. rewrite IH.
  replace (name_len m') with (name_len m); [done|]. by rewrite Hm.
Qed.

Lemma notes_filesz_resized user n notes na ms ms' :
  Forall2 resized ms ms' -> notes_filesz user n notes na ms' = notes_filesz user n notes na ms.
Proof.
  intros Hr. unfold notes_filesz.
  by rewrite (nt_file_count_resized _ _ Hr), (nt_file_desc_len_resized _ _ Hr).
Qed.

Lemma nt_file_desc_resized pagesize ms ms' :
  Forall2 resized ms ms' -> nt_file_desc pagesize ms' = nt_file_desc pagesize ms.
Proof.
  intros Hr. unfold nt_file_desc. rewrite (nt_file_count_resized _ _ Hr).
  apply file_mappings_resized in Hr. f_equal. f_equal; f_equal; symmetry.
  - induction Hr as [|m m' l l' Hm _ IH]; [done|]. cbn [map]. rewrite IH. f_equal. by rewrite Hm.
  - induction Hr as [|m m' l l' Hm _ IH]; [done|]. cbn [map]. rewrite IH. f_equal. by rewrite Hm.
Qed.
