(* ===== verification/ElfWrite.v ===== *)
(** [write_core], the part of [CreateElfCore] that writes, emits [core_image]: on
    an output that accepts data the file is the image, cut at the limit of the
    output. *)
From S2P Require Import Prelude Syscall KernelSpec CIO ProcIO Smaps ElfTypes Vdso ElfCore.
From S2P Require Import ElfImage.

Section WriteCore.
Context {W Hd : Type} `{!KernelIO W} `{!AddressSpace} `{!Files W} `{!Interrupts W}
        `{!AuxvWhole W} `{!ReadReady W}.
Context (writer : ptr -> Z -> M (cst W Hd) Z) (inv : cst W Hd -> Prop)
        (out : cst W Hd -> list Z) (own : Z -> Prop) (room : Hd -> option Z) (nmax : list Z -> Z).
Context `{!LimitedWriter writer inv out own room nmax}.
Context (fuel : nat) (inv_fuel : forall s, inv s -> (intr (world s) < fuel)%nat).
Implicit Types (s : cst W Hd).

Abbreviation emits := (emits inv out room nmax).
Abbreviation allowed := (allowed out nmax).

Definition quiet_same s s' : Prop := inv s' /\ out s' = out s /\ hnd s' = hnd s.

Lemma close_quiet fd s : inv s -> ~ own fd ->
  wp (NO_INTR fuel (sys_close fd)) (fun _ s' => quiet_same s s') s.
Proof.
  intros Hi Hf. unfold sys_close.
  apply (wp_NO_INTR (fun s' => quiet_same s s') (fun s' => intr (world s'))); auto.
  2: by split_and!.
  intros s1 r u w' (Hi1 & Ho1 & Hh1) Hk.
  assert (Hq : forall e, quiet_same s (Cst e w' (hnd s1))).
  { intros e. destruct (writer_quiet s1 e w' Hi1) as [Ha Hb].
    - right. right. by exists fd, r, u.
    - split_and!; auto; by rewrite Hb. }
  destruct (k_close_intr _ _ _ _ _ Hk) as [_ Hlt].
  split_and!; auto. intros Hn. destruct (k_close_range _ _ _ _ _ Hk) as [|Er]; [done|]. subst r.
  split; [lia|auto].
Qed.

Lemma open_quiet p s : inv s -> has_file p -> (0 < slots (world s))%nat ->
  wp (NO_INTR fuel (sys_open p O_RDONLY 0)) (fun fd s' => quiet_same s s' /\ 0 <= fd /\ ~ own fd /\
     rd_open (world s') fd /\ unread (world s') fd = file_bytes p /\ ~ rd_open (world s) fd) s.
Proof.
  intros Hi Hf Hsl. unfold sys_open.
  apply (wp_NO_INTR (fun s' => (quiet_same s s' /\ (0 < slots (world s'))%nat) /\
             forall f, rd_open (world s) f -> rd_open (world s') f)
           (fun s' => intr (world s'))); auto; [|by split_and!].
  intros s1 r u w' [[(Hi1 & Ho1 & Hh1) Hs1] Hop1] Hk.
  assert (Hq : forall e, quiet_same s (Cst e w' (hnd s1))).
  { intros e. destruct (writer_quiet s1 e w' Hi1) as [Ha Hb].
    - right. left. by exists p, O_RDONLY, 0, r, u.
    - split_and!; auto; by rewrite Hb. }
  destruct (k_open_intr _ _ _ _ _ _ _ Hk) as [_ Hlt].
  destruct (k_open_frame _ _ _ _ _ _ _ Hk) as (_ & Hop' & _ & Hsl' & _).
  split_and!.
  - intros He Hr. unfold is_err in He. split_and!; auto. cbn. lia.
  - intros He Hne. destruct (k_open_ok _ _ _ _ _ _ Hf Hs1 Hk); unfold is_err in *; lia.
  - intros Hne. destruct (k_open_range _ _ _ _ _ _ _ Hk) as [|Hr]; [done|]. split; [done|].
    destruct (k_open_in _ _ _ _ _ _ Hk (proj1 Hr)) as (Hnew & Ho & Hu & _).
    split_and!; auto; try lia. rewrite <- (s32_small r) by lia.
    exact (own_fresh (inv := inv) (out := out) _ _ _ _ _ _ _ Hi1 Hk (proj1 Hr)).
Qed.

(** What is known of the auxv descriptor between two reads. *)
Definition auxv_left (fd : Z) (l : list Z) (w : W) : Prop :=
  rd_open w fd /\ exists rest, unread w fd = l ++ rest.

Lemma auxv_left_stable fd l : stable (auxv_left fd l).
Proof.
  intros w w' (Hu & Ho & _) [H1 [rest H2]]. split; [auto|]. exists rest. by rewrite Hu.
Qed.

Lemma read_entry fd e l s : ~ own fd -> inv s -> zlen e = 16 -> auxv_left fd (e ++ l) (world s) ->
  wp (NO_INTR_on fst fuel (sys_read fd sizeof_auxv_t))
    (fun r s' => r = (16, e) /\ quiet_same s s' /\ auxv_left fd l (world s')) s.
Proof.
  intros Hfd Hi He Hal. unfold sys_read.
  apply (wp_NO_INTR_on (fun s' => quiet_same s s' /\ auxv_left fd (e ++ l) (world s'))
           (fun s' => intr (world s'))); auto; [|by split_and!].
  clear Hal. intros s1 [(Hi1 & Ho1 & Hh1) [Hop [rest Hun]]].
  unfold syscall, wp. destruct (k_read fd sizeof_auxv_t (world s1)) as [[r d] w'] eqn:Hk.
  assert (Hq : forall e', quiet_same s (Cst e' w' (hnd s1))).
  { intros e'. destruct (writer_quiet s1 e' w' Hi1) as [Ha Hb].
    - left. by exists fd, sizeof_auxv_t, r, d.
    - split_and!; auto; by rewrite Hb. }
  destruct (k_read_intr _ _ _ _ _ _ Hk) as [_ Hlt].
  destruct (k_read_frame _ _ _ _ _ _ Hk) as (_ & Hop' & _).
  assert (H16 : 0 < sizeof_auxv_t) by done.
  destruct (k_read_in _ _ _ _ _ _ Hop H16 Hk) as [[Her Hu']|(Hr & Hdat & Hl & Hu' & _)].
  - destruct (k_read_ready _ _ _ _ _ _ Hop H16 Hk) as [->|?]; [|unfold is_err in *; lia].
    rewrite LSS_RETURN_err by done. cbn. split; [|by intros []]. intros _ _.
    split; [|by apply Hlt]. split; [done|]. split; [auto|]. exists rest. cbn. by rewrite Hu'.
  - rewrite LSS_RETURN_ok by (unfold sizeof_auxv_t in *; lia). cbn. unfold sizeof_auxv_t in *.
    rewrite s64_small by lia. split; [lia|]. intros _.
    assert (Er : r = 16).
    { rewrite (k_read_whole _ _ _ _ _ Hop Hk (proj1 Hr)), Hun, !zlen_app, He.
      pose proof (zlen_nonneg l). pose proof (zlen_nonneg rest). lia. }
    clear Hl. subst r. split_and!; auto.
    + f_equal. rewrite Hdat, Hun, <- app_assoc, ztake_app_le by lia. apply ztake_all. lia.
    + split; [auto|]. exists rest. cbn.
      rewrite Hu', Hun, <- app_assoc, zdrop_app_ge, He by lia. done.
Qed.

(** The auxv entries, copied one by one. *)
Lemma copy_auxv_emits fd es : ~ own fd -> Forall (fun e => zlen e = 16) es ->
  emits (auxv_left fd (concat es)) (copy_auxv fuel writer (length es) fd) (concat es) (fun w => rd_open w fd).
Proof.
  intros Hfd Hes. induction Hes as [|e es He Hes IH]; cbn [copy_auxv length concat].
  { eapply emits_post; [|eapply (emits_nil writer inv out own room nmax)]. by intros w [? _]. }
  intros s Hlen Hi Hal.
  pose proof (zlen_nonneg e). pose proof (zlen_nonneg (concat es)).
  wp_step. eapply wp_mono; [by apply read_entry|].
  intros r s1 (-> & (Hi1 & Ho1 & Hh1) & Hal1). cbn. wp_step.
  eapply wp_mono; [apply (emits_local writer inv out own room nmax (auxv_left fd (concat es)) e);
                   auto using auxv_left_stable; eapply allowed_same; [done|by eapply allowed_l]|].
  intros o s2 (Hi2 & Hs2 & Hal2).
  assert (Hs2' : sent out room e o s s2).
  { unfold sent in *. rewrite Ho1, Hh1 in Hs2. exact Hs2. }
  clear Hs2. destruct o as [[]|].
  - eapply wp_mono; [apply IH; auto; by eapply (allowed_r writer inv out own room nmax); [apply Hs2'|]|].
    intros o s3 (Hi3 & Hs3 & Hop3). split_and!; auto.
    by eapply sent_app.
  - wp_step. eapply wp_mono; [by apply close_quiet|]. intros _ s3 (Hi3 & Ho3 & Hh3).
    apply wp_ret. split; [done|]. split; [|done]. destruct Hs2' as (r & Hr & Hlt & Hz & Ho).
    pose proof (room_nonneg _ _ Hi Hr).
    exists r. rewrite zlen_app, Ho3, Hh3, Ho, ztake_app_le by lia. split_and!; auto. lia.
Qed.

Definition auxv_note (es : list (list Z)) : list Z :=
  match concat es with [] => [] | _ => core_note NT_AUXV (concat es) end.

(** The whole auxv note; the descriptor of the file stays open. *)
Lemma write_auxv_open es rest s :
  has_file "/proc/self/auxv" -> file_bytes "/proc/self/auxv" = concat es ++ rest ->
  Forall (fun e => zlen e = 16) es -> zlen es * 16 < 2 ^ 32 ->
  allowed (auxv_note es) s -> inv s -> (0 < slots (world s))%nat ->
  wp (write_auxv fuel writer (zlen es)) (fun o s' => inv s' /\ sent out room (auxv_note es) o s s' /\
    (o = Some tt -> es <> [] -> exists fd, ~ rd_open (world s) fd /\ rd_open (world s') fd)) s.
Proof.
  intros Hf Hb Hes Hn. unfold write_auxv, auxv_note.
  destruct es as [|e es].
  { intros Hlen Hi _. eapply wp_mono; [by apply (emits_nil writer inv out own room nmax (fun _ => True))|].
    intros o s' (? & ? & _). by split_and!. }
  assert (Hc : exists x xs, concat (e :: es) = x :: xs).
  { destruct e as [|x e]; [by inversion Hes|]. cbn. eauto. }
  assert (Hz : zlen (concat (e :: es)) = zlen (e :: es) * 16) by by apply zlen_concat_const.
  rewrite (zlen_cons e es) in *. pose proof (zlen_nonneg es).
  destruct (negb _) eqn:E; b2p; [|lia]. clear E.
  intros Hlen Hi Hsl. wp_step. eapply wp_mono; [by apply open_quiet|].
  intros fd s1 ((Hi1 & Ho1 & Hh1) & Hfd & Hown & Hop & Hun & Hnew).
  destruct (fd =? -1) eqn:E; b2p; [lia|]. clear E. wp_step.
  assert (Hcn : emits (auxv_left fd (concat (e :: es)))
     (put_core_note writer NT_AUXV (u32 ((1 + zlen es) * sizeof_auxv_t)) (ret (Some tt)))
     (Nhdr_bytes (mkNhdr 5 (zlen (concat (e :: es))) NT_AUXV) ++ CORE_NAME ++ [])
     (auxv_left fd (concat (e :: es)))).
  { eapply (emits_core_note writer inv out own room nmax); [apply auxv_left_stable| |eapply (emits_nil writer inv out own room nmax)].
    unfold u32, sizeof_auxv_t. rewrite Z.mod_small; lia. }
  destruct Hc as (x & xs & Hc). rewrite Hc in Hlen |- *. rewrite <- Hc in Hlen |- *.
  rewrite app_nil_r in Hcn. unfold core_note in *. rewrite (app_assoc (Nhdr_bytes _)) in Hlen.
  pose proof (zlen_nonneg CORE_NAME).
  pose proof (zlen_nonneg (Nhdr_bytes (mkNhdr 5 (zlen (concat (e :: es))) NT_AUXV))).
  pose proof (zlen_nonneg (concat (e :: es))).
  eapply wp_mono; [apply Hcn; auto|].
  { eapply (allowed_same out nmax); [|by eapply (allowed_l out nmax)]. done. }
  { split; [done|]. exists rest. by rewrite Hun. }
  intros o s2 (Hi2 & Hs2 & Hal2).
  assert (Hs2' : sent out room (Nhdr_bytes (mkNhdr 5 (zlen (concat (e :: es))) NT_AUXV) ++ CORE_NAME) o s s2).
  { unfold sent in *. rewrite Ho1, Hh1 in Hs2. exact Hs2. }
  clear Hs2. rewrite app_assoc. destruct o as [[]|].
  - replace (Z.to_nat (1 + zlen es)) with (length (e :: es)) by (unfold zlen; cbn; lia).
    eapply wp_mono; [apply (copy_auxv_emits fd (e :: es)); auto; by eapply (allowed_r writer inv out own room nmax); [apply Hs2'|]|].
    + intros o s3 (Hi3 & Hs3 & Hop3). split_and!; eauto. by eapply sent_app.
  - wp_step. eapply wp_mono; [by apply close_quiet|]. intros _ s3 (Hi3 & Ho3 & Hh3).
    apply wp_ret. split; [done|]. split; [|done]. destruct Hs2' as (r & Hr & Hlt & Hz' & Ho).
    pose proof (room_nonneg _ _ Hi Hr).
    exists r. rewrite zlen_app, Ho3, Hh3, Ho, (ztake_app_le _ (_ ++ _)) by lia. split_and!; auto. lia.
Qed.

Lemma write_auxv_emits es rest :
  has_file "/proc/self/auxv" -> file_bytes "/proc/self/auxv" = concat es ++ rest ->
  Forall (fun e => zlen e = 16) es -> zlen es * 16 < 2 ^ 32 ->
  emits (fun w => (0 < slots w)%nat) (write_auxv fuel writer (zlen es)) (auxv_note es) (fun _ => True).
Proof.
  intros Hf Hb Hes Hn s Hlen Hi Hsl. eapply wp_mono; [by eapply write_auxv_open|].
  intros o s' (? & ? & _). by split_and!.
Qed.

(** *** The other parts

    They depend on nothing that can be read. *)
Abbreviation emits_ m i := (emits (fun _ => True) m i (fun _ => True)).

Lemma any_stable : stable (fun _ : W => True).
Proof. by intros w w'. Qed.
Hint Resolve any_stable : core.

Lemma note_emits Pre type desc (descsz : Z) m : stable Pre -> descsz = zlen desc ->
  emits Pre m desc Pre -> emits Pre (put_core_note writer type descsz m) (core_note type desc) Pre.
Proof. intros. unfold core_note. eapply (emits_core_note writer inv out own room nmax); auto. Qed.

Lemma bytes_emits l : emits_ (put_bytes writer l) l.
Proof. by apply (emits_bytes writer inv out own room nmax). Qed.

Lemma local_emits l n : zlen l = n -> emits_ (put writer (local l) n) l.
Proof. by apply (emits_local writer inv out own room nmax). Qed.

Lemma skip_emits : emits_ (ret (Some tt)) [].
Proof. apply (emits_nil writer inv out own room nmax). Qed.

Lemma pad_emits n : emits_ (put writer (local [0; 0; 0]) (align4 n)) (zeros (align4 n)).
Proof. by apply (emits_pad writer inv out own room nmax). Qed.

Lemma all_emits {A} (f : A -> M (cst W Hd) (option unit)) (g : A -> list Z) l :
  Forall (fun x => emits_ (f x) (g x)) l -> emits_ (put_all f l) (concat (map g l)).
Proof. apply (emits_put_all writer inv out own room nmax). Qed.

Lemma seq_emits m1 m2 i1 i2 :
  emits_ m1 i1 -> emits_ m2 i2 -> emits_ (let? _ := m1 in m2) (i1 ++ i2).
Proof. apply (emits_seq writer inv out own room nmax). Qed.

Lemma thread_emits st t : zlen (t_fpregs t) = sizeof_fpregs ->
  emits_ (WriteThreadRegs writer st t) (thread_notes st t).
Proof.
  intros Hf. apply seq_emits; apply note_emits; auto using bytes_emits, local_emits.
Qed.

Lemma main_thread_emits st main_pid ts :
  Forall (fun t => zlen (t_fpregs t) = sizeof_fpregs) ts ->
  emits_ (write_main_thread writer st main_pid ts) (concat (map (thread_notes st) (first_with main_pid ts))).
Proof.
  induction 1 as [|t ts Ht _ IH]; cbn [write_main_thread first_with]; [apply skip_emits|].
  destruct (t_pid t =? main_pid); [|done]. cbn [map concat]. rewrite app_nil_r. by apply thread_emits.
Qed.

Lemma other_threads_emits st main_pid ts :
  Forall (fun t => zlen (t_fpregs t) = sizeof_fpregs) ts ->
  emits_ (put_all (write_other_thread writer st main_pid) ts)
    (concat (map (thread_notes st) (filter (fun t => t_pid t <> main_pid) ts))).
Proof.
  induction 1 as [|t ts Ht _ IH]; [apply skip_emits|]. cbn [put_all].
  rewrite filter_cons. unfold write_other_thread at 1. destruct (decide _) as [E|E].
  - replace (t_pid t =? main_pid) with false by (symmetry; by apply Z.eqb_neq).
    cbn [negb map concat]. apply seq_emits; [by apply thread_emits|done].
  - replace (t_pid t =? main_pid) with true by (symmetry; apply Z.eqb_eq; lia).
    cbn [negb]. eapply (seq_emits _ _ [] _); [apply skip_emits|done].
Qed.

Lemma threads_emits st main_pid ts :
  Forall (fun t => zlen (t_fpregs t) = sizeof_fpregs) ts ->
  emits_ (write_threads writer st main_pid ts) (concat (map (thread_notes st) (thread_order main_pid ts))).
Proof.
  intros Ht. unfold thread_order. rewrite map_app, concat_app. apply Forall_rev in Ht.
  apply seq_emits; [by apply main_thread_emits|by apply other_threads_emits].
Qed.

Lemma extra_note_emits n : zlen (note_name n) + 1 < 2 ^ 32 ->
  description_size n = zlen (description n) -> description_size n < 2 ^ 32 ->
  emits_ (write_extra_note writer n) (extra_note n).
Proof.
  intros Hn Hd1 Hd2. unfold write_extra_note, extra_note.
  pose proof (zlen_nonneg (note_name n)). pose proof (zlen_nonneg (description n)).
  unfold u32. rewrite !Z.mod_small by lia.
  repeat apply seq_emits; auto using bytes_emits, local_emits, pad_emits.
  apply local_emits. by rewrite zlen_app.
Qed.

Lemma mem_emits a n : 0 <= n -> emits_ (put writer (PMem a) n) (content (PMem a) n).
Proof.
  intros Hn. apply (emits_put writer inv out own room nmax); auto; [done|]. by apply zlen_content_mem.
Qed.

Lemma segment_emits m : 0 <= write_size m -> emits_ (write_segment writer m) (segment_image m).
Proof.
  intros Hn. unfold write_segment, segment_image. destruct (negb _) eqn:E; [by apply mem_emits|].
  b2p. rewrite E. apply skip_emits.
Qed.

Lemma nt_file_desc_len_spec pagesize ms :
  zlen (nt_file_desc pagesize ms) = 2 * sizeof_long + nt_file_desc_len ms.
Proof.
  unfold nt_file_desc, nt_file_desc_len, file_triple, sizeof_long, name_len. autorewrite with zlen.
  induction (file_mappings ms) as [|m l IH]; [done|]. cbn [map concat foldr].
  autorewrite with zlen in *. lia.
Qed.

Lemma nt_file_emits pagesize ms : zlen (nt_file_desc pagesize ms) < 2 ^ 32 ->
  emits_ (write_nt_file writer pagesize ms) (nt_file_note pagesize ms).
Proof.
  intros Hl. pose proof (zlen_nonneg (nt_file_desc pagesize ms)) as Hp.
  rewrite nt_file_desc_len_spec in Hl, Hp. unfold write_nt_file, nt_file_note.
  destruct (0 <? _); [|apply skip_emits].
  eapply emits_eq; [|apply seq_emits; [|apply seq_emits; [|apply seq_emits]]].
  2:{ apply (emits_core_note writer inv out own room nmax _ NT_FILE (nt_file_desc pagesize ms)); auto.
      - rewrite nt_file_desc_len_spec. unfold u32. rewrite Z.mod_small; lia.
      - apply bytes_emits. }
  2:{ apply all_emits, Forall_forall. intros m _. apply (bytes_emits (file_triple pagesize m)). }
  2:{ apply (all_emits _ (fun m => name m ++ [0])), Forall_forall. intros m _. apply local_emits.
      unfold name_len. by autorewrite with zlen. }
  2:{ instantiate (1 := zeros (align4 (nt_file_desc_len ms))).
      unfold align4. destruct (negb _) eqn:E; [|apply skip_emits].
      replace (4 - nt_file_desc_len ms mod 4) with (align4 (nt_file_desc_len ms))
        by (unfold align4; by rewrite E). apply pad_emits. }
  unfold core_note, nt_file_desc. by rewrite <- !app_assoc.
Qed.

Lemma phdrs_emits ps : emits_ (put_all (fun p => put_bytes writer (Phdr_bytes p)) ps) (concat (map Phdr_bytes ps)).
Proof. apply all_emits, Forall_forall. intros p _. apply bytes_emits. Qed.

(** *** The whole file *)

Lemma slots_stable : stable (fun w : W => (0 < slots w)%nat).
Proof. intros w w' (_ & _ & _ & Hs). lia. Qed.
Hint Resolve slots_stable : core.

(** What comes before the auxv note. *)
Lemma head_emits info user noffset filesz num_phdrs lps eps :
  zlen (pr_fname info) = 16 -> zlen (pr_psargs info) = 80 ->
  (forall u, user = Some u -> zlen u = sizeof_core_user) ->
  forall m i, emits (fun w => (0 < slots w)%nat) m i (fun _ => True) ->
  emits (fun w => (0 < slots w)%nat)
    (let? _ := put_bytes writer (Ehdr_bytes (core_ehdr num_phdrs)) in
     let? _ := put_bytes writer (Phdr_bytes (note_phdr noffset filesz)) in
     let? _ := put_all (fun p => put_bytes writer (Phdr_bytes p)) lps in
     let? _ := put_all (fun p => put_bytes writer (Phdr_bytes p)) eps in
     let? _ := put_core_note writer NT_PRPSINFO sizeof_prpsinfo (put_bytes writer (prpsinfo_bytes info)) in
     let? _ := (match user with
                | Some u => put_core_note writer NT_PRXREG sizeof_core_user (put writer (local u) sizeof_core_user)
                | None => ret (Some tt)
                end) in m)
    (Ehdr_bytes (core_ehdr num_phdrs) ++
     concat (map Phdr_bytes (note_phdr noffset filesz :: lps ++ eps)) ++
     core_note NT_PRPSINFO (prpsinfo_bytes info) ++
     (match user with Some u => core_note NT_PRXREG u | None => [] end) ++ i) (fun _ => True).
Proof.
  intros H1 H2 H3 m i Hm.
  assert (Hb : forall l, emits (fun w => (0 < slots w)%nat) (put_bytes writer l) l (fun w => (0 < slots w)%nat)).
  { intros l. by apply (emits_bytes writer inv out own room nmax). }
  assert (Hps : forall ps, emits (fun w => (0 < slots w)%nat)
     (put_all (fun p => put_bytes writer (Phdr_bytes p)) ps) (concat (map Phdr_bytes ps))
     (fun w => (0 < slots w)%nat)).
  { intros ps. apply (emits_put_all writer inv out own room nmax), Forall_forall. auto. }
  cbn [map concat]. rewrite map_app, concat_app, <- !app_assoc.
  do 4 (eapply (emits_seq writer inv out own room nmax); [auto|]).
  eapply (emits_seq writer inv out own room nmax);
    [|eapply (emits_seq writer inv out own room nmax); [|exact Hm]].
  - apply note_emits; auto. by rewrite zlen_prpsinfo.
  - destruct user as [u|]; [|apply (emits_nil writer inv out own room nmax)].
    apply note_emits; auto.
    + by rewrite H3.
    + apply (emits_local writer inv out own room nmax); auto.
Qed.

(** What comes after it. *)
Lemma tail_emits st ts pagesize main_pid notes ms nalign extra :
  Forall (fun t => zlen (t_fpregs t) = sizeof_fpregs) ts ->
  Forall (fun n => zlen (note_name n) + 1 < 2 ^ 32 /\ description_size n = zlen (description n) /\
                   description_size n < 2 ^ 32) notes ->
  zlen (nt_file_desc pagesize ms) < 2 ^ 32 ->
  Forall (fun m => 0 <= write_size m) ms -> Forall (fun p => 0 <= p_filesz p) extra ->
  emits_
    (let? _ := write_threads writer st main_pid ts in
     let? _ := put_all (write_extra_note writer) notes in
     let? _ := write_nt_file writer pagesize ms in
     let? _ := (if negb (nalign =? 0) then put_bytes writer (replicate (Z.to_nat nalign) 0)
                else ret (Some tt)) in
     let? _ := put_all (write_segment writer) ms in
     put_all (write_vdso_phdr writer) extra)
    (concat (map (thread_notes st) (thread_order main_pid ts)) ++ concat (map extra_note notes) ++
     nt_file_note pagesize ms ++ zeros nalign ++
     concat (map segment_image ms) ++ concat (map vdso_image extra)).
Proof.
  intros Ht Hn Hf Hms Hex. repeat apply seq_emits.
  - by apply threads_emits.
  - apply all_emits. eapply Forall_impl; [exact Hn|]. intros n (?&?&?). by apply extra_note_emits.
  - by apply nt_file_emits.
  - destruct (negb _) eqn:E; b2p; [apply bytes_emits|]. rewrite E. apply skip_emits.
  - apply all_emits. eapply Forall_impl; [exact Hms|]. intros m. apply segment_emits.
  - apply all_emits. eapply Forall_impl; [exact Hex|]. intros p. apply mem_emits.
Qed.

(** What the mappings look like after limiting them. *)
Definition final_mappings (user : option (list Z)) (ts : list thread) (pagesize pml : Z)
    (notes : list CoredumperNote) (num_auxv : Z) (extra : list Phdr) (ms : list mapping) : list mapping :=
  let num_phdrs := zlen ms + zlen extra + 1 in
  let filesz := notes_filesz user (zlen ts) notes num_auxv ms in
  let noffset := notes_offset num_phdrs in
  limit_by_priority pml (u64 (noffset + note_align noffset filesz pagesize)) filesz extra ms.

Lemma write_core_emits info user st ts pagesize pml main_pid notes ms es rest vdso :
  inputs_ok info user ts notes pagesize ->
  Forall (fun e => zlen e = sizeof_auxv_t) es -> zlen es * 16 < 2 ^ 32 ->
  has_file "/proc/self/auxv" -> file_bytes "/proc/self/auxv" = concat es ++ rest ->
  zlen (nt_file_desc pagesize ms) < 2 ^ 32 ->
  let ms' := final_mappings user ts pagesize pml notes (zlen es) (vdso_extra vdso) ms in
  Forall (fun m => 0 <= write_size m) ms' ->
  emits (fun w => (0 < slots w)%nat)
    (write_core fuel writer info user st ts pagesize pml main_pid notes ms (zlen es) vdso)
    (core_image info user st ts pagesize main_pid notes ms' (concat es) (vdso_extra vdso))
    (fun _ => True).
Proof.
  intros [] He Hn Hf Hb Hnt ms' Hms'.
  assert (Hr : Forall2 resized ms ms') by apply limit_resized.
  assert (Hex : Forall (fun p => 0 <= p_filesz p) (vdso_extra vdso)).
  { apply vdso_extra_filesz. }
  assert (Hl : zlen ms' = zlen ms) by (unfold zlen; by rewrite (Forall2_length _ _ _ Hr)).
  assert (Hna : zlen (concat es) / sizeof_auxv_t = zlen es).
  { rewrite (zlen_concat_const _ 16) by done. unfold sizeof_auxv_t. apply Z.div_mul. lia. }
  unfold core_image, core_phdrs, notes_image. rewrite Hl, Hna, (notes_filesz_resized _ _ _ _ _ _ Hr).
  unfold write_core. fold (final_mappings user ts pagesize pml notes (zlen es) (vdso_extra vdso) ms).
  fold ms'. rewrite <- !app_assoc. apply head_emits; auto.
  apply (emits_seq writer inv out own room nmax _ (fun _ => True)); [by eapply write_auxv_emits|].
  apply tail_emits; auto.
  assert (E : nt_file_desc pagesize ms' = nt_file_desc pagesize ms) by by apply nt_file_desc_resized.
  by rewrite E.
Qed.
End WriteCore.

(** ** The theorem about the writer *)

(** C6. On an output that accepts data, [write_core] writes exactly the file
    described by [core_image]: all of it when it fits, and otherwise its first
    [max_length] bytes, in which case [write_core] leaves through [goto done]. *)
Theorem write_core_writes_image {W Hd : Type} `{!KernelIO W} `{!AddressSpace} `{!Files W}
    `{!Interrupts W} `{!AuxvWhole W} `{!ReadReady W}
    (writer : ptr -> Z -> M (cst W Hd) Z) (inv : cst W Hd -> Prop) (out : cst W Hd -> list Z)
    (own : Z -> Prop) (room : Hd -> option Z) (nmax : list Z -> Z) `{!LimitedWriter writer inv out own room nmax}
    (fuel : nat) info user st ts pagesize pml main_pid notes ms es rest vdso s :
  (forall s, inv s -> (intr (world s) < fuel)%nat) ->
  inputs_ok info user ts notes pagesize ->
  Forall (fun e => zlen e = sizeof_auxv_t) es -> zlen es * 16 < 2 ^ 32 ->
  has_file "/proc/self/auxv" -> file_bytes "/proc/self/auxv" = concat es ++ rest ->
  zlen (nt_file_desc pagesize ms) < 2 ^ 32 ->
  let ms' := final_mappings user ts pagesize pml notes (zlen es) (vdso_extra vdso) ms in
  let img := core_image info user st ts pagesize main_pid notes ms' (concat es) (vdso_extra vdso) in
  Forall (fun m => 0 <= write_size m) ms' -> zlen img < Z.min (nmax (out s)) SSIZE_LIM ->
  inv s -> (0 < slots (world s))%nat ->
  wp (write_core fuel writer info user st ts pagesize pml main_pid notes ms (zlen es) vdso)
    (fun o s' => inv s' /\
       match room (hnd s) with
       | None => o = Some tt /\ out s' = out s ++ img
       | Some r => out s' = out s ++ ztake r img /\ (o = Some tt <-> zlen img <= r) /\
                   room (hnd s') = Some (Z.max 0 (r - zlen img))
       end) s.
Proof.
  intros Hf Hok He Hn Ha Hb Hnt ms' img Hms Hlen Hi Hs.
  eapply wp_mono; [eapply (write_core_emits writer inv out own room nmax); eauto|].
  intros o s' (Hi' & Hsent & _). split; [done|]. fold ms' in Hsent. fold img in Hsent.
  unfold sent in Hsent. destruct o as [[]|].
  - destruct Hsent as (Hfit & Hr & Ho). destruct (room (hnd s)) as [r|]; [|done]. cbn in *.
    rewrite ztake_all by lia. split_and!; [done|done|]. rewrite Hr. f_equal. lia.
  - destruct Hsent as (r & -> & Hlt & Hr & Ho). split_and!; [done| |].
    + split; [done|lia].
    + rewrite Hr. f_equal. lia.
Qed.

(** The auxv note is written whole, and the descriptor that was opened for it
    is never closed: after a dump without errors the process has one more open
    file. *)
Theorem write_auxv_leaks {W Hd : Type} `{!KernelIO W} `{!AddressSpace} `{!Files W}
    `{!Interrupts W} `{!AuxvWhole W} `{!ReadReady W}
    (writer : ptr -> Z -> M (cst W Hd) Z) (inv : cst W Hd -> Prop) (out : cst W Hd -> list Z)
    (own : Z -> Prop) (room : Hd -> option Z) (nmax : list Z -> Z) `{!LimitedWriter writer inv out own room nmax}
    (fuel : nat) es rest s :
  (forall s, inv s -> (intr (world s) < fuel)%nat) ->
  has_file "/proc/self/auxv" -> file_bytes "/proc/self/auxv" = concat es ++ rest ->
  Forall (fun e => zlen e = sizeof_auxv_t) es -> es <> [] -> zlen es * 16 < 2 ^ 32 ->
  zlen (auxv_note es) < Z.min (nmax (out s)) SSIZE_LIM -> fits (room (hnd s)) (zlen (auxv_note es)) ->
  inv s -> (0 < slots (world s))%nat ->
  wp (write_auxv fuel writer (zlen es)) (fun o s' => o = Some tt /\ out s' = out s ++ auxv_note es /\
    exists fd, ~ rd_open (world s) fd /\ rd_open (world s') fd) s.
Proof.
  intros Hf Ha Hb He Hne Hn Hl Hfit Hi Hs.
  eapply wp_mono; [eapply (write_auxv_open writer inv out own room nmax); eauto|].
  intros o s' (_ & Hsent & Hopen). destruct o as [[]|].
  - destruct Hsent as (_ & _ & Ho). split_and!; auto.
  - destruct Hsent as (r & Hr & Hlt & _). unfold fits in Hfit. rewrite Hr in Hfit. lia.
Qed.
