(* ===== verification/ElfLayout.v ===== *)
(** The layout of [core_image]: the note segment has the size announced for it,
    the memory segments start at a page boundary, and every program header
    points at the bytes it describes. *)
From S2P Require Import Prelude Syscall KernelSpec CIO ProcIO Smaps ElfTypes Vdso ElfCore.
From S2P Require Import ElfImage.

(** ** Sizes *)

Lemma zlen_zeros n : 0 <= n -> zlen (zeros n) = n.
Proof. intros. unfold zeros. rewrite zlen_replicate. lia. Qed.

Lemma align4_bounds n : 0 <= align4 n < 4.
Proof.
  unfold align4. pose proof (Z.mod_pos_bound n 4). destruct (negb _) eqn:E; b2p; lia.
Qed.

Lemma align4_mod n : (n + align4 n) mod 4 = 0.
Proof.
  unfold align4. pose proof (Z.div_mod n 4). destruct (negb _) eqn:E; b2p.
  - replace (n + (4 - n mod 4)) with ((n / 4 + 1) * 4) by lia. apply Z_mod_mult.
  - by rewrite Z.add_0_r.
Qed.

Lemma zlen_pad n : zlen (zeros (align4 n)) = align4 n.
Proof. apply zlen_zeros. pose proof (align4_bounds n). lia. Qed.

Lemma zlen_core_note type (desc : list Z) : zlen (core_note type desc) = sizeof_Nhdr + 8 + zlen desc.
Proof. unfold core_note. autorewrite with zlen. change (zlen CORE_NAME) with 8. lia. Qed.

Lemma zlen_extra_note n : description_size n = zlen (description n) ->
  zlen (extra_note n) = extra_note_size n.
Proof.
  intros Hd. unfold extra_note, extra_note_size. autorewrite with zlen.
  rewrite !zlen_pad, Hd. unfold sizeof_Nhdr. lia.
Qed.

Lemma zlen_extra_notes notes :
  Forall (fun n => zlen (note_name n) + 1 < 2 ^ 32 /\ description_size n = zlen (description n) /\
                   description_size n < 2 ^ 32) notes ->
  zlen (concat (map extra_note notes)) = foldr (fun n a => extra_note_size n + a) 0 notes.
Proof.
  induction 1 as [|n notes (_ & Hd & _) _ IH]; [done|]. cbn [map concat foldr].
  rewrite zlen_app, IH, zlen_extra_note by done. done.
Qed.

Lemma zlen_nt_file_desc pagesize ms :
  zlen (nt_file_desc pagesize ms) = 2 * sizeof_long + nt_file_desc_len ms.
Proof.
  unfold nt_file_desc, nt_file_desc_len, file_triple, sizeof_long, name_len. autorewrite with zlen.
  induction (file_mappings ms) as [|m l IH]; [done|]. cbn [map concat foldr].
  autorewrite with zlen in *. lia.
Qed.

Lemma zlen_nt_file_note pagesize ms :
  zlen (nt_file_note pagesize ms) =
  if 0 <? nt_file_count ms then
    sizeof_Nhdr + 8 + 2 * sizeof_long + nt_file_desc_len ms + align4 (nt_file_desc_len ms)
  else 0.
Proof.
  unfold nt_file_note. destruct (0 <? _); [|done].
  rewrite zlen_app, zlen_core_note, zlen_nt_file_desc, zlen_pad. lia.
Qed.

(** ** Threads *)

Lemma first_with_none main_pid ts : main_pid ∉ map t_pid ts -> first_with main_pid ts = [].
Proof.
  induction ts as [|t ts IH]; cbn; [done|].
  intros [Hne Hn]%not_elem_of_cons. destruct (_ =? _) eqn:E; b2p; [by subst|auto].
Qed.

Lemma filter_no_pid main_pid ts : main_pid ∉ map t_pid ts ->
  filter (fun t => t_pid t <> main_pid) ts = ts.
Proof.
  induction ts as [|t ts IH]; cbn [map]; [done|].
  intros [Hne Hn]%not_elem_of_cons. rewrite filter_cons_True by auto. f_equal. auto.
Qed.

(** Each thread is written once. *)
Lemma first_filter_perm main_pid ts : NoDup (map t_pid ts) ->
  first_with main_pid ts ++ filter (fun t => t_pid t <> main_pid) ts ≡ₚ ts.
Proof.
  induction ts as [|t ts IH]; cbn [map first_with]; [done|].
  intros [Hn Hd]%NoDup_cons. destruct (_ =? _) eqn:E; b2p.
  - subst main_pid. rewrite filter_cons_False by auto. rewrite filter_no_pid by done. done.
  - rewrite filter_cons_True by done. rewrite <- Permutation_middle. by rewrite IH.
Qed.

Lemma thread_order_perm main_pid ts : NoDup (map t_pid ts) -> thread_order main_pid ts ≡ₚ ts.
Proof.
  intros Hn. unfold thread_order. rewrite first_filter_perm; [by rewrite <- Permutation_rev|].
  rewrite map_rev, <- Permutation_rev. done.
Qed.

Lemma zlen_thread_notes st t : zlen (t_fpregs t) = sizeof_fpregs ->
  zlen (thread_notes st t) = sizeof_Nhdr + 8 + sizeof_prstatus + sizeof_Nhdr + 8 + sizeof_fpregs.
Proof.
  intros Hf. unfold thread_notes. rewrite zlen_app, !zlen_core_note, zlen_prstatus, Hf. lia.
Qed.

Lemma zlen_threads st main_pid ts :
  NoDup (map t_pid ts) -> Forall (fun t => zlen (t_fpregs t) = sizeof_fpregs) ts ->
  zlen (concat (map (thread_notes st) (thread_order main_pid ts))) =
  zlen ts * (sizeof_Nhdr + 8 + sizeof_prstatus + sizeof_Nhdr + 8 + sizeof_fpregs).
Proof.
  intros Hn Hf. pose proof (thread_order_perm main_pid ts Hn) as Hp.
  rewrite (zlen_concat_const _ (sizeof_Nhdr + 8 + sizeof_prstatus + sizeof_Nhdr + 8 + sizeof_fpregs)).
  - f_equal. unfold zlen. by rewrite length_map, Hp.
  - apply Forall_map. rewrite <- Hp in Hf. eapply Forall_impl; [exact Hf|].
    intros t. apply zlen_thread_notes.
Qed.

(** ** The note segment *)

Section Layout.
Context `{AddressSpace}.

(** What fills the file: the inputs are right, thread ids are distinct, and the
    auxv contents are whole entries. *)
Record layout_ok (info : prpsinfo) (user : option (list Z)) (ts : list thread)
    (notes : list CoredumperNote) (pagesize : Z) (aux : list Z) (ms : list mapping)
    (extra : list Phdr) : Prop := {
  lay_inputs : inputs_ok info user ts notes pagesize;
  lay_pids : NoDup (map t_pid ts);
  lay_aux : zlen aux mod sizeof_auxv_t = 0;
  lay_ms : Forall (fun m => 0 <= write_size m) ms;
  lay_extra : Forall (fun p => 0 <= p_filesz p) extra }.

Lemma zlen_notes_image info user st ts pagesize main_pid notes ms aux extra :
  layout_ok info user ts notes pagesize aux ms extra ->
  zlen (notes_image info user st ts pagesize main_pid notes ms aux) < 2 ^ 64 ->
  zlen (notes_image info user st ts pagesize main_pid notes ms aux) =
  notes_filesz user (zlen ts) notes (zlen aux / sizeof_auxv_t) ms.
Proof.
  intros [[? ? Huser ? ? ?] Hpid Haux _ _] Hlt. unfold notes_filesz.
  pose proof (zlen_nonneg (notes_image info user st ts pagesize main_pid notes ms aux)) as Hge.
  rewrite <- (u64_small _ (conj Hge Hlt)). f_equal. clear Hge Hlt. unfold notes_image.
  rewrite !zlen_app, zlen_threads, zlen_extra_notes, zlen_nt_file_note by done.
  rewrite zlen_core_note, zlen_prpsinfo by done.
  assert (Hu : zlen (match user with Some u => core_note NT_PRXREG u | None => [] end) =
    match user with Some _ => sizeof_Nhdr + 8 + sizeof_core_user | None => 0 end).
  { destruct user as [u|]; [|done]. by rewrite zlen_core_note, (Huser u). }
  assert (Ha : zlen (match aux with [] => [] | _ => core_note NT_AUXV aux end) =
    if negb (zlen aux / sizeof_auxv_t =? 0)
    then 8 + sizeof_Nhdr + zlen aux / sizeof_auxv_t * sizeof_auxv_t else 0).
  { unfold sizeof_auxv_t in *. pose proof (Z.div_mod (zlen aux) 16 ltac:(lia)) as Hdm. rewrite Haux in Hdm.
    destruct aux as [|x aux]; [done|]. rewrite zlen_core_note.
    assert (zlen (x :: aux) / 16 <> 0).
    { intros E. rewrite E, zlen_cons in Hdm. pose proof (zlen_nonneg aux). lia. }
    destruct (negb _) eqn:E; b2p; lia. }
  rewrite Hu, Ha. lia.
Qed.

(** ** Segments *)

Lemma zlen_segment_image m : 0 <= write_size m -> zlen (segment_image m) = write_size m.
Proof. apply zlen_content_mem. Qed.

Lemma zlen_sum {A} (size : A -> Z) (f : A -> list Z) l : Forall (fun x => zlen (f x) = size x) l ->
  zlen (concat (map f l)) = foldr (fun x n => size x + n) 0 l.
Proof. induction 1; cbn; [done|]. rewrite zlen_app. lia. Qed.

(** Header [p] describes [data] in the file [img]. *)
Definition points_at (img : list Z) (p : Phdr) (data : list Z) : Prop :=
  p_filesz p = zlen data /\ slice (p_offset p) (p_filesz p) img = data.

Lemma load_phdrs_point pagesize ms : forall offset filesz pre post,
  Forall (fun m => 0 <= write_size m) ms ->
  offset + filesz = zlen pre -> zlen (pre ++ concat (map segment_image ms)) < 2 ^ 64 ->
  Forall2 (fun m p => p_type p = PT_LOAD /\ p_vaddr p = start_address m /\
      p_memsz p = u64 (end_address m - start_address m) /\
      points_at (pre ++ concat (map segment_image ms) ++ post) p (segment_image m))
    ms (load_phdrs offset filesz pagesize ms) /\
  load_end offset filesz ms = zlen (pre ++ concat (map segment_image ms)).
Proof.
  induction ms as [|m ms IH]; intros offset filesz pre post Hms Hpre Hlt;
    inversion_clear Hms as [|? ? Hm Hms']; cbn [load_phdrs load_end map concat] in *;
    autorewrite with zlen in *; pose proof (zlen_nonneg pre).
  { split; [constructor|]. rewrite u64_small; lia. }
  pose proof (zlen_segment_image m Hm) as Hz.
  pose proof (zlen_nonneg (concat (map segment_image ms))).
  rewrite (u64_small (offset + filesz)) by lia.
  destruct (IH (offset + filesz) (write_size m) (pre ++ segment_image m) post) as [IH1 IH2]; auto.
  { autorewrite with zlen. lia. } { autorewrite with zlen. lia. }
  autorewrite with zlen in IH2. split; [|lia].
  rewrite <- !app_assoc in IH1. rewrite <- app_assoc. constructor; [|exact IH1].
  split_and!; auto. split; cbn [p_filesz p_offset]; [lia|]. apply slice_app_eq; lia.
Qed.

Lemma extra_phdrs_point extra : forall offset pre,
  Forall (fun p => 0 <= p_filesz p) extra ->
  offset = zlen pre -> zlen (pre ++ concat (map vdso_image extra)) < 2 ^ 64 ->
  Forall2 (fun v p => p_type p = p_type v /\ p_vaddr p = p_vaddr v /\
      points_at (pre ++ concat (map vdso_image extra)) p (vdso_image v))
    extra (extra_phdrs offset extra).
Proof.
  induction extra as [|v extra IH]; intros offset pre Hex Hpre Hlt;
    inversion_clear Hex as [|? ? Hv Hex']; cbn [extra_phdrs map concat] in *; [constructor|].
  autorewrite with zlen in *. pose proof (zlen_nonneg pre).
  pose proof (zlen_nonneg (concat (map vdso_image extra))).
  assert (Hz : zlen (vdso_image v) = p_filesz v) by by apply zlen_content_mem.
  rewrite u64_small by lia.
  assert (IH1 := IH (offset + p_filesz v) (pre ++ vdso_image v) Hex').
  rewrite <- app_assoc in IH1.
  constructor; [|apply IH1; autorewrite with zlen; lia].
  split_and!; auto. split; cbn [p_filesz p_offset]; [lia|]. apply slice_app_eq; lia.
Qed.

(** The padding makes the end of the notes a page boundary. *)
Lemma note_align_spec offset filesz pagesize :
  0 < pagesize -> 0 <= offset + filesz < 2 ^ 64 ->
  0 <= note_align offset filesz pagesize < pagesize /\
  (offset + filesz + note_align offset filesz pagesize) mod pagesize = 0.
Proof.
  intros Hp Hs. unfold note_align. rewrite u64_small by done.
  pose proof (Z.mod_pos_bound (offset + filesz) pagesize Hp).
  pose proof (Z.div_mod (offset + filesz) pagesize ltac:(lia)).
  destruct (_ =? _) eqn:E; b2p.
  - split; [lia|]. rewrite Z.add_0_r. lia.
  - split; [lia|]. set (q := (offset + filesz) / pagesize) in *.
    replace (offset + filesz + (pagesize - (offset + filesz) mod pagesize)) with ((q + 1) * pagesize) by lia.
    apply Z_mod_mult.
Qed.

(** ** The file *)

Section File.
Context (info : prpsinfo) (user : option (list Z)) (st : prstatus) (ts : list thread)
        (pagesize main_pid : Z) (notes : list CoredumperNote) (ms : list mapping)
        (aux : list Z) (extra : list Phdr).
Hypothesis (lay : layout_ok info user ts notes pagesize aux ms extra).

Abbreviation img := (core_image info user st ts pagesize main_pid notes ms aux extra).
Abbreviation nimg := (notes_image info user st ts pagesize main_pid notes ms aux).
Abbreviation num_phdrs := (zlen ms + zlen extra + 1).
Abbreviation filesz := (notes_filesz user (zlen ts) notes (zlen aux / sizeof_auxv_t) ms).
Abbreviation noffset := (notes_offset num_phdrs).
Abbreviation nalign := (note_align noffset filesz pagesize).
Hypothesis (small : zlen img < SSIZE_LIM).

Lemma length_load_phdrs o f p l : length (load_phdrs o f p l) = length l.
Proof. revert o f. induction l as [|m l IH]; intros o f; cbn; auto. Qed.

Lemma length_extra_phdrs o l : length (extra_phdrs o l) = length l.
Proof. revert o. induction l as [|m l IH]; intros o; cbn; auto. Qed.

Lemma zlen_core_phdrs o f : zlen (core_phdrs o f pagesize ms extra) = num_phdrs.
Proof.
  unfold core_phdrs, zlen. cbn [length]. rewrite length_app, length_load_phdrs, length_extra_phdrs. lia.
Qed.

Lemma zlen_ehdr : zlen (Ehdr_bytes (core_ehdr num_phdrs)) = sizeof_Ehdr.
Proof. by apply zlen_Ehdr. Qed.

Lemma zlen_phdr_table ps : zlen (concat (map Phdr_bytes ps)) = zlen ps * sizeof_Phdr.
Proof.
  rewrite (zlen_concat_const _ sizeof_Phdr); [by unfold zlen; rewrite length_map|].
  apply Forall_map, Forall_forall. intros p _. apply zlen_Phdr.
Qed.

(** The parts of the file. *)
Definition file_head : list Z :=
  Ehdr_bytes (core_ehdr num_phdrs) ++ concat (map Phdr_bytes (core_phdrs noffset filesz pagesize ms extra)).

Lemma img_parts : img = (file_head ++ nimg ++ zeros nalign) ++
  concat (map segment_image ms) ++ concat (map vdso_image extra).
Proof. unfold core_image, file_head. by rewrite <- !app_assoc. Qed.

Lemma parts_small : zlen (file_head ++ nimg ++ zeros nalign) + zlen (concat (map segment_image ms)) +
  zlen (concat (map vdso_image extra)) < SSIZE_LIM.
Proof. rewrite img_parts in small. autorewrite with zlen in *. lia. Qed.

Lemma zlen_nimg : zlen nimg = filesz.
Proof.
  pose proof parts_small. autorewrite with zlen in *. unfold SSIZE_LIM in *.
  pose proof (zlen_nonneg file_head). pose proof (zlen_nonneg (zeros nalign)).
  pose proof (zlen_nonneg (concat (map segment_image ms))).
  pose proof (zlen_nonneg (concat (map vdso_image extra))).
  apply zlen_notes_image with (extra := extra); [exact lay|lia].
Qed.

Lemma zlen_file_head : zlen file_head = noffset.
Proof.
  pose proof parts_small as Hs. unfold file_head, SSIZE_LIM in *. autorewrite with zlen in *.
  pose proof (zlen_nonneg nimg). pose proof (zlen_nonneg (zeros nalign)).
  pose proof (zlen_nonneg (concat (map segment_image ms))).
  pose proof (zlen_nonneg (concat (map vdso_image extra))).
  rewrite zlen_ehdr, zlen_phdr_table, zlen_core_phdrs in *.
  unfold notes_offset. rewrite u64_small; [done|].
  pose proof (zlen_nonneg ms). pose proof (zlen_nonneg extra). unfold sizeof_Ehdr, sizeof_Phdr in *. lia.
Qed.

Lemma nalign_spec : 0 <= nalign < pagesize /\ (noffset + filesz + nalign) mod pagesize = 0.
Proof.
  pose proof parts_small as Hs. autorewrite with zlen in *. unfold SSIZE_LIM in *.
  rewrite <- zlen_file_head, <- zlen_nimg.
  apply note_align_spec; [destruct lay as [[] _ _ _ _]; lia|].
  pose proof (zlen_nonneg (zeros nalign)).
  pose proof (zlen_nonneg file_head). pose proof (zlen_nonneg nimg).
  pose proof (zlen_nonneg (concat (map segment_image ms))).
  pose proof (zlen_nonneg (concat (map vdso_image extra))). lia.
Qed.

Lemma zlen_prefix : zlen (file_head ++ nimg ++ zeros nalign) = noffset + nalign + filesz.
Proof.
  autorewrite with zlen. pose proof nalign_spec. rewrite zlen_file_head, zlen_nimg, zlen_zeros; lia.
Qed.

Lemma data_offset_small : u64 (noffset + nalign) = noffset + nalign.
Proof.
  pose proof parts_small as Hs. rewrite zlen_prefix in Hs. unfold SSIZE_LIM in *.
  pose proof nalign_spec. pose proof (zlen_nonneg nimg) as Hn. rewrite zlen_nimg in Hn.
  pose proof (zlen_nonneg file_head) as Hf. rewrite zlen_file_head in Hf.
  pose proof (zlen_nonneg (concat (map segment_image ms))).
  pose proof (zlen_nonneg (concat (map vdso_image extra))).
  apply u64_small. lia.
Qed.

(** The note header points at the notes. *)
Lemma note_points : points_at img (note_phdr noffset filesz) nimg.
Proof.
  split; cbn [p_filesz p_offset note_phdr]; [by rewrite zlen_nimg|]. rewrite img_parts, <- app_assoc, <- app_assoc.
  apply slice_app_eq; [by rewrite zlen_file_head|by rewrite zlen_nimg].
Qed.

(** So do the headers of the memory segments and of the vdso. *)
Lemma segments_point :
  Forall2 (fun m p => p_type p = PT_LOAD /\ p_vaddr p = start_address m /\
      p_memsz p = u64 (end_address m - start_address m) /\ points_at img p (segment_image m))
    ms (load_phdrs (u64 (noffset + nalign)) filesz pagesize ms) /\
  Forall2 (fun v p => p_type p = p_type v /\ p_vaddr p = p_vaddr v /\ points_at img p (vdso_image v))
    extra (extra_phdrs (load_end (u64 (noffset + nalign)) filesz ms) extra).
Proof.
  pose proof parts_small as Hs. pose proof (zlen_nonneg (concat (map vdso_image extra))) as Hv.
  destruct lay as [_ _ _ Hms Hex]. unfold SSIZE_LIM in *.
  destruct (load_phdrs_point pagesize ms (u64 (noffset + nalign)) filesz
    (file_head ++ nimg ++ zeros nalign) (concat (map vdso_image extra))) as [H1 H2]; auto.
  { rewrite data_offset_small, zlen_prefix. lia. }
  { rewrite zlen_app. lia. }
  rewrite img_parts. split; [exact H1|]. rewrite app_assoc.
  apply extra_phdrs_point; auto. rewrite !zlen_app in *. lia.
Qed.
End File.
End Layout.
