(* ===== verification/ElfReader.v ===== *)
(** A reader of core files: what a debugger recovers from [core_image].

    [read_phdrs] decodes the program headers, [read_mem] the memory of the
    process, [parse_notes] the notes; reading what was written gives back the
    process. *)
From S2P Require Import Prelude Syscall KernelSpec CIO ProcIO Smaps ElfTypes Vdso ElfCore.
From S2P Require Import ElfImage ElfLayout.

(** ** Reading numbers *)

Definition read_le (off : Z) (n : Z) (img : list Z) : Z := unle (slice off n img).

Definition read_Phdr (off : Z) (img : list Z) : Phdr :=
  mkPhdr (read_le off 4 img) (read_le (off + 4) 4 img) (read_le (off + 8) 8 img)
    (read_le (off + 16) 8 img) (read_le (off + 24) 8 img) (read_le (off + 32) 8 img)
    (read_le (off + 40) 8 img) (read_le (off + 48) 8 img).

(** The program header table, found from the ELF header. *)
Definition read_phdrs (img : list Z) : list Phdr :=
  let phoff := read_le 32 8 img in
  let phentsize := read_le 54 2 img in
  map (fun i => read_Phdr (phoff + Z.of_nat i * phentsize) img) (seq 0 (Z.to_nat (read_le 56 2 img))).

(** The byte at address [a], from the first segment that holds it. *)
Definition covers (a : Z) (p : Phdr) : bool :=
  (p_type p =? PT_LOAD) && (p_vaddr p <=? a) && (a <? p_vaddr p + p_filesz p).

Definition read_mem (img : list Z) (a : Z) : option Z :=
  match find (covers a) (read_phdrs img) with
  | Some p => img !! Z.to_nat (p_offset p + (a - p_vaddr p))
  | None => None
  end.

(** Notes: name, type and description; names and descriptions are padded to
    four bytes. *)
Fixpoint parse_notes (n : nat) (l : list Z) : option (list (list Z * Z * list Z)) :=
  match l with
  | [] => Some []
  | _ =>
      match n with
      | O => None
      | S n' =>
          let namesz := read_le 0 4 l in
          let descsz := read_le 4 4 l in
          let doff := 12 + namesz + align4 namesz in
          let next := doff + descsz + align4 descsz in
          if zlen l <? next then None
          else
            match parse_notes n' (zdrop next l) with
            | Some ns => Some ((slice 12 namesz l, read_le 8 4 l, slice doff descsz l) :: ns)
            | None => None
            end
      end
  end.

(** ** Slices *)

Lemma slice_head {A} n (a b : list A) : n = zlen a -> slice 0 n (a ++ b) = a.
Proof. intros ->. apply (slice_app_eq 0 _ []); done. Qed.

Lemma slice_shift {A} off n (a l : list A) : 0 <= off ->
  slice (zlen a + off) n (a ++ l) = slice off n l.
Proof.
  intros. unfold slice. rewrite zdrop_app_ge by (pose proof (zlen_nonneg a); lia).
  do 2 f_equal. lia.
Qed.

Lemma slice_shift_eq {A} off k n (a l : list A) : 0 <= off -> k = zlen a + off ->
  slice k n (a ++ l) = slice off n l.
Proof. intros ? ->. by apply slice_shift. Qed.

Lemma slice_slice {A} o n o' n' (l : list A) : 0 <= o -> 0 <= o' -> 0 <= n' -> o' + n' <= n ->
  slice o' n' (slice o n l) = slice (o + o') n' l.
Proof.
  intros. unfold slice, ztake, zdrop. rewrite skipn_firstn_comm, take_take, drop_drop.
  f_equal; [lia|]. f_equal. lia.
Qed.

Lemma unle_slice_le off n k v (a b : list Z) : off = zlen a -> n = Z.of_nat k ->
  0 <= v < 2 ^ (8 * Z.of_nat k) -> unle (slice off n (a ++ le k v ++ b)) = v.
Proof.
  intros -> -> Hv. rewrite slice_app_eq by (done || by rewrite zlen_le).
  rewrite unle_le. by apply Z.mod_small.
Qed.

(** ** Program headers *)

Record Phdr_wf (p : Phdr) : Prop := {
  wf_type : 0 <= p_type p < 2 ^ 32; wf_flags : 0 <= p_flags p < 2 ^ 32;
  wf_offset : 0 <= p_offset p < 2 ^ 64; wf_vaddr : 0 <= p_vaddr p < 2 ^ 64;
  wf_paddr : 0 <= p_paddr p < 2 ^ 64; wf_filesz : 0 <= p_filesz p < 2 ^ 64;
  wf_memsz : 0 <= p_memsz p < 2 ^ 64; wf_align : 0 <= p_align p < 2 ^ 64 }.

Lemma read_Phdr_slice off img p : 0 <= off -> slice off sizeof_Phdr img = Phdr_bytes p ->
  Phdr_wf p -> read_Phdr off img = p.
Proof.
  intros Ho Hs [].
  assert (E : forall o n, 0 <= o -> 0 <= n -> o + n <= 56 ->
     slice (off + o) n img = slice o n (Phdr_bytes p)).
  { intros o n ???. rewrite <- Hs. by rewrite slice_slice by (unfold sizeof_Phdr; lia). }
  unfold read_Phdr, read_le.
  rewrite <- (Z.add_0_r off) at 1. rewrite !E by lia.
  destruct p as [ty fl ofs va pa fs me al]; cbn [p_type p_flags p_offset p_vaddr p_paddr p_filesz p_memsz p_align] in *.
  unfold Phdr_bytes; cbn [p_type p_flags p_offset p_vaddr p_paddr p_filesz p_memsz p_align].
  f_equal.
  - by apply (unle_slice_le 0 4 4 _ []).
  - by apply (unle_slice_le 4 4 4 _ (le 4 _)).
  - rewrite app_assoc. by apply unle_slice_le.
  - do 2 rewrite app_assoc. by apply unle_slice_le.
  - do 3 rewrite app_assoc. by apply unle_slice_le.
  - do 4 rewrite app_assoc. by apply unle_slice_le.
  - do 5 rewrite app_assoc. by apply unle_slice_le.
  - do 6 rewrite app_assoc. rewrite <- (app_nil_r (le 8 al)). by apply unle_slice_le.
Qed.

(** Reading a table of headers. *)
Lemma read_table ps : forall off img rest, Forall Phdr_wf ps -> 0 <= off ->
  zdrop off img = concat (map Phdr_bytes ps) ++ rest ->
  map (fun i => read_Phdr (off + Z.of_nat i * sizeof_Phdr) img) (seq 0 (length ps)) = ps.
Proof.
  induction ps as [|p ps IH]; intros off img rest Hps Ho Hd; [done|].
  inversion_clear Hps as [|? ? Hp Hps']. cbn [map concat] in Hd. cbn [length seq map]. f_equal.
  - apply read_Phdr_slice; auto; [lia|]. rewrite Z.mul_0_l, Z.add_0_r. unfold slice.
    rewrite Hd, <- app_assoc, ztake_app_le by (rewrite zlen_Phdr; lia).
    apply ztake_all. by rewrite zlen_Phdr.
  - rewrite <- seq_shift, map_map.
    rewrite <- (IH (off + sizeof_Phdr) img rest Hps') at 2; [|unfold sizeof_Phdr; lia|].
    + apply map_ext. intros i. f_equal. unfold sizeof_Phdr. lia.
    + rewrite <- zdrop_zdrop by (unfold sizeof_Phdr; lia).
      rewrite Hd, <- app_assoc, zdrop_app_ge by (rewrite zlen_Phdr; lia).
      by rewrite zlen_Phdr, Z.sub_diag, zdrop_0.
Qed.

Lemma note_phdr_wf o f : 0 <= o < 2 ^ 64 -> 0 <= f < 2 ^ 64 -> Phdr_wf (note_phdr o f).
Proof. intros. unfold note_phdr, PT_NOTE. by split; cbn; lia. Qed.

Lemma u64_range x : 0 <= u64 x < 2 ^ 64.
Proof. apply Z.mod_pos_bound. lia. Qed.

Lemma land_mask_range x : 0 <= Z.land x PF_MASK < 2 ^ 32.
Proof.
  unfold PF_MASK. change 7 with (Z.ones 3). rewrite Z.land_ones by lia.
  pose proof (Z.mod_pos_bound x (2 ^ 3)). lia.
Qed.

Lemma load_phdrs_wf pagesize ms : 0 < pagesize < 2 ^ 31 -> Forall mapping_ok ms ->
  forall o f, Forall Phdr_wf (load_phdrs o f pagesize ms).
Proof.
  intros Hp. induction 1 as [|m ms (H1 & H2 & H3) _ IH]; intros o f; cbn [load_phdrs]; constructor; auto.
  unfold PT_LOAD. split; cbn; try lia; auto using u64_range, land_mask_range.
Qed.

Lemma extra_phdrs_wf extra : Forall Phdr_wf extra -> forall o, 0 <= o < 2 ^ 64 ->
  Forall Phdr_wf (extra_phdrs o extra).
Proof.
  induction 1 as [|p ps [] _ IH]; intros o Ho; cbn [extra_phdrs]; constructor; [|by apply IH, u64_range].
  split; cbn; auto; lia.
Qed.

Lemma load_end_range ms : forall o f, 0 <= load_end o f ms < 2 ^ 64.
Proof. induction ms as [|m ms IH]; intros o f; cbn [load_end]; [apply u64_range|apply IH]. Qed.

Section Reader.
Context `{AddressSpace}.
Context (info : prpsinfo) (user : option (list Z)) (st : prstatus) (ts : list thread)
        (pagesize main_pid : Z) (notes : list CoredumperNote) (ms : list mapping)
        (aux : list Z) (extra : list Phdr).
Hypothesis (lay : layout_ok info user ts notes pagesize aux ms extra).

Abbreviation img := (core_image info user st ts pagesize main_pid notes ms aux extra).
Abbreviation num_phdrs := (zlen ms + zlen extra + 1).
Abbreviation filesz := (notes_filesz user (zlen ts) notes (zlen aux / sizeof_auxv_t) ms).
Abbreviation noffset := (notes_offset num_phdrs).
Hypothesis (small : zlen img < SSIZE_LIM).
(** [e_phnum] is a 16-bit field. *)
Hypothesis (few : num_phdrs < 2 ^ 16).
Hypothesis (ms_ok : Forall mapping_ok ms).
Hypothesis (extra_ok : Forall Phdr_wf extra).

Lemma core_phdrs_wf : Forall Phdr_wf (core_phdrs noffset filesz pagesize ms extra).
Proof.
  destruct lay as [[? ? ? ? ? Hps] _ _ _ _].
  constructor; [apply note_phdr_wf; apply u64_range|].
  apply Forall_app. split; [by apply load_phdrs_wf|].
  apply extra_phdrs_wf; [done|apply load_end_range].
Qed.

Lemma ehdr_fields :
  read_le 32 8 img = sizeof_Ehdr /\ read_le 54 2 img = sizeof_Phdr /\ read_le 56 2 img = num_phdrs.
Proof.
  unfold read_le, core_image, Ehdr_bytes.
  pose proof (zlen_nonneg ms). pose proof (zlen_nonneg extra).
  cbn [e_ident e_type e_machine e_version e_entry e_phoff e_shoff e_flags e_ehsize
       e_phentsize e_phnum e_shentsize e_shnum e_shstrndx core_ehdr].
  rewrite <- !app_assoc. split_and!.
  - do 5 rewrite app_assoc. by apply unle_slice_le.
  - do 9 rewrite app_assoc. by apply unle_slice_le.
  - do 10 rewrite app_assoc. apply unle_slice_le; try done; lia.
Qed.

(** The reader finds the program headers that were computed. *)
Lemma read_phdrs_core : read_phdrs img = core_phdrs noffset filesz pagesize ms extra.
Proof.
  unfold read_phdrs. destruct ehdr_fields as (-> & -> & ->).
  assert (Hn : Z.to_nat num_phdrs = length (core_phdrs noffset filesz pagesize ms extra)).
  { pose proof (zlen_core_phdrs pagesize ms extra noffset filesz) as E. unfold zlen at 1 in E. lia. }
  rewrite Hn. eapply read_table; [apply core_phdrs_wf|done|].
  rewrite img_parts. unfold file_head. rewrite <- !app_assoc.
  rewrite zdrop_app_ge by (rewrite zlen_ehdr; lia). rewrite zlen_ehdr, Z.sub_diag, zdrop_0. reflexivity.
Qed.

Lemma lookup_peek_bytes n : forall a i, (i < n)%nat -> peek_bytes a n !! i = Some (peek (a + Z.of_nat i)).
Proof.
  induction n as [|n IH]; intros a [|i] Hi; cbn; [lia|lia| |].
  - do 2 f_equal. lia.
  - rewrite IH by lia. do 2 f_equal. lia.
Qed.

Lemma slice_lookup {A} off n (l d : list A) i : slice off n l = d -> 0 <= off -> (i < length d)%nat ->
  l !! (Z.to_nat off + i)%nat = d !! i.
Proof.
  intros <- Ho Hi. unfold slice, ztake, zdrop in *. rewrite length_take in Hi.
  rewrite lookup_take_lt by lia. by rewrite lookup_drop.
Qed.

(** The mapping that [p], a header of the file with type PT_LOAD, describes. *)
Lemma load_in_core p : In p (core_phdrs noffset filesz pagesize ms extra) -> p_type p = PT_LOAD ->
  Forall (fun v => p_type v <> PT_LOAD) extra ->
  exists m, In m ms /\ p_vaddr p = start_address m /\ points_at img p (segment_image m).
Proof.
  intros Hin Ht Hex.
  destruct (segments_point info user st ts pagesize main_pid notes ms aux extra lay small) as [H1 H2].
  destruct Hin as [<-|[Hin|Hin]%in_app_iff]; [done| |].
  - destruct (Forall2_in_r _ _ _ _ H1 Hin) as (m & Hm & _ & Hv & _ & Hp). by exists m.
  - destruct (Forall2_in_r _ _ _ _ H2 Hin) as (v & Hv & Ht' & _).
    rewrite Forall_forall in Hex. apply list_elem_of_In, Hex in Hv. congruence.
Qed.

(** Reading a byte of memory from the file gives the byte of the process. *)
Lemma read_mem_core m a : Forall (fun v => p_type v <> PT_LOAD) extra ->
  In m ms -> start_address m <= a < start_address m + write_size m -> read_mem img a = Some (peek a).
Proof.
  intros Hex Hm Ha. unfold read_mem. rewrite read_phdrs_core by done.
  destruct (segments_point info user st ts pagesize main_pid notes ms aux extra lay small) as [H1 _].
  assert (Hz : 0 <= write_size m).
  { destruct lay as [_ _ _ Hms _]. rewrite Forall_forall in Hms. by apply Hms, list_elem_of_In. }
  destruct (Forall2_in_l _ _ _ _ H1 Hm) as (q & Hq & Hqt & Hqv & _ & Hqf & _).
  rewrite zlen_segment_image in Hqf by done.
  destruct (find (covers a) _) as [p|] eqn:E.
  2:{ exfalso. assert (Hc : covers a q = false).
      { apply (find_none _ _ E). right. apply in_app_iff. by left. }
      unfold covers in Hc. rewrite Hqt, Hqv, Hqf in Hc. cbn in Hc. b2p. destruct Hc as [Hc|Hc]; b2p; lia. }
  apply find_some in E as [Hin Hc]. unfold covers in Hc. b2p.
  destruct (load_in_core p) as (m' & Hm' & Hv & Hf & Hs); auto.
  assert (Ho : 0 <= p_offset p).
  { pose proof core_phdrs_wf as Hw. rewrite Forall_forall in Hw.
    apply list_elem_of_In, Hw in Hin. apply wf_offset in Hin. lia. }
  assert (Hl : (Z.to_nat (a - p_vaddr p) < length (segment_image m'))%nat).
  { unfold zlen in Hf. lia. }
  rewrite Z2Nat.inj_add by lia. rewrite (slice_lookup _ _ _ _ _ Hs Ho Hl).
  unfold segment_image, content in *. rewrite length_peek_bytes in Hl.
  rewrite lookup_peek_bytes by done. do 2 f_equal. lia.
Qed.
End Reader.

(** ** Notes *)

Definition note := (list Z * Z * list Z)%type.

(** A note as the format describes it. *)
Definition enc_note (n : note) : list Z :=
  let '(nm, type, desc) := n in
  Nhdr_bytes (mkNhdr (zlen nm) (zlen desc) type) ++ nm ++ zeros (align4 (zlen nm)) ++
  desc ++ zeros (align4 (zlen desc)).

Definition note_wf (n : note) : Prop :=
  let '(nm, type, desc) := n in
  zlen nm < 2 ^ 32 /\ 0 <= type < 2 ^ 32 /\ zlen desc < 2 ^ 32.

Definition CORE : list Z := bytes "CORE" ++ [0].

(** The notes of a core file, in order. *)
Definition core_notes (info : prpsinfo) (user : option (list Z)) (st : prstatus)
    (ts : list thread) (pagesize main_pid : Z) (notes : list CoredumperNote)
    (ms : list mapping) (aux : list Z) : list note :=
  (CORE, NT_PRPSINFO, prpsinfo_bytes info) ::
  (match user with Some u => [(CORE, NT_PRXREG, u)] | None => [] end) ++
  (match aux with [] => [] | _ => [(CORE, NT_AUXV, aux)] end) ++
  concat (map (fun t => [(CORE, NT_PRSTATUS, prstatus_bytes (set_thread (t_pid t) (t_regs t) st));
                         (CORE, NT_FPREGSET, t_fpregs t)]) (thread_order main_pid ts)) ++
  map (fun n => (note_name n ++ [0], note_type n, description n)) notes ++
  (if 0 <? nt_file_count ms then [(CORE, NT_FILE, nt_file_desc pagesize ms)] else []).

Lemma parse_enc_note n nt l : note_wf nt ->
  parse_notes (S n) (enc_note nt ++ l) = option_map (cons nt) (parse_notes n l).
Proof.
  destruct nt as [[nm ty] desc]. intros (Hn & Ht & Hd).
  pose proof (zlen_nonneg nm). pose proof (zlen_nonneg desc). pose proof (zlen_nonneg l).
  pose proof (align4_bounds (zlen nm)). pose proof (align4_bounds (zlen desc)).
  assert (E1 : read_le 0 4 (enc_note (nm, ty, desc) ++ l) = zlen nm).
  { unfold read_le, enc_note, Nhdr_bytes. cbn [n_namesz n_descsz n_type]. rewrite <- !app_assoc.
    apply (unle_slice_le 0 4 4 _ []); (done || lia). }
  assert (E2 : read_le 4 4 (enc_note (nm, ty, desc) ++ l) = zlen desc).
  { unfold read_le, enc_note, Nhdr_bytes. cbn [n_namesz n_descsz n_type]. rewrite <- !app_assoc.
    apply (unle_slice_le 4 4 4 _ (le 4 _)); (done || lia). }
  assert (E3 : read_le 8 4 (enc_note (nm, ty, desc) ++ l) = ty).
  { unfold read_le, enc_note, Nhdr_bytes. cbn [n_namesz n_descsz n_type]. rewrite <- !app_assoc.
    rewrite app_assoc. apply unle_slice_le; (done || lia). }
  cbn [parse_notes]. rewrite E1, E2, E3.
  assert (Hz : zlen (enc_note (nm, ty, desc)) =
    12 + zlen nm + align4 (zlen nm) + zlen desc + align4 (zlen desc)).
  { unfold enc_note. rewrite !zlen_app, zlen_Nhdr, !zlen_pad. unfold sizeof_Nhdr. lia. }
  destruct (enc_note (nm, ty, desc) ++ l) as [|x xs] eqn:Ex.
  { apply (f_equal zlen) in Ex. rewrite zlen_app, zlen_nil in Ex. lia. }
  rewrite <- Ex. clear Ex x xs E1 E2 E3. rewrite zlen_app, Hz.
  destruct (_ <? _) eqn:E; b2p; [lia|]. clear E.
  rewrite zdrop_app_ge by lia.
  replace (_ - _) with 0 by lia. rewrite zdrop_0.
  destruct (parse_notes n l); [|done]. cbn [option_map]. do 2 f_equal.
  assert (S1 : slice 12 (zlen nm) (enc_note (nm, ty, desc) ++ l) = nm).
  { unfold enc_note. rewrite <- !app_assoc. by apply slice_app_eq. }
  rewrite S1. f_equal. unfold enc_note. rewrite <- !app_assoc.
  do 2 rewrite (app_assoc _ _ (_ ++ _)). apply slice_app_eq; [|done].
  rewrite !zlen_app, zlen_Nhdr, zlen_pad. unfold sizeof_Nhdr. lia.
Qed.

Lemma parse_enc_notes ns : forall n, Forall note_wf ns -> (length ns <= n)%nat ->
  parse_notes n (concat (map enc_note ns)) = Some ns.
Proof.
  induction ns as [|nt ns IH]; intros n Hns Hn; [by destruct n|].
  inversion_clear Hns as [|? ? Hnt Hns']. destruct n as [|n]; [cbn in Hn; lia|].
  cbn [map concat]. rewrite parse_enc_note, IH by (done || (cbn in Hn; lia)). done.
Qed.

(** A note named CORE whose description needs no padding. *)
Lemma enc_core type desc : zlen desc mod 4 = 0 -> enc_note (CORE, type, desc) = core_note type desc.
Proof.
  intros Hd. unfold enc_note, core_note.
  assert (E : align4 (zlen desc) = 0) by (unfold align4; by rewrite Hd).
  rewrite E. change (zeros 0) with (@nil Z). by rewrite (app_nil_r desc).
Qed.

Lemma align4_add n k : n mod 4 = 0 -> align4 (n + k) = align4 k.
Proof. intros Hn. unfold align4. by rewrite Z.add_mod, Hn, Z.add_0_l, Zmod_mod. Qed.

Section Notes.
Context (info : prpsinfo) (user : option (list Z)) (st : prstatus) (ts : list thread)
        (pagesize main_pid : Z) (notes : list CoredumperNote) (ms : list mapping) (aux : list Z).
Hypothesis (ok : inputs_ok info user ts notes pagesize).
Hypothesis (aux_ok : zlen aux mod sizeof_auxv_t = 0).

Lemma forall_order (P : thread -> Prop) : Forall P ts -> Forall P (thread_order main_pid ts).
Proof.
  intros Hp. apply Forall_rev in Hp. unfold thread_order. apply Forall_app. split.
  - revert Hp. generalize (rev ts). intros l. induction 1 as [|t l Ht _ IH]; cbn; [constructor|].
    destruct (_ =? _); auto.
  - apply Forall_forall. intros t [_ Ht]%list_elem_of_filter. rewrite Forall_forall in Hp. auto.
Qed.

Lemma notes_enc : notes_image info user st ts pagesize main_pid notes ms aux =
  concat (map enc_note (core_notes info user st ts pagesize main_pid notes ms aux)).
Proof.
  destruct ok as [Hf Ha Hu Ht Hn Hp].
  unfold notes_image, core_notes. cbn [map concat]. rewrite !map_app, !concat_app.
  rewrite enc_core by by rewrite zlen_prpsinfo. f_equal. f_equal; [|f_equal; [|f_equal; [|f_equal]]].
  - destruct user as [u|]; [|done]. cbn [map concat]. by rewrite app_nil_r, enc_core by by rewrite (Hu u).
  - destruct aux as [|x xs] eqn:Ex; [done|]. cbn [map concat]. rewrite app_nil_r, enc_core; [done|].
    unfold sizeof_auxv_t in *.
    apply Z.mod_divide in aux_ok; [|lia]. destruct aux_ok as [k ->].
    replace (k * 16) with (4 * k * 4) by lia. apply Z_mod_mult.
  - apply (forall_order _) in Ht. induction Ht as [|t l Ht _ IH]; [done|].
    cbn [map concat]. rewrite map_app, concat_app, <- IH. f_equal.
    cbn [map concat]. rewrite app_nil_r, !enc_core; [done|by rewrite Ht|by rewrite zlen_prstatus].
  - rewrite map_map. f_equal. apply map_ext_in. intros n Hin. apply list_elem_of_In in Hin.
    rewrite Forall_forall in Hn. destruct (Hn n Hin) as (_ & Hd & _).
    unfold extra_note, enc_note. rewrite Hd, zlen_app. done.
  - unfold nt_file_note. destruct (0 <? _); [|done]. cbn [map concat]. rewrite app_nil_r.
    unfold enc_note, core_note. rewrite zlen_nt_file_desc, align4_add by done.
    rewrite <- !app_assoc. done.
Qed.

Hypothesis (types_ok : Forall (fun n => 0 <= note_type n < 2 ^ 32) notes).
Hypothesis (aux_small : zlen aux < 2 ^ 32).
Hypothesis (files_small : zlen (nt_file_desc pagesize ms) < 2 ^ 32).

Lemma core_notes_wf : Forall note_wf (core_notes info user st ts pagesize main_pid notes ms aux).
Proof.
  destruct ok as [Hf Ha Hu Ht Hn Hp].
  assert (Hc : zlen CORE < 2 ^ 32) by done.
  unfold core_notes. apply Forall_cons. split; [split_and!; try done; by rewrite zlen_prpsinfo|].
  repeat (apply Forall_app; split).
  - destruct user as [u|]; constructor; [|constructor]. split_and!; try done. by rewrite (Hu u).
  - destruct aux; repeat constructor; done.
  - apply (forall_order _) in Ht. induction Ht as [|t l Ht _ IH]; [constructor|].
    cbn [map concat app]. repeat (apply Forall_cons; split); auto; split_and!; try done.
    by rewrite Ht.
  - apply Forall_map. apply Forall_forall. intros n Hin. rewrite Forall_forall in Hn, types_ok.
    destruct (Hn n Hin) as (H1 & H2 & H3). specialize (types_ok n Hin).
    split_and!; try lia. by rewrite zlen_app.
  - destruct (0 <? _); repeat constructor; done.
Qed.
End Notes.
