(* ===== verification/Prioritize.v ===== *)
(** Limiting the size of the core file by dropping the largest mappings first
    (the argument [prioritize_max_length] of [CreateElfCore]): the loop of [CreateElfCore]
    terminates, reaches the size asked for when that is possible, and takes the
    space from the largest mappings only. *)
From S2P Require Import Prelude Syscall KernelSpec Smaps ElfTypes ElfCore ElfImage.

Definition total_size (ms : list mapping) : Z := foldr (fun m n => write_size m + n) 0 ms.

(** Number of mappings that still have contents. *)
Definition positives (ms : list mapping) : nat := length (filter (fun m => 0 < write_size m) ms).

Definition sizes_ok (ms : list mapping) : Prop := Forall (fun m => 0 <= write_size m) ms.

(** [ms'] is [ms] with just enough taken away, the largest first, for the
    contents to fit in [space]. *)
Record shrunk (space : Z) (ms ms' : list mapping) : Prop := {
  shrunk_resized : Forall2 (fun m m' => resized m m' /\ 0 <= write_size m' <= write_size m) ms ms';
  shrunk_total : total_size ms' = Z.max 0 (Z.min (total_size ms) space);
  shrunk_largest : forall i j m m' n n',
    ms !! i = Some m -> ms' !! i = Some m' -> write_size m' < write_size m ->
    ms !! j = Some n -> ms' !! j = Some n' -> 0 < write_size n' -> write_size n <= write_size m }.

(** ** The largest mapping *)

Lemma find_largest_from ms : forall i best k ws,
  find_largest ms i best = Some (k, ws) ->
  ((exists m, (i <= k)%nat /\ ms !! (k - i)%nat = Some m /\ ws = write_size m) \/ best = Some (k, ws)) /\
  Forall (fun m => write_size m <= ws) ms /\
  (forall k0 b, best = Some (k0, b) -> b <= ws).
Proof.
  induction ms as [|m ms IH]; cbn [find_largest]; intros i best k ws Hf.
  { subst best. split_and!; [by right|constructor|]. intros k0 b [= -> ->]. lia. }
  assert (Hhead : forall m', (S i <= k)%nat /\ ms !! (k - S i)%nat = Some m' /\ ws = write_size m' ->
    (i <= k)%nat /\ (m :: ms) !! (k - i)%nat = Some m' /\ ws = write_size m').
  { intros m' (H1 & H2 & H3). split_and!; [lia| |done].
    by replace (k - i)%nat with (S (k - S i)) by lia. }
  assert (Hhere : (i = k /\ write_size m = ws) -> (i <= k)%nat /\ (m :: ms) !! (k - i)%nat = Some m /\ ws = write_size m).
  { intros [-> <-]. by rewrite Nat.sub_diag. }
  destruct (IH _ _ _ _ Hf) as (H1 & H2 & H3). clear IH Hf. destruct best as [[k0 b]|].
  - destruct (b <? write_size m) eqn:E; b2p; specialize (H3 _ _ eq_refl).
    + split_and!; [|constructor; auto; lia|intros ? ? [= _ <-]; lia].
      destruct H1 as [(m' & Hm)|[= E1 E2]]; left; eauto.
    + split_and!; [|constructor; auto; lia|intros ? ? [= _ <-]; lia].
      destruct H1 as [(m' & Hm)|?]; [left; eauto|by right].
  - specialize (H3 _ _ eq_refl). split_and!; [|constructor; auto; lia|done].
    destruct H1 as [(m' & Hm)|[= E1 E2]]; left; eauto.
Qed.

Lemma find_largest_spec ms k ws : find_largest ms 0 None = Some (k, ws) ->
  exists m, ms !! k = Some m /\ write_size m = ws /\ Forall (fun m => write_size m <= ws) ms.
Proof.
  intros Hf. destruct (find_largest_from _ _ _ _ _ Hf) as ([(m & _ & Hm & ->)|?] & H2 & _); [|done].
  rewrite Nat.sub_0_r in Hm. eauto.
Qed.

Lemma find_largest_none ms : forall i best, find_largest ms i best = None -> ms = [] /\ best = None.
Proof.
  induction ms as [|m ms IH]; intros i best Hf; [done|].
  cbn in Hf. apply IH in Hf as [_ Hf]. destruct best as [[k b]|]; [by destruct (b <? _)|done].
Qed.

(** ** Resizing one mapping *)

Lemma total_alter k n ms m : ms !! k = Some m ->
  total_size (alter (set_write_size n) k ms) = total_size ms - write_size m + n.
Proof.
  revert k. induction ms as [|x ms IH]; intros [|k] Hk; cbn; try done.
  - injection Hk as ->. unfold total_size. cbn. lia.
  - unfold total_size in *. cbn in *. rewrite (IH k Hk). lia.
Qed.

Lemma positives_alter k ms m : ms !! k = Some m -> 0 < write_size m ->
  (positives (alter (set_write_size 0) k ms) < positives ms)%nat.
Proof.
  unfold positives. revert k. induction ms as [|x ms IH]; intros [|k] Hk Hm; try done.
  - injection Hk as ->. change (alter _ 0%nat (m :: ms)) with (set_write_size 0 m :: ms).
    rewrite filter_cons_False by (cbn; lia). rewrite filter_cons_True by done. cbn. lia.
  - change (alter ?f (S k) (x :: ms)) with (x :: alter f k ms). specialize (IH k Hk Hm).
    rewrite !filter_cons. destruct (decide _); cbn; lia.
Qed.

Lemma sizes_alter k n ms : 0 <= n -> sizes_ok ms -> sizes_ok (alter (set_write_size n) k ms).
Proof.
  unfold sizes_ok. intros Hn Hs. revert k. induction Hs as [|m ms Hm Hs IH]; intros [|k]; cbn; constructor; auto.
Qed.

Lemma resized_alter_le k n ms m : sizes_ok ms -> ms !! k = Some m -> 0 <= n <= write_size m ->
  Forall2 (fun m m' => resized m m' /\ 0 <= write_size m' <= write_size m) ms (alter (set_write_size n) k ms).
Proof.
  unfold sizes_ok. intros Hs. revert k. induction Hs as [|x ms Hx Hs IH]; intros [|k] Hk Hn; try done.
  - injection Hk as ->. constructor.
    + split; [reflexivity|done].
    + clear -Hs. induction Hs; constructor; auto. split; [reflexivity|lia].
  - change (alter ?f (S k) (x :: ms)) with (x :: alter f k ms). constructor; [split; [reflexivity|lia]|].
    by apply IH.
Qed.

Lemma shrunk_refl space ms : sizes_ok ms -> total_size ms <= Z.max 0 space -> shrunk space ms ms.
Proof.
  intros Hs Ht.
  assert (H0 : 0 <= total_size ms).
  { clear Ht. unfold total_size. induction Hs; cbn; lia. }
  split.
  - clear Ht H0. induction Hs; constructor; auto. split; [reflexivity|lia].
  - lia.
  - intros i j m m' n n' H1 H2. rewrite H1 in H2. injection H2 as ->. lia.
Qed.

Lemma total_zero ms : sizes_ok ms -> Forall (fun m => write_size m <= 0) ms -> total_size ms = 0.
Proof.
  unfold total_size. intros Hs. induction Hs as [|m ms Hm Hs IH]; cbn; [done|].
  intros Hz. inversion_clear Hz. rewrite IH by done. lia.
Qed.

Lemma total_nonneg ms : sizes_ok ms -> 0 <= total_size ms.
Proof. unfold total_size. induction 1; cbn; lia. Qed.

Lemma lookup_alter_case f k (ms : list mapping) i x : alter f k ms !! i = Some x ->
  (i = k /\ exists m, ms !! k = Some m /\ x = f m) \/ (i <> k /\ ms !! i = Some x).
Proof.
  destruct (decide (i = k)) as [->|Hi].
  - rewrite list_lookup_alter, decide_True by done. intros Hx. apply fmap_Some in Hx as (m & Hm & ->). left. eauto.
  - rewrite list_lookup_alter_ne by done. by right.
Qed.

(** Zeroing the largest mapping, then shrinking the rest. *)
Lemma shrunk_zero space ms ms' k m :
  sizes_ok ms -> ms !! k = Some m -> Forall (fun x => write_size x <= write_size m) ms ->
  write_size m < total_size ms - space ->
  shrunk space (alter (set_write_size 0) k ms) ms' -> shrunk space ms ms'.
Proof.
  intros Hs Hk Hmax Hneed [H1 H2 H3].
  assert (Hm : 0 <= write_size m) by (unfold sizes_ok in Hs; rewrite Forall_lookup in Hs; eauto).
  pose proof (resized_alter_le k 0 ms m Hs Hk ltac:(lia)) as Hr. split.
  - revert H1 Hr. clear. generalize (alter (set_write_size 0) k ms). intros ms1 H1 Hr. revert ms' H1.
    induction Hr as [|x y l l' [Hx Hx'] _ IH]; intros ms' H1; inversion_clear H1 as [|? z ? ? [Hy Hy']];
      constructor; auto. split; [by etransitivity|lia].
  - rewrite H2, (total_alter _ _ _ _ Hk). pose proof (total_nonneg _ Hs). lia.
  - intros i j mi mi' n n' Hi Hi' Hlt Hj Hj' Hpos. rewrite Forall_lookup in Hmax.
    destruct (decide (j = k)) as [->|Hjk].
    { exfalso. destruct (Forall2_lookup_r _ _ _ _ _ H1 Hj') as (y & Hy & _ & Hle).
      destruct (lookup_alter_case _ _ _ _ _ Hy) as [[_ (z & _ & ->)]|[? _]]; [cbn in Hle; lia|done]. }
    destruct (decide (i = k)) as [->|Hik].
    { assert (mi = m) as -> by congruence. eauto. }
    eapply (H3 i j); eauto; by rewrite list_lookup_alter_ne.
Qed.

(** Taking what is missing from the largest mapping. *)
Lemma shrunk_cut space ms k m :
  sizes_ok ms -> ms !! k = Some m -> Forall (fun x => write_size x <= write_size m) ms ->
  0 < total_size ms - space <= write_size m ->
  shrunk space ms (alter (set_write_size (write_size m - (total_size ms - space))) k ms).
Proof.
  intros Hs Hk Hmax Hneed. split.
  - apply resized_alter_le with m; auto; lia.
  - rewrite (total_alter _ _ _ _ Hk).
    assert (write_size m <= total_size ms).
    { revert k Hk. clear -Hs. unfold total_size. induction Hs as [|x l Hx Hs IH]; intros [|k] Hk; try done; cbn.
      - injection Hk as ->. pose proof (total_nonneg _ Hs) as Ht. unfold total_size in Ht. lia.
      - specialize (IH k Hk). lia. }
    lia.
  - intros i j mi mi' n n' Hi Hi' Hlt Hj Hj' _. rewrite Forall_lookup in Hmax.
    destruct (lookup_alter_case _ _ _ _ _ Hi') as [[-> _]|[? ?]]; [|assert (mi = mi') by congruence; subst; lia].
    assert (mi = m) as -> by congruence. eauto.
Qed.

(** ** The loop *)

(** Enough iterations (one per mapping with contents, and one more) do all the
    work there is. *)
Lemma prioritize_spec n base max ms :
  (positives ms < n)%nat -> sizes_ok ms -> 0 <= base -> 0 <= max -> base + total_size ms < 2 ^ 64 ->
  shrunk (max - base) ms (prioritize n base max ms).
Proof.
  intros Hn. revert ms Hn. induction n as [|n IH]; intros ms Hn Hs Hb Hm Hlt; [lia|].
  cbn [prioritize]. pose proof (total_nonneg _ Hs) as H0.
  assert (Et : total_core_size base ms = base + total_size ms) by (apply u64_small; unfold total_size in *; lia).
  rewrite Et. destruct (find_largest ms 0 None) as [[k ws]|] eqn:Ef.
  2:{ apply find_largest_none in Ef as [-> _]. apply shrunk_refl; [done|cbn; lia]. }
  destruct (find_largest_spec _ _ _ Ef) as (m & Hk & Hw & Hmax). subst ws.
  destruct (max <? _) eqn:E1; b2p; [|apply shrunk_refl; [done|lia]].
  destruct (0 <? write_size m) eqn:E2; b2p.
  2:{ apply shrunk_refl; [done|]. rewrite total_zero; [lia|done|].
      eapply Forall_impl; [exact Hmax|]. cbn. intros x Hx. lia. }
  destruct (write_size m <? _) eqn:E3; b2p.
  - eapply shrunk_zero; eauto; [lia|]. apply IH; auto.
    + pose proof (positives_alter k ms m Hk E2). lia.
    + by apply sizes_alter.
    + rewrite (total_alter _ _ _ _ Hk). lia.
  - replace (base + total_size ms - max) with (total_size ms - (max - base)) by lia.
    apply shrunk_cut; auto. lia.
Qed.

Lemma positives_le ms : (positives ms <= length ms)%nat.
Proof. apply length_filter. Qed.

Lemma limit_shrunk max offset filesz extra ms :
  0 < max -> sizes_ok ms -> 0 <= offset -> 0 <= filesz ->
  offset + filesz + vdso_size extra + total_size ms < 2 ^ 64 ->
  shrunk (max - (offset + filesz + vdso_size extra)) ms (limit_by_priority max offset filesz extra ms).
Proof.
  intros Hm Hs Ho Hf Hlt. unfold limit_by_priority. destruct (0 <? max) eqn:E; b2p; [|lia].
  assert (Hv : 0 <= vdso_size extra) by (apply Z.mod_pos_bound; lia).
  pose proof (positives_le ms). apply prioritize_spec; auto; lia.
Qed.

(** ** The claim *)

(** C11. When a size is asked for, [CreateElfCore] takes just enough from the
    mappings for the headers, the notes, the vdso and what is left of the memory
    to fit in it, nothing when they fit already and everything when they cannot,
    and takes it from the largest mappings first. *)
Theorem limit_by_priority_shrinks max offset filesz extra ms :
  0 < max -> sizes_ok ms -> 0 <= offset -> 0 <= filesz ->
  offset + filesz + vdso_size extra + total_size ms < 2 ^ 64 ->
  shrunk (max - (offset + filesz + vdso_size extra)) ms (limit_by_priority max offset filesz extra ms).
Proof. apply limit_shrunk. Qed.
