(* ===== verification/MapTypes.v ===== *)
(** The [mappings] array of [CreateElfCore]: whatever the files in /proc hold and
    whatever the system calls do, nothing is stored outside of it, every field of an
    entry holds a value of its C type, and so does every program header that is made
    from one. *)
From S2P Require Import Prelude Syscall KernelSpec ToyKernel CIO ProcIO LeadingZeros Smaps SmapsClaims ElfTypes Vdso ElfCore ElfImage ElfReader Prioritize.

Lemma wlp_any {St A : Type} (m : M St A) X s : (forall c s', X c s') -> wlp m (fun _ _ => True) X s.
Proof. intros HX. unfold wlp. destruct (m s); auto. Qed.

Lemma lor_range n a b : 0 <= n -> 0 <= a < 2 ^ n -> 0 <= b < 2 ^ n -> 0 <= Z.lor a b < 2 ^ n.
Proof.
  intros Hn Ha Hb. assert (Hr : 0 <= Z.lor a b) by (apply Z.lor_nonneg; lia). split; [done|].
  destruct (decide (Z.lor a b = 0)) as [->|Hne]; [lia|].
  apply Z.log2_lt_pow2; [lia|]. rewrite Z.log2_lor by lia.
  assert (H : forall x, 0 <= x < 2 ^ n -> x = 0 \/ Z.log2 x < n).
  { intros x Hx. destruct (decide (x = 0)); [by left|right]. apply Z.log2_lt_pow2; lia. }
  destruct (H a Ha) as [->|], (H b Hb) as [->|]; rewrite ?Z.lor_0_l, ?Z.lor_0_r in Hne; cbn in *; try lia.
  - cbn. pose proof (Z.log2_nonneg b). lia.
  - pose proof (Z.log2_nonneg a). lia.
Qed.

(** A value of a C object: of [size_t], of a file name without its NUL. *)
Definition is_u64 (x : Z) : Prop := 0 <= x < 2 ^ 64.
Definition is_name (nm : list Z) : Prop := zlen nm <= FNAME_MAX - 1 /\ Forall (fun c => 0 <= c /\ c <> nl) nm.

(** An entry of the array as its declaration and the code that fills it want it. *)
Record mapping_typed (m : mapping) : Prop := {
  mt_start : is_u64 (start_address m);
  mt_end : is_u64 (end_address m);
  mt_offset : is_u64 (offset m);
  mt_size : is_u64 (write_size m);
  mt_flags : 0 <= flags m <= PF_MASK;
  mt_readable : Z.land (flags m) PF_R <> 0;
  mt_anon : is_anon m = name_is_anon (name m);
  mt_name : is_name (name m);
  mt_nonempty : start_address m <> end_address m }.

Definition header_typed (h : header) : Prop := is_u64 (h_start h) /\ is_u64 (h_end h) /\ is_u64 (h_offset h) /\ is_name (h_name h).

Lemma hex_digit_range ch : is_hex ch = true -> 0 <= hex_digit ch < 2 ^ 64.
Proof.
  unfold is_hex, hex_digit. rewrite !orb_true_iff, !andb_true_iff, !Z.leb_le. intros Hh.
  destruct (ch <? ord "A") eqn:E; b2p.
  { change (ord "0") with 48 in *. change (ord "9") with 57 in *. change (ord "A") with 65 in *. change (ord "F") with 70 in *.
    change (ord "a") with 97 in *. change (ord "f") with 102 in *. lia. }
  change 15 with (Z.ones 4). rewrite Z.land_ones by lia. pose proof (Z.mod_pos_bound ch (2 ^ 4)). lia.
Qed.

Lemma trim_leading_sub l : sublist (trim_leading l) l.
Proof. induction l as [|c l IH]; cbn; [done|]. destruct (c =? sp); [by apply sublist_cons|done]. Qed.

Lemma trim_name l : is_name l -> is_name (trim_trailing l).
Proof.
  intros [Hl Hf]. unfold trim_trailing. assert (Hs : sublist (trim_leading (rev l)) (rev l)) by apply trim_leading_sub.
  split.
  - apply sublist_length in Hs. revert Hs Hl. unfold zlen. rewrite !length_rev. lia.
  - apply Forall_rev, Forall_forall. intros c Hc. eapply elem_of_sublist in Hc; [|exact Hs].
    apply Forall_rev in Hf. by apply (proj1 (Forall_forall _ _) Hf).
Qed.

Section MapTypes.
Context {W Hd : Type} `{!KernelIO W} `{!AddressSpace}.
Context (fuel : nat) (aarch64 : bool) (uninit : list Z).
Implicit Types (s : cst W Hd) (i : io).
Abbreviation anyhow := (fun (_ : Z) (_ : cst W Hd) => True).

(** Goes over a part of which nothing has to be known. *)
Ltac skip := eapply wlp_mono; [by apply (wlp_any _ anyhow)| |done].

Lemma hex_typed n : forall i hex first c s, is_u64 hex ->
  wlp (GetHexLoop fuel n i hex first c) (fun r _ => is_u64 r.1.2) anyhow s.
Proof.
  induction n as [|n IH]; intros i hex first c s Hh; cbn [GetHexLoop]; [done|].
  wp_step. skip. intros [ch i'] s' _. destruct (is_hex ch) eqn:E; [|by apply wlp_ret].
  apply IH. apply lor_range; [lia|apply u64_range|by apply hex_digit_range].
Qed.

Lemma name_typed n : forall c i acc s, is_name acc ->
  wlp (read_name fuel n c i acc) (fun o _ => forall nm i', o = Some (nm, i') -> is_name nm) anyhow s.
Proof.
  induction n as [|n IH]; intros c i acc s Ha; cbn [read_name]; [done|].
  destruct (c =? nl) eqn:E; cbn [negb]; [apply wlp_ret; intros nm i' [= <- _]; by apply trim_name|].
  destruct (c <? 0) eqn:E1; [by apply wlp_ret|]. b2p. cbv zeta. wp_step. skip. intros [ch i'] s' _. apply IH.
  destruct Ha as [Hl Hf]. destruct (_ <? _) eqn:E2; [|done]. b2p. split; [rewrite zlen_app; unfold zlen in *; cbn; lia|].
  apply Forall_app. split; [done|]. by repeat constructor.
Qed.

Lemma read_header_typed c i s :
  wlp (read_header fuel c i) (fun o _ => forall h i', o = Some (h, i') -> header_typed h) anyhow s.
Proof.
  unfold read_header, GetHex, GetHexWithInitChar, GetHexHelper. assert (H0 : is_u64 0) by done.
  wp_step. eapply wlp_mono; [by apply hex_typed| |done]. intros [[c1 start] i1] s1 H1. cbn in H1.
  destruct (negb _); [by apply wlp_ret|]. wp_step. eapply wlp_mono; [by apply hex_typed| |done].
  intros [[c2 stop] i2] s2 H2. cbn in H2. destruct (negb _); [by apply wlp_ret|].
  wp_step. skip. intros [[fl i3]|] s3 _; [|done]. wp_step. eapply wlp_mono; [by apply hex_typed| |done].
  intros [[c4 off] i4] s4 H4. cbn in H4. destruct (negb _); [by apply wlp_ret|].
  wp_step. skip. intros [[c5 i5]|] s5 _; [|done]. wp_step. skip. intros [[c6 i6]|] s6 _; [|done].
  wp_step. eapply wlp_mono; [by apply name_typed| |done]. intros [[nm i7]|] s7 H7; [|done].
  apply wlp_ret. intros h i' [= <- _]. split_and!; try done. by eapply H7.
Qed.

Lemma access_flags_range fl : 0 <= access_flags fl <= PF_MASK.
Proof.
  unfold access_flags, PF_MASK. change 7 with (Z.ones 3) at 1 2. rewrite Z.land_ones by lia.
  pose proof (Z.mod_pos_bound (Z.shiftr fl 1) (2 ^ 3)). lia.
Qed.

Lemma keep_typed rd wr ps h has_anon dontdump s : is_u64 ps -> header_typed h ->
  wlp (keep_segment fuel uninit rd wr ps h has_anon dontdump) (fun o _ => forall m, o = Some m -> mapping_typed m) anyhow s.
Proof.
  intros Hp (Hs & He & Ho & Hn). unfold keep_segment. cbv zeta. destruct (_ || _) eqn:Ek; [by apply wlp_ret|].
  apply orb_false_iff in Ek as [_ Er]. b2p. wp_step. skip. intros z s' _. destruct (h_end h =? _) eqn:E; [by apply wlp_ret|].
  b2p. apply wlp_ret. intros m [= <-].
  split; cbn; try done; auto using access_flags_range.
  - apply u64_range.
  - unfold segment_write_size. destruct (_ || _); [apply u64_range|]. by destruct (_ && _).
Qed.

Lemma read_mappings_typed n rd wr ps : is_u64 ps -> forall c i kept s, Forall mapping_typed kept ->
  wlp (read_mappings fuel aarch64 uninit n rd wr ps c i kept) (fun o _ => forall ms i', o = Some (ms, i') ->
    Forall mapping_typed ms /\ (length ms <= n + length kept)%nat) anyhow s.
Proof.
  intros Hp. induction n as [|n IH]; intros c i kept s Hk; cbn [read_mappings].
  - apply wlp_ret. intros ms i' [= <- _]. split; [by apply Forall_rev|]. by rewrite length_rev.
  - wp_step. eapply wlp_mono; [apply read_header_typed| |done]. intros [[h i1]|] s1 Hh; [|done].
    wp_step. skip. intros [[[[ha dd] ch] i2]|] s2 _; [|done].
    wp_step. eapply wlp_mono; [apply keep_typed; [done|by eapply Hh]| |done]. intros o s3 Hm.
    eapply wlp_mono; [apply IH|intros r s4 Hr ms i' E; destruct (Hr ms i' E) as [? Hl]; split; [done|]|done].
    + destruct o; [|done]. constructor; [by apply Hm|done].
    + destruct o; cbn in Hl; lia.
Qed.

Lemma prioritize_typed n base max : forall ms, Forall mapping_typed ms ->
  Forall mapping_typed (prioritize n base max ms) /\ length (prioritize n base max ms) = length ms.
Proof.
  assert (Hset : forall w k ms, Forall mapping_typed ms -> is_u64 w ->
    Forall mapping_typed (alter (set_write_size w) k ms) /\ length (alter (set_write_size w) k ms) = length ms).
  { intros w k ms Hms Hw. split; [|apply length_alter]. apply Forall_alter; [done|]. intros m _ []. by split. }
  induction n as [|n IH]; intros ms Hms; cbn [prioritize]; [done|].
  destruct (find_largest ms 0 None) as [[k ws]|] eqn:Ef; [|done].
  destruct (max <? _) eqn:E1; [|done]. destruct (0 <? ws) eqn:E2; [|done]. b2p.
  destruct (find_largest_spec _ _ _ Ef) as (m & Hk & <- & _).
  pose proof (proj1 (Forall_lookup _ _) Hms _ _ Hk) as [_ _ _ Hw _ _ _ _ _]. unfold is_u64 in Hw.
  destruct (_ <? _) eqn:E3; b2p; [|apply Hset; [done|unfold is_u64; lia]].
  destruct (Hset 0 k ms Hms ltac:(done)) as [Ht <-]. by apply IH.
Qed.

Lemma limit_typed max off filesz extra ms : Forall mapping_typed ms ->
  Forall mapping_typed (limit_by_priority max off filesz extra ms) /\ length (limit_by_priority max off filesz extra ms) = length ms.
Proof. intros Hms. unfold limit_by_priority. destruct (0 <? max); [by apply prioritize_typed|done]. Qed.

Lemma load_phdrs_typed ps ms : is_u64 ps -> Forall mapping_typed ms -> forall off filesz, Forall Phdr_wf (load_phdrs off filesz ps ms).
Proof.
  intros Hp. induction 1 as [|m ms [] _ IH]; intros off filesz; cbn [load_phdrs]; constructor; [|apply IH].
  unfold PT_LOAD. split; cbn; auto using u64_range, land_mask_range; lia.
Qed.

(** C17. Memory safety and types of the [mappings] array: on any text of
    /proc/self/smaps, and whatever the system calls return, [load_mappings] fails
    or gives at most as many mappings as the array has places, each of which has
    values of their C types in its fields, a name that fits the buffer with its NUL
    and no line end in it, and is readable and not empty.  The limit by priority
    keeps that, and the program headers made of the mappings hold values of their
    types. *)
Theorem load_mappings_typed rd wr pagesize num_mappings s : is_u64 pagesize -> 0 <= num_mappings ->
  wlp (load_mappings fuel aarch64 uninit rd wr pagesize num_mappings) (fun o _ => forall ms, o = Some ms ->
    zlen ms <= num_mappings /\ Forall mapping_typed ms /\
    forall max off filesz extra, let ms' := limit_by_priority max off filesz extra ms in
      zlen ms' = zlen ms /\ Forall mapping_typed ms' /\ Forall Phdr_wf (load_phdrs off filesz pagesize ms')) anyhow s.
Proof.
  intros Hp Hn. unfold load_mappings, read_error. wp_step. skip. intros fd s1 _. destruct (_ <? _); [by apply wlp_ret|].
  wp_step. skip. intros [ch i] s2 _. destruct (ch <? 0); [wp_step; skip; intros; by apply wlp_ret|].
  wp_step. eapply wlp_mono; [by apply read_mappings_typed| |done]. intros [[ms i']|] s3 Hms; wp_step; skip; intros ? s4 _; apply wlp_ret; [|done].
  intros ms' [= <-]. destruct (Hms _ _ eq_refl) as [Ht Hl]. cbn in Hl. split_and!; [unfold zlen; lia|done|].
  intros max off filesz extra. cbv zeta. destruct (limit_typed max off filesz extra ms Ht) as [Ht' El].
  split_and!; [unfold zlen; by rewrite El|done|by apply load_phdrs_typed].
Qed.
End MapTypes.

(** The array has one place, and the file describes three segments, two of which would be kept. *)
Lemma load_mappings_typed_witness :
  (match load_mappings 500 false [] 3 4 (2 ^ 6) 1 (Cst 0 ex_piped tt) with Ret (Some ms) _ => zlen ms | _ => -1 end) = 1 /\
  wlp (load_mappings 500 false [] 3 4 (2 ^ 6) 1) (fun o _ => forall ms, o = Some ms ->
    zlen ms <= 1 /\ Forall mapping_typed ms /\
    forall max off filesz extra, let ms' := limit_by_priority max off filesz extra ms in
      zlen ms' = zlen ms /\ Forall mapping_typed ms' /\ Forall Phdr_wf (load_phdrs off filesz (2 ^ 6) ms')) (fun _ _ => True) (Cst 0 ex_piped tt).
Proof. split; [by vm_compute|]. by apply load_mappings_typed. Defined.
