(* ===== verification/Scenario.v ===== *)
(** A small concrete process, kernel and set of inputs, on which the theorems
    are instantiated. *)
From S2P Require Import Prelude Syscall KernelSpec ToyKernel CIO ProcIO Smaps ElfTypes Vdso.
From S2P Require Import ElfCore ElfImage Prioritize.

Definition ex_page : Z := 64.

Definition ex_maps : list mapping :=
  [mkMapping 4096 4224 0 128 (PF_R + PF_W) false (bytes "/bin/app");
   mkMapping 8192 8256 0 64 PF_R true (bytes "[heap]")].

Definition ex_info : prpsinfo :=
  mkPrpsinfo 0 (ord "R") 0 0 0 1000 1000 7 1 7 7
    (bytes "app" ++ replicate 13 0) (bytes "app -x" ++ replicate 74 0).

Definition ex_regs : regs :=
  mkRegs 0 0 0 0 0 0 0 0 0 0 60 0 0 0 0 0 4100 0 0 8250 0 0 0 0 0 0 0.

Definition ex_status : prstatus :=
  mkPrstatus (0, 0, 0) 11 0 0 7 1 7 7 (mkTimeval 0 0) (mkTimeval 0 0)
    (mkTimeval 0 0) (mkTimeval 0 0) ex_regs 1.

Definition ex_threads : list thread :=
  [mkThread 7 ex_regs (replicate 512 0); mkThread 9 ex_regs (replicate 512 1)].

Definition ex_notes : list CoredumperNote := [mkNote (bytes "VENDOR") 5 3 [1; 2; 3]].

Lemma ex_inputs_ok : inputs_ok ex_info None ex_threads ex_notes ex_page.
Proof.
  split; try done; repeat (constructor; try done).
Qed.

Definition sized (n : Z) : mapping := mkMapping 0 0 0 n 0 false [].
Definition ex_sizes : list mapping := map sized [4096; 65536; 8192; 65536; 0].

Lemma limit_by_priority_shrinks_witness :
  shrunk (73000 - 4296) ex_sizes (limit_by_priority 73000 100 4096 [mkPhdr 0 0 0 0 0 100 0 0] ex_sizes).
Proof.
  change 4296 with (100 + 4096 + vdso_size [mkPhdr 0 0 0 0 0 100 0 0]).
  apply (limit_by_priority_shrinks 73000 100 4096 [mkPhdr 0 0 0 0 0 100 0 0] ex_sizes); by_compute.
Defined.
