(* ===== verification/CoreClaims.v ===== *)
(** What the file that [write_core] writes means to a reader of core files, with
    an instance on the example process. *)
From S2P Require Import Prelude Syscall KernelSpec ToyKernel CIO ProcIO Smaps ElfTypes Vdso.
From S2P Require Import ElfCore ElfImage ElfWrite ElfLayout ElfReader Prioritize Scenario.

(** ** The extra segments of the vdso *)

Lemma unle_bound l : unle l < 2 ^ (8 * zlen l).
Proof.
  unfold zlen. induction l as [|b l IH]; cbn [unle length]; [done|]. pose proof (Z.mod_pos_bound b 256).
  replace (8 * Z.of_nat (S (length l))) with (8 + 8 * Z.of_nat (length l)) by lia.
  rewrite Z.pow_add_r by lia. lia.
Qed.

Lemma peek_le_range `{AddressSpace} a n : 0 <= peek_le a n < 2 ^ (8 * Z.of_nat n).
Proof.
  split; [apply unle_nonneg|]. pose proof (unle_bound (peek_bytes a n)) as Hb.
  unfold zlen in Hb. by rewrite length_peek_bytes in Hb.
Qed.

Lemma vdso_extra_wf `{AddressSpace} ehdr : Forall Phdr_wf (vdso_extra ehdr).
Proof.
  unfold vdso_extra. destruct (ehdr =? 0); [constructor|]. apply Forall_forall.
  intros p [_ Hp]%list_elem_of_filter. unfold vdso_phdrs in Hp.
  apply list_elem_of_fmap in Hp as (i & -> & _). split; apply peek_le_range.
Qed.

Lemma vdso_extra_no_load `{AddressSpace} ehdr : Forall (fun p => p_type p <> PT_LOAD) (vdso_extra ehdr).
Proof.
  unfold vdso_extra. destruct (ehdr =? 0); [constructor|]. apply Forall_forall.
  by intros p [Hp _]%list_elem_of_filter.
Qed.

(** ** Reading the written file *)

Section Written.
Context {W Hd : Type} `{!KernelIO W} `{!AddressSpace} `{!Files W}
  `{!Interrupts W} `{!AuxvWhole W} `{!ReadReady W}.
Context (writer : ptr -> Z -> M (cst W Hd) Z) (inv : cst W Hd -> Prop) (out : cst W Hd -> list Z)
  (own : Z -> Prop) (room : Hd -> option Z) (nmax : list Z -> Z) `{!LimitedWriter writer inv out own room nmax}.
Context (fuel : nat) (info : prpsinfo) (user : option (list Z)) (st : prstatus) (ts : list thread)
  (pagesize pml main_pid : Z) (notes : list CoredumperNote) (ms : list mapping)
  (es : list (list Z)) (rest : list Z) (vdso : Z) (s : cst W Hd).
Hypothesis (fuel_ok : forall s, inv s -> (intr (world s) < fuel)%nat).
Hypothesis (ins : inputs_ok info user ts notes pagesize).
Hypothesis (entries : Forall (fun e => zlen e = sizeof_auxv_t) es).
Hypothesis (few_entries : zlen es * 16 < 2 ^ 32).
Hypothesis (auxv_there : has_file "/proc/self/auxv").
Hypothesis (auxv_is : file_bytes "/proc/self/auxv" = concat es ++ rest).
Hypothesis (files_small : zlen (nt_file_desc pagesize ms) < 2 ^ 32).
Hypothesis (pids : NoDup (map t_pid ts)).

Abbreviation dumped := (final_mappings user ts pagesize pml notes (zlen es) (vdso_extra vdso) ms).
Abbreviation img := (core_image info user st ts pagesize main_pid notes dumped (concat es) (vdso_extra vdso)).

Hypothesis (dumped_ok : Forall mapping_ok dumped).
Hypothesis (img_small : zlen img < Z.min (nmax (out s)) SSIZE_LIM).
Hypothesis (img_fits : fits (room (hnd s)) (zlen img)).
Hypothesis (inv_s : inv s).
Hypothesis (slots_s : (0 < slots (world s))%nat).

Lemma dumped_sizes : Forall (fun m => 0 <= write_size m) dumped.
Proof. eapply Forall_impl; [exact dumped_ok|]. intros m (_ & _ & ?). lia. Qed.

Lemma write_core_all :
  wp (write_core fuel writer info user st ts pagesize pml main_pid notes ms (zlen es) vdso)
    (fun o s' => o = Some tt /\ out s' = out s ++ img) s.
Proof.
  eapply wp_mono; [eapply (write_core_emits writer inv out own room nmax);
    eauto using dumped_sizes|].
  intros o s' (_ & Hsent & _). destruct o as [[]|]; [by destruct Hsent as (_ & _ & ?)|].
  destruct Hsent as (r & Hr & Hlt & _). unfold fits in img_fits. rewrite Hr in img_fits. lia.
Qed.

Lemma dumped_length : zlen dumped = zlen ms.
Proof.
  assert (Hr : Forall2 resized ms dumped) by apply limit_resized.
  unfold zlen. by rewrite (Forall2_length _ _ _ Hr).
Qed.

Lemma zlen_es : zlen (concat es) = zlen es * 16.
Proof. by apply zlen_concat_const. Qed.

Lemma lay : layout_ok info user ts notes pagesize (concat es) dumped (vdso_extra vdso).
Proof.
  split; auto using dumped_sizes, vdso_extra_filesz. rewrite zlen_es. unfold sizeof_auxv_t.
  by apply Z.mod_mul.
Qed.

Lemma img_lim : zlen img < SSIZE_LIM.
Proof. lia. Qed.

(** What the headers, the notes and the vdso take. *)
Definition fixed_size : Z :=
  let filesz := notes_filesz user (zlen ts) notes (zlen es) ms in
  let noffset := notes_offset (zlen ms + zlen (vdso_extra vdso) + 1) in
  u64 (noffset + note_align noffset filesz pagesize) + filesz + vdso_size (vdso_extra vdso).

Lemma zlen_img : zlen img = fixed_size + total_size dumped.
Proof.
  pose proof (parts_small info user st ts pagesize main_pid notes dumped (concat es) (vdso_extra vdso) img_lim) as Hs.
  pose proof (zlen_prefix info user st ts pagesize main_pid notes dumped (concat es) (vdso_extra vdso) lay img_lim) as E.
  pose proof (data_offset_small info user st ts pagesize main_pid notes dumped (concat es) (vdso_extra vdso) lay img_lim) as Eo.
  rewrite img_parts, zlen_app, E.
  rewrite (zlen_app (concat _)). rewrite E in Hs.
  rewrite (zlen_sum write_size segment_image), (zlen_sum p_filesz vdso_image) in *
    by (eapply Forall_impl; [apply dumped_sizes || apply vdso_extra_filesz|]; intros; by apply zlen_content_mem).
  assert (Hr : Forall2 resized ms dumped) by apply limit_resized.
  assert (Hna : zlen (concat es) / sizeof_auxv_t = zlen es) by (rewrite zlen_es; by apply Z.div_mul).
  rewrite dumped_length, Hna, (notes_filesz_resized _ _ _ _ _ _ Hr) in *.
  unfold fixed_size. rewrite Eo. unfold vdso_size, total_size. rewrite u64_small; [lia|].
  assert (forall l, Forall (fun p => 0 <= p_filesz p) l -> 0 <= foldr (fun p n => p_filesz p + n) 0 l)  as Hsum.
  { induction 1; cbn; lia. }
  pose proof (Hsum _ (vdso_extra_filesz vdso)). pose proof (total_nonneg _ dumped_sizes) as Ht. unfold total_size in Ht.
  pose proof (u64_range (notes_offset (zlen ms + zlen (vdso_extra vdso) + 1) +
    note_align (notes_offset (zlen ms + zlen (vdso_extra vdso) + 1)) (notes_filesz user (zlen ts) notes (zlen es) ms) pagesize)) as Hu.
  rewrite Eo in Hu.
  assert (0 <= notes_filesz user (zlen ts) notes (zlen es) ms) by apply u64_range. unfold SSIZE_LIM in *. lia.
Qed.

(** C12. The size of the file when one was asked for: the headers, the notes and
    the vdso are always written, and as much memory as there is still space for. *)
Theorem prioritized_size : 0 < pml -> sizes_ok ms -> fixed_size + total_size ms < 2 ^ 64 ->
  wp (write_core fuel writer info user st ts pagesize pml main_pid notes ms (zlen es) vdso)
    (fun o s' => o = Some tt /\ exists file, out s' = out s ++ file /\
       zlen file = fixed_size + Z.max 0 (Z.min (total_size ms) (pml - fixed_size))) s.
Proof.
  intros Hp Hs Hlt. eapply wp_mono; [apply write_core_all|]. intros o s' [-> Ho]. split; [done|].
  exists img. split; [done|]. rewrite zlen_img. f_equal. unfold fixed_size in *.
  apply shrunk_total. unfold final_mappings.
  assert (0 <= notes_filesz user (zlen ts) notes (zlen es) ms) by apply u64_range.
  apply limit_shrunk; auto; apply u64_range.
Qed.

(** C4. Every byte of memory that the dump holds, looked up in the written file
    by its address through the program headers, is the byte of the process. *)
Theorem written_memory : zlen ms + zlen (vdso_extra vdso) + 1 < 2 ^ 16 ->
  wp (write_core fuel writer info user st ts pagesize pml main_pid notes ms (zlen es) vdso)
    (fun o s' => o = Some tt /\ exists file, out s' = out s ++ file /\
       forall m a, In m dumped -> start_address m <= a < start_address m + write_size m ->
         read_mem file a = Some (peek a)) s.
Proof.
  intros Hp. eapply wp_mono; [apply write_core_all|]. intros o s' [-> Ho]. split; [done|].
  exists img. split; [done|]. intros m a Hm Ha. eapply read_mem_core;
    eauto using lay, img_lim, vdso_extra_wf, vdso_extra_no_load. by rewrite dumped_length.
Qed.

(** C5. The first program header of the written file is a PT_NOTE that covers
    exactly the notes; they parse as the format prescribes, and say who was
    dumped, the auxv, the registers of every thread with the dumping thread
    first, the caller's own notes and the mapped files. *)
Theorem written_notes : zlen ms + zlen (vdso_extra vdso) + 1 < 2 ^ 16 ->
  Forall (fun n => 0 <= note_type n < 2 ^ 32) notes ->
  wp (write_core fuel writer info user st ts pagesize pml main_pid notes ms (zlen es) vdso)
    (fun o s' => o = Some tt /\ exists file ph phs, out s' = out s ++ file /\
       read_phdrs file = ph :: phs /\ p_type ph = PT_NOTE /\
       let ns := core_notes info user st ts pagesize main_pid notes dumped (concat es) in
       parse_notes (length ns) (slice (p_offset ph) (p_filesz ph) file) = Some ns) s.
Proof.
  intros Hp Hty. eapply wp_mono; [apply write_core_all|]. intros o s' [-> Ho]. split; [done|].
  exists img. do 2 eexists. split; [done|].
  split; [eapply read_phdrs_core; eauto using lay, img_lim, vdso_extra_wf; by rewrite dumped_length|].
  split; [done|]. cbn zeta.
  destruct (note_points info user st ts pagesize main_pid notes dumped (concat es) (vdso_extra vdso) lay img_lim)
    as [_ ->].
  rewrite notes_enc by (done || apply lay). apply parse_enc_notes; [|done].
  apply core_notes_wf; [done|apply lay|done|by rewrite zlen_es|].
  assert (Hr : Forall2 resized ms dumped) by apply limit_resized.
  by rewrite (nt_file_desc_resized _ _ _ Hr).
Qed.
End Written.

(** ** Instances *)

Definition ex_limit : Z := 300.
Definition ex_writer : ptr -> Z -> M (cst toy WriterFds) Z := LimitWriter ex_fuel.
Definition ex_inv (s : cst toy WriterFds) : Prop := limit_inv (out := toy_out) s /\ ready (out := toy_out) ex_fuel s.
Definition ex_room (h : WriterFds) : option Z := Some (max_length h).
Definition ex_start (limit : Z) : cst toy WriterFds := Cst 0 ex_world (mkWriterFds limit (-1) (-1) toy_out).
Definition ex_ms : list mapping := final_mappings None ex_threads ex_page 0 ex_notes (zlen ex_aux) (vdso_extra 0) ex_maps.
Definition ex_img : list Z :=
  core_image ex_info None ex_status ex_threads ex_page 7 ex_notes ex_ms (concat ex_aux) (vdso_extra 0).
Definition ex_dump : M (cst toy WriterFds) (option unit) :=
  write_core ex_fuel ex_writer ex_info None ex_status ex_threads ex_page 0 7 ex_notes ex_maps (zlen ex_aux) 0.

Lemma ex_inv_fuel s : ex_inv s -> (intr (world s) < ex_fuel)%nat.
Proof. by intros [_ [Hi _]]. Qed.

Lemma ex_inv_start limit : 0 <= limit < 2 ^ 64 -> ex_inv (ex_start limit).
Proof. intros Hl. split; [by split|]. split; [by_compute|done]. Qed.

Lemma ex_entries : Forall (fun e => zlen e = sizeof_auxv_t) ex_aux.
Proof. by_compute. Qed.

(** A file cut at 300 bytes. *)
Lemma write_core_witness :
  wp ex_dump
    (fun o s' => ex_inv s' /\ sink (world s') = ztake ex_limit ex_img /\ (o = Some tt <-> zlen ex_img <= ex_limit) /\
       ex_room (hnd s') = Some (Z.max 0 (ex_limit - zlen ex_img))) (ex_start ex_limit).
Proof.
  pose proof (write_core_writes_image ex_writer ex_inv (fun s => sink (world s)) (eq toy_out) ex_room (fun _ => nmax ex_fuel) ex_fuel
    ex_info None ex_status ex_threads ex_page 0 7 ex_notes ex_maps ex_aux [] 0 (ex_start ex_limit)
    ex_inv_fuel ex_inputs_ok ex_entries) as P.
  cbn [hnd ex_start max_length ex_room] in P. apply P; clear P; try by_compute.
  by apply ex_inv_start.
Defined.

(** A whole file. *)
Lemma ex_fits : fits (ex_room (hnd (ex_start 100000))) (zlen ex_img).
Proof. change (zlen ex_img <= 100000). by_compute. Qed.

Lemma written_memory_witness :
  wp ex_dump (fun o s' => o = Some tt /\ exists file, sink (world s') = [] ++ file /\
    forall m a, In m ex_ms -> start_address m <= a < start_address m + write_size m ->
      read_mem file a = Some (peek a)) (ex_start 100000).
Proof.
  pose proof (written_memory ex_writer ex_inv (fun s => sink (world s)) (eq toy_out) ex_room (fun _ => nmax ex_fuel) ex_fuel
    ex_info None ex_status ex_threads ex_page 0 7 ex_notes ex_maps ex_aux [] 0 (ex_start 100000)
    ex_inv_fuel ex_inputs_ok ex_entries) as P.
  apply P; clear P; try by_compute.
  - exact ex_fits.
  - by apply ex_inv_start.
Defined.

Lemma written_notes_witness :
  wp ex_dump (fun o s' => o = Some tt /\ exists file ph phs, sink (world s') = [] ++ file /\
    read_phdrs file = ph :: phs /\ p_type ph = PT_NOTE /\
    let ns := core_notes ex_info None ex_status ex_threads ex_page 7 ex_notes ex_ms (concat ex_aux) in
    parse_notes (length ns) (slice (p_offset ph) (p_filesz ph) file) = Some ns) (ex_start 100000).
Proof.
  pose proof (written_notes ex_writer ex_inv (fun s => sink (world s)) (eq toy_out) ex_room (fun _ => nmax ex_fuel) ex_fuel
    ex_info None ex_status ex_threads ex_page 0 7 ex_notes ex_maps ex_aux [] 0 (ex_start 100000)
    ex_inv_fuel ex_inputs_ok ex_entries) as P.
  apply P; clear P; try by_compute.
  - exact ex_fits.
  - by apply ex_inv_start.
Defined.

(** A size that leaves 40 of the 192 bytes of memory. *)
Definition ex_asked : Z := 2408.

Lemma prioritized_size_witness :
  wp (write_core ex_fuel ex_writer ex_info None ex_status ex_threads ex_page ex_asked 7 ex_notes ex_maps (zlen ex_aux) 0)
    (fun o s' => o = Some tt /\ exists file, sink (world s') = [] ++ file /\
       let fixed := fixed_size None ex_threads ex_page ex_notes ex_maps ex_aux 0 in
       zlen file = fixed + Z.max 0 (Z.min (total_size ex_maps) (ex_asked - fixed))) (ex_start 100000).
Proof.
  pose proof (prioritized_size ex_writer ex_inv (fun s => sink (world s)) (eq toy_out) ex_room (fun _ => nmax ex_fuel) ex_fuel
    ex_info None ex_status ex_threads ex_page ex_asked 7 ex_notes ex_maps ex_aux [] 0 (ex_start 100000)
    ex_inv_fuel ex_inputs_ok ex_entries) as P.
  apply P; clear P; try by_compute.
  - eapply Z.le_trans; [|exact ex_fits]. by_compute.
  - by apply ex_inv_start.
Defined.

Lemma write_auxv_leaks_witness :
  wp (write_auxv ex_fuel ex_writer 2) (fun o s' => o = Some tt /\ sink (world s') = [] ++ auxv_note ex_aux /\
    exists fd, ~ rd_open ex_world fd /\ rd_open (world s') fd) (ex_start 100000).
Proof.
  pose proof (write_auxv_leaks ex_writer ex_inv (fun s => sink (world s)) (eq toy_out) ex_room (fun _ => nmax ex_fuel) ex_fuel
    ex_aux [] (ex_start 100000) ex_inv_fuel) as P.
  apply P; clear P; try (done || by_compute).
  by apply ex_inv_start.
Defined.
