(* ===== verification/CreateCore.v ===== *)
(** [CreateElfCore] as a whole: from the text of /proc/self/maps, /proc/self/smaps
    and /proc/self/auxv to a file from which the memory can be read back. *)
From S2P Require Import Prelude Syscall KernelSpec ToyKernel CIO FileOps ProcIO LeadingZeros Smaps.
From S2P Require Import Stream SmapsText ElfTypes Vdso ElfCore Untouched SmapsClaims VdsoClaims.
From S2P Require Import ElfImage ElfWrite ElfLayout ElfReader Prioritize Scenario CoreClaims.

(** ** The mappings of the segments *)

Section Segments.
Context {W : Type} `{!KernelIO W} `{!AddressSpace} `{!Files W} {k : Z} `{!PipePage W (2 ^ k)}.
Hypothesis (page_bits : 0 <= k < 63).
Abbreviation ps := (2 ^ k).

(** The run of blank pages is made of blank pages. *)
Lemma blank_pages_blank n : forall a (j : nat), (j < blank_pages (pagesize := ps) n a)%nat ->
  blank (pagesize := ps) (a + ps * Z.of_nat j) = true.
Proof.
  induction n as [|n IH]; intros a j Hj; cbn [blank_pages] in Hj; [lia|].
  destruct (blank a) eqn:E; [|lia]. destruct j as [|j]; [by rewrite Z.mul_0_r, Z.add_0_r|].
  replace (a + ps * Z.of_nat (S j)) with (a + ps + ps * Z.of_nat j) by lia. apply IH. lia.
Qed.

Lemma blank_pages_le n : forall a, (blank_pages (pagesize := ps) n a <= n)%nat.
Proof. induction n as [|n IH]; intros a; cbn [blank_pages]; [lia|]. destruct (blank a); [|lia]. specialize (IH (a + ps)). lia. Qed.

Definition first_page (g : segment) : Z :=
  s_start (g_header g) + ps * Z.of_nat (blank_pages (pagesize := ps) (pages ps g) (s_start (g_header g))).

Lemma first_page_range g : segment_ok ps g ->
  0 <= s_start (g_header g) <= first_page g /\ first_page g <= s_end (g_header g) < 2 ^ 64.
Proof.
  intros [[[Hs Hs2] [He He2] _ _ _ _ _ _] _ _ _ Hp _]. unfold first_page.
  pose proof (blank_pages_le (pages ps g) (s_start (g_header g))). pose proof (Z.pow_nonneg 2 k). nia.
Qed.

Lemma seg_mapping_some aarch64 g m : segment_ok ps g -> seg_mapping (ps := ps) aarch64 g = Some m ->
  start_address m = first_page g /\ write_size m = to_write ps g (first_page g) /\ mapping_ok m.
Proof.
  intros Hg. pose proof (first_page_range g Hg) as Hr. unfold seg_mapping. fold (first_page g).
  destruct (s_perms (g_header g)) as [[[r w] x] p] eqn:Ep. destruct (_ || _); [done|].
  destruct (_ =? _) eqn:Ee; [done|]. intros [= <-]. split_and!; [done|done|]. b2p. unfold mapping_ok, to_write. cbn.
  split_and!; try lia; rewrite Ep; assert (0 <= ps < 2 ^ 63) by (split; [by apply Z.pow_nonneg|apply Z.pow_lt_mono_r; lia]).
  all: destruct (_ || _); [lia|]; destruct (_ && _); lia.
Qed.

(** The memory of [g] is wanted: it may be read, is not excluded, and is not just
    a copy of a file. *)
Definition wanted (aarch64 : bool) (g : segment) : Prop :=
  let h := g_header g in
  let '(r, w, _, _) := s_perms h in
  vm_dont_dump aarch64 (g_flags g) = false /\ r <> ord "-" /\
  (anonymous_name (segment_name h) = true \/ has_anonymous false (g_lines g) = true \/ w <> ord "-").

(** Every address of a wanted segment is in the mapping made of it, or in a page
    of zeros or one that cannot be read. *)
Lemma wanted_address aarch64 g a : segment_ok ps g -> wanted aarch64 g ->
  s_start (g_header g) <= a < s_end (g_header g) ->
  (exists m, seg_mapping (ps := ps) aarch64 g = Some m /\ start_address m <= a < start_address m + write_size m) \/
  (exists p, blank (pagesize := ps) p = true /\ p mod ps = 0 /\ p <= a < p + ps).
Proof.
  intros Hg Hw Ha. pose proof (first_page_range g Hg) as Hr. assert (Hps : 0 < ps) by (apply Z.pow_pos_nonneg; lia).
  destruct (Z.ltb_spec a (first_page g)) as [Hlt|Hge].
  - right. set (j := (a - s_start (g_header g)) / ps). exists (s_start (g_header g) + ps * j).
    pose proof (Z.div_mod (a - s_start (g_header g)) ps). pose proof (Z.mod_pos_bound (a - s_start (g_header g)) ps Hps).
    assert (0 <= j) by (apply Z.div_pos; lia). fold j in H. split; [|split; [|lia]];
      [|rewrite Z.mul_comm, Z.mod_add by lia; apply Hg]. rewrite <- (Z2Nat.id j) by done.
    apply (blank_pages_blank (pages ps g)). unfold first_page in Hlt. nia.
  - left. unfold wanted in Hw. unfold seg_mapping. fold (first_page g).
    assert (Ew : to_write ps g (first_page g) = s_end (g_header g) - first_page g).
    { unfold to_write. destruct (s_perms _) as [[[r w] x] p]. destruct Hw as (_ & _ & Hw).
      destruct Hw as [->|[->|Hw]]; [done|by rewrite orb_true_r|]. by rewrite (proj2 (Z.eqb_neq w _)), orb_true_r. }
    destruct (s_perms _) as [[[r w] x] p]. destruct Hw as (-> & Hr' & _). rewrite (proj2 (Z.eqb_neq r _)) by done. cbn [orb].
    rewrite (proj2 (Z.eqb_neq _ _)) by lia. eexists. split; [done|]. cbn. lia.
Qed.
End Segments.

(** ** The inputs of a dump *)

Section Inputs.
Context {W : Type} `{!KernelIO W} `{!AddressSpace} `{!Files W} {k : Z} `{!PipePage W (2 ^ k)}.
Context (aarch64 : bool) (info : prpsinfo) (user : option (list Z)) (st : prstatus) (ts : list thread) (main_pid : Z)
  (notes : list CoredumperNote) (gs : list segment) (es : list (list Z)) (last : list Z).
Abbreviation ps := (2 ^ k).

(** The mappings and the vdso that are found in the segments. *)
Definition found : list mapping := omap (seg_mapping (ps := ps) aarch64) gs.
Definition found_vdso : Z :=
  let v := vdso_address (es ++ [last]) in if negb (v =? 0) then check_vdso v found else 0.

(** What CreateElfCore finds under /proc: the text of the mappings and segments
    [gs], and the entries of the auxv, with fuel for their sizes. *)
Record proc_files (fuel : nat) (maps rest : list Z) : Prop := {
  pf_maps : has_file "/proc/self/maps";
  pf_smaps : has_file "/proc/self/smaps";
  pf_auxv : has_file "/proc/self/auxv";
  pf_maps_is : file_bytes "/proc/self/maps" = maps;
  pf_maps_chars : Forall (fun c => 0 <= c) maps;
  pf_maps_lines : zlen (filter (fun c => c = nl) maps) = zlen gs;
  pf_maps_few : zlen gs < 2 ^ 31;
  pf_maps_fuel : (length maps < fuel)%nat;
  pf_smaps_is : file_bytes "/proc/self/smaps" = concat (map segment_text gs);
  pf_some : gs <> [];
  pf_segments : Forall (segment_ok ps) gs;
  pf_no_device : Forall (fun g => is_device (segment_name (g_header g)) = false) gs;
  pf_segments_fuel : Forall (fuel_for (k := k) fuel) gs;
  pf_page_fuel : ps < Z.of_nat fuel;
  pf_auxv_is : file_bytes "/proc/self/auxv" = concat (es ++ [last]) ++ rest;
  pf_entries : Forall (fun e => zlen e = sizeof_auxv_t) (es ++ [last]);
  pf_not_null : Forall (fun e => a_type e <> AT_NULL) es;
  pf_null_last : a_type last = AT_NULL;
  pf_auxv_fuel : (length es < fuel)%nat;
  pf_few_entries : zlen (es ++ [last]) * 16 < 2 ^ 32 }.

(** The file that is written. *)
Definition core_file : list Z :=
  core_image info user st ts ps main_pid notes found (concat (es ++ [last])) (vdso_extra found_vdso).

(** The other inputs are well-formed, and the file is not too large. *)
Record core_inputs (size : Z) : Prop := {
  ci_ins : inputs_ok info user ts notes ps;
  ci_pids : NoDup (map t_pid ts);
  ci_files : zlen (nt_file_desc ps found) < 2 ^ 32;
  ci_phdrs : zlen found + zlen (vdso_extra found_vdso) + 1 < 2 ^ 16;
  ci_small : zlen core_file < Z.min size SSIZE_LIM }.
End Inputs.

(** ** The whole function *)

Section Create.
Context {W Hd : Type} `{!KernelIO W} `{!AddressSpace} `{!Files W} `{!Interrupts W} `{!AuxvWhole W} `{!ReadReady W}
  `{!Pipes W} {k : Z} `{!PipePage W (2 ^ k)}.
Context (writer : ptr -> Z -> M (cst W Hd) Z) (inv : cst W Hd -> Prop) (out : cst W Hd -> list Z)
  (own : Z -> Prop) (room : Hd -> option Z) (nmax : list Z -> Z) `{!LimitedWriter writer inv out own room nmax} `{!PipeFrame inv out own}.
Context (fuel : nat) (is_done : Hd -> Z) (aarch64 : bool) (uninit : list Z)
  (info : prpsinfo) (user : option (list Z)) (st : prstatus) (ts : list thread) (main_pid : Z) (notes : list CoredumperNote).
Context (maps : list Z) (gs : list segment) (es : list (list Z)) (last : list Z) (rest : list Z) (s : cst W Hd).
Abbreviation ps := (2 ^ k).

(** The machine: files under /proc, descriptors to spare, an output of its own. *)
Hypothesis (page_bits : 0 <= k < 31).
Hypothesis (fuel_ok : forall s, inv s -> (intr (world s) < fuel)%nat).
Hypothesis (own_fd : forall f, own f -> 0 <= f).
Hypothesis (maps_there : has_file "/proc/self/maps").
Hypothesis (smaps_there : has_file "/proc/self/smaps").
Hypothesis (auxv_there : has_file "/proc/self/auxv").
Hypothesis (slots_s : (6 <= slots (world s))%nat).
Hypothesis (inv_s : inv s).

(** What is in the files. *)
Hypothesis (maps_is : file_bytes "/proc/self/maps" = maps).
Hypothesis (maps_chars : Forall (fun c => 0 <= c) maps).
Hypothesis (maps_lines : zlen (filter (fun c => c = nl) maps) = zlen gs).
Hypothesis (maps_few : zlen gs < 2 ^ 31).
Hypothesis (maps_fuel : (length maps < fuel)%nat).
Hypothesis (smaps_is : file_bytes "/proc/self/smaps" = concat (map segment_text gs)).
Hypothesis (some_segment : gs <> []).
Hypothesis (segments_ok : Forall (segment_ok ps) gs).
Hypothesis (no_device : Forall (fun g => is_device (segment_name (g_header g)) = false) gs).
Hypothesis (segments_fuel : Forall (fuel_for (k := k) fuel) gs).
Hypothesis (page_fuel : ps < Z.of_nat fuel).
Hypothesis (auxv_is : file_bytes "/proc/self/auxv" = concat (es ++ [last]) ++ rest).
Hypothesis (entries : Forall (fun e => zlen e = sizeof_auxv_t) (es ++ [last])).
Hypothesis (not_null : Forall (fun e => a_type e <> AT_NULL) es).
Hypothesis (null_last : a_type last = AT_NULL).
Hypothesis (auxv_fuel : (length es < fuel)%nat).
Hypothesis (few_entries : zlen (es ++ [last]) * 16 < 2 ^ 32).

Abbreviation found := (found (k := k) aarch64 gs).
Abbreviation found_vdso := (found_vdso (k := k) aarch64 gs es last).
Abbreviation file := (core_file (k := k) aarch64 info user st ts main_pid notes gs es last).

(** The rest of the input, and room for the file. *)
Hypothesis (ins : inputs_ok info user ts notes ps).
Hypothesis (pids : NoDup (map t_pid ts)).
Hypothesis (files_small : zlen (nt_file_desc ps found) < 2 ^ 32).
Hypothesis (phdrs_few : zlen found + zlen (vdso_extra found_vdso) + 1 < 2 ^ 16).
Context (size : Z).
Hypothesis (file_small : zlen file < Z.min size SSIZE_LIM) (size_allowed : size <= nmax (out s)).

Lemma found_ok : Forall mapping_ok found.
Proof.
  clear slots_s inv_s. unfold found. apply Forall_forall. intros m Hm. apply list_elem_of_omap in Hm as (g & Hg & E).
  rewrite Forall_forall in segments_ok. apply (seg_mapping_some (k := k)) in E; [apply E|lia|by apply segments_ok].
Qed.

Lemma final_found : final_mappings user ts ps 0 notes (zlen (es ++ [last])) (vdso_extra found_vdso) found = found.
Proof. done. Qed.

(** Reading /proc, with a loopback pipe. *)
Lemma create_body_all rd wr s1 : inv s1 -> out s1 = out s -> hnd s1 = hnd s ->
  (4 <= slots (world s1))%nat ->
  pipe_of (world s1) wr = Some rd -> rd_open (world s1) rd -> unread (world s1) rd = [] -> ~ own rd ->
  wp (create_body fuel writer aarch64 uninit info user st ts ps 0 main_pid notes (rd, wr))
    (fun o s' => inv s' /\ sent out room file o s s') s1.
Proof.
  intros Hi Ho Hh Hsl Hp Hro Hu Hord.
  assert (Hun : untouched inv out wr s1 s1) by (split_and!; eauto).
  assert (Hi1 : (intr (world s1) < fuel)%nat) by auto.
  unfold create_body. wp_step. eapply wp_mono.
  { eapply wp_conj; [apply (count_mappings_spec fuel maps); auto; lia|].
    by apply (keeps_count_mappings inv out own wr fuel own_fd). }
  cbn beta. intros o s2 [[-> O2] U2]. cbn beta iota. wp_step.
  pose proof O2 as (_ & I2 & R2 & P2 & S2). eapply wp_mono.
  { eapply wp_conj; [apply (CountAUXV_spec fuel es last rest); auto; lia|].
    by apply (keeps_CountAUXV inv out own wr fuel own_fd). }
  cbn beta. intros r s3 [[-> O3] U3]. cbn beta iota. wp_step.
  pose proof (opened_trans 1 1 _ _ _ O2 O3) as (_ & I3 & R3 & P3 & S3). destruct (R3 rd Hro) as [Hro3 E3].
  rewrite maps_lines. eapply wp_mono.
  { eapply wp_conj; [apply (load_mappings_spec (k := k) fuel aarch64 uninit rd wr s3); auto; try lia;
      [by rewrite P3|congruence]|].
    by apply (keeps_load_mappings inv out own wr fuel own_fd). }
  cbn beta. intros o s4 [[-> O4] (Hi4 & Ho4 & _)]. cbn [fst snd]. cbn beta iota.
  pose proof (opened_trans 2 1 _ _ _ (opened_trans 1 1 _ _ _ O2 O3) O4) as (H4 & _ & _ & _ & S4).
  fold found. fold found_vdso. replace (zlen es + 1) with (zlen (es ++ [last])) by (rewrite zlen_app; done).
  eapply wp_mono; [eapply (write_core_emits writer inv out own room nmax); eauto|].
  - rewrite final_found. eapply Forall_impl; [exact found_ok|]. intros m (_ & _ & ?). lia.
  - unfold ElfImage.allowed. change (core_image _ _ _ _ _ _ _ _ _ _) with file. rewrite Ho4, Ho. lia.
  - cbn. lia.
  - intros o s5 (Hi5 & Hsent & _). rewrite final_found in Hsent. split; [done|].
    unfold sent, core_file in *. rewrite H4, Hh in Hsent. rewrite Ho4, Ho in Hsent. exact Hsent.
Qed.

Lemma close_if_open_quiet fd s1 : inv s1 -> ~ own fd ->
  wp (close_if_open fuel fd) (fun _ s' => inv s' /\ out s' = out s1 /\ hnd s' = hnd s1) s1.
Proof.
  intros Hi Hf. unfold close_if_open. destruct (0 <=? fd); [|by apply wp_ret]. wp_step.
  eapply wp_mono; [by eapply (close_quiet writer inv out own room nmax fuel)|]. by intros rc s' (? & ? & ?).
Qed.

(** The file is sent to the output, which may not have room for all of it. *)
Lemma CreateElfCore_image :
  wp (CreateElfCore fuel writer is_done aarch64 uninit info user st ts ps 0 main_pid notes)
    (fun rc s' => inv s' /\ exists o, sent out room file o s s' /\
       rc = if negb (is_done (hnd s') =? 0) then 0 else match o with Some _ => 0 | None => -1 end) s.
Proof.
  unfold CreateElfCore, sys_pipe. wp_step. apply wp_syscall. intros r p w' Hk.
  assert (r = 0) as -> by (eapply k_pipe_ok; [exact Hk|lia]).
  destruct (pipe_quiet s (errno s) 0 p w' inv_s Hk) as ([Ho1 Ho2] & Hi & Ho); [lia|].
  destruct (k_pipe_in _ _ _ _ Hk) as [[Hr _]|(_ & Hp1 & Hp2 & _ & Hopen & Hpipe & Hun & _ & _ & _ & Hsl)];
    [unfold is_err in Hr; lia|].
  rewrite LSS_RETURN_ok by lia. cbn [fst snd]. change (s32 0 <? 0) with false. cbv iota. wp_step.
  destruct p as [rd wr]. cbn [fst snd] in *.
  eapply wp_mono; [apply (create_body_all rd wr); cbn; auto; lia|].
  cbn beta. intros o s1 (Hi1 & Hsent). wp_step. unfold wp at 1, get_hnd.
  wp_step. eapply wp_mono; [by apply close_if_open_quiet|]. cbn beta. intros _ s2 (Hi2 & E2 & F2).
  wp_step. eapply wp_mono; [by apply close_if_open_quiet|]. cbn beta. intros _ s3 (Hi3 & E3 & F3).
  apply wp_ret. split; [done|]. exists o. unfold sent in *. rewrite F3, F2, E3, E2. done.
Qed.

Lemma found_layout : layout_ok info user ts notes ps (concat (es ++ [last])) found (vdso_extra found_vdso).
Proof.
  clear slots_s inv_s. split; auto using vdso_extra_filesz.
  - rewrite (zlen_concat_const _ 16) by done. by apply Z.mod_mul.
  - eapply Forall_impl; [exact found_ok|]. intros m (_ & _ & ?). lia.
Qed.

Lemma file_reads_back g a : In g gs -> wanted aarch64 g -> s_start (g_header g) <= a < s_end (g_header g) ->
  read_mem file a = Some (peek a) \/ exists p, blank (pagesize := ps) p = true /\ p mod ps = 0 /\ p <= a < p + ps.
Proof.
  clear slots_s inv_s. intros Hg Hw Ha. apply list_elem_of_In in Hg.
  assert (Hok : segment_ok ps g) by (rewrite Forall_forall in segments_ok; auto).
  destruct (wanted_address (k := k) ltac:(lia) aarch64 g a Hok Hw Ha) as [(m & Hm & Ham)|Hb]; [left|by right].
  pose proof file_small as Hsm. unfold core_file in Hsm |- *. eapply read_mem_core; eauto using found_layout, found_ok, vdso_extra_wf, vdso_extra_no_load; [lia|].
  apply list_elem_of_In, list_elem_of_omap. eauto.
Qed.

(** The first program header covers the notes. *)
Lemma file_notes_read : Forall (fun n => 0 <= note_type n < 2 ^ 32) notes ->
  exists ph phs, read_phdrs file = ph :: phs /\ p_type ph = PT_NOTE /\
    let ns := core_notes info user st ts ps main_pid notes found (concat (es ++ [last])) in
    parse_notes (length ns) (slice (p_offset ph) (p_filesz ph) file) = Some ns.
Proof.
  clear slots_s inv_s. intros Hty. pose proof file_small as Hsm. unfold core_file in Hsm |- *.
  assert (Hlim : zlen (core_image info user st ts ps main_pid notes found (concat (es ++ [last])) (vdso_extra found_vdso)) < SSIZE_LIM) by lia.
  do 2 eexists. split; [eapply read_phdrs_core; eauto using found_layout, vdso_extra_wf, found_ok|]. split; [done|]. cbn zeta.
  destruct (note_points info user st ts ps main_pid notes found (concat (es ++ [last])) (vdso_extra found_vdso) found_layout Hlim)
    as [_ ->].
  rewrite notes_enc by (done || apply found_layout). apply parse_enc_notes; [|done].
  apply core_notes_wf; [done|apply found_layout|done|by rewrite (zlen_concat_const _ 16)|done].
Qed.
End Create.

Section Whole.
Context {W Hd : Type} `{!KernelIO W} `{!AddressSpace} `{!Files W} `{!Interrupts W} `{!AuxvWhole W} `{!ReadReady W}
  `{!Pipes W} {k : Z} `{!PipePage W (2 ^ k)}.
Context (writer : ptr -> Z -> M (cst W Hd) Z) (inv : cst W Hd -> Prop) (out : cst W Hd -> list Z)
  (own : Z -> Prop) (room : Hd -> option Z) (nmax : list Z -> Z) `{!LimitedWriter writer inv out own room nmax} `{!PipeFrame inv out own}.
Context (fuel : nat) (is_done : Hd -> Z) (aarch64 : bool) (uninit : list Z)
  (info : prpsinfo) (user : option (list Z)) (st : prstatus) (ts : list thread) (main_pid : Z) (notes : list CoredumperNote).
Context (maps : list Z) (gs : list segment) (es : list (list Z)) (last : list Z) (rest : list Z).
Hypothesis (page_bits : 0 <= k < 31) (fuel_ok : forall s, inv s -> (intr (world s) < fuel)%nat) (own_fd : forall f, own f -> 0 <= f).
Hypothesis (proc : proc_files (k := k) gs es last fuel maps rest).
Context (size : Z).
Hypothesis (inputs : core_inputs (k := k) aarch64 info user st ts main_pid notes gs es last size).

(** What a reader finds in [core]. *)
Definition reads_back (core : list Z) : Prop :=
  forall g a, In g gs -> wanted aarch64 g -> s_start (g_header g) <= a < s_end (g_header g) ->
    read_mem core a = Some (peek a) \/
    exists p, blank (pagesize := 2 ^ k) p = true /\ p mod 2 ^ k = 0 /\ p <= a < p + 2 ^ k.

Abbreviation file := (core_file (k := k) aarch64 info user st ts main_pid notes gs es last).

Lemma file_read : reads_back file.
Proof. destruct proc, inputs. intros g a Hg Hw Ha. eapply file_reads_back; eauto. Qed.

(** The notes that a reader finds in [core]. *)
Definition notes_back (core : list Z) : Prop :=
  exists ph phs, read_phdrs core = ph :: phs /\ p_type ph = PT_NOTE /\
    let ns := core_notes info user st ts (2 ^ k) main_pid notes (found (k := k) aarch64 gs) (concat (es ++ [last])) in
    parse_notes (length ns) (slice (p_offset ph) (p_filesz ph) core) = Some ns.

Lemma file_notes : Forall (fun n => 0 <= note_type n < 2 ^ 32) notes -> notes_back file.
Proof. destruct proc, inputs. intros Hty. eapply file_notes_read; eauto. Qed.

(** The general case. *)
Lemma CreateElfCore_sent s : size <= nmax (out s) -> inv s -> (6 <= slots (world s))%nat ->
  wp (CreateElfCore fuel writer is_done aarch64 uninit info user st ts (2 ^ k) 0 main_pid notes)
    (fun rc s' => inv s' /\ exists o, sent out room file o s s' /\
       rc = if negb (is_done (hnd s') =? 0) then 0 else match o with Some _ => 0 | None => -1 end) s.
Proof. intros Hn Hi Hs. destruct proc, inputs. eapply CreateElfCore_image; eauto. Qed.

Lemma CreateElfCore_whole s : size <= nmax (out s) -> inv s -> (6 <= slots (world s))%nat -> fits (room (hnd s)) (zlen file) ->
  wp (CreateElfCore fuel writer is_done aarch64 uninit info user st ts (2 ^ k) 0 main_pid notes)
    (fun rc s' => rc = 0 /\ inv s' /\ out s' = out s ++ file) s.
Proof.
  intros Hn Hi Hs Hf. eapply wp_mono; [by apply CreateElfCore_sent|]. cbn beta. intros rc s' (Hi' & o & Hsent & ->).
  unfold sent in Hsent. destruct o as [u|]; [destruct Hsent as (_ & _ & ->); split_and!; [by destruct (negb _)|done|done]|].
  destruct Hsent as (r & Hr & Hlt & _). unfold fits in Hf. rewrite Hr in Hf. lia.
Qed.

End Whole.


(** ** An instance *)

Lemma toy_pipes `{AddressSpace} files faulty chunk :
  @Pipes toy (ToyIO files faulty chunk) _ (ToyFiles files faulty chunk).
Proof.
  split; cbn [k_pipe ToyIO]; intros w r p w' Hk; unfold toy_pipe in Hk.
  - destruct (toy_free w (t_next w)) eqn:Ef; injection Hk as <- <- <-; cbn; [right|left; split; [unfold is_err; lia|by split_and!]].
    pose proof Ef as Ef'. unfold toy_free in Ef'. b2p. unfold t_is_open, t_pipe_of. cbn.
    split_and!; try lia.
    + unfold t_is_open in *. congruence.
    + apply bool_decide_eq_true. left.
    + by rewrite Z.eqb_refl.
    + by rewrite upd_same.
    + intros f Hf. by apply upd_other.
    + intros f Hf. apply bool_decide_eq_true in Hf. apply bool_decide_eq_true. by right.
    + intros f Hf. rewrite (proj2 (Z.eqb_neq _ _)) by lia. done.
    + unfold toy_slots. cbn [t_next t_open t_pipes forallb snd].
      destruct ((_ && _) && _)%bool eqn:E; [|lia]. b2p.
      rewrite (forallb_lt_mono (t_open w) (t_next w)) by (done || lia).
      assert (A : forallb (fun p => p.2 <? t_next w) (t_pipes w) = true) by done.
      replace (forallb (fun p : Z * Z => p.2 <? t_next w + 2) (t_pipes w)) with true.
      2:{ symmetry. rewrite forallb_forall in A |- *. intros p Hp. apply A in Hp. b2p. lia. }
      rewrite (proj2 (Z.leb_le 2 (t_next w + 2))), (proj2 (Z.ltb_lt (t_next w) (t_next w + 2))) by lia. cbn. lia.
  - intros Hs. rewrite toy_slots_free in Hk by (cbn in Hs; lia). by injection Hk as <- <- <-.
Qed.

Lemma toy_pipe_fresh `{AddressSpace} files faulty chunk : @PipeFresh toy (ToyIO files faulty chunk) toy_out.
Proof.
  intros w r p w' Hk Hr. cbn [k_pipe ToyIO] in Hk. unfold toy_pipe in Hk.
  destruct (toy_free w (t_next w)) eqn:Ef; injection Hk as <- <- <-; [|lia]. unfold toy_free in Ef. b2p. unfold toy_out. cbn. lia.
Qed.

#[export] Instance ex_pipes : Pipes toy := toy_pipes ex_files (fun _ => false) 100.
#[export] Instance ex_pipe_fresh : PipeFresh toy toy_out := toy_pipe_fresh ex_files (fun _ => false) 100.

Lemma ex_proc_files : proc_files (k := 6) ex_segments [le 8 6 ++ le 8 64] (le 8 0 ++ le 8 0) ex_fuel ex_maps_text [].
Proof. split; try apply ex_segments_ok; by_compute. Qed.

Lemma ex_core_inputs : core_inputs (k := 6) false ex_info None ex_status ex_threads 7 ex_notes ex_segments
  [le 8 6 ++ le 8 64] (le 8 0 ++ le 8 0) (nmax ex_fuel).
Proof. split; try apply ex_inputs_ok; by_compute. Qed.

