(* ===== verification/Params.v ===== *)
(** The parameters of a dump: [struct CoreDumpParameters], its accessor macros
    and setters, and the compressor tables ([coredumper.h], [coredumper.c]).

    A parameter structure may come from a program compiled against another
    version of the header; its [size] says which fields it has. *)
From S2P Require Import Prelude Syscall KernelSpec ElfTypes.

(** ** Compressors

    A pointer to an element of a compressor array is the rest of the array from
    that element on; [None] in place of the name is a null pointer. *)
Record CoredumperCompressor := mkCompressor {
  compressor : option (list Z);
  args : list (list Z);
  suffix : option (list Z) }.

Definition no_args_bzip2 : list (list Z) := [bytes "bzip2"].
Definition no_args_gzip : list (list Z) := [bytes "gzip"].
Definition no_args_compress : list (list Z) := [bytes "compress"].

Definition try_uncompressed : CoredumperCompressor := mkCompressor (Some []) [] (Some []).
Definition no_more : CoredumperCompressor := mkCompressor None [] None.

Definition entry (name : string) (argv : list (list Z)) (sfx : string) : CoredumperCompressor :=
  mkCompressor (Some (bytes name)) argv (Some (bytes sfx)).

Definition COREDUMPER_COMPRESSED : list CoredumperCompressor :=
  [entry "/bin/bzip2" no_args_bzip2 ".bz2";
   entry "/usr/bin/bzip2" no_args_bzip2 ".bz2";
   entry "bzip2" no_args_bzip2 ".bz2";
   entry "/bin/gzip" no_args_gzip ".gz";
   entry "/usr/bin/gzip" no_args_gzip ".gz";
   entry "gzip" no_args_gzip ".gz";
   entry "/bin/compress" no_args_compress ".Z";
   entry "/usr/bin/compress" no_args_compress ".Z";
   entry "compress" no_args_compress ".Z";
   try_uncompressed; no_more].

Definition COREDUMPER_BZIP2_COMPRESSED : list CoredumperCompressor :=
  [entry "/bin/bzip2" no_args_bzip2 ".bz2";
   entry "/usr/bin/bzip2" no_args_bzip2 ".bz2";
   entry "bzip2" no_args_bzip2 ".bz2"; no_more].

Definition COREDUMPER_GZIP_COMPRESSED : list CoredumperCompressor :=
  [entry "/bin/gzip" no_args_gzip ".gz";
   entry "/usr/bin/gzip" no_args_gzip ".gz";
   entry "gzip" no_args_gzip ".gz"; no_more].

Definition COREDUMPER_COMPRESS_COMPRESSED : list CoredumperCompressor :=
  [entry "/bin/compress" no_args_compress ".Z";
   entry "/usr/bin/compress" no_args_compress ".Z";
   entry "compress" no_args_compress ".Z"; no_more].

Definition COREDUMPER_TRY_BZIP2_COMPRESSED : list CoredumperCompressor :=
  [entry "/bin/bzip2" no_args_bzip2 ".bz2";
   entry "/usr/bin/bzip2" no_args_bzip2 ".bz2";
   entry "bzip2" no_args_bzip2 ".bz2"; try_uncompressed; no_more].

Definition COREDUMPER_TRY_GZIP_COMPRESSED : list CoredumperCompressor :=
  [entry "/bin/gzip" no_args_gzip ".gz";
   entry "/usr/bin/gzip" no_args_gzip ".gz";
   entry "gzip" no_args_gzip ".gz"; try_uncompressed; no_more].

Definition COREDUMPER_TRY_COMPRESS_COMPRESSED : list CoredumperCompressor :=
  [entry "/bin/compress" no_args_compress ".Z";
   entry "/usr/bin/compress" no_args_compress ".Z";
   entry "compress" no_args_compress ".Z"; try_uncompressed; no_more].

Definition COREDUMPER_UNCOMPRESSED : list CoredumperCompressor := [try_uncompressed; no_more].

(** ** [struct CoreDumpParameters] (x86-64 layout) *)

Definition COREDUMPER_FLAG_LIMITED : Z := 1.
Definition COREDUMPER_FLAG_LIMITED_BY_PRIORITY : Z := 2.
Definition SIZE_MAX : Z := 2 ^ 64 - 1.

Record CoreDumpParameters := mkParams {
  size : Z;
  p_cflags : Z;                                        (* flags *)
  p_max_length : Z;
  p_compressors : option (list CoredumperCompressor);
  p_selected : option Z;                               (* address of the result variable *)
  p_notes : list CoredumperNote;
  p_note_count : Z;
  p_callback_fn : Z;                                   (* 0: null *)
  p_callback_arg : Z }.

Inductive field : Set :=
  | F_flags | F_max_length | F_compressors | F_selected_compressor | F_notes
  | F_note_count | F_callback_fn | F_callback_arg.

(** [offsetof(struct CoreDumpParameters, f) + sizeof((p)->f)] *)
Definition field_end (f : field) : Z :=
  match f with
  | F_flags => 8 + 4
  | F_max_length => 16 + 8
  | F_compressors => 24 + 8
  | F_selected_compressor => 32 + 8
  | F_notes => 40 + 8
  | F_note_count => 48 + 4
  | F_callback_fn => 56 + 8
  | F_callback_arg => 64 + 8
  end.

Definition sizeof_CoreDumpParameters : Z := 72.

Definition CoreDumpParametersHas (p : CoreDumpParameters) (f : field) : bool := field_end f <=? size p.

Definition with_flags v p :=
  mkParams (size p) v (p_max_length p) (p_compressors p) (p_selected p) (p_notes p) (p_note_count p)
    (p_callback_fn p) (p_callback_arg p).
Definition with_max_length v p :=
  mkParams (size p) (p_cflags p) v (p_compressors p) (p_selected p) (p_notes p) (p_note_count p)
    (p_callback_fn p) (p_callback_arg p).
Definition with_compressors v p :=
  mkParams (size p) (p_cflags p) (p_max_length p) v (p_selected p) (p_notes p) (p_note_count p)
    (p_callback_fn p) (p_callback_arg p).
Definition with_selected v p :=
  mkParams (size p) (p_cflags p) (p_max_length p) (p_compressors p) v (p_notes p) (p_note_count p)
    (p_callback_fn p) (p_callback_arg p).
Definition with_notes v p :=
  mkParams (size p) (p_cflags p) (p_max_length p) (p_compressors p) (p_selected p) v (p_note_count p)
    (p_callback_fn p) (p_callback_arg p).
Definition with_note_count v p :=
  mkParams (size p) (p_cflags p) (p_max_length p) (p_compressors p) (p_selected p) (p_notes p) v
    (p_callback_fn p) (p_callback_arg p).
Definition with_callback_fn v p :=
  mkParams (size p) (p_cflags p) (p_max_length p) (p_compressors p) (p_selected p) (p_notes p)
    (p_note_count p) v (p_callback_arg p).
Definition with_callback_arg v p :=
  mkParams (size p) (p_cflags p) (p_max_length p) (p_compressors p) (p_selected p) (p_notes p)
    (p_note_count p) (p_callback_fn p) v.

(** [GetCoreDumpParameter(p, f)]: 0 for a field the structure does not have. *)
Definition GetCoreDumpParameter {A : Type} (f : field) (get : CoreDumpParameters -> A) (zero : A)
    (p : CoreDumpParameters) : A :=
  if CoreDumpParametersHas p f then get p else zero.

(** ** The setters run on the structure and [errno]. *)
Record pstate := PState { ps_errno : Z; prm : CoreDumpParameters }.

Definition set_prm (f : CoreDumpParameters -> CoreDumpParameters) : M pstate unit :=
  fun s => Ret tt (PState (ps_errno s) (f (prm s))).
Definition get_prm : M pstate CoreDumpParameters := fun s => Ret (prm s) s.
Definition fail_errno (e : Z) : M pstate Z := fun s => Ret (-1) (PState e (prm s)).

(** [SetCoreDumpParameter(p, f, v)]: aborts when the structure lacks the field. *)
Definition SetCoreDumpParameter (f : field) (store : CoreDumpParameters -> CoreDumpParameters)
    : M pstate unit :=
  let! p := get_prm in
  if negb (CoreDumpParametersHas p f) then abort else set_prm store.

(** [memset(params, 0, size)]; [size] does not cut a field in two. *)
Definition clear_fields (sz : Z) (p : CoreDumpParameters) : CoreDumpParameters :=
  let z {A : Type} (f : field) (zero old : A) := if field_end f <=? sz then zero else old in
  mkParams (if 8 <=? sz then 0 else size p) (z F_flags 0 (p_cflags p))
    (z F_max_length 0 (p_max_length p)) (z F_compressors None (p_compressors p))
    (z F_selected_compressor None (p_selected p)) (z F_notes [] (p_notes p))
    (z F_note_count 0 (p_note_count p)) (z F_callback_fn 0 (p_callback_fn p))
    (z F_callback_arg 0 (p_callback_arg p)).

Definition with_size v p :=
  mkParams v (p_cflags p) (p_max_length p) (p_compressors p) (p_selected p) (p_notes p) (p_note_count p)
    (p_callback_fn p) (p_callback_arg p).

Definition ClearCoreDumpParametersInternal (sz : Z) : M pstate unit :=
  set_prm (clear_fields sz) ;;!
  set_prm (with_size sz) ;;!
  SetCoreDumpParameter F_max_length (with_max_length SIZE_MAX).

Definition ClearCoreDumpParameters : M pstate unit :=
  ClearCoreDumpParametersInternal sizeof_CoreDumpParameters.

Definition has_flag (p : CoreDumpParameters) (f : Z) : bool := negb (Z.land (p_cflags p) f =? 0).

Definition SetCoreDumpLimited (max_length : Z) : M pstate Z :=
  let! p := get_prm in
  if has_flag p COREDUMPER_FLAG_LIMITED_BY_PRIORITY then fail_errno EINVAL
  else
    set_prm (fun p => with_flags (Z.lor (p_cflags p) COREDUMPER_FLAG_LIMITED) p) ;;!
    SetCoreDumpParameter F_max_length (with_max_length max_length) ;;!
    ret 0.

Definition SetCoreDumpCompressed (compressors : option (list CoredumperCompressor))
    (selected_compressor : option Z) : M pstate Z :=
  let! p := get_prm in
  if has_flag p COREDUMPER_FLAG_LIMITED_BY_PRIORITY then fail_errno EINVAL
  else
    SetCoreDumpParameter F_compressors (with_compressors compressors) ;;!
    SetCoreDumpParameter F_selected_compressor (with_selected selected_compressor) ;;!
    ret 0.

(** [params->compressors != NULL] is read without asking whether the structure
    has the field. *)
Definition SetCoreDumpLimitedByPriority (max_length : Z) : M pstate Z :=
  let! p := get_prm in
  if (has_flag p COREDUMPER_FLAG_LIMITED && negb (has_flag p COREDUMPER_FLAG_LIMITED_BY_PRIORITY)) ||
     (match p_compressors p with Some _ => true | None => false end)
  then fail_errno EINVAL
  else
    SetCoreDumpParameter F_flags
      (fun p => with_flags (Z.lor (Z.lor (p_cflags p) COREDUMPER_FLAG_LIMITED)
                              COREDUMPER_FLAG_LIMITED_BY_PRIORITY) p) ;;!
    SetCoreDumpParameter F_max_length (with_max_length max_length) ;;!
    ret 0.

Definition SetCoreDumpNotes (notes : list CoredumperNote) (note_count : Z) : M pstate Z :=
  SetCoreDumpParameter F_notes (with_notes notes) ;;!
  SetCoreDumpParameter F_note_count (with_note_count note_count) ;;!
  ret 0.

Definition SetCoreDumpCallback (fn arg : Z) : M pstate Z :=
  SetCoreDumpParameter F_callback_fn (with_callback_fn fn) ;;!
  SetCoreDumpParameter F_callback_arg (with_callback_arg arg) ;;!
  ret 0.

(** ** What the setters guarantee *)

(** The calls a client can make on a parameter structure. *)
Inductive setter_call : Type :=
  | CLimited (max_length : Z)
  | CCompressed (compressors : option (list CoredumperCompressor)) (selected : option Z)
  | CLimitedByPriority (max_length : Z)
  | CNotes (notes : list CoredumperNote) (note_count : Z)
  | CCallback (fn arg : Z).

Definition run_call (c : setter_call) : M pstate Z :=
  match c with
  | CLimited n => SetCoreDumpLimited n
  | CCompressed cs sel => SetCoreDumpCompressed cs sel
  | CLimitedByPriority n => SetCoreDumpLimitedByPriority n
  | CNotes ns n => SetCoreDumpNotes ns n
  | CCallback fn arg => SetCoreDumpCallback fn arg
  end.

Definition default_params : CoreDumpParameters :=
  mkParams sizeof_CoreDumpParameters 0 SIZE_MAX None None [] 0 0 0.

(** The last field a call stores to. *)
Definition last_field (c : setter_call) : field :=
  match c with
  | CLimited _ => F_max_length
  | CCompressed _ _ => F_selected_compressor
  | CLimitedByPriority _ => F_max_length
  | CNotes _ _ => F_note_count
  | CCallback _ _ => F_callback_arg
  end.

(** The options that exclude each other. *)
Definition conflict (c : setter_call) (p : CoreDumpParameters) : Prop :=
  match c with
  | CLimited _ | CCompressed _ _ => has_flag p COREDUMPER_FLAG_LIMITED_BY_PRIORITY = true
  | CLimitedByPriority _ =>
      (has_flag p COREDUMPER_FLAG_LIMITED = true /\
       has_flag p COREDUMPER_FLAG_LIMITED_BY_PRIORITY = false) \/ p_compressors p <> None
  | CNotes _ _ | CCallback _ _ => False
  end.

(** What a later dump reads back. *)
Definition stored (c : setter_call) (p : CoreDumpParameters) : Prop :=
  match c with
  | CLimited n =>
      GetCoreDumpParameter F_max_length p_max_length 0 p = n /\
      has_flag p COREDUMPER_FLAG_LIMITED = true
  | CLimitedByPriority n =>
      GetCoreDumpParameter F_max_length p_max_length 0 p = n /\
      has_flag p COREDUMPER_FLAG_LIMITED = true /\
      has_flag p COREDUMPER_FLAG_LIMITED_BY_PRIORITY = true
  | CCompressed cs sel =>
      GetCoreDumpParameter F_compressors p_compressors None p = cs /\
      GetCoreDumpParameter F_selected_compressor p_selected None p = sel
  | CNotes ns n =>
      GetCoreDumpParameter F_notes p_notes [] p = ns /\
      GetCoreDumpParameter F_note_count p_note_count 0 p = n
  | CCallback fn arg =>
      GetCoreDumpParameter F_callback_fn p_callback_fn 0 p = fn /\
      GetCoreDumpParameter F_callback_arg p_callback_arg 0 p = arg
  end.

Lemma flag_set_one n m : 0 <= m -> negb (Z.land (Z.lor n (2 ^ m)) (2 ^ m) =? 0) = true.
Proof.
  intros Hm. apply negb_true_iff, Z.eqb_neq. intros E.
  assert (Z.testbit (Z.land (Z.lor n (2 ^ m)) (2 ^ m)) m = true) as Ht.
  { rewrite Z.land_spec, Z.lor_spec, Z.pow2_bits_true by done. by rewrite orb_true_r. }
  by rewrite E, Z.bits_0 in Ht.
Qed.

Lemma has_limited p n : has_flag (with_flags (Z.lor n COREDUMPER_FLAG_LIMITED) p) COREDUMPER_FLAG_LIMITED = true.
Proof. by apply (flag_set_one n 0). Qed.

Lemma has_priority p n : has_flag (with_flags (Z.lor n COREDUMPER_FLAG_LIMITED_BY_PRIORITY) p)
  COREDUMPER_FLAG_LIMITED_BY_PRIORITY = true.
Proof. by apply (flag_set_one n 1). Qed.

Lemma has_limited_priority p n :
  has_flag (with_flags (Z.lor (Z.lor n COREDUMPER_FLAG_LIMITED) COREDUMPER_FLAG_LIMITED_BY_PRIORITY) p)
    COREDUMPER_FLAG_LIMITED = true.
Proof.
  rewrite <- Z.lor_assoc, (Z.lor_comm COREDUMPER_FLAG_LIMITED), Z.lor_assoc. by apply (flag_set_one _ 0).
Qed.

#[export] Hint Resolve has_limited has_priority has_limited_priority : coredump.

Lemma bind_get {A} (k : CoreDumpParameters -> M pstate A) s : bind get_prm k s = k (prm s) s.
Proof. done. Qed.

Lemma bind_set_prm {A} f (k : unit -> M pstate A) s :
  bind (set_prm f) k s = k tt (PState (ps_errno s) (f (prm s))).
Proof. done. Qed.

(** A store, on a structure that has the field. *)
Lemma bind_store {A} f store (k : unit -> M pstate A) s : CoreDumpParametersHas (prm s) f = true ->
  bind (SetCoreDumpParameter f store) k s = k tt (PState (ps_errno s) (store (prm s))).
Proof. intros E. unfold SetCoreDumpParameter, bind, get_prm. by rewrite E. Qed.

(** The setters on a structure that has every field they store to. *)
Lemma run_call_spec c s : field_end (last_field c) <= size (prm s) ->
  (conflict c (prm s) /\ run_call c s = Ret (-1) (PState EINVAL (prm s))) \/
  (~ conflict c (prm s) /\ exists p', run_call c s = Ret 0 (PState (ps_errno s) p') /\ stored c p').
Proof.
  intros Hsz. destruct s as [e p]. cbn [prm] in *.
  assert (Hf : forall f q, field_end f <= field_end (last_field c) -> size q = size p ->
    CoreDumpParametersHas q f = true).
  { intros f q Hf Hq. apply Z.leb_le. lia. }
  assert (Hg : forall (A : Type) f (get : CoreDumpParameters -> A) zero q,
    field_end f <= field_end (last_field c) -> size q = size p -> GetCoreDumpParameter f get zero q = get q).
  { intros A f get zero q H1 H2. unfold GetCoreDumpParameter. by rewrite Hf. }
  destruct c; cbn [run_call conflict stored last_field] in *.
  - unfold SetCoreDumpLimited. rewrite bind_get. cbn [prm].
    destruct (has_flag p _) eqn:E; [by left|]. right. split; [done|].
    rewrite bind_set_prm, bind_store by (apply Hf; [cbn; lia|done]). eexists. split; [reflexivity|].
    rewrite Hg by done. split; [done|apply has_limited].
  - unfold SetCoreDumpCompressed. rewrite bind_get. cbn [prm].
    destruct (has_flag p _) eqn:E; [by left|]. right. split; [done|].
    rewrite !bind_store by (apply Hf; [cbn; lia|done]). eexists. split; [reflexivity|]. rewrite !Hg by (cbn; lia || done). done.
  - unfold SetCoreDumpLimitedByPriority. rewrite bind_get. cbn [prm].
    destruct (_ || _) eqn:E.
    + left. split; [|done]. b2p. destruct E as [E|E]; b2p; [by left|right]. by destruct (p_compressors p).
    + right. b2p. split.
      { intros [[H1 H2]|Hc]; [|by destruct (p_compressors p)].
        rewrite H1, H2 in *. by intuition. }
      rewrite !bind_store by (apply Hf; [cbn; lia|done]). eexists. split; [reflexivity|].
      rewrite Hg by done. split_and!; [done|apply has_limited_priority|apply has_priority].
  - right. split; [tauto|]. unfold SetCoreDumpNotes. rewrite !bind_store by (apply Hf; [cbn; lia|done]).
    eexists. split; [reflexivity|]. rewrite !Hg by (cbn; lia || done). done.
  - right. split; [tauto|]. unfold SetCoreDumpCallback. rewrite !bind_store by (apply Hf; [cbn; lia|done]).
    eexists. split; [reflexivity|]. rewrite !Hg by (cbn; lia || done). done.
Qed.

(** Every state a sequence of calls can reach on a structure that was cleared,
    whether the calls succeed or not. *)
Inductive reachable : pstate -> Prop :=
  | reach_clear s s' : ClearCoreDumpParameters s = Ret tt s' -> reachable s'
  | reach_call s c rc s' : reachable s -> run_call c s = Ret rc s' -> reachable s'.

Definition params_ok (p : CoreDumpParameters) : Prop :=
  size p = sizeof_CoreDumpParameters /\
  (p_cflags p = 0 /\ p_max_length p = SIZE_MAX \/ p_cflags p = 1 \/
   p_cflags p = 3 /\ p_compressors p = None).

Lemma clear_default s : ClearCoreDumpParameters s = Ret tt (PState (ps_errno s) default_params).
Proof. by destruct s as [e []]. Qed.

Lemma run_call_ok c s rc s' : params_ok (prm s) -> run_call c s = Ret rc s' -> params_ok (prm s').
Proof.
  destruct s as [e [sz fl ml cps sel ns nc cf ca]]. intros [Hsz Hc]. cbn in Hsz, Hc. subst sz.
  destruct c; cbn [run_call].
  - destruct Hc as [[-> ->]|[->|[-> ->]]]; intros E; cbv in E; injection E as <- <-; (split; [done|]); cbn; auto.
  - destruct Hc as [[-> ->]|[->|[-> ->]]]; intros E; cbv in E; injection E as <- <-; (split; [done|]); cbn; auto.
  - destruct Hc as [[-> ->]|[->|[-> ->]]]; try destruct cps; intros E; cbv in E; injection E as <- <-; (split; [done|]); cbn; auto.
  - intros E; cbv in E; injection E as <- <-. split; [done|]. exact Hc.
  - intros E; cbv in E; injection E as <- <-. split; [done|]. exact Hc.
Qed.

(** [ClearCoreDumpParameters] leaves the documented defaults, whatever the
    memory of the structure held before: no limit, no compression, no notes, no
    callback. *)
Theorem Clear_defaults s :
  ClearCoreDumpParameters s = Ret tt (PState (ps_errno s) default_params).
Proof. apply clear_default. Qed.

(** C24. A setter either is refused because of an option that excludes it, with
    EINVAL and the structure unchanged, or returns 0 and the dump reads what was
    set. *)
Theorem setter_result c s : field_end (last_field c) <= size (prm s) ->
  (conflict c (prm s) /\ run_call c s = Ret (-1) (PState EINVAL (prm s))) \/
  (~ conflict c (prm s) /\ exists p', run_call c s = Ret 0 (PState (ps_errno s) p') /\ stored c p').
Proof. apply run_call_spec. Qed.

(** C25. No sequence of calls makes a dump that is limited by priority and also
    compressed, or limited by priority but not limited, or not limited and
    yet with a maximal length. *)
Theorem reachable_params s : reachable s -> params_ok (prm s).
Proof.
  induction 1 as [s s' E|s c rc s' _ IH E].
  - rewrite clear_default in E. injection E as <-. split; [done|]. by left.
  - by eapply run_call_ok.
Qed.

Definition ex_cleared : pstate := PState 0 default_params.

Lemma setter_result_witness :
  (conflict (CLimitedByPriority 5) default_params /\
   run_call (CLimitedByPriority 5) ex_cleared = Ret (-1) (PState EINVAL default_params)) \/
  (~ conflict (CLimitedByPriority 5) default_params /\ exists p',
     run_call (CLimitedByPriority 5) ex_cleared = Ret 0 (PState 0 p') /\ stored (CLimitedByPriority 5) p').
Proof. apply (setter_result (CLimitedByPriority 5) ex_cleared). by_compute. Defined.

Lemma reachable_params_witness :
  params_ok (with_max_length 5 (with_flags 3 default_params)).
Proof.
  apply (reachable_params (PState 22 (with_max_length 5 (with_flags 3 default_params)))).
  apply (reach_call (PState 0 (with_max_length 5 (with_flags 3 default_params))) (CLimited 7) (-1)); [|done].
  apply (reach_call ex_cleared (CLimitedByPriority 5) 0); [|done].
  by apply (reach_clear ex_cleared).
Defined.
