(* ===== verification/Lister.v ===== *)
(** Finding and stopping the threads of the process: [linuxthreads.c], with the
    single-threaded fallback of [thread_lister.c].

    [ListerThread] runs in a clone that shares memory and descriptors with the
    process.  Its global variables, the array of thread ids and the result it
    leaves for its parent are the record [lister]. *)
From S2P Require Import Prelude Syscall KernelSpec Params.

(** ** Numbers *)

Definition digit (d : Z) : Z := d + ord "0".

(** [local_itoa]: the string, without the NUL.  Bounded recursion: negating the
    least [int] gives it back, and the function calls itself for ever. *)
Fixpoint local_itoa (n : nat) (i : Z) : option (list Z) :=
  match n with
  | O => None
  | S n' =>
      if i <? 0 then
        match local_itoa n' (s32 (- i)) with
        | Some s => Some (ord "-" :: s)
        | None => None
        end
      else
        match (if 10 <=? i then local_itoa n' (i / 10) else Some []) with
        | Some s => Some (s ++ [digit (i mod 10)])
        | None => None
        end
  end.

Definition is_digit (c : Z) : bool := (ord "0" <=? c) && (c <=? ord "9").

(** The loop of [local_atoi], on [int]s. *)
Fixpoint atoi_digits (n : Z) (s : list Z) : Z :=
  match s with
  | c :: s' => if is_digit c then atoi_digits (s32 (10 * n + (c - ord "0"))) s' else n
  | [] => n
  end.

Definition local_atoi (s : list Z) : Z :=
  match s with
  | c :: s' => if c =? ord "-" then s32 (- atoi_digits 0 s') else atoi_digits 0 s
  | [] => 0
  end.

(** Digits of an [int], a sign and one call more. *)
Definition itoa_fuel : nat := 12.

(** ** State *)

Record lister := mkLister {
  pids : list Z;             (* pids[0..num_threads) *)
  sig_pids : bool;           (* points to [pids] (or is null) *)
  sig_num_threads : Z;
  sig_proc : Z;
  sig_marker : Z;
  l_result : Z;              (* args->result *)
  l_err : Z;                 (* args->err *)
  l_selected : option (list CoredumperCompressor) }.   (* *selected_compressor *)

Definition put_pids p l := mkLister p (sig_pids l) (sig_num_threads l) (sig_proc l) (sig_marker l) (l_result l) (l_err l) (l_selected l).
Definition put_sig_pids b l := mkLister (pids l) b (sig_num_threads l) (sig_proc l) (sig_marker l) (l_result l) (l_err l) (l_selected l).
Definition put_sig_num n l := mkLister (pids l) (sig_pids l) n (sig_proc l) (sig_marker l) (l_result l) (l_err l) (l_selected l).
Definition put_sig_proc n l := mkLister (pids l) (sig_pids l) (sig_num_threads l) n (sig_marker l) (l_result l) (l_err l) (l_selected l).
Definition put_sig_marker n l := mkLister (pids l) (sig_pids l) (sig_num_threads l) (sig_proc l) n (l_result l) (l_err l) (l_selected l).
Definition put_result n l := mkLister (pids l) (sig_pids l) (sig_num_threads l) (sig_proc l) (sig_marker l) n (l_err l) (l_selected l).
Definition put_selected v l := mkLister (pids l) (sig_pids l) (sig_num_threads l) (sig_proc l) (sig_marker l) (l_result l) (l_err l) v.
Definition put_err n l := mkLister (pids l) (sig_pids l) (sig_num_threads l) (sig_proc l) (sig_marker l) (l_result l) n (l_selected l).

(** Synchronous signals that should not be blocked while in the lister thread. *)
Definition sync_signals : list Z := [SIGABRT; SIGILL; SIGFPE; SIGSEGV; SIGBUS; SIGXCPU; SIGXFSZ].

Definition PR_GET_DUMPABLE : Z := 3.
Definition PR_SET_DUMPABLE : Z := 4.
Definition PR_SET_PTRACER : Z := 1499557217.
Definition SIG_BLOCK : Z := 0.
Definition SIG_SETMASK : Z := 2.
Definition __WALL : Z := 1073741824.
Definition SEEK_SET : Z := 0.

Section Resume.
Context {W H : Type} `{KernelProc W}.
Abbreviation P A := (M (cst W H) A).

(** [ResumeAllProcessThreads]: last one first. *)
Fixpoint resume_loop (rev_pids : list Z) (detached_at_least_one : bool) : P bool :=
  match rev_pids with
  | [] => ret detached_at_least_one
  | p :: ps =>
      let! rc := sys_ptrace_detach p in
      resume_loop ps (detached_at_least_one || (0 <=? rc))
  end.

Definition ResumeAllProcessThreads (thread_pids : list Z) : P bool :=
  resume_loop (rev thread_pids) false.
End Resume.

Section Lister.
Context {W : Type} `{KernelIO W} `{KernelProc W}.
Abbreviation P A := (M (cst W lister) A).

Variable fuel : nat.
(** The address of the variable that the address-space test reads. *)
Variable i_addr : Z.
(** The function that is given the suspended threads. *)
Variable callback : list Z -> P Z.

Definition modify (f : lister -> lister) : P unit := let! l := get_hnd in set_hnd (f l).

Definition lift {A : Type} (o : option A) : P A :=
  match o with Some a => ret a | None => out_of_fuel end.

(** [if (fd >= 0) NO_INTR(sys_close(fd))] *)
Definition close_nonneg (fd : Z) : P unit :=
  if 0 <=? fd then NO_INTR fuel (sys_close fd) ;;! ret tt else ret tt.

(** [failure:]  Whatever threads are attached stay attached. *)
Definition failure {A : Type} (marker proc : Z) : P A :=
  modify (put_result (-1)) ;;!
  let! e := get_errno in
  modify (put_err e) ;;!
  close_nonneg marker ;;!
  modify (put_sig_marker (-1)) ;;!
  close_nonneg proc ;;!
  modify (put_sig_proc (-1)) ;;!
  sys__exit 1.

Definition c_open (fname : list Z) : P Z := NO_INTR fuel (sys_opendir fname).

(** [while (sig_num_threads-- > 0) { sched_yield; PTRACE_KILL }] *)
Fixpoint kill_loop (rev_pids : list Z) : P unit :=
  match rev_pids with
  | [] => modify (put_sig_num (-1))
  | p :: ps =>
      modify (fun l => put_sig_num (sig_num_threads l - 1) l) ;;!
      sys_sched_yield ;;!
      sys_ptrace PTRACE_KILL p 0 0 ;;!
      kill_loop ps
  end.

Definition SignalHandler {A : Type} (signum : Z) : P A :=
  let! l := get_hnd in
  let tracees := ztake (sig_num_threads l) (pids l) in
  (if sig_pids l then
     if signum =? SIGABRT then kill_loop (rev tracees)
     else if 0 <? sig_num_threads l then ResumeAllProcessThreads tracees ;;! ret tt
     else ret tt
   else ret tt) ;;!
  modify (put_sig_pids false) ;;!
  close_nonneg (sig_marker l) ;;!
  modify (put_sig_marker (-1)) ;;!
  close_nonneg (sig_proc l) ;;!
  modify (put_sig_proc (-1)) ;;!
  sys__exit (if signum =? SIGABRT then 1 else 2).

(** Does [pid] see our memory?  It is asked twice for a variable that changes. *)
Definition same_memory (pid i : Z) : P bool :=
  let! (rc, j) := sys_ptrace PTRACE_PEEKDATA pid i_addr i in
  if negb (rc =? 0) || negb (i =? unle (ztake 8 j)) then ret false
  else
    let! (rc, j) := sys_ptrace PTRACE_PEEKDATA pid i_addr (i + 1) in
    ret (negb (negb (rc =? 0) || negb (i + 1 =? unle (ztake 8 j)))).

(** [while (sys_waitpid(pid, 0, __WALL) < 0)]: whether it ended well. *)
Fixpoint wait_stopped (n : nat) (pid : Z) : P bool :=
  match n with
  | O => out_of_fuel
  | S n' =>
      let! (rc, _) := sys_waitpid pid __WALL in
      if rc <? 0 then
        let! e := get_errno in
        if negb (e =? EINTR) then ret false else wait_stopped n' pid
      else ret true
  end.

Definition drop_last_pid : P unit :=
  modify (fun l => put_pids (ztake (zlen (pids l) - 1) (pids l)) l) ;;!
  modify (fun l => put_sig_num (zlen (pids l)) l).

(** Attach to [pid], which is not in the array: whether it is one of ours. *)
Definition attach (pid : Z) : P bool :=
  let! l := get_hnd in
  let i := zlen (pids l) in
  modify (put_pids (pids l ++ [pid])) ;;!
  modify (put_sig_num (i + 1)) ;;!
  let! (rc, _) := sys_ptrace PTRACE_ATTACH pid 0 0 in
  if rc <? 0 then drop_last_pid ;;! ret false
  else
    let! stopped := wait_stopped fuel pid in
    if negb stopped then sys_ptrace_detach pid ;;! drop_last_pid ;;! ret false
    else
      let! same := same_memory pid i in
      if negb same then sys_ptrace_detach pid ;;! drop_last_pid ;;! ret false
      else ret true.

(** What the passes over a directory come to.  [found_parent] is a variable of
    [ListerThread], and so keeps its value over [goto detach_threads]. *)
Inductive pass (A : Type) : Type :=
  | Scanned (a : A)
  | Detach (found_parent : bool).
#[global] Arguments Scanned {A} a.
#[global] Arguments Detach {A} found_parent.

(** One directory entry. *)
Definition examine (marker_path : list Z) (marker_ino clone_pid ppid max_threads proc : Z)
    (found_parent : bool) (added : Z) (entry : kernel_dirent) : P (pass (bool * Z)) :=
  if d_ino entry =? 0 then ret (Scanned (found_parent, added))
  else
    let ptr := match d_name entry with
               | c :: s => if c =? ord "." then s else d_name entry
               | [] => []
               end in
    if negb (is_digit (nth 0 ptr 0)) then ret (Scanned (found_parent, added))
    else
      let pid := local_atoi ptr in
      if negb (pid =? 0) && negb (pid =? clone_pid) then
        let! (rc, ino) := sys_stat (bytes "/proc/" ++ d_name entry ++ marker_path) in
        if (0 <=? rc) && (marker_ino =? ino) then
          let! l := get_hnd in
          if bool_decide (pid ∈ pids l) then ret (Scanned (found_parent, added))
          else if max_threads <=? zlen (pids l) then
            NO_INTR fuel (sys_close proc) ;;! ret (Detach found_parent)
          else
            let! ours := attach pid in
            if ours : bool then ret (Scanned (found_parent || (pid =? ppid), added + 1))
            else ret (Scanned (found_parent, added))
        else ret (Scanned (found_parent, added))
      else ret (Scanned (found_parent, added)).

Fixpoint examine_all (marker_path : list Z) (marker_ino clone_pid ppid max_threads proc : Z)
    (found_parent : bool) (added : Z) (entries : list kernel_dirent) : P (pass (bool * Z)) :=
  match entries with
  | [] => ret (Scanned (found_parent, added))
  | e :: es =>
      let! o := examine marker_path marker_ino clone_pid ppid max_threads proc found_parent added e in
      match o with
      | Detach found_parent => ret (Detach found_parent)
      | Scanned (found_parent, added) =>
          examine_all marker_path marker_ino clone_pid ppid max_threads proc found_parent added es
      end
  end.

(** Passes over one directory until a pass finds no new thread. *)
Fixpoint scan_proc (n : nat) (marker : Z) (marker_path : list Z)
    (marker_ino clone_pid ppid max_threads proc : Z) (found_parent : bool) (added : Z)
    : P (pass bool) :=
  match n with
  | O => out_of_fuel
  | S n' =>
      let! (nbytes, entries) := sys_getdents proc 4096 in
      if nbytes <? 0 then failure marker proc
      else if nbytes =? 0 then
        if negb (added =? 0) then
          sys_lseek proc 0 SEEK_SET ;;!
          scan_proc n' marker marker_path marker_ino clone_pid ppid max_threads proc found_parent 0
        else ret (Scanned found_parent)
      else
        let! o := examine_all marker_path marker_ino clone_pid ppid max_threads proc found_parent added entries in
        match o with
        | Detach found_parent => ret (Detach found_parent)
        | Scanned (found_parent, added) =>
            scan_proc n' marker marker_path marker_ino clone_pid ppid max_threads proc found_parent added
        end
  end.

(** The threads are listed: check, call back, resume, exit. *)
Definition lister_done {A : Type} (marker : Z) (found_parent : bool) : P A :=
  NO_INTR fuel (sys_close marker) ;;!
  modify (put_sig_marker (-1)) ;;!
  let! l := get_hnd in
  if negb found_parent then
    ResumeAllProcessThreads (pids l) ;;!
    sys__exit 3
  else
    let! r := callback (pids l) in
    modify (put_result r) ;;!
    let! e := get_errno in
    modify (put_err e) ;;!
    let! late := ResumeAllProcessThreads (pids l) in
    (if late : bool then
       modify (put_err EINVAL) ;;!
       modify (put_result (-1))
     else ret tt) ;;!
    sys__exit 0.

(** [detach_threads:] *)
Definition detach_threads : P unit :=
  let! l := get_hnd in
  ResumeAllProcessThreads (pids l) ;;!
  modify (put_sig_pids false) ;;!
  modify (put_pids []) ;;!
  modify (put_sig_num 0).

(** The outer loop; [paths] is [proc_path] and the paths after it. *)
Fixpoint lister_loop {A : Type} (n : nat) (marker : Z) (marker_path : list Z)
    (marker_ino clone_pid ppid : Z) (path : list Z) (paths : list (list Z)) (max_threads : Z)
    (found_parent : bool) : P A :=
  match n with
  | O => out_of_fuel
  | S n' =>
      let! proc := c_open path in
      modify (put_sig_proc proc) ;;!
      if proc <? 0 then
        match paths with
        | p :: ps => lister_loop n' marker marker_path marker_ino clone_pid ppid p ps max_threads found_parent
        | [] => failure marker proc
        end
      else
        let! (rc, st_nlink) := sys_fstat proc in
        if rc <? 0 then failure marker proc
        else
          let max_threads := if max_threads <? st_nlink + 100 then st_nlink + 100 else max_threads in
          modify (fun l => put_sig_num (zlen (pids l)) l) ;;!
          modify (put_sig_pids true) ;;!
          let! o := scan_proc fuel marker marker_path marker_ino clone_pid ppid max_threads proc
                      found_parent 0 in
          match o with
          | Detach found_parent =>
              detach_threads ;;!
              lister_loop n' marker marker_path marker_ino clone_pid ppid path paths
                (max_threads + 100) found_parent
          | Scanned found_parent =>
              NO_INTR fuel (sys_close proc) ;;!
              modify (put_sig_proc (-1)) ;;!
              let! l := get_hnd in
              if 1 <? zlen (pids l) then lister_done marker found_parent
              else
                match paths with
                | [] => lister_done marker found_parent
                | p :: ps =>
                    detach_threads ;;!
                    lister_loop n' marker marker_path marker_ino clone_pid ppid p ps
                      (max_threads + 100) found_parent
                end
          end
  end.

(** Installing the handler for each synchronous signal. *)
Fixpoint install_handlers (sigs : list Z) : P unit :=
  match sigs with
  | [] => ret tt
  | sg :: sgs => sys_rt_sigaction sg ;;! install_handlers sgs
  end.

(** [ListerThread]; it ends by exiting. *)
Definition ListerThread {A : Type} : P A :=
  let! clone_pid := sys_gettid in
  let! ppid := sys_getppid in
  let! marker := sys_socket in
  if marker <? 0 then failure marker (-1)
  else
    let! rc := sys_fcntl marker F_SETFD FD_CLOEXEC in
    if rc <? 0 then failure marker (-1)
    else
      let! ppid_s := lift (local_itoa itoa_fuel ppid) in
      let! marker_s := lift (local_itoa itoa_fuel marker) in
      let proc_self_task := bytes "/proc/" ++ ppid_s ++ bytes "/task/" in
      let marker_path := bytes "/fd/" ++ marker_s in
      let marker_name := bytes "/proc/" ++ ppid_s ++ marker_path in
      let! (rc, marker_ino) := sys_stat marker_name in
      if rc <? 0 then failure marker (-1)
      else
        sys_sigaltstack ;;!
        modify (put_sig_marker marker) ;;!
        modify (put_sig_proc (-1)) ;;!
        install_handlers sync_signals ;;!
        lister_loop fuel marker marker_path marker_ino clone_pid ppid proc_self_task
          [bytes "/proc/"] 0 false.

(** *** The caller *)

(** Running a clone that shares memory: the wait status it ends with. *)
Definition run_clone (m : P unit) : P Z :=
  fun s =>
    match m s with
    | Exited c s' => Ret (Z.shiftl (Z.land c 255) 8) s'
    | Ret _ s' => Ret 0 s'
    | Execed _ s' | Aborted s' => Ret SIGABRT s'
    | OutOfFuel => OutOfFuel
    end.

(** [while ((rc = sys0_waitpid(clone_pid, &status, __WALL)) < 0 && ERRNO == EINTR)] *)
Definition wait_clone (clone_pid : Z) : P (Z * Z * Z) :=
  MY_NO_INTR fuel (sys0_waitpid clone_pid __WALL) 0.

Definition wifexited (status : Z) : bool := Z.land status 127 =? 0.
Definition wexitstatus (status : Z) : Z := Z.shiftr (Z.land status 65280) 8.

(** What [ListAllProcessThreads] makes of the wait status of its clone. *)
Definition report (rc status my_errno : Z) : P unit :=
  if rc <? 0 then modify (put_err my_errno) ;;! modify (put_result (-1))
  else if wifexited status then
    let c := wexitstatus status in
    if c =? 0 then ret tt
    else if c =? 2 then modify (put_err EFAULT) ;;! modify (put_result (-1))
    else if c =? 3 then modify (put_err EPERM) ;;! modify (put_result (-1))
    else modify (put_err ECHILD) ;;! modify (put_result (-1))
  else modify (put_err EFAULT) ;;! modify (put_result (-1)).

(** The mask that blocks asynchronous signals. *)
Definition async_signals : kernel_sigset_t :=
  fold_left (fun set sg => (sys_sigdelset set sg).1.2) sync_signals
    (sys_sigfillset (Sigset (replicate sig_words 0))).

(** [ListAllProcessThreads].  The clone shares memory with its parent and runs
    to its end while the parent waits, so it is run here as a call, after the two
    calls that the parent makes at the same time. *)
Definition ListAllProcessThreads : P Z :=
  let! dumpable := sys_prctl PR_GET_DUMPABLE 0 in
  (if dumpable =? 0 then sys_prctl PR_SET_DUMPABLE 1 ;;! ret tt else ret tt) ;;!
  modify (put_result (-1)) ;;!
  modify (put_err 0) ;;!
  let! (rc, sig_old) := sys_sigprocmask SIG_BLOCK (sig async_signals) in
  (if negb (rc =? 0) then
     let! e := get_errno in
     modify (put_err e) ;;! modify (put_result (-1))
   else
     let! clone_pid := sys_clone in
     let! clone_errno := get_errno in
     sys_prctl PR_SET_PTRACER clone_pid ;;!
     sys_sigprocmask SIG_SETMASK sig_old ;;!
     if 0 <=? clone_pid then
       let! status := run_clone ListerThread in
       let! (rc, _, my_errno) := wait_clone clone_pid in
       report rc status my_errno
     else
       modify (put_result (-1)) ;;! modify (put_err clone_errno)) ;;!
  (if dumpable =? 0 then sys_prctl PR_SET_DUMPABLE dumpable ;;! ret tt else ret tt) ;;!
  let! l := get_hnd in
  set_errno (l_err l) ;;!
  ret (l_result l).
End Lister.

(** ** The fallback of [thread_lister.c] *)
Section Trivial.
Context {W H : Type} `{KernelProc W}.

Definition trivial_ListAllProcessThreads (callback : list Z -> M (cst W H) Z) : M (cst W H) Z :=
  let! dumpable := sys_prctl PR_GET_DUMPABLE 0 in
  (if dumpable =? 0 then sys_prctl PR_SET_DUMPABLE 1 ;;! ret tt else ret tt) ;;!
  let! pid := sys_getpid in
  let! rc := callback [pid] in
  (if dumpable =? 0 then sys_prctl PR_SET_DUMPABLE 0 ;;! ret tt else ret tt) ;;!
  ret rc.

Definition trivial_ResumeAllProcessThreads (thread_pids : list Z) : M (cst W H) Z := ret 1.
End Trivial.

(** ** Numbers and names

    The directory names of /proc are parsed with [local_atoi], and the paths of
    the marker are built with [local_itoa]. *)

Lemma digit_of d : 0 <= d < 10 -> is_digit (digit d) = true /\ digit d - ord "0" = d.
Proof. intros. unfold is_digit, digit. change (ord "0") with 48. change (ord "9") with 57. split; lia. Qed.

Lemma atoi_digits_snoc s c : forall n, Forall (fun c => is_digit c = true) s -> is_digit c = true ->
  atoi_digits n (s ++ [c]) = s32 (10 * atoi_digits n s + (c - ord "0")).
Proof.
  induction s as [|x s IH]; intros n Hs Hc.
  - cbn [app atoi_digits]. by rewrite Hc.
  - inversion_clear Hs as [|? ? Hx Hs']. cbn [app atoi_digits]. rewrite Hx. by apply IH.
Qed.

Lemma itoa_pos n : forall i, 0 <= i < 10 ^ Z.of_nat n -> i < 2 ^ 31 -> (0 < n)%nat ->
  exists s, local_itoa n i = Some s /\ s <> [] /\ Forall (fun c => is_digit c = true) s /\ atoi_digits 0 s = i.
Proof.
  induction n as [|n IH]; intros i Hi Hlt Hn; [lia|]. cbn [local_itoa].
  destruct (i <? 0) eqn:E; b2p; [lia|].
  pose proof (Z.mod_pos_bound i 10 ltac:(lia)) as Hm. destruct (digit_of (i mod 10) Hm) as [Hd Hv].
  pose proof (Z.div_mod i 10 ltac:(lia)) as Hdm.
  destruct (10 <=? i) eqn:E1; b2p.
  - assert (Hq : 0 <= i / 10 < 10 ^ Z.of_nat n).
    { split; [apply Z.div_pos; lia|]. apply Z.div_lt_upper_bound; [lia|].
      rewrite Nat2Z.inj_succ, Z.pow_succ_r in Hi by lia. lia. }
    destruct (IH (i / 10)) as (s & -> & Hs & Hds & Hval); [done|lia| |].
    { destruct n; [cbn in Hq; lia|lia]. }
    eexists. split; [reflexivity|]. split_and!.
    + by destruct s.
    + apply Forall_app. split; [done|]. by repeat constructor.
    + rewrite atoi_digits_snoc, Hval, Hv by done. rewrite s32_small by lia. lia.
  - eexists. split; [reflexivity|]. split_and!; [done|by repeat constructor|].
    cbn [app atoi_digits]. rewrite Hd, Hv, s32_small by lia. rewrite Z.mod_small by lia. lia.
Qed.

Lemma itoa_neg n i s : i < 0 -> local_itoa n (s32 (- i)) = Some s -> local_itoa (S n) i = Some (ord "-" :: s).
Proof. intros Hi E. cbn [local_itoa]. rewrite E. by destruct (Z.ltb_spec i 0); [|lia]. Qed.

Lemma itoa_min n : local_itoa n (- 2 ^ 31) = None.
Proof. induction n as [|n IH]; [done|]. cbn [local_itoa]. change (s32 (- - 2 ^ 31)) with (- 2 ^ 31). by rewrite IH. Qed.

(** C37. [local_atoi] reads back what [local_itoa] prints, for every [int] but the
    least; for that one [local_itoa] never stops calling itself. *)
Theorem itoa_atoi i : - 2 ^ 31 <= i < 2 ^ 31 ->
  (i <> - 2 ^ 31 -> exists s, local_itoa itoa_fuel i = Some s /\ local_atoi s = i) /\
  (i = - 2 ^ 31 -> forall n, local_itoa n i = None).
Proof.
  intros Hi. split; [|intros -> n; apply itoa_min]. intros Hne. unfold itoa_fuel.
  destruct (Z.ltb_spec i 0) as [Hneg|Hpos].
  - destruct (itoa_pos 11 (- i)) as (s & Hs & _ & Hd & Hv); [cbn; lia|lia|lia|].
    exists (ord "-" :: s). split.
    + apply itoa_neg; [done|]. rewrite s32_small by lia. done.
    + cbn [local_atoi]. rewrite Z.eqb_refl, Hv, s32_small; lia.
  - destruct (itoa_pos 12 i) as (s & Hs & Hne' & Hd & Hv); [cbn; lia|lia|lia|].
    exists s. split; [done|]. destruct s as [|c s]; [done|]. cbn [local_atoi].
    destruct (c =? ord "-") eqn:E; [|done]. b2p. subst c. inversion_clear Hd. done.
Qed.

(** Asynchronous signals are blocked while the lister runs, and only they:
    a signal can be delivered exactly when it is one of the synchronous ones. *)
Theorem async_signals_members t : 1 <= t <= KERNEL_NSIG ->
  sys_sigismember async_signals t = (if decide (t ∈ sync_signals) then 0 else 1, None).
Proof.
  intros Ht. assert (E : forallb (fun t => bool_decide (sys_sigismember async_signals t =
    (if decide (t ∈ sync_signals) then 0 else 1, None))) (map Z.of_nat (seq 1 64)) = true) by done.
  rewrite forallb_forall in E. eapply bool_decide_unpack, Is_true_eq_left, E.
  unfold KERNEL_NSIG in Ht. apply in_map_iff. exists (Z.to_nat t). split; [lia|]. apply in_seq. lia.
Qed.

Lemma itoa_atoi_witness :
  (-65432 <> - 2 ^ 31 -> exists s, local_itoa itoa_fuel (-65432) = Some s /\ local_atoi s = -65432) /\
  (-65432 = - 2 ^ 31 -> forall n, local_itoa n (-65432) = None).
Proof. apply (itoa_atoi (-65432)). by_compute. Defined.

Lemma async_signals_members_witness : sys_sigismember async_signals SIGSEGV = (0, None).
Proof. apply (async_signals_members SIGSEGV). by_compute. Defined.
