(* ===== verification/X86.v ===== *)
(** The part of the x86 instruction set that the register snapshots of [elfcore.h]
    are written in, for 32 and 64 bits. *)
From S2P Require Import Prelude.

(** ** Registers, flags and memory *)

Inductive reg := AX | BX | CX | DX | SI | DI | BP | SP | R8 | R9 | R10 | R11 | R12 | R13 | R14 | R15.
Inductive sreg := DS | ES | FS | GS | CS | SS.

Definition reg_num (r : reg) : nat :=
  match r with
  | AX => 0 | BX => 1 | CX => 2 | DX => 3 | SI => 4 | DI => 5 | BP => 6 | SP => 7
  | R8 => 8 | R9 => 9 | R10 => 10 | R11 => 11 | R12 => 12 | R13 => 13 | R14 => 14 | R15 => 15
  end.

Definition upd (r : reg) (v : Z) (g : reg -> Z) : reg -> Z :=
  fun r' => if Nat.eqb (reg_num r) (reg_num r') then v else g r'.

(** [mem] gives the byte at an address, a number below [2 ^ w]. *)
Record machine := Machine { gpr : reg -> Z; seg : sreg -> Z; flags : Z; mem : Z -> Z }.

(** The flags an addition sets: carry, parity, adjust, zero, sign, overflow. *)
Definition arith_flags : Z := 0x8D5.
(** What [pushf] stores: the flags without RF and VM. *)
Definition pushed_flags : Z := 0xFCFFFF.

Definition even_parity (x : Z) : bool :=
  negb (fold_right xorb false (map (fun i => Z.testbit x (Z.of_nat i)) (seq 0 8))).

Section X86.
Variable w : Z.

Definition wrap (x : Z) : Z := x mod 2 ^ w.
(** Sums in a register, and in its low 32 bits. *)
Definition wadd (x y : Z) : Z := wrap (x + y).
Definition ladd (x y : Z) : Z := u32 (u32 x + y).
(** The size of a machine word. *)
Definition wsize : nat := Z.to_nat (w / 8).
Definition wbytes : Z := Z.of_nat wsize.

Definition load (a : Z) (m : Z -> Z) : Z := unle (map (fun i => m (wrap (a + Z.of_nat i))) (seq 0 wsize)).
Definition store_at (a v : Z) (m : Z -> Z) : Z -> Z :=
  fun x => let d := wrap (x - a) in if d <? wbytes then (v / 2 ^ (8 * d)) mod 256 else m x.
Definition store (a v : Z) (m : Z -> Z) : Z -> Z := store_at (wrap a) v m.

(** The flags after adding [b] to [a], operands of [n] bits. *)
Definition add_flags (n a b old : Z) : Z :=
  let r := (a + b) mod 2 ^ n in
  let bit (c : bool) i := if c then 2 ^ i else 0 in
  Z.lor (Z.ldiff old arith_flags)
    (bit (2 ^ n <=? a + b) 0 + bit (even_parity r) 2 + bit (16 <=? a mod 16 + b mod 16) 4 + bit (r =? 0) 6
     + bit (Z.testbit r (n - 1)) 7
     + bit (Bool.eqb (Z.testbit a (n - 1)) (Z.testbit b (n - 1)) && negb (Bool.eqb (Z.testbit a (n - 1)) (Z.testbit r (n - 1)))) 11).

(** ** Instructions (AT&T order: source, destination) *)

Inductive instr :=
  | Push (r : reg)
  | Pop (r : reg)
  | Store (r : reg) (off : Z)      (* mov %r, off(%ax) *)
  | Mov (r d : reg)
  | MovSeg (s : sreg) (d : reg)    (* zero-extends *)
  | Call (next : Z)                (* to the label that follows, at [next] *)
  | Add (imm : Z) (d : reg)
  | AddL (imm : Z) (d : reg)       (* on the low 32 bits; zero-extends *)
  | Pushf.

Definition push (v : Z) (m : machine) : machine :=
  let sp := wrap (gpr m SP - wbytes) in
  Machine (upd SP sp (gpr m)) (seg m) (flags m) (store sp v (mem m)).

Definition set_reg (r : reg) (v : Z) (m : machine) : machine :=
  Machine (upd r v (gpr m)) (seg m) (flags m) (mem m).

Definition exec (m : machine) (i : instr) : machine :=
  match i with
  | Push r => push (gpr m r) m
  | Pop r =>
      let v := load (gpr m SP) (mem m) in
      set_reg r v (set_reg SP (wrap (gpr m SP + wbytes)) m)
  | Store r off => Machine (gpr m) (seg m) (flags m) (store (wrap (gpr m AX + off)) (gpr m r) (mem m))
  | Mov r d => set_reg d (gpr m r) m
  | MovSeg s d => set_reg d (u16 (seg m s)) m
  | Call next => push next m
  | Add imm d =>
      let v := wadd (gpr m d) imm in
      Machine (upd d v (gpr m)) (seg m) (add_flags w (gpr m d) (wrap imm) (flags m)) (mem m)
  | AddL imm d =>
      let v := ladd (gpr m d) imm in
      Machine (upd d v (gpr m)) (seg m) (add_flags 32 (u32 (gpr m d)) (u32 imm) (flags m)) (mem m)
  | Pushf => push (Z.land (flags m) pushed_flags) m
  end.

Definition run (code : list instr) (m : machine) : machine := fold_left exec code m.

(** The word number [i] of the structure at [f]. *)
Definition word_at (m : machine) (f i : Z) : Z := load (f + i * wbytes) (mem m).
End X86.
Arguments upd r v g r' /.

(** ** Loads and stores *)

Section Memory.
Variable w : Z.
Hypothesis Hw : w = 32 \/ w = 64.
Abbreviation wrap := (wrap w).
Abbreviation wsize := (wsize w).
Abbreviation wbytes := (wbytes w).

Lemma word_size : w = 8 * wbytes /\ 0 < wbytes /\ wbytes < 2 ^ w.
Proof. by destruct Hw as [-> | ->]. Qed.

Lemma wrap_bound x : 0 <= wrap x < 2 ^ w.
Proof. apply Z.mod_pos_bound. destruct Hw as [-> | ->]; done. Qed.

Lemma wrap_small x : 0 <= x < 2 ^ w -> wrap x = x.
Proof. apply Z.mod_small. Qed.

Lemma wrap_eq x y k : x = y + k * 2 ^ w -> wrap x = wrap y.
Proof. intros ->. apply Z_mod_plus_full. Qed.

Lemma wrap_sub_l x y : wrap (wrap x - y) = wrap (x - y).
Proof. apply Zminus_mod_idemp_l. Qed.

Lemma wrap_sub_r x y : wrap (x - wrap y) = wrap (x - y).
Proof. apply Zminus_mod_idemp_r. Qed.

Lemma wrap_add_l x y : wrap (wrap x + y) = wrap (x + y).
Proof. apply Zplus_mod_idemp_l. Qed.

Lemma wrap_wrap x : wrap (wrap x) = wrap x.
Proof. apply Zmod_mod. Qed.

Lemma store_wrap a v m : store w (wrap a) v m = store w a v m.
Proof. unfold store. by rewrite wrap_wrap. Qed.

Lemma load_wrap a m : load w (wrap a) m = load w a m.
Proof. unfold load. f_equal. apply map_ext. intros i. by rewrite wrap_add_l. Qed.

(** A byte that the store does not reach, and one that it does. *)
Lemma store_byte a v m x : store w a v m x =
  if wrap (x - a) <? wbytes then (v / 2 ^ (8 * wrap (x - a))) mod 256 else m x.
Proof. unfold store, store_at. by rewrite wrap_sub_r. Qed.

Lemma le_map n v : map (fun i => (v / 2 ^ (8 * Z.of_nat i)) mod 256) (seq 0 n) = le n v.
Proof.
  revert v. induction n as [|n IH]; intros v; [done|]. cbn [seq map le]. f_equal.
  - by rewrite Z.div_1_r.
  - rewrite <- IH, <- seq_shift, map_map. apply map_ext. intros i. rewrite Z.div_div by (try apply Z.pow_nonneg; lia).
    do 2 f_equal. replace (8 * Z.of_nat (S i)) with (8 + 8 * Z.of_nat i) by lia. rewrite Z.pow_add_r; lia.
Qed.

Lemma load_same a v m : load w a (store w a v m) = wrap v.
Proof.
  destruct word_size as (E & H0 & H1). unfold load.
  rewrite (map_ext_in _ (fun i => (v / 2 ^ (8 * Z.of_nat i)) mod 256)).
  - rewrite le_map, unle_le. unfold X86.wrap. do 2 f_equal. unfold X86.wbytes in E. lia.
  - intros i Hi. apply in_seq in Hi. rewrite store_byte, wrap_sub_l.
    replace (a + Z.of_nat i - a) with (Z.of_nat i) by lia. unfold X86.wbytes in *. rewrite wrap_small by lia.
    by rewrite (proj2 (Z.ltb_lt _ _)) by lia.
Qed.

Lemma load_other a b v m : wbytes <= wrap (b - a) <= 2 ^ w - wbytes -> load w b (store w a v m) = load w b m.
Proof.
  intros H. destruct word_size as (E & H0 & H1). unfold load. f_equal. apply map_ext_in. intros i Hi. apply in_seq in Hi.
  rewrite store_byte, wrap_sub_l. replace (b + Z.of_nat i - a) with (b - a + Z.of_nat i) by lia.
  rewrite <- wrap_add_l. unfold X86.wbytes in *. rewrite wrap_small by lia.
  by rewrite (proj2 (Z.ltb_ge _ _)) by lia.
Qed.
End Memory.

(** ** Symbolic execution of a snapshot

    The code runs with the address [f] of a structure of [size] bytes in %ax and
    the stack pointer at [sp].  It writes only into the structure and below the
    stack pointer, so that memory is a log of what was written where. *)

Inductive base := InFrame | OnStack.
Abbreviation loc := (base * Z)%type.

#[export] Instance base_eq_dec : EqDecision base.
Proof. solve_decision. Defined.
#[export] Instance reg_eq_dec : EqDecision reg.
Proof. solve_decision. Defined.

Record snap := Snap { s_gpr : reg -> Z; s_sp : Z; s_flags : Z; s_log : list (loc * Z) }.

Section Snapshot.
Variables w f sp size depth : Z.
Abbreviation wrap := (wrap w).
Abbreviation wbytes := (wbytes w).

Definition addr (l : loc) : Z := match l.1 with InFrame => f + l.2 | OnStack => sp + l.2 end.

Definition loc_ok (l : loc) : bool :=
  match l.1 with
  | InFrame => (0 <=? l.2) && (l.2 <=? size - wbytes)
  | OnStack => (- depth <=? l.2) && (l.2 <=? - wbytes)
  end.

(** Two words that do not overlap. *)
Definition sep (l l' : loc) : bool :=
  if decide (l.1 = l'.1) then (wbytes <=? Z.abs (l.2 - l'.2)) && (Z.abs (l.2 - l'.2) <=? 2 ^ w - wbytes)
  else loc_ok l && loc_ok l'.

Definition stores (log : list (loc * Z)) (m : Z -> Z) : Z -> Z :=
  fold_right (fun '(l, v) m => store w (addr l) v m) m log.

Fixpoint look (log : list (loc * Z)) (l : loc) : option Z :=
  match log with
  | [] => None
  | (l', v) :: log' => if decide (l = l') then Some v else if sep l l' then look log' l else None
  end.

Definition untouched (log : list (loc * Z)) (l : loc) : bool := forallb (fun e => sep l e.1) log.

(** One instruction, when it is one that a snapshot may use. *)
Definition push_snap (v : Z) (a : snap) : option snap :=
  let l := (OnStack, s_sp a - wbytes) in
  if loc_ok l then Some (Snap (s_gpr a) (s_sp a - wbytes) (s_flags a) ((l, v) :: s_log a)) else None.

Definition set_snap (d : reg) (v : Z) (a : snap) : option snap :=
  if decide (d = AX \/ d = SP) then None else Some (Snap (upd d v (s_gpr a)) (s_sp a) (s_flags a) (s_log a)).

Definition sym (sg : sreg -> Z) (a : snap) (i : instr) : option snap :=
  match i with
  | Push r => if decide (r = SP) then None else push_snap (s_gpr a r) a
  | Pop r =>
      match look (s_log a) (OnStack, s_sp a) with
      | Some v => set_snap r (wrap v) (Snap (s_gpr a) (s_sp a + wbytes) (s_flags a) (s_log a))
      | None => None
      end
  | Store r off =>
      if decide (r = SP) then None
      else if loc_ok (InFrame, off)
      then Some (Snap (s_gpr a) (s_sp a) (s_flags a) (((InFrame, off), s_gpr a r) :: s_log a)) else None
  | Mov r d => set_snap d (if decide (r = SP) then wadd w sp (s_sp a) else s_gpr a r) a
  | MovSeg s d => set_snap d (u16 (sg s)) a
  | Call next => push_snap next a
  | Add imm d =>
      set_snap d (wadd w (s_gpr a d) imm)
        (Snap (s_gpr a) (s_sp a) (add_flags w (s_gpr a d) (wrap imm) (s_flags a)) (s_log a))
  | AddL imm d =>
      set_snap d (ladd (s_gpr a d) imm)
        (Snap (s_gpr a) (s_sp a) (add_flags 32 (u32 (s_gpr a d)) (u32 imm) (s_flags a)) (s_log a))
  | Pushf => push_snap (Z.land (s_flags a) pushed_flags) a
  end.

Fixpoint sym_run (sg : sreg -> Z) (code : list instr) (a : snap) : option snap :=
  match code with
  | [] => Some a
  | i :: code' => match sym sg a i with Some a' => sym_run sg code' a' | None => None end
  end.

(** ** It agrees with the machine *)

Hypothesis Hw : w = 32 \/ w = 64.
(* the stack does not grow into the structure *)
Hypothesis room : size <= wrap (sp - depth - f) <= 2 ^ w - depth.

Lemma sep_other l l' v m : sep l l' = true -> load w (addr l) (store w (addr l') v m) = load w (addr l) m.
Proof.
  intros Hs. apply load_other; [done|]. destruct (word_size w Hw) as (E & H0 & H1).
  unfold sep, loc_ok in Hs. destruct l as [[] k], l' as [[] k']; unfold addr; cbn [fst snd] in *;
    destruct (decide _) as [?|?]; try done; b2p.
  1,4: rewrite (wrap_eq w _ (k - k') 0) by lia; destruct (decide (0 <= k - k'));
    [rewrite wrap_small by lia; lia|rewrite (wrap_eq w _ (k - k' + 2 ^ w) (-1)) by lia; rewrite wrap_small; lia].
  - rewrite (wrap_eq w _ (k - k' - depth - wrap (sp - depth - f) + 2 ^ w) (- 1 - (sp - depth - f) / 2 ^ w)).
    + rewrite wrap_small; lia.
    + pose proof (Z.div_mod (sp - depth - f) (2 ^ w) ltac:(lia)). unfold X86.wrap. nia.
  - rewrite (wrap_eq w _ (k - k' + depth + wrap (sp - depth - f)) ((sp - depth - f) / 2 ^ w)).
    + rewrite wrap_small; lia.
    + pose proof (Z.div_mod (sp - depth - f) (2 ^ w) ltac:(lia)). unfold X86.wrap. nia.
Qed.

Lemma look_load log l v m : look log l = Some v -> load w (addr l) (stores log m) = wrap v.
Proof.
  induction log as [|[l' v'] log IH]; cbn [look]; [done|]. destruct (decide (l = l')) as [<-|_].
  - intros [= <-]. by apply load_same.
  - destruct (sep l l') eqn:E; [|done]. intros H. cbn [stores fold_right]. rewrite sep_other by done. by apply IH.
Qed.

Lemma untouched_load log l m : untouched log l = true -> load w (addr l) (stores log m) = load w (addr l) m.
Proof.
  induction log as [|[l' v'] log IH]; cbn; [done|]. intros [Hs H]%andb_true_iff.
  rewrite sep_other by done. by apply IH.
Qed.

Lemma load_ext a m m' : (forall x, m x = m' x) -> load w a m = load w a m'.
Proof. intros H. unfold load. f_equal. by apply map_ext. Qed.

Variables (sg : sreg -> Z) (m0 : Z -> Z).

Record agrees (a : snap) (m : machine) : Prop := {
  ag_gpr : forall r, r <> SP -> gpr m r = s_gpr a r;
  ag_ax : s_gpr a AX = f;
  ag_sp : gpr m SP = wrap (sp + s_sp a);
  ag_seg : seg m = sg;
  ag_flags : flags m = s_flags a;
  ag_mem : forall x, mem m x = stores (s_log a) m0 x }.

Lemma store_agrees log l v a m x : wrap a = wrap (addr l) -> (forall x, m x = stores log m0 x) ->
  store w a v m x = stores ((l, v) :: log) m0 x.
Proof.
  intros Ha Hm. cbn [stores fold_right]. rewrite <- (store_wrap w a), Ha, store_wrap, !store_byte.
  by rewrite Hm.
Qed.

Lemma push_agrees v a m a' : agrees a m -> push_snap v a = Some a' -> agrees a' (push w v m).
Proof.
  intros [Hg Hax Hsp Hsg Hfl Hm]. unfold push_snap. destruct (loc_ok _); [|done]. intros [= <-].
  split; cbn [push gpr seg flags mem s_gpr s_sp s_flags s_log]; auto.
  - intros r Hr. rewrite <- Hg by done. destruct r; done.
  - cbn. rewrite Hsp, wrap_sub_l. f_equal. lia.
  - intros x. apply store_agrees; [|done]. rewrite Hsp, wrap_sub_l, wrap_wrap. unfold addr. f_equal. cbn. lia.
Qed.

Lemma upd_ne r r' v g : r <> r' -> upd r v g r' = g r'.
Proof. by destruct r, r'. Qed.

Lemma upd_eq r v g : upd r v g r = v.
Proof. by destruct r. Qed.

Lemma set_agrees d v a m a' fl : agrees a m -> set_snap d v (Snap (s_gpr a) (s_sp a) fl (s_log a)) = Some a' ->
  agrees a' (Machine (upd d v (gpr m)) (seg m) fl (mem m)).
Proof.
  intros [Hg Hax Hsp Hsg Hfl Hm]. unfold set_snap. destruct (decide _) as [|Hd]; [done|]. intros [= <-].
  split; cbn [gpr seg flags mem s_gpr s_sp s_flags s_log]; auto.
  - intros r Hr. destruct (decide (d = r)) as [<-|Hne]; [by rewrite !upd_eq|]. rewrite !upd_ne by done. auto.
  - rewrite upd_ne; naive_solver.
  - rewrite upd_ne; naive_solver.
Qed.

Lemma sym_agrees a m i a' : agrees a m -> sym sg a i = Some a' -> agrees a' (exec w m i).
Proof.
  intros Ha Hs. pose proof Ha as [Hg Hax Hsp Hsg Hfl Hm]. destruct i; cbn [sym exec] in *.
  - destruct (decide (r = SP)); [done|]. rewrite Hg by done. by apply (push_agrees _ a).
  - destruct (look _ _) as [v|] eqn:El; [|done].
    assert (Hl : load w (gpr m SP) (mem m) = wrap v).
    { rewrite (load_ext _ _ _ Hm), Hsp, load_wrap. by apply (look_load _ (OnStack, s_sp a)). }
    rewrite Hl. destruct (decide (r = AX \/ r = SP)) as [Hd|Hd].
    { unfold set_snap in Hs. by rewrite decide_True in Hs. }
    apply (set_agrees r (wrap v) (Snap (s_gpr a) (s_sp a + wbytes) (s_flags a) (s_log a))
      (set_reg SP (wrap (gpr m SP + wbytes)) m) a' (s_flags a)) in Hs as H.
    + by rewrite <- Hfl in H.
    + split; cbn [set_reg gpr seg flags mem s_gpr s_sp s_flags s_log]; auto.
      * intros r' Hr'. rewrite upd_ne by done. auto.
      * rewrite upd_eq, Hsp, wrap_add_l. f_equal. lia.
  - destruct (decide (r = SP)); [done|]. destruct (loc_ok _); [|done]. injection Hs as <-.
    split; cbn [gpr seg flags mem s_gpr s_sp s_flags s_log]; auto. intros x. rewrite (Hg r), (Hg AX), Hax by done.
    apply store_agrees; [|done]. by rewrite wrap_wrap.
  - apply (set_agrees _ _ a m) in Hs as H; [|done]. rewrite <- Hfl in H. unfold set_reg.
    destruct (decide (r = SP)) as [->|]; [by rewrite Hsp|by rewrite Hg].
  - rewrite Hsg. apply (set_agrees _ _ a m) in Hs as H; [|done]. by rewrite <- Hfl in H.
  - by apply (push_agrees _ a).
  - assert (d <> SP) by (unfold set_snap in Hs; destruct (decide _); naive_solver).
    rewrite Hg, Hfl by done. by apply (set_agrees _ _ a m) in Hs.
  - assert (d <> SP) by (unfold set_snap in Hs; destruct (decide _); naive_solver).
    rewrite Hg, Hfl by done. by apply (set_agrees _ _ a m) in Hs.
  - rewrite Hfl. by apply (push_agrees _ a).
Qed.

Lemma sym_run_agrees code a m a' : agrees a m -> sym_run sg code a = Some a' -> agrees a' (run w code m).
Proof.
  revert a m. induction code as [|i code IH]; cbn; intros a m Ha Hs; [by injection Hs as <-|].
  destruct (sym sg a i) as [a1|] eqn:E; [|done]. eapply IH; [|done]. by eapply sym_agrees.
Qed.

(** Code that starts in machine [m]. *)
Lemma snapshot m code a : gpr m AX = f -> gpr m SP = wrap sp -> seg m = sg -> (forall x, mem m x = m0 x) ->
  sym_run sg code (Snap (gpr m) 0 (flags m) []) = Some a -> agrees a (run w code m).
Proof. intros Hax Hsp Hsg Hm. apply sym_run_agrees. split; auto. cbn. by rewrite Z.add_0_r. Qed.

Lemma word_at_log a m k v : agrees a m -> look (s_log a) (InFrame, k * wbytes) = Some v -> word_at w m f k = wrap v.
Proof. intros Ha Hl. unfold word_at. rewrite (load_ext _ _ _ (ag_mem _ _ Ha)). by apply (look_load _ (InFrame, _)). Qed.

Lemma word_at_kept a m m1 k : agrees a m -> (forall x, mem m1 x = m0 x) ->
  untouched (s_log a) (InFrame, k * wbytes) = true -> word_at w m f k = word_at w m1 f k.
Proof.
  intros Ha Hm Hl. unfold word_at. rewrite (load_ext _ _ _ (ag_mem _ _ Ha)), (load_ext _ _ _ Hm).
  by apply (untouched_load _ (InFrame, _)).
Qed.

(** An address neither in the structure nor right below the stack pointer. *)
Definition elsewhere (x : Z) : Prop := size <= wrap (x - f) /\ depth <= wrap (x - (sp - depth)).

Lemma mem_elsewhere a m x : 0 <= depth -> 0 <= size -> agrees a m -> elsewhere x -> forallb (fun e => loc_ok e.1) (s_log a) = true ->
  mem m x = m0 x.
Proof.
  intros Hdp Hsz Ha [Hf Hs] Hl. rewrite (ag_mem _ _ Ha). clear Ha. destruct (word_size w Hw) as (E & H0 & H1).
  induction (s_log a) as [|[[b k] v] log IH]; [done|]. cbn [forallb] in Hl. apply andb_true_iff in Hl as [Hk Hl].
  cbn [stores fold_right]. rewrite store_byte. rewrite (proj2 (Z.ltb_ge _ _)); [by apply IH|].
  unfold loc_ok in Hk. cbn [fst snd] in Hk. apply Z.nlt_ge. intros Hlt.
  pose proof (wrap_bound w Hw (x - addr (b, k))) as Hd. set (d := wrap (x - addr (b, k))) in *.
  assert (Hx : x = d + addr (b, k) + (x - addr (b, k)) / 2 ^ w * 2 ^ w).
  { pose proof (Z.div_mod (x - addr (b, k)) (2 ^ w) ltac:(lia)). unfold d, X86.wrap. lia. }
  set (q := (x - addr (b, k)) / 2 ^ w) in *. clearbody d q. destruct b; unfold addr in Hx; cbn [fst snd] in Hx; b2p.
  - rewrite (wrap_eq w (x - f) (d + k) q) in Hf by lia.
    destruct (decide (d + k < 2 ^ w)); [rewrite wrap_small in Hf; lia|].
    rewrite (wrap_eq w _ (d + k - 2 ^ w) 1), wrap_small in Hf; lia.
  - rewrite (wrap_eq w (x - (sp - depth)) (d + k + depth) q) in Hs by lia.
    destruct (decide (d + k + depth < 2 ^ w)); [rewrite wrap_small in Hs; lia|].
    rewrite (wrap_eq w _ (d + k + depth - 2 ^ w) 1), wrap_small in Hs; lia.
Qed.
End Snapshot.

(** An addition leaves the other flags alone. *)
Lemma add_flags_other n a b old : Z.ldiff (add_flags n a b old) arith_flags = Z.ldiff old arith_flags.
Proof.
  unfold add_flags. apply Z.bits_inj'. intros i Hi. rewrite !Z.ldiff_spec, Z.lor_spec, Z.ldiff_spec.
  destruct (Z.testbit arith_flags i) eqn:E; [by rewrite !andb_false_r|]. rewrite !andb_true_r.
  match goal with |- (_ || Z.testbit ?x i)%bool = _ => assert (Hx : Z.land x arith_flags = x) end.
  { repeat match goal with |- context [if ?c then _ else _] => destruct c end; reflexivity. }
  rewrite <- Hx, Z.land_spec, E, andb_false_r. apply orb_false_r.
Qed.

(** ** What a snapshot stores *)

(** Registers as the processor has them, and a structure of [size] bytes at %ax that
    the stack, which grows by three words, does not run into. *)
Record may_snapshot (w size : Z) (m : machine) : Prop := {
  ms_gpr : forall r, 0 <= gpr m r < 2 ^ w;
  ms_seg : forall s, 0 <= seg m s < 2 ^ 16;
  ms_flags : Z.land (flags m) pushed_flags = flags m;
  ms_room : size <= wrap w (gpr m SP - 3 * wbytes w - gpr m AX) <= 2 ^ w - 3 * wbytes w }.

(** The flags that are stored: those the addition before [pushf] leaves. *)
Definition snapshot_flags (w label0 label1 : Z) (fl : Z) : Z :=
  Z.land (add_flags w (wrap w label0) (wrap w (label1 - label0)) fl) pushed_flags.

Lemma snapshot_flags_other w l0 l1 fl : Z.land fl pushed_flags = fl ->
  Z.ldiff (snapshot_flags w l0 l1 fl) arith_flags = Z.ldiff fl arith_flags.
Proof.
  intros Hf. unfold snapshot_flags. rewrite <- (add_flags_other w (wrap w l0) (wrap w (l1 - l0)) fl).
  apply Z.bits_inj'. intros i Hi. rewrite !Z.ldiff_spec, Z.land_spec.
  destruct (Z.testbit arith_flags i) eqn:E; [by rewrite !andb_false_r|]. rewrite !andb_true_r.
  destruct (Z.testbit pushed_flags i) eqn:Ep; [by rewrite andb_true_r|]. rewrite andb_false_r.
  assert (H : Z.testbit (Z.ldiff (add_flags w (wrap w l0) (wrap w (l1 - l0)) fl) arith_flags) i = false).
  { rewrite add_flags_other, Z.ldiff_spec, <- Hf, Z.land_spec, Ep, andb_false_r. done. }
  by rewrite Z.ldiff_spec, E, andb_true_r in H.
Qed.

Lemma pushed_wrap w x : w = 32 \/ w = 64 -> wrap w (Z.land x pushed_flags) = Z.land x pushed_flags.
Proof.
  intros Hw. assert (H : Z.land (Z.land x pushed_flags) (Z.ones w) = Z.land x pushed_flags).
  { rewrite <- Z.land_assoc. f_equal. by destruct Hw as [-> | ->]. }
  unfold wrap. rewrite <- Z.land_ones by lia. exact H.
Qed.

Lemma seg_wrap w x : w = 32 \/ w = 64 -> 0 <= x < 2 ^ 16 -> wrap w (u16 x) = x.
Proof.
  intros Hw Hx. unfold u16. rewrite (Z.mod_small x) by done. apply wrap_small.
  destruct Hw as [-> | ->]; lia.
Qed.

(** Evaluates the symbolic execution of a snapshot. *)
Ltac run_snapshot := lazy -[add_flags wrap wadd ladd u16 u32 Z.land gpr seg flags]; reflexivity.
