(* ===== verification/Frame.v ===== *)
(** The register snapshot of the calling thread: [FRAME] and [SET_FRAME] of
    [elfcore.h] for x86-64, on the machine of X86.v, and for ARM, AArch64 and MIPS. *)
From S2P Require Import Prelude Syscall KernelSpec ElfTypes X86.

(** ** x86-64 *)

Record Frame := mkFrame { uregs : regs; errno_ : Z; tid : Z }.

(** The assembly of [FRAME(f)]; [label0] and [label1] are the addresses of its
    labels.  The last addition is on %ebx, the low half of the register. *)
Definition frame_asm (label0 label1 : Z) : list instr :=
  [Push BP; Push BX;
   Store R15 0; Store R14 8; Store R13 16; Store R12 24; Store BP 32; Store BX 40;
   Store R11 48; Store R10 56; Store R9 64; Store R8 72; Store AX 80; Store CX 88;
   Store DX 96; Store SI 104; Store DI 112;
   MovSeg DS BX; Store BX 184; MovSeg ES BX; Store BX 192;
   MovSeg FS BX; Store BX 200; MovSeg GS BX; Store BX 208;
   Call label0; Pop BX; Add (label1 - label0) BX; Store BX 128;
   MovSeg CS BX; Store BX 136;
   Pushf; Pop BX; Store BX 144;
   Mov SP BX; AddL 16 BX; Store BX 152;
   MovSeg SS BX; Store BX 160;
   Pop BX; Pop BP].

(** The [struct i386_regs] at [f]. *)
Definition regs_at (m : machine) (f : Z) : regs :=
  let r := word_at 64 m f in
  mkRegs (r 0) (r 1) (r 2) (r 3) (r 4) (r 5) (r 6) (r 7) (r 8) (r 9) (r 10) (r 11) (r 12) (r 13) (r 14)
    (r 15) (r 16) (r 17) (r 18) (r 19) (r 20) (r 21) (r 22) (r 23) (r 24) (r 25) (r 26).

(** [FRAME(f)], executed by [m] with the address of the frame in %rax: the frame
    and the machine afterwards. *)
Definition FRAME (m : machine) (label0 label1 errno gettid : Z) : Frame * machine :=
  let m' := run 64 (frame_asm label0 label1) m in
  (mkFrame (regs_at m' (gpr m AX)) errno gettid, m').

Definition with_bases (b r : regs) : regs :=
  mkRegs (r15 r) (r14 r) (r13 r) (r12 r) (rbp r) (rbx r) (r11 r) (r10 r) (r9 r) (r8 r) (rax r)
    (rcx r) (rdx r) (rsi r) (rdi r) (orig_rax r) (rip r) (cs r) (eflags r) (rsp r) (ss r)
    (fs_base b) (gs_base b) (ds r) (es r) (fs r) (gs r).

(** [SET_FRAME(f, r)]: the new [errno], the frame and the registers afterwards. *)
Definition SET_FRAME (f : Frame) (r : regs) : Z * Frame * regs :=
  let f' := mkFrame (with_bases r (uregs f)) (errno_ f) (tid f) in
  (errno_ f, f', uregs f').

(** ** ARM: [arm.uregs], 18 longs *)

Record ArmFrame := mkArmFrame { arm_uregs : list Z; arm_errno : Z; arm_tid : Z }.

(** r0-r15, then zero, then the status register. *)
Definition arm_FRAME (r0_r15 : list Z) (cpsr errno gettid : Z) : ArmFrame :=
  mkArmFrame (r0_r15 ++ [0; cpsr]) errno gettid.

Definition arm_SET_FRAME (f : ArmFrame) (r : list Z) : Z * list Z :=
  let fps := nth 16 (arm_uregs f) 0 in
  let errno := arm_errno f in
  let r := arm_uregs f in
  let r := <[16%nat := fps]> r in
  (errno, r).

(** ** AArch64: the registers come from getcontext *)

Record Arm64Frame := mkArm64Frame { arm64 : list Z; arm64_errno : Z; arm64_tid : Z }.

Definition arm64_FRAME (context_regs : list Z) (errno gettid : Z) : Arm64Frame :=
  mkArm64Frame context_regs errno gettid.

Definition arm64_SET_FRAME (f : Arm64Frame) (r : list Z) : Z * list Z := (arm64_errno f, arm64 f).

(** ** MIPS *)

Record mips_regs := mkMips {
  mips_pad : list Z; mips_uregs : list Z; mips_hi : Z; mips_lo : Z; mips_epc : Z;
  mips_rest : list Z }.

Record MipsFrame := mkMipsFrame { mips : mips_regs; mips_errno : Z; mips_tid : Z }.

Definition mips_FRAME (gpr : list Z) (hi lo pc errno gettid : Z) : MipsFrame :=
  mkMipsFrame (mkMips (replicate 6 0) gpr hi lo pc (replicate 4 0)) errno gettid.

Definition mips_SET_FRAME (f : MipsFrame) (r : mips_regs) : Z * mips_regs :=
  (mips_errno f,
   mkMips (mips_pad r) (take 32 (mips_uregs (mips f)) ++ drop 32 (mips_uregs r))
     (mips_hi (mips f)) (mips_lo (mips f)) (mips_epc (mips f)) (mips_rest r)).

(** ** What is captured *)

(** The stack pointer that is stored. *)
Lemma frame_rsp sp : 0 <= sp < 2 ^ 64 -> wrap 64 (ladd (wadd 64 sp (-16)) 16) = sp mod 2 ^ 32.
Proof.
  intros Hr. unfold ladd, wadd, wrap, u32. rewrite Zplus_mod_idemp_l.
  assert (E : ((sp + -16) mod 2 ^ 64 + 16) mod 2 ^ 32 = sp mod 2 ^ 32).
  { pose proof (Z.div_mod (sp + -16) (2 ^ 64)).
    replace ((sp + -16) mod 2 ^ 64 + 16) with (sp + - ((sp + -16) / 2 ^ 64 * 2 ^ 32) * 2 ^ 32) by lia.
    apply Z_mod_plus_full. }
  rewrite E. apply Z.mod_small. pose proof (Z.mod_pos_bound sp (2 ^ 32)). lia.
Qed.

(** C26. [FRAME] and then [SET_FRAME] give the registers of the caller: [errno],
    the thread id, the segment bases that ptrace reported and every register
    that the macro does not itself need (%rax holds the address of the frame and
    the program counter is that of the end of the macro), except for two: the
    stack pointer is cut to 32 bits, since the 16 bytes that the pushes took are
    added back with a 32-bit instruction, and the arithmetic flags are those of
    an addition in the macro.  The processor has all its registers back afterwards,
    and memory changes only in the frame and in the three words below the stack. *)
Theorem frame_registers m label0 label1 errno gettid r :
  may_snapshot 64 216 m ->
  let '(fr, m') := FRAME m label0 label1 errno gettid in
  let '(e, _, r') := SET_FRAME fr r in
  (e = errno /\ tid fr = gettid /\ rsp r' = gpr m SP mod 2 ^ 32 /\
   eflags r' = snapshot_flags 64 label0 label1 (flags m) /\
   Z.ldiff (eflags r') arith_flags = Z.ldiff (flags m) arith_flags /\
   fs_base r' = fs_base r /\ gs_base r' = gs_base r /\ rip r' = wrap 64 label1 /\
   [r15 r'; r14 r'; r13 r'; r12 r'; rbp r'; rbx r'; r11 r'; r10 r'; r9 r'; r8 r'; rax r'; rcx r'; rdx r'; rsi r';
    rdi r'] =
   map (gpr m) [R15; R14; R13; R12; BP; BX; R11; R10; R9; R8; AX; CX; DX; SI; DI] /\
   [cs r'; ss r'; ds r'; es r'; fs r'; gs r'] = map (seg m) [CS; SS; DS; ES; FS; GS]) /\
  (forall i, gpr m' i = gpr m i) /\ seg m' = seg m /\
  (forall x, elsewhere 64 (gpr m AX) (gpr m SP) 216 24 x -> mem m' x = mem m x).
Proof.
  intros [Hg Hs Hf Hr]. unfold FRAME. assert (Hw : 64 = 32 \/ 64 = 64) by auto.
  pose proof (fun a => snapshot 64 (gpr m AX) (gpr m SP) 216 24 Hw Hr (seg m) (mem m) m
    (frame_asm label0 label1) a eq_refl (eq_sym (wrap_small 64 _ (Hg SP))) eq_refl (fun _ => eq_refl)) as Ha.
  remember (label1 - label0) as d eqn:Hd.
  epose proof (Ha _ ltac:(unfold frame_asm; rewrite <- Hd; run_snapshot)) as H. clear Ha.
  set (m' := run 64 (frame_asm label0 label1) m) in *. clearbody m'.
  pose proof (fun k v => word_at_log 64 _ _ 216 24 Hw Hr _ _ _ _ k v H) as W.
  unfold SET_FRAME. cbn [uregs errno_ tid with_bases regs_at rsp eflags fs_base gs_base rip r15 r14 r13 r12 rbp rbx r11 r10
    r9 r8 rax rcx rdx rsi rdi cs ss ds es fs gs].
  repeat match goal with |- context [word_at 64 m' (gpr m AX) ?k] => erewrite (W k) by run_snapshot end.
  cbn [map]. rewrite !seg_wrap, !wrap_wrap, !pushed_wrap, frame_rsp by auto.
  rewrite !(wrap_small 64 (gpr _ _)) by auto. split_and!; try done.
  - unfold snapshot_flags. by rewrite Hd.
  - rewrite Hd. by apply (snapshot_flags_other 64 label0 label1).
  - rewrite Hd. unfold wadd. rewrite wrap_add_l, wrap_wrap. f_equal. lia.
  - intros i. destruct (decide (i = SP)) as [->|Hi].
    + rewrite (ag_sp _ _ _ _ _ _ _ H). cbn [s_sp]. rewrite Z.add_0_r. by apply wrap_small.
    + rewrite (ag_gpr _ _ _ _ _ _ _ H) by done. destruct i; cbn; rewrite ?wrap_small; auto.
  - apply H.
  - intros x Hx. by apply (mem_elsewhere 64 _ _ 216 24 Hw Hr _ _ _ _ x ltac:(lia) ltac:(lia) H Hx).
Qed.

(** On ARM the floating-point status that ptrace reported does not survive
    [SET_FRAME]: the value stored is the zero of the frame. *)
Theorem arm_status_lost r0_r15 cpsr errno gettid r : length r0_r15 = 16%nat ->
  arm_SET_FRAME (arm_FRAME r0_r15 cpsr errno gettid) r = (errno, r0_r15 ++ [0; cpsr]).
Proof.
  intros Hl. unfold arm_SET_FRAME, arm_FRAME. cbn [arm_uregs arm_errno]. f_equal.
  rewrite app_nth2, Hl by lia. cbn [Nat.sub nth].
  apply list_insert_id. rewrite lookup_app_r by lia. by rewrite Hl.
Qed.

(** The MIPS frame replaces the general registers, hi, lo and the program
    counter, and leaves what else ptrace reported. *)
Theorem mips_registers gpr hi lo pc errno gettid r :
  length gpr = 32%nat -> length (mips_uregs r) = 32%nat ->
  mips_SET_FRAME (mips_FRAME gpr hi lo pc errno gettid) r =
  (errno, mkMips (mips_pad r) gpr hi lo pc (mips_rest r)).
Proof.
  intros Hg Hr. unfold mips_SET_FRAME, mips_FRAME. cbn [mips mips_errno mips_uregs mips_hi mips_lo mips_epc].
  rewrite take_ge, drop_ge by lia. by rewrite app_nil_r.
Qed.

(** ** Instances *)

Definition ex_garbage : regs := mkRegs 9 9 9 9 9 9 9 9 9 9 9 9 9 9 9 9 9 9 9 9 9 9 9 9 9 9 9.

(** A frame at 140737488347032, a little above the stack pointer. *)
Definition ex_cpu : machine :=
  Machine (upd AX 140737488347032 (upd SP 140737488347000 (fun r => Z.of_nat (reg_num r))))
    (fun s => match s with CS => 51 | SS => 43 | _ => 0 end) 0xA47 (fun _ => 9).

Lemma ex_cpu_ok : may_snapshot 64 216 ex_cpu.
Proof. split; [intros []; by_compute|intros []; by_compute|by_compute|by_compute]. Qed.

(** Carry and overflow of the caller (0x801 of 0xA47) are not in the flags stored. *)
Lemma frame_registers_witness :
  let '(fr, m') := FRAME ex_cpu 4100 4200 2 77 in
  let r' := (SET_FRAME fr ex_garbage).2 in
  rsp r' = 140737488347000 mod 2 ^ 32 /\ eflags r' = 0x202 /\ r15 r' = 15 /\ gpr m' SP = 140737488347000.
Proof.
  pose proof (frame_registers ex_cpu 4100 4200 2 77 ex_garbage ex_cpu_ok) as H.
  destruct H as [(_ & _ & Hsp & Hfl & _ & _ & _ & _ & Hr & _) (Hg & _)].
  split; [exact Hsp|]. split; [etransitivity; [exact Hfl|by_compute]|].
  split; [exact (f_equal (hd 0) Hr)|exact (Hg SP)].
Defined.

Lemma arm_status_lost_witness :
  arm_SET_FRAME (arm_FRAME (map Z.of_nat (seq 0 16)) 31 2 77) (replicate 18 5) =
  (2, map Z.of_nat (seq 0 16) ++ [0; 31]).
Proof. by apply (arm_status_lost (map Z.of_nat (seq 0 16)) 31 2 77 (replicate 18 5)). Defined.

Lemma mips_registers_witness :
  mips_SET_FRAME (mips_FRAME (map Z.of_nat (seq 0 32)) 1 2 3 4 5)
    (mkMips (replicate 6 7) (replicate 32 7) 7 7 7 (replicate 4 7)) =
  (4, mkMips (replicate 6 7) (map Z.of_nat (seq 0 32)) 1 2 3 (replicate 4 7)).
Proof.
  by apply (mips_registers (map Z.of_nat (seq 0 32)) 1 2 3 4 5
    (mkMips (replicate 6 7) (replicate 32 7) 7 7 7 (replicate 4 7))).
Defined.
