(* ===== verification/Frame386.v ===== *)
(** The register snapshot on 32-bit x86: [FRAME] and [SET_FRAME] of [elfcore.h] for
    [__i386__]. *)
From S2P Require Import Prelude X86.

Record i386_regs := mkRegs386 {
  ebx : Z; ecx : Z; edx : Z; esi : Z; edi : Z; ebp : Z; eax : Z;
  ds : Z; __ds : Z; es : Z; __es : Z; fs : Z; __fs : Z; gs : Z; __gs : Z;
  orig_eax : Z; eip : Z; cs : Z; __cs : Z; eflags : Z; esp : Z; ss : Z; __ss : Z }.

Record Frame := mkFrame386 { uregs : i386_regs; errno_ : Z; tid : Z }.

(** The assembly of [FRAME(f)]; [label0] and [label1] are the addresses of its
    labels. *)
Definition frame_asm (label0 label1 : Z) : list instr :=
  [Push BP; Push BX;
   Store BX 0; Store CX 4; Store DX 8; Store SI 12; Store DI 16; Store BP 20; Store AX 24;
   MovSeg DS BX; Store BX 28; MovSeg ES BX; Store BX 32;
   MovSeg FS BX; Store BX 36; MovSeg GS BX; Store BX 40;
   Call label0; Pop BX; Add (label1 - label0) BX; Store BX 48;
   MovSeg CS BX; Store BX 52;
   Pushf; Pop BX; Store BX 56;
   Mov SP BX; Add 8 BX; Store BX 60;
   MovSeg SS BX; Store BX 64;
   Pop BX; Pop BP].

(** The [struct i386_regs] at [f]; selectors are the two halves of a word. *)
Definition regs_at (m : machine) (f : Z) : i386_regs :=
  let r := word_at 32 m f in
  let lo i := u16 (r i) in
  let hi i := u16 (r i / 2 ^ 16) in
  mkRegs386 (r 0) (r 1) (r 2) (r 3) (r 4) (r 5) (r 6) (lo 7) (hi 7) (lo 8) (hi 8) (lo 9) (hi 9) (lo 10) (hi 10)
    (r 11) (r 12) (lo 13) (hi 13) (r 14) (r 15) (lo 16) (hi 16).

(** [FRAME(f)], executed by [m] with the address of the frame in %eax: the frame
    and the machine afterwards. *)
Definition FRAME (m : machine) (label0 label1 errno gettid : Z) : Frame * machine :=
  let m' := run 32 (frame_asm label0 label1) m in
  (mkFrame386 (regs_at m' (gpr m AX)) errno gettid, m').

(** [SET_FRAME(f, r)]: the new [errno] and the registers afterwards. *)
Definition SET_FRAME (f : Frame) (r : i386_regs) : Z * i386_regs := (errno_ f, uregs f).

Lemma seg_high x : 0 <= x < 2 ^ 16 -> u16 (x / 2 ^ 16) = 0.
Proof. intros Hx. by rewrite Z.div_small. Qed.

(** C27. On 32-bit x86 [SET_FRAME] gives [errno] and all registers of the caller,
    the stack pointer included; %eax is the address of the frame, the program
    counter the end of the macro, the arithmetic flags are those of an addition in
    the macro, and [orig_eax] is what the memory held, whatever ptrace reported.
    The processor has its registers back, and memory changes only in the frame and
    in the three words below the stack. *)
Theorem frame386_registers m label0 label1 errno gettid r :
  may_snapshot 32 68 m ->
  let '(fr, m') := FRAME m label0 label1 errno gettid in
  let '(e, r') := SET_FRAME fr r in
  (e = errno /\ tid fr = gettid /\ eip r' = wrap 32 label1 /\ orig_eax r' = word_at 32 m (gpr m AX) 11 /\
   eflags r' = snapshot_flags 32 label0 label1 (flags m) /\
   Z.ldiff (eflags r') arith_flags = Z.ldiff (flags m) arith_flags /\
   [ebx r'; ecx r'; edx r'; esi r'; edi r'; ebp r'; eax r'; esp r'] = map (gpr m) [BX; CX; DX; SI; DI; BP; AX; SP] /\
   [ds r'; es r'; fs r'; gs r'; cs r'; ss r'] = map (seg m) [DS; ES; FS; GS; CS; SS] /\
   [__ds r'; __es r'; __fs r'; __gs r'; __cs r'; __ss r'] = [0; 0; 0; 0; 0; 0]) /\
  (forall i, gpr m' i = gpr m i) /\ seg m' = seg m /\
  (forall x, elsewhere 32 (gpr m AX) (gpr m SP) 68 12 x -> mem m' x = mem m x).
Proof.
  intros [Hg Hs Hf Hr]. unfold FRAME. assert (Hw : 32 = 32 \/ 32 = 64) by auto.
  pose proof (fun a => snapshot 32 (gpr m AX) (gpr m SP) 68 12 Hw Hr (seg m) (mem m) m
    (frame_asm label0 label1) a eq_refl (eq_sym (wrap_small 32 _ (Hg SP))) eq_refl (fun _ => eq_refl)) as Ha.
  remember (label1 - label0) as d eqn:Hd.
  epose proof (Ha _ ltac:(unfold frame_asm; rewrite <- Hd; run_snapshot)) as H. clear Ha.
  set (m' := run 32 (frame_asm label0 label1) m) in *. clearbody m'.
  pose proof (fun k v => word_at_log 32 _ _ 68 12 Hw Hr _ _ _ _ k v H) as W.
  pose proof (word_at_kept 32 _ _ 68 12 Hw Hr _ _ _ _ m 11 H (fun _ => eq_refl) ltac:(run_snapshot)) as K.
  unfold SET_FRAME. cbn [uregs errno_ tid regs_at ebx ecx edx esi edi ebp eax ds __ds es __es fs __fs gs __gs orig_eax
    eip cs __cs eflags esp ss __ss]. rewrite K.
  repeat match goal with |- context [word_at 32 m' (gpr m AX) ?k] => erewrite (W k) by run_snapshot end.
  cbn [map]. rewrite !seg_wrap, !wrap_wrap, !pushed_wrap, !seg_high by auto.
  rewrite !(wrap_small 32 (gpr _ _)) by auto. unfold u16. rewrite !(Z.mod_small (seg _ _)) by done. split_and!; try done.
  - rewrite Hd. unfold wadd. rewrite wrap_add_l, wrap_wrap. f_equal. lia.
  - unfold snapshot_flags. by rewrite Hd.
  - rewrite Hd. by apply (snapshot_flags_other 32 label0 label1).
  - unfold wadd. rewrite wrap_add_l, wrap_wrap, wrap_small; repeat f_equal; specialize (Hg SP); lia.
  - intros i. destruct (decide (i = SP)) as [->|Hi].
    + rewrite (ag_sp _ _ _ _ _ _ _ H). cbn [s_sp]. rewrite Z.add_0_r. by apply wrap_small.
    + rewrite (ag_gpr _ _ _ _ _ _ _ H) by done. destruct i; cbn; rewrite ?wrap_small; auto.
  - apply H.
  - intros x Hx. by apply (mem_elsewhere 32 _ _ 68 12 Hw Hr _ _ _ _ x ltac:(lia) ltac:(lia) H Hx).
Qed.

(** ** An instance: a frame at 3221225000, a little above the stack pointer *)

Definition ex_cpu : machine :=
  Machine (upd AX 3221225000 (upd SP 3221224960 (fun r => Z.of_nat (reg_num r))))
    (fun s => match s with CS => 35 | SS => 43 | DS => 43 | _ => 0 end) 0xA47 (fun _ => 9).
Definition ex_regs : i386_regs := mkRegs386 7 7 7 7 7 7 7 7 7 7 7 7 7 7 7 7 7 7 7 7 7 7 7.

Lemma ex_cpu386_ok : may_snapshot 32 68 ex_cpu.
Proof. split; [intros []; by_compute|intros []; by_compute|by_compute|by_compute]. Qed.

Lemma frame386_registers_witness :
  let '(fr, m') := FRAME ex_cpu 4100 4200 2 77 in
  let r' := (SET_FRAME fr ex_regs).2 in
  [ebx r'; ecx r'; edx r'; esi r'; edi r'; ebp r'; eax r'; esp r'] = [1; 2; 3; 4; 5; 6; 3221225000; 3221224960] /\
  eflags r' = 0x202 /\ gpr m' SP = 3221224960.
Proof.
  pose proof (frame386_registers ex_cpu 4100 4200 2 77 ex_regs ex_cpu386_ok) as H.
  destruct H as [(_ & _ & _ & _ & Hfl & _ & Hr & _) (Hg & _)].
  split; [exact Hr|]. split; [etransitivity; [exact Hfl|by_compute]|exact (Hg SP)].
Defined.
