(* ===== verification/Pipeline.v ===== *)
(** Putting a compressor between the dumper and its output:
    [CreatePipelineChild] and [CreatePipeline] of [elfcore.c].

    The child shares the memory of its parent (CLONE_VM) but not its
    descriptors; [CreateArgs] is the structure both of them see. *)
From S2P Require Import Prelude Syscall KernelSpec CIO Params.

Record CreateArgs := mkCreateArgs {
  a_fds : Z * Z;
  a_openmax : Z;
  a_PATH : option (list Z);
  a_compressors : list CoredumperCompressor;
  a_zip_in : Z * Z;
  a_zip_out : Z * Z }.

Definition set_fds1 v a := mkCreateArgs ((a_fds a).1, v) (a_openmax a) (a_PATH a) (a_compressors a) (a_zip_in a) (a_zip_out a).
Definition set_zip_in0 v a := mkCreateArgs (a_fds a) (a_openmax a) (a_PATH a) (a_compressors a) (v, (a_zip_in a).2) (a_zip_out a).
Definition set_zip_out1 v a := mkCreateArgs (a_fds a) (a_openmax a) (a_PATH a) (a_compressors a) (a_zip_in a) ((a_zip_out a).1, v).
Definition set_compressors v a := mkCreateArgs (a_fds a) (a_openmax a) (a_PATH a) v (a_zip_in a) (a_zip_out a).

(** [while (end < ptr...)]: the directories of PATH. *)
Fixpoint split_path (s : list Z) : list (list Z) :=
  match s with
  | [] => [[]]
  | c :: s' =>
      if c =? ord ":" then [] :: split_path s'
      else match split_path s' with
           | d :: ds => (c :: d) :: ds
           | [] => [[c]]
           end
  end.

(** The file to execute for a compressor found in directory [dir] of PATH. *)
Definition executable_in (dir name : list Z) : list Z :=
  match dir with
  | [] => name
  | _ => dir ++ [ord "/"] ++ name
  end.

Section Child.
Context {W : Type} `{KernelIO W} `{KernelMisc W}.
Abbreviation P A := (M (cst W CreateArgs) A).

Variable fuel : nat.
(** How a pointer into the compressor array is stored. *)
Variable ptr_bytes : list CoredumperCompressor -> list Z.

Definition get_args : P CreateArgs := get_hnd.
Definition set_args (f : CreateArgs -> CreateArgs) : P unit := let! a := get_args in set_hnd (f a).

(** A call of the child: it reports errors in [my_errno]. *)
Definition sys0 {A : Type} (k : W -> Z * A * W) : P (Z * A) :=
  let! (rc, a, _) := syscall0 s32 k 0 in ret (rc, a).

Definition my_no_intr (k : W -> Z * unit * W) : P Z :=
  let! (rc, _, _) := MY_NO_INTR fuel (fun my => syscall0 s32 k my) 0 in ret rc.

(** [c_write(..., &ERRNO)] *)
Definition my_c_write (f : Z) (buf : ptr) (n : Z) : P Z :=
  let! e := get_errno in
  let! rc := c_write fuel f buf n in
  set_errno e ;;!
  ret rc.

(** [while (fd <= 2) MY_NO_INTR(fd = sys0_dup(fd))] for a descriptor in the
    shared structure. *)
Fixpoint dup_above_2 (n : nat) (get : CreateArgs -> Z) (set : Z -> CreateArgs -> CreateArgs) : P unit :=
  match n with
  | O => out_of_fuel
  | S n' =>
      let! a := get_args in
      if get a <=? 2 then
        let! fd := my_no_intr (k_dup (get a)) in
        set_args (set fd) ;;!
        dup_above_2 n' get set
      else ret tt
  end.

(** [MY_NO_INTR(sys0_dup2(sys0_open("/dev/null", O_WRONLY, 0), 2))]: opened again
    when interrupted. *)
Fixpoint stderr_to_null (n : nat) : P unit :=
  match n with
  | O => out_of_fuel
  | S n' =>
      let! (fd, _, e1) := syscall0 s32 (k_open "/dev/null" O_WRONLY 0) 0 in
      let! (rc, _, e2) := syscall0 s32 (k_dup2 fd 2) e1 in
      if (rc <? 0) && (e2 =? EINTR) then stderr_to_null n' else ret tt
  end.

Fixpoint close_others (fds : list Z) : P unit :=
  match fds with
  | [] => ret tt
  | i :: rest =>
      let! a := get_args in
      (if negb (i =? (a_fds a).2) then my_no_intr (k_close i) ;;! ret tt else ret tt) ;;!
      close_others rest
  end.

(** An execve that works does not return. *)
Definition try_exec (path : list Z) (argv : list (list Z)) : P unit :=
  let! (rc, _) := sys0 (k_execve path argv) in
  if rc =? 0 then sys__exec path else ret tt.

Fixpoint try_dirs (dirs : list (list Z)) (name : list Z) (argv : list (list Z)) : P unit :=
  match dirs with
  | [] => ret tt
  | d :: ds => try_exec (executable_in d name) argv ;;! try_dirs ds name argv
  end.

Definition try_compressor (PATH : option (list Z)) (name : list Z) (argv : list (list Z)) : P unit :=
  if bool_decide (ord "/" ∈ name) then try_exec name argv
  else match PATH with
       | Some p => try_dirs (split_path p) name argv
       | None => ret tt
       end.

(** Tell the parent which entry is being tried. *)
Definition tell_parent : P unit :=
  let! a := get_args in
  my_c_write (a_fds a).2 (local (ptr_bytes (a_compressors a))) 8 ;;! ret tt.

Fixpoint try_compressors (cs : list CoredumperCompressor) : P unit :=
  match cs with
  | c :: cs' =>
      match compressor c with
      | Some (x :: xs) =>
          tell_parent ;;!
          let! a := get_args in
          try_compressor (a_PATH a) (x :: xs) (args c) ;;!
          set_args (set_compressors cs') ;;!
          try_compressors cs'
      | _ => ret tt
      end
  | [] => ret tt
  end.

Definition CreatePipelineChild : P unit :=
  let! a := get_args in
  my_no_intr (k_close (a_fds a).1) ;;!
  dup_above_2 fuel (fun a => (a_fds a).2) set_fds1 ;;!
  let! a := get_args in
  sys0 (k_fcntl (a_fds a).2 F_SETFD FD_CLOEXEC) ;;!
  dup_above_2 fuel (fun a => (a_zip_in a).1) set_zip_in0 ;;!
  dup_above_2 fuel (fun a => (a_zip_out a).2) set_zip_out1 ;;!
  let! a := get_args in
  my_no_intr (k_dup2 (a_zip_in a).1 0) ;;!
  my_no_intr (k_dup2 (a_zip_out a).2 1) ;;!
  my_no_intr (k_close 2) ;;!
  stderr_to_null fuel ;;!
  close_others (map Z.of_nat (seq 3 (Z.to_nat (a_openmax a) - 3))) ;;!
  try_compressors (a_compressors a) ;;!
  tell_parent ;;!
  let! a := get_args in
  my_no_intr (k_close (a_fds a).2) ;;!
  sys__exit 0.
End Child.

(** ** The parent *)
Section Parent.
Context {W H : Type} `{KernelIO W} `{KernelProc W} `{KernelMisc W}.
Abbreviation P A := (M (cst W H) A).

Variable fuel : nat.
(** The element a stored pointer points to, if it is not null. *)
Variable at_ptr : list Z -> option (list CoredumperCompressor).
(** What the child has made of the shared structure when the parent closes its
    write end, and in the end. *)
Variables seen final : CreateArgs -> CreateArgs.

Definition compressor_of (c : option (list CoredumperCompressor)) : option (list Z) :=
  match c with
  | Some (x :: _) => compressor x
  | _ => None
  end.

Definition close2 (a b : Z) : P unit :=
  NO_INTR fuel (sys_close a) ;;! NO_INTR fuel (sys_close b) ;;! ret tt.

(** Clean up without changing [errno], and return -1. *)
Definition keeping_errno (m : P unit) : P unit :=
  let! e := get_errno in
  m ;;!
  set_errno e.

(** [while (c_read(fds[0], compressors, sizeof( *compressors), &errno)) {}] *)
Fixpoint read_choice (n : nat) (fd : Z) (buf : list Z) : P (list Z) :=
  match n with
  | O => out_of_fuel
  | S n' =>
      let! (rc, d) := c_read fuel fd 8 in
      if negb (rc =? 0) then read_choice n' fd (if 0 <? rc then d ++ zdrop rc buf else buf)
      else ret buf
  end.

(** [while (sys_waitpid(comp_pid, &status, 0) < 0)]: reap the child. *)
Fixpoint reap (n : nat) (pid : Z) : P bool :=
  match n with
  | O => out_of_fuel
  | S n' =>
      let! (rc, _) := sys_waitpid pid 0 in
      if rc <? 0 then
        let! e := get_errno in
        if negb (e =? EINTR) then ret false else reap n' pid
      else ret true
  end.

Definition sys_clone_vm : P Z := syscall_ s32 k_clone_vm.

(** The part that runs when a compressor was asked for: the result, the
    descriptors and the compressor found. *)
Definition start_compressor (fds : Z * Z) (openmax : Z) (PATH : option (list Z))
    (cs : list CoredumperCompressor) : P (Z * (Z * Z) * option (list CoredumperCompressor)) :=
  let! (rc, zip_in) := sys_pipe in
  if rc <? 0 then
    keeping_errno (close2 fds.1 fds.2) ;;! ret (-1, fds, Some cs)
  else
    let! (rc, zip_out) := sys_pipe in
    if rc <? 0 then
      keeping_errno (close2 zip_in.1 zip_in.2) ;;!
      keeping_errno (close2 fds.1 fds.2) ;;!
      ret (-1, fds, Some cs)
    else
      let shared := mkCreateArgs fds openmax PATH cs zip_in zip_out in
      let! comp_pid := sys_clone_vm in
      if comp_pid <? 0 then
        keeping_errno (close2 zip_out.1 zip_out.2) ;;!
        keeping_errno (close2 zip_in.1 zip_in.2) ;;!
        keeping_errno (close2 fds.1 fds.2) ;;!
        ret (-1, fds, Some cs)
      else
        NO_INTR fuel (sys_close (a_fds (seen shared)).2) ;;!
        let! choice := read_choice fuel (a_fds (seen shared)).1 (le 8 0) in
        let chosen := at_ptr choice in
        let a := final shared in
        NO_INTR fuel (sys_close (a_fds a).1) ;;!
        match compressor_of chosen with
        | None =>
            keeping_errno (close2 (a_zip_out a).1 (a_zip_out a).2) ;;!
            keeping_errno (close2 (a_zip_in a).1 (a_zip_in a).2) ;;!
            ret (-1, a_fds a, chosen)
        | Some (_ :: _) =>
            close2 (a_zip_in a).1 (a_zip_out a).2 ;;!
            ret (0, ((a_zip_out a).1, (a_zip_in a).2), chosen)
        | Some [] =>
            close2 (a_zip_in a).1 (a_zip_out a).1 ;;!
            close2 (a_zip_in a).2 (a_zip_out a).2 ;;!
            let! ok := reap fuel comp_pid in
            if ok : bool then ret (0, (-1, -1), chosen)
            else
              keeping_errno (close2 (a_zip_in a).1 (a_zip_in a).2) ;;!
              ret (-1, (-1, -1), chosen)
        end.

Definition CreatePipeline (fds : Z * Z) (openmax : Z) (PATH : option (list Z))
    (compressors : option (list CoredumperCompressor))
    : P (Z * (Z * Z) * option (list CoredumperCompressor)) :=
  let! (rc, p) := sys_pipe in
  if rc <? 0 then ret (-1, fds, compressors)
  else
    match compressors, compressor_of compressors with
    | Some cs, Some _ => start_compressor p openmax PATH cs
    | _, _ => ret (0, p, compressors)
    end.
End Parent.
