(* ===== verification/CoreDump.v ===== *)
(** [InternalGetCoreDump] of [elfcore.c]: collecting registers, process
    information and signal state, then writing the core file through a child
    process or to a file. *)
From S2P Require Import Prelude Syscall KernelSpec CIO ProcIO Smaps ElfTypes Vdso ElfCore.
From S2P Require Import Params Lister Frame Pipeline.

Definition s8 (x : Z) : Z := (x + 2 ^ 7) mod 2 ^ 8 - 2 ^ 7.

(** ** Decoding *)

Definition word (l : list Z) (i : nat) : Z := unle (slice (8 * Z.of_nat i) 8 l).

(** [memcpy(thread_regs + i, scratch, sizeof(struct regs))] *)
Definition regs_of (l : list Z) : regs :=
  mkRegs (word l 0) (word l 1) (word l 2) (word l 3) (word l 4) (word l 5) (word l 6) (word l 7)
    (word l 8) (word l 9) (word l 10) (word l 11) (word l 12) (word l 13) (word l 14) (word l 15)
    (word l 16) (word l 17) (word l 18) (word l 19) (word l 20) (word l 21) (word l 22)
    (word l 23) (word l 24) (word l 25) (word l 26).

(** [memset(scratch, 0xFF, ...)], the call, and the first [n] bytes. *)
Definition from_scratch (d : list Z) (n : Z) : list Z := ztake n (d ++ replicate 4096 255).

(** Storing [d] at offset [i] of an object. *)
Definition store (i : Z) (d obj : list Z) : list Z := ztake i obj ++ d ++ zdrop (i + zlen d) obj.

(** The name after the last slash, as the loop over the link target finds it:
    it stops at a NUL or after [size] characters. *)
Fixpoint base_name (l : list Z) (size : Z) (cur : list Z) : list Z :=
  match l with
  | c :: l' =>
      if negb (c =? 0) && (0 <? size) then
        base_name l' (size - 1) (if c =? ord "/" then [] else cur ++ [c])
      else cur
  | [] => cur
  end.

(** [memcpy] into a zeroed field of [n] bytes. *)
Definition padded (n : Z) (l : list Z) : list Z :=
  ztake n l ++ replicate (Z.to_nat (n - zlen (ztake n l))) 0.

(** [for (i = k; i && *ptr; ptr++) if ( *ptr == ' ') i--;] *)
Fixpoint skip_fields (k : nat) (s : list Z) : list Z :=
  match s with
  | [] => []
  | c :: s' =>
      match k with
      | O => s
      | S k' => if c =? 0 then s else if c =? ord " " then skip_fields k' s' else skip_fields k s'
      end
  end.

(** [while ( *ptr && *ptr != ' ') n = 10*n + *ptr++ - '0';] *)
Fixpoint parse_number (n : Z) (s : list Z) : Z * list Z :=
  match s with
  | c :: s' =>
      if negb (c =? 0) && negb (c =? ord " ") then parse_number (u64 (10 * n + s8 c - ord "0")) s'
      else (n, s)
  | [] => (n, [])
  end.

(** [if ( *ptr) ptr++;] *)
Definition next_field (s : list Z) : list Z :=
  match s with
  | c :: s' => if c =? 0 then s else s'
  | [] => []
  end.

Definition from_ms (tms : Z) : elf_timeval := mkTimeval (tms / 1000) (tms mod 1000 * 1000).

(** What is read from /proc/self/stat. *)
Definition parse_stat (scratch : list Z) (p : prstatus) : prstatus :=
  let (ut, s) := parse_number 0 (skip_fields 13 scratch) in
  let (stm, s) := parse_number 0 (next_field s) in
  let (cut, s) := parse_number 0 (next_field s) in
  let (cst, s) := parse_number 0 (next_field s) in
  let (pend, s) := parse_number (pr_sigpend p) (skip_fields 14 s) in
  let (pend, s) := parse_number pend (next_field s) in
  mkPrstatus (pr_info p) (pr_cursig p) pend (pr_sighold p) (pr_pid p) (pr_ppid p) (pr_pgrp p)
    (pr_sid p) (from_ms ut) (from_ms stm) (from_ms cut) (from_ms cst) (pr_reg p) (pr_fpvalid p).

Definition zero_regs : regs := regs_of [].
Definition zero_time : elf_timeval := mkTimeval 0 0.

Definition O_FLAGS : Z := Z.lor (Z.lor O_WRONLY O_CREAT) O_TRUNC.

Section CoreDump.
Context {W : Type} `{KernelIO W} `{KernelProc W} `{KernelMisc W} `{AddressSpace}.
Abbreviation P A := (M (cst W lister) A).

Variable fuel : nat.
Variables (aarch64 : bool) (uninit : list Z).
Variable ptr_bytes : list CoredumperCompressor -> list Z.
Variable at_ptr : list Z -> option (list CoredumperCompressor).
Variables seen final : CreateArgs -> CreateArgs.
(** [sysconf(_SC_OPEN_MAX)], [sysconf(_SC_PAGESIZE)], and calling a function of
    the application. *)
Variables openmax pagesize : Z.
Variable call : Z -> Z -> P Z.

(** Run code that works on a handle of its own. *)
Definition with_handle {H A : Type} (h : H) (m : M (cst W H) A) : P (A * H) :=
  fun s =>
    match m (Cst (errno s) (world s) h) with
    | Ret a s' => Ret (a, hnd s') (Cst (errno s') (world s') (hnd s))
    | Exited c s' => Exited c (Cst (errno s') (world s') (hnd s))
    | Execed p s' => Execed p (Cst (errno s') (world s') (hnd s))
    | Aborted s' => Aborted (Cst (errno s') (world s') (hnd s))
    | OutOfFuel => OutOfFuel
    end.

(** *** Registers *)

(** One thread; the frame of the caller replaces what ptrace says about it.
    [None] is [goto ptrace]. *)
Definition read_thread (frame : Frame) (pid : Z) : P (option (Frame * thread)) :=
  let! (rc, d) := sys_ptrace PTRACE_GETREGS pid 0 0 in
  if negb (rc =? 0) then ret None
  else
    let r := regs_of (from_scratch d sizeof_regs) in
    let! (frame, r) :=
      (if tid frame =? pid then
         let '(e, f', r') := SET_FRAME frame r in set_errno e ;;! ret (f', r')
       else ret (frame, r)) in
    let! (rc, d) := sys_ptrace PTRACE_GETFPREGS pid 0 0 in
    if negb (rc =? 0) then ret None
    else ret (Some (frame, mkThread pid r (from_scratch d sizeof_fpregs))).

Fixpoint read_threads (frame : Frame) (ps : list Z) : P (option (list thread)) :=
  match ps with
  | [] => ret (Some [])
  | p :: ps' =>
      let? (frame, t) := read_thread frame p in
      let? ts := read_threads frame ps' in
      ret (Some (t :: ts))
  end.

(** [for (i = 0; i < sizeof(struct core_user); i += sizeof(int))]: a word is
    stored at every offset that the kernel accepts. *)
Fixpoint read_user (n : nat) (pid i : Z) (user : list Z) : P (list Z) :=
  match n with
  | O => ret user
  | S n' =>
      let! (rc, d) := sys_ptrace PTRACE_PEEKUSER pid i 0 in
      read_user n' pid (i + 4) (if 0 <=? rc then ztake sizeof_core_user (store i (ztake 8 d) user) else user)
  end.

(** The user structure of the first thread, with the registers found before. *)
Definition get_user (pid0 : Z) (regs0 : regs) : P (list Z) :=
  let! user := read_user (Z.to_nat (sizeof_core_user / 4)) pid0 0
                 (replicate (Z.to_nat sizeof_core_user) 0) in
  ret (store 0 (regs_bytes regs0) user).

(** *** PRPSINFO and PRSTATUS *)

Definition sys_num (k : W -> Z * unit * W) : P Z := syscall_ s32 k.

Definition get_psargs : P (list Z) :=
  let! cmd_fd := NO_INTR fuel (sys_open "/proc/self/cmdline" O_RDONLY 0) in
  if 0 <=? cmd_fd then
    let! (size, d) := c_read fuel cmd_fd 80 in
    NO_INTR fuel (sys_close cmd_fd) ;;!
    ret (padded 80 (map (fun c => if c =? 0 then ord " " else c) (ztake size d)))
  else ret (replicate 80 0).

Definition get_prpsinfo (main_pid : Z) : P prpsinfo :=
  let! nice := sys_num (k_getpriority 0 0) in
  let! uid := sys_num k_geteuid in
  let! gid := sys_num k_getegid in
  let! ppid := sys_getppid in
  let! pgrp := sys_num k_getpgrp in
  let! sid := sys_num (k_getsid 0) in
  let! (size, link) := syscall s64 (k_readlink "/proc/self/exe" 4096) in
  let fname := padded 16 (base_name link size []) in
  let! psargs := get_psargs in
  ret (mkPrpsinfo 0 (ord "R") 0 (s8 nice) 0 (u32 uid) (u32 gid) main_pid ppid pgrp sid fname psargs).

Definition get_prstatus (info : prpsinfo) : P prstatus :=
  let p := mkPrstatus (0, 0, 0) 0 0 0 (ps_pid info) (ps_ppid info) (ps_pgrp info) (ps_sid info)
             zero_time zero_time zero_time zero_time zero_regs 1 in
  let! stat_fd := NO_INTR fuel (sys_open "/proc/self/stat" O_RDONLY 0) in
  if 0 <=? stat_fd then
    let! (size, d) := c_read fuel stat_fd 4095 in
    let p := if 0 <=? size then parse_stat (ztake size d) p else p in
    NO_INTR fuel (sys_close stat_fd) ;;!
    ret p
  else ret p.

(** *** Writing through a child process *)

Definition _exit_if {A : Type} (b : bool) (m : P A) : P A := if b then sys__exit 1 else m.

(** [while (f() < 0) if (errno != EINTR) sys__exit(1);] *)
Fixpoint insist (n : nat) (m : P Z) : P unit :=
  match n with
  | O => out_of_fuel
  | S n' =>
      let! rc := m in
      if rc <? 0 then
        let! e := get_errno in
        if negb (e =? EINTR) then sys__exit 1 else insist n' m
      else ret tt
  end.

Fixpoint close_all_but (keep : Z) (fds : list Z) : P unit :=
  match fds with
  | [] => ret tt
  | i :: rest =>
      (if negb (i =? keep) then NO_INTR fuel (sys_close i) ;;! ret tt else ret tt) ;;!
      close_all_but keep rest
  end.

Definition ptr_value (c : option (list CoredumperCompressor)) : Z :=
  match c with Some cs => unle (ptr_bytes cs) | None => 0 end.

(** The forked child: build the pipeline, pass its read end to the parent, close
    everything else, write the core file, exit. *)
Definition dump_child (sockets : Z * Z) (PATH : option (list Z))
    (compressors : option (list CoredumperCompressor)) (info : prpsinfo) (user : list Z)
    (st : prstatus) (ts : list thread) (main_pid : Z) (notes : list CoredumperNote) : P Z :=
  let! (rc, fds, compressors) :=
    CreatePipeline fuel at_ptr seen final (0, 0) openmax PATH compressors in
  _exit_if (rc <? 0)
   (let! (rc, fds) := (if fds.1 <? 0 then sys_pipe else ret (0, fds)) in
    _exit_if (rc <? 0)
     (insist fuel (sys_num (k_sendmsg sockets.2 (ptr_value compressors) fds.1)) ;;!
      insist fuel (sys_num (k_shutdown sockets.2)) ;;!
      close_all_but fds.2 (map Z.of_nat (seq 0 (Z.to_nat openmax))) ;;!
      with_handle fds.2
        (CreateElfCore fuel (SimpleWriter fuel) SimpleDone aarch64 uninit info (Some user) st ts
           pagesize 0 main_pid notes) ;;!
      NO_INTR fuel (sys_close fds.2) ;;!
      sys__exit 0)).

(** Receiving the descriptor: [while (1)] over recvmsg. *)
Fixpoint receive_fd (n : nat) (sock fd : Z) (has_selected : bool) : P Z :=
  match n with
  | O => out_of_fuel
  | S n' =>
      let! (nbytes, (buffer, passed)) := syscall s32 (k_recvmsg sock) in
      if 0 <? nbytes then
        let fd := match passed with Some f => f | None => fd end in
        (if (nbytes =? 8) && negb (buffer =? 0) && has_selected
         then modify (put_selected (at_ptr (le 8 buffer))) else ret tt) ;;!
        ret fd
      else if nbytes =? 0 then ret fd
      else
        let! e := get_errno in
        if negb (e =? EINTR) then ret fd else receive_fd n' sock fd has_selected
  end.

Definition all_signals : list Z := sig (sys_sigfillset (Sigset (replicate sig_words 0))).

(** [file_name == NULL]: the descriptor the core can be read from, or -1. *)
Definition dump_to_pipe (PATH : option (list Z)) (compressors : option (list CoredumperCompressor))
    (has_selected : bool) (info : prpsinfo) (user : list Z) (st : prstatus) (ts : list thread)
    (main_pid : Z) (notes : list CoredumperNote) : P Z :=
  let! (rc, sockets) := syscall s32 k_socketpair in
  if 0 <=? rc then
    let! (_, old_signals) := sys_sigprocmask SIG_BLOCK all_signals in
    let! pid := sys_num k_fork in
    if pid =? 0 then dump_child sockets PATH compressors info user st ts main_pid notes
    else
      sys_sigprocmask SIG_SETMASK old_signals ;;!
      NO_INTR fuel (sys_close sockets.2) ;;!
      let! fd := receive_fd fuel sockets.1 (-1) has_selected in
      sys_num (k_shutdown sockets.1) ;;!
      NO_INTR fuel (sys_close sockets.1) ;;!
      ret fd
  else ret (-1).

(** *** Writing to a file *)

Definition sys_creat (path : list Z) (flags mode : Z) : P Z := syscall_ s32 (k_creat path flags mode).

Definition close_fds (fds : list Z) : P unit :=
  fold_right (fun fd m => close_nonneg fuel fd ;;! m) (ret tt) fds.

(** Open the output file; again without O_LARGEFILE if the kernel objects. *)
Definition open_output (path : list Z) : P Z :=
  let! fd := NO_INTR fuel (sys_creat path (Z.lor O_FLAGS O_LARGEFILE) 384) in
  let! e := get_errno in
  if (fd <? 0) && (e =? EINVAL) then NO_INTR fuel (sys_creat path O_FLAGS 384) else ret fd.

(** [fcntl(fd, F_SETFL, flags | O_NONBLOCK)] *)
Definition set_nonblocking (fd : Z) : P unit :=
  let! flags := NO_INTR fuel (sys_fcntl fd F_GETFL 0) in
  NO_INTR fuel (sys_fcntl fd F_SETFL (Z.lor flags O_NONBLOCK)) ;;!
  ret tt.

(** Compressor and output file are open: write the core file. *)
Definition write_output (fds : Z * Z) (out_fd max_length : Z) (prioritize : bool) (info : prpsinfo)
    (user : list Z) (st : prstatus) (ts : list thread) (main_pid : Z) (notes : list CoredumperNote)
    : P (Z * (Z * Z)) :=
  let pml := if prioritize then max_length else 0 in
  if 0 <=? fds.1 then
    set_nonblocking fds.1 ;;!
    set_nonblocking fds.2 ;;!
    let! (rc, h) := with_handle (mkWriterFds max_length fds.2 fds.1 out_fd)
      (CreateElfCore fuel (PipeWriter fuel) PipeDone aarch64 uninit info (Some user) st ts pagesize
         pml main_pid notes) in
    let! saved_errno := get_errno in
    let! fds := (if 0 <=? fds.2 then NO_INTR fuel (sys_close fds.2) ;;! ret (fds.1, -1) else ret fds) in
    let! (frc, _) := with_handle h (FlushPipe fuel) in
    if frc <? 0 then ret (-1, fds)
    else set_errno saved_errno ;;! ret (rc, fds)
  else
    let! (rc, _) := with_handle (mkWriterFds max_length (-1) (-1) out_fd)
      (CreateElfCore fuel (LimitWriter fuel) PipeDone aarch64 uninit info (Some user) st ts pagesize
         pml main_pid notes) in
    ret (rc, fds).

(** [file_name != NULL]: 0, or [None] for [goto error]. *)
Definition dump_to_file (file_name : list Z) (max_length : Z) (PATH : option (list Z))
    (compressors : option (list CoredumperCompressor)) (has_selected prioritize : bool)
    (info : prpsinfo) (user : list Z) (st : prstatus) (ts : list thread) (main_pid : Z)
    (notes : list CoredumperNote) : P (option Z) :=
  let! (rc, fds, compressors) :=
    (match compressor_of compressors with
     | Some _ => CreatePipeline fuel at_ptr seen final (-1, -1) openmax PATH compressors
     | None => ret (0, (-1, -1), compressors)
     end) in
  if rc <? 0 then ret None
  else
    (if has_selected : bool then modify (put_selected compressors) else ret tt) ;;!
    let! o :=
      (if 0 <? max_length then
         let sfx := match compressors with
                    | Some (c :: _) => match compressor c, suffix c with
                                       | Some _, Some x => x
                                       | _, _ => []
                                       end
                    | _ => []
                    end in
         let! out_fd := open_output (file_name ++ sfx) in
         if out_fd <? 0 then
           keeping_errno (close_fds [fds.1; fds.2]) ;;! ret None
         else
           let! (rc, fds) := write_output fds out_fd max_length prioritize info user st ts main_pid notes in
           ret (Some (rc, out_fd, fds))
       else ret (Some (0, -1, fds))) in
    match o with
    | None => ret None
    | Some (rc, out_fd, fds) =>
        keeping_errno (close_fds [out_fd; fds.1; fds.2]) ;;!
        if rc <? 0 then ret None else ret (Some 0)
    end.

(** *** The whole function *)

(** [error:] and the threads resumed; [fd] is never positive here. *)
Definition dump_error (tpids : list Z) : P Z :=
  ResumeAllProcessThreads tpids ;;!
  ret (-1).

(** [while ( *selected_compressor && ( *selected_compressor)->compressor != NULL)] *)
Fixpoint last_compressor (cs : list CoredumperCompressor) : list CoredumperCompressor :=
  match cs with
  | c :: cs' => match compressor c with Some _ => last_compressor cs' | None => cs end
  | [] => []
  end.

(** [pids[0]] and [thread_regs[0]], which are read even of empty arrays: then they
    are what the memory happens to hold. *)
Definition first_pid (tpids : list Z) : Z :=
  match tpids with pid0 :: _ => pid0 | [] => s32 (unle (ztake 4 uninit)) end.
Definition first_regs (ts : list thread) : regs :=
  match ts with t0 :: _ => t_regs t0 | [] => regs_of uninit end.

Definition InternalGetCoreDump (frame : Frame) (params : CoreDumpParameters)
    (file_name PATH : option (list Z)) (tpids : list Z) : P Z :=
  let main_pid := tid frame in
  let callback_fn := GetCoreDumpParameter F_callback_fn p_callback_fn 0 params in
  let! crc :=
    (if negb (callback_fn =? 0)
     then call callback_fn (GetCoreDumpParameter F_callback_arg p_callback_arg 0 params)
     else ret 0) in
  if negb (crc =? 0) then dump_error tpids
  else
    let! o := read_threads frame tpids in
    match o with
    | Some ts =>
        let! user := get_user (first_pid tpids) (first_regs ts) in
        let! info := get_prpsinfo main_pid in
        let! st := get_prstatus info in
        let max_length := GetCoreDumpParameter F_max_length p_max_length 0 params in
        let compressors := GetCoreDumpParameter F_compressors p_compressors None params in
        let selected := GetCoreDumpParameter F_selected_compressor p_selected None params in
        let has_selected := match selected with Some _ => true | None => false end in
        let cflags := GetCoreDumpParameter F_flags p_cflags 0 params in
        let prioritize := negb (Z.land cflags COREDUMPER_FLAG_LIMITED_BY_PRIORITY =? 0) in
        let notes := ztake (GetCoreDumpParameter F_note_count p_note_count 0 params)
                       (GetCoreDumpParameter F_notes p_notes [] params) in
        (if has_selected : bool then
           modify (put_selected (match compressors with Some cs => Some (last_compressor cs) | None => None end))
         else ret tt) ;;!
        match file_name with
        | None =>
            let! fd := dump_to_pipe PATH compressors has_selected info user st ts main_pid notes in
            ResumeAllProcessThreads tpids ;;!
            ret fd
        | Some f =>
            let! r := dump_to_file f max_length PATH compressors has_selected prioritize info user st
                        ts main_pid notes in
            match r with
            | None => dump_error tpids
            | Some fd => ResumeAllProcessThreads tpids ;;! ret fd
            end
        end
    | None =>
        ResumeAllProcessThreads tpids ;;!
        dump_error tpids
    end.
End CoreDump.

(** ** The entry points of [coredumper.c]

    [FRAME(frame)] has been taken; [PATH] is the environment variable. *)
Section Api.
Context {W : Type} `{KernelIO W} `{KernelProc W} `{KernelMisc W} `{AddressSpace}.
Abbreviation P A := (M (cst W lister) A).
Variable fuel : nat.
Variable i_addr : Z.
Variable dump : Frame -> CoreDumpParameters -> option (list Z) -> option (list Z) -> list Z -> P Z.
Variable PATH : option (list Z).
(** An uninitialised [struct CoreDumpParameters]. *)
Variable raw : CoreDumpParameters.

Definition GetCoreDumpFunction (frame : Frame) (params : CoreDumpParameters) : P Z :=
  ListAllProcessThreads fuel i_addr (dump frame params None PATH).

Definition WriteCoreDumpFunction (frame : Frame) (params : CoreDumpParameters) (file_name : list Z) : P Z :=
  ListAllProcessThreads fuel i_addr (dump frame params (Some file_name) PATH).

(** Run setters on a local parameter structure. *)
Definition with_params {A : Type} (m : M pstate A) (k : CoreDumpParameters -> P Z) : P Z :=
  fun s =>
    match m (PState (errno s) raw) with
    | Ret _ p => k (prm p) (Cst (ps_errno p) (world s) (hnd s))
    | Exited c p => Exited c (Cst (ps_errno p) (world s) (hnd s))
    | Execed x p => Execed x (Cst (ps_errno p) (world s) (hnd s))
    | Aborted p => Aborted (Cst (ps_errno p) (world s) (hnd s))
    | OutOfFuel => OutOfFuel
    end.

Definition GetCoreDump (frame : Frame) : P Z :=
  with_params ClearCoreDumpParameters (GetCoreDumpFunction frame).

Definition GetCoreDumpWith (frame : Frame) (params : CoreDumpParameters) : P Z :=
  if has_flag params COREDUMPER_FLAG_LIMITED || has_flag params COREDUMPER_FLAG_LIMITED_BY_PRIORITY
  then set_errno EINVAL ;;! ret (-1)
  else GetCoreDumpFunction frame params.

Definition GetCompressedCoreDump (frame : Frame) (compressors : option (list CoredumperCompressor))
    (selected_compressor : option Z) : P Z :=
  with_params (ClearCoreDumpParameters ;;! SetCoreDumpCompressed compressors selected_compressor)
    (GetCoreDumpFunction frame).

Definition WriteCoreDump (frame : Frame) (file_name : list Z) : P Z :=
  with_params ClearCoreDumpParameters (fun p => WriteCoreDumpFunction frame p file_name).

Definition WriteCoreDumpWith (frame : Frame) (params : CoreDumpParameters) (file_name : list Z) : P Z :=
  WriteCoreDumpFunction frame params file_name.

Definition WriteCoreDumpLimited (frame : Frame) (file_name : list Z) (max_length : Z) : P Z :=
  with_params (ClearCoreDumpParameters ;;! SetCoreDumpLimited max_length)
    (fun p => WriteCoreDumpFunction frame p file_name).

Definition WriteCoreDumpLimitedByPriority (frame : Frame) (file_name : list Z) (max_length : Z) : P Z :=
  with_params (ClearCoreDumpParameters ;;! SetCoreDumpLimitedByPriority max_length)
    (fun p => WriteCoreDumpFunction frame p file_name).

Definition WriteCompressedCoreDump (frame : Frame) (file_name : list Z) (max_length : Z)
    (compressors : option (list CoredumperCompressor)) (selected_compressor : option Z) : P Z :=
  with_params (ClearCoreDumpParameters ;;! SetCoreDumpCompressed compressors selected_compressor ;;!
               SetCoreDumpLimited max_length)
    (fun p => WriteCoreDumpFunction frame p file_name).
End Api.
