(* ===== verification/DecodeClaims.v ===== *)
(** What [InternalGetCoreDump] makes of /proc/self/stat and /proc/self/exe. *)
From S2P Require Import Prelude Syscall KernelSpec CIO ProcIO Smaps ElfTypes Vdso ElfCore.
From S2P Require Import Params Lister Frame Pipeline CoreDump.

(** ** The fields of /proc/self/stat *)

(** A field, none of which contains a space: not so for the second one when the
    name of the program has one. *)
Definition field_ok (f : list Z) : Prop := Forall (fun c => c <> 0 /\ c <> ord " ") f.

(** Fields, each followed by a space. *)
Definition stat_text (fs : list (list Z)) (rest : list Z) : list Z :=
  foldr (fun f t => f ++ ord " " :: t) rest fs.

(** The number that the loop over the characters of a field computes from [n]. *)
Definition number (n : Z) (f : list Z) : Z := fold_left (fun n c => u64 (10 * n + s8 c - ord "0")) f n.

Definition field (fs : list (list Z)) (i : nat) : list Z := nth i fs [].

Lemma skip_word_ok k f t : field_ok f -> (0 < k)%nat -> skip_fields k (f ++ ord " " :: t) = skip_fields (k - 1) t.
Proof.
  intros Hf Hk. destruct k as [|k]; [lia|]. induction Hf as [|c f [H0 Hs] _ IH]; cbn [app skip_fields].
  - change (ord " " =? 0) with false. rewrite Z.eqb_refl. cbn. by rewrite Nat.sub_0_r.
  - by rewrite (proj2 (Z.eqb_neq c 0)), (proj2 (Z.eqb_neq c (ord " "))) by done.
Qed.

Lemma skip_fields_0 s : skip_fields 0 s = s.
Proof. by destruct s. Qed.

Lemma skip_fields_text k : forall fs rest, Forall field_ok fs -> (k <= length fs)%nat ->
  skip_fields k (stat_text fs rest) = stat_text (drop k fs) rest.
Proof.
  induction k as [|k IH]; intros fs rest Hfs Hk; [apply skip_fields_0|].
  destruct fs as [|f fs]; [cbn in Hk; lia|]. inversion_clear Hfs as [|? ? Hf Hfs'].
  cbn [stat_text foldr drop]. rewrite skip_word_ok by (done || lia). cbn [Nat.sub]. rewrite Nat.sub_0_r.
  apply IH; [done|cbn in Hk; lia].
Qed.

Lemma parse_number_field f t : field_ok f -> forall n, parse_number n (f ++ ord " " :: t) = (number n f, ord " " :: t).
Proof.
  induction 1 as [|c f [H0 Hs] _ IH]; intros n; cbn [app parse_number number fold_left].
  - change (ord " " =? 0) with false. rewrite Z.eqb_refl. done.
  - rewrite (proj2 (Z.eqb_neq c 0)), (proj2 (Z.eqb_neq c (ord " "))) by done. cbn [negb andb]. apply IH.
Qed.

(** A number and the space after it. *)
Lemma parse_next n fs rest : Forall field_ok fs -> fs <> [] ->
  parse_number n (stat_text fs rest) = (number n (field fs 0), ord " " :: stat_text (drop 1 fs) rest) /\
  next_field (ord " " :: stat_text (drop 1 fs) rest) = stat_text (drop 1 fs) rest.
Proof.
  intros Hfs Hne. destruct fs as [|f fs]; [done|]. inversion_clear Hfs as [|? ? Hf Hfs'].
  split; [by apply parse_number_field|done].
Qed.

Lemma field_drop k fs i : field (drop k fs) i = field fs (k + i).
Proof. unfold field. revert fs. induction k as [|k IH]; intros [|f fs]; cbn; auto. by destruct i. Qed.

(** C35. The times of PRSTATUS are those of /proc/self/stat, read as milliseconds;
    the pending signals are the digits of field 31 followed by those of field 32,
    the blocked signals, and the held signals are not set. *)
Theorem parse_stat_fields fs rest p : Forall field_ok fs -> length fs = 32%nat ->
  let q := parse_stat (stat_text fs rest) p in
  pr_utime q = from_ms (number 0 (field fs 13)) /\ pr_stime q = from_ms (number 0 (field fs 14)) /\
  pr_cutime q = from_ms (number 0 (field fs 15)) /\ pr_cstime q = from_ms (number 0 (field fs 16)) /\
  pr_sigpend q = number (pr_sigpend p) (field fs 30 ++ field fs 31) /\ pr_sighold q = pr_sighold p /\
  pr_reg q = pr_reg p /\ pr_pid q = pr_pid p.
Proof.
  intros Hfs Hl. assert (Hd : forall k, Forall field_ok (drop k fs)) by (intros k; by apply Forall_drop).
  assert (Hne : forall k, (k < 32)%nat -> drop k fs <> []).
  { intros k Hk E. apply (f_equal length) in E. rewrite length_drop in E. cbn in E. lia. }
  assert (Hnum : forall n k, (k < 32)%nat -> parse_number n (stat_text (drop k fs) rest) =
    (number n (field fs k), ord " " :: stat_text (drop (S k) fs) rest)).
  { intros n k Hk. destruct (parse_next n (drop k fs) rest (Hd k) (Hne k Hk)) as [E _].
    rewrite field_drop, Nat.add_0_r, drop_drop in E. by rewrite Nat.add_1_r in E. }
  assert (Hnext : forall t, next_field (ord " " :: t) = t) by done.
  assert (Hskip : skip_fields 14 (ord " " :: stat_text (drop 17 fs) rest) = stat_text (drop 30 fs) rest).
  { change (skip_fields 14 (ord " " :: ?t)) with (skip_fields 13 t).
    rewrite skip_fields_text by (done || rewrite length_drop; lia). by rewrite drop_drop. }
  unfold parse_stat. rewrite skip_fields_text by (done || lia).
  rewrite (Hnum 0 13%nat), Hnext by lia. rewrite (Hnum 0 14%nat), Hnext by lia. rewrite (Hnum 0 15%nat), Hnext by lia.
  rewrite (Hnum 0 16%nat) by lia. rewrite Hskip, (Hnum _ 30%nat), Hnext by lia. rewrite (Hnum _ 31%nat) by lia.
  cbn. unfold number. by rewrite fold_left_app.
Qed.

(** ** The name of the program *)

Definition plain (l : list Z) : Prop := Forall (fun c => c <> 0) l.

Lemma base_name_run name : plain name -> Forall (fun c => c <> ord "/") name -> forall size cur, zlen name <= size ->
  base_name name size cur = cur ++ name.
Proof.
  induction 1 as [|c name H0 _ IH]; intros Hs size cur Hl; cbn [base_name]; [by rewrite app_nil_r|].
  inversion_clear Hs as [|? ? Hc Hs']. rewrite zlen_cons in Hl. pose proof (zlen_nonneg name).
  rewrite (proj2 (Z.eqb_neq c 0)), (proj2 (Z.ltb_lt 0 size)), (proj2 (Z.eqb_neq c (ord "/"))) by (done || lia).
  cbn [negb andb]. rewrite IH by (done || lia). by rewrite <- app_assoc.
Qed.

Lemma base_name_slash dir t : plain dir -> forall size cur, zlen dir < size ->
  base_name (dir ++ ord "/" :: t) size cur = base_name t (size - zlen dir - 1) [].
Proof.
  induction 1 as [|c dir H0 _ IH]; intros size cur Hl; cbn [base_name app].
  - rewrite zlen_nil in *. rewrite (proj2 (Z.ltb_lt 0 size)), Z.eqb_refl, Z.sub_0_r by lia. done.
  - rewrite zlen_cons in *. pose proof (zlen_nonneg dir).
    rewrite (proj2 (Z.eqb_neq c 0)), (proj2 (Z.ltb_lt 0 size)) by (done || lia). cbn [negb andb].
    rewrite IH by lia. f_equal. lia.
Qed.

(** The link target cut at [size] bytes, which is when readlink had no more room. *)
Lemma base_name_cut name rest : plain name -> Forall (fun c => c <> ord "/") name -> forall size cur, 0 <= size <= zlen name ->
  base_name (name ++ rest) size cur = cur ++ ztake size name.
Proof.
  induction 1 as [|c name H0 _ IH]; intros Hs size cur Hl.
  - unfold zlen in Hl. simpl in Hl. replace size with 0 by lia. rewrite ztake_0, app_nil_r. cbn [app].
    destruct rest as [|c rest]; cbn [base_name]; [done|]. by rewrite andb_false_r.
  - inversion_clear Hs as [|? ? Hc Hs']. rewrite zlen_cons in Hl. cbn [app base_name].
    destruct (decide (size = 0)) as [->|Hne]; [by rewrite andb_false_r, ztake_0, app_nil_r|].
    rewrite (proj2 (Z.eqb_neq c 0)), (proj2 (Z.ltb_lt 0 size)), (proj2 (Z.eqb_neq c (ord "/"))) by (done || lia).
    cbn [negb andb]. rewrite IH by (done || lia). rewrite <- app_assoc. f_equal.
    change (c :: name) with ([c] ++ name). rewrite ztake_app_ge by (unfold zlen; simpl; lia). done.
Qed.

(** The file name of PRPSINFO is the link target of /proc/self/exe after its
    last slash: the first 16 bytes of it, padded with zeros, whatever follows
    the [size] bytes that readlink has stored. *)
Theorem program_name dir name junk size : plain dir -> plain name -> Forall (fun c => c <> ord "/") name ->
  zlen dir < size <= zlen dir + 1 + zlen name ->
  let kept := ztake (size - zlen dir - 1) name in
  let f := padded 16 (base_name (dir ++ ord "/" :: name ++ junk) size []) in
  zlen f = 16 /\ (forall i, 0 <= i < 16 -> nth (Z.to_nat i) f 0 = nth (Z.to_nat i) kept 0).
Proof.
  intros Hd Hn Hs Hsz kept f. assert (Ef : f = padded 16 kept).
  { unfold f. rewrite base_name_slash by (done || lia). rewrite base_name_cut by (done || lia). done. }
  rewrite Ef. clearbody kept. clear -kept. unfold padded. pose proof (zlen_nonneg kept).
  assert (Hk : zlen (ztake 16 kept) = Z.min 16 (zlen kept)).
  { unfold zlen, ztake in *. rewrite length_take. lia. }
  split.
  - rewrite zlen_app, zlen_replicate, Hk. lia.
  - intros i Hi. unfold zlen, ztake in *. destruct (decide (i < Z.of_nat (length kept))) as [Hlt|Hge].
    + rewrite app_nth1 by (rewrite length_take; lia). rewrite nth_firstn. destruct (Nat.ltb_spec (Z.to_nat i) (Z.to_nat 16)); [done|lia].
    + rewrite app_nth2 by (rewrite length_take; lia). rewrite (nth_overflow kept) by lia.
      generalize (Z.to_nat i - length (take (Z.to_nat 16) kept))%nat. generalize (Z.to_nat (16 - Z.of_nat (length (take (Z.to_nat 16) kept)))).
      intros n. induction n as [|n IH]; intros [|k]; cbn; auto.
Qed.

(** ** An instance *)

Definition ex_fields : list (list Z) :=
  map bytes ["7"; "(app)"; "R"; "1"; "7"; "7"; "0"; "-1"; "0"; "0"; "0"; "0"; "0"; "1250"; "40"; "3"; "0"; "20";
    "0"; "2"; "0"; "100"; "0"; "0"; "0"; "0"; "0"; "0"; "0"; "0"; "4"; "2"]%string.

Definition ex_prstatus : prstatus :=
  mkPrstatus (0, 0, 0) 0 0 0 7 1 7 7 zero_time zero_time zero_time zero_time zero_regs 1.

Lemma parse_stat_fields_witness :
  let q := parse_stat (stat_text ex_fields (bytes "0 0")) ex_prstatus in
  pr_utime q = mkTimeval 1 250000 /\ pr_stime q = mkTimeval 0 40000 /\ pr_sigpend q = 42 /\ pr_sighold q = 0.
Proof.
  assert (Hf : Forall field_ok ex_fields) by by_compute.
  pose proof (parse_stat_fields ex_fields (bytes "0 0") ex_prstatus Hf eq_refl) as (H1 & H2 & _ & _ & H5 & H6 & _).
  split_and!; [exact H1|exact H2|exact H5|exact H6].
Defined.

Lemma program_name_witness :
  zlen (padded 16 (base_name (bytes "/usr/bin/app" ++ replicate 9 255) 12 [])) = 16.
Proof.
  assert (P : zlen (bytes "/usr/bin") < 12 <= zlen (bytes "/usr/bin") + 1 + zlen (bytes "app")) by done.
  apply (program_name (bytes "/usr/bin") (bytes "app") (replicate 9 255) 12); [by_compute..|exact P].
Defined.
