(* ===== verification/ListerSpec.v ===== *)
(** The threads that the lister attaches to: none is left stopped when it ends
    well, and the callback sees them all stopped. *)
From stdpp Require Import gmap.
From S2P Require Import Prelude Syscall KernelSpec Params Lister.

(** ** Tracing, as ptrace(2) documents it

    [attached] are the threads the lister traces, [stopped] those of them it has
    waited for. *)

(** The calls that have no influence on tracing. *)
Inductive quiet_call {W : Type} `{KernelIO W} `{KernelProc W} : W -> W -> Prop :=
  | q_gettid w r u w' : k_gettid w = (r, u, w') -> quiet_call w w'
  | q_getpid w r u w' : k_getpid w = (r, u, w') -> quiet_call w w'
  | q_getppid w r u w' : k_getppid w = (r, u, w') -> quiet_call w w'
  | q_peek p a o w r d w' : k_ptrace PTRACE_PEEKDATA p a o w = (r, d, w') -> quiet_call w w'
  | q_tkill p w r u w' : k_tkill p SIGCONT w = (r, u, w') -> quiet_call w w'
  | q_kill p w r u w' : k_kill p SIGCONT w = (r, u, w') -> quiet_call w w'
  | q_yield w r u w' : k_sched_yield w = (r, u, w') -> quiet_call w w'
  | q_socket w r u w' : k_socket w = (r, u, w') -> quiet_call w w'
  | q_stat p w r i w' : k_stat p w = (r, i, w') -> quiet_call w w'
  | q_fstat f w r i w' : k_fstat f w = (r, i, w') -> quiet_call w w'
  | q_opendir p w r u w' : k_opendir p w = (r, u, w') -> quiet_call w w'
  | q_getdents f c w r l w' : k_getdents f c w = (r, l, w') -> quiet_call w w'
  | q_lseek f o h w r u w' : k_lseek f o h w = (r, u, w') -> quiet_call w w'
  | q_sigaltstack w r u w' : k_sigaltstack w = (r, u, w') -> quiet_call w w'
  | q_sigaction sg w r u w' : k_rt_sigaction sg w = (r, u, w') -> quiet_call w w'
  | q_close f w r u w' : k_close f w = (r, u, w') -> quiet_call w w'
  | q_fcntl f c a w r u w' : k_fcntl f c a w = (r, u, w') -> quiet_call w w'
  | q_prctl o a w r u w' : k_prctl o a w = (r, u, w') -> quiet_call w w'
  | q_sigprocmask h g w r l w' : k_rt_sigprocmask h g w = (r, l, w') -> quiet_call w w'
  | q_clone w r u w' : k_clone w = (r, u, w') -> quiet_call w w'.

Class Tracing (W : Type) `{KernelIO W} `{KernelProc W} := {
  attached : W -> gset Z;
  stopped : W -> gset Z;
  stopped_attached : forall w, stopped w ⊆ attached w;
  quiet_tracing : forall w w', quiet_call w w' -> attached w' = attached w /\ stopped w' = stopped w;
  k_attach : forall p w r d w', k_ptrace PTRACE_ATTACH p 0 0 w = (r, d, w') ->
    (is_err r /\ attached w' = attached w /\ stopped w' = stopped w) \/
    (r = 0 /\ attached w' = {[p]} ∪ attached w /\ stopped w' = stopped w);
  (* once it has stopped, or if it is gone, a thread is not traced after PTRACE_DETACH *)
  k_detach : forall p w r d w', k_ptrace PTRACE_DETACH p 0 0 w = (r, d, w') -> p ∈ stopped w \/ p ∉ attached w ->
    (is_err r \/ r = 0) /\ (p ∉ attached w -> r <> 0) /\
    attached w' = attached w ∖ {[p]} /\ stopped w' = stopped w ∖ {[p]};
  (* ECHILD: there is no such thread, or we do not trace it *)
  k_wait : forall p w r st w', k_waitpid p __WALL w = (r, st, w') -> p ∈ attached w ->
    (r = - EINTR /\ attached w' = attached w /\ stopped w' = stopped w) \/
    (is_err r /\ r <> - EINTR /\ attached w' = attached w ∖ {[p]} /\ stopped w' = stopped w ∖ {[p]}) \/
    (0 <= r < 2 ^ 31 /\ attached w' = attached w /\ stopped w' = {[p]} ∪ stopped w);
  k_wait_other : forall p o w r st w', k_waitpid p o w = (r, st, w') ->
    0 < p /\ p ∉ attached w \/ attached w = ∅ -> attached w' = attached w /\ stopped w' = stopped w }.

(** The exits of a part are those of the whole. *)
Ltac same_exit := let Hx := fresh in intros ?c ?s Hx; exact Hx.

Lemma detach_result r e : is_err r -> s32 (LSS_RETURN s64 r e).1 < 0.
Proof. intros Hr. rewrite LSS_RETURN_err by done. by_compute. Qed.

Lemma wait_result r e : is_err r ->
  LSS_RETURN s32 r e = (-1, - r).
Proof. intros Hr. rewrite LSS_RETURN_err by done. done. Qed.

Section Tracing.
Context {W : Type} `{!KernelIO W} `{!KernelProc W} `{!Tracing W}.
Abbreviation state := (cst W lister).
Implicit Types (s : state) (A S : gset Z).

(** The threads traced, those of them stopped, and the array of the lister. *)
Definition Tr A S (l : list Z) s : Prop :=
  attached (world s) = A /\ stopped (world s) = S /\ pids (hnd s) = l.

Lemma quiet_syscall {B} cast (k : W -> Z * B * W) X A S l s : Tr A S l s ->
  (forall r a w', k (world s) = (r, a, w') -> quiet_call (world s) w') ->
  wlp (syscall cast k) (fun _ s' => Tr A S l s') X s.
Proof.
  intros (<- & <- & <-) Hk. apply wlp_syscall. intros r a w' E. by destruct (quiet_tracing _ _ (Hk _ _ _ E)).
Qed.

Lemma quiet_syscall_ cast (k : W -> Z * unit * W) X A S l s : Tr A S l s ->
  (forall r a w', k (world s) = (r, a, w') -> quiet_call (world s) w') ->
  wlp (syscall_ cast k) (fun _ s' => Tr A S l s') X s.
Proof.
  intros Hs Hk. unfold syscall_. wp_step. eapply wlp_mono; [by apply quiet_syscall| |same_exit].
  intros [rc []] s' Hs'. by apply wlp_ret.
Qed.

(** The same, repeated while it is interrupted. *)
Lemma quiet_NO_INTR fuel cast (k : W -> Z * unit * W) X A S l s : Tr A S l s ->
  (forall w r a w', k w = (r, a, w') -> quiet_call w w') ->
  wlp (NO_INTR fuel (syscall_ cast k)) (fun _ s' => Tr A S l s') X s.
Proof.
  intros Hs Hk. apply (wlp_NO_INTR_on (Tr A S l)); [|done]. intros s1 Hs1.
  eapply wlp_mono; [apply quiet_syscall_; [exact Hs1|intros; by eapply Hk]| |same_exit]. by intros a s' ?.
Qed.

(** Assignments to other variables. *)
Lemma Tr_modify f X A S l s : Tr A S l s -> (forall h, pids (f h) = pids h) ->
  wlp (modify f) (fun _ s' => Tr A S l s') X s.
Proof. intros (? & ? & ?) Hf. unfold modify. wp_step. unfold wlp, get_hnd, set_hnd. split_and!; cbn; congruence. Qed.

Lemma wlp_lift {B} (o : option B) (Q : B -> state -> Prop) X s : (forall a, Q a s) -> wlp (lift o) Q X s.
Proof. intros HQ. destruct o; [by apply wlp_ret|done]. Qed.

Lemma Tr_pids f X A S l s : Tr A S l s -> wlp (modify f) (fun _ s' => Tr A S (pids (f (hnd s))) s') X s.
Proof. intros (? & ? & ?). by split_and!. Qed.

(** One step that has no influence on tracing. *)
Ltac quiet :=
  wp_step; eapply wlp_mono;
    [first [ eapply Tr_modify; [eassumption|done]
           | eapply quiet_NO_INTR; [eassumption|intros; by econstructor; eassumption]
           | eapply quiet_syscall_; [eassumption|intros; by econstructor; eassumption]
           | eapply quiet_syscall; [eassumption|intros; by econstructor; eassumption] ]
    | cbn beta | same_exit ].

(** *** Detaching *)

Lemma detach_thread p X A S l s : Tr A S l s -> p ∈ S \/ p ∉ A ->
  wlp (sys_ptrace_detach p) (fun rc s' => (0 <= rc -> p ∈ A) /\ Tr (A ∖ {[p]}) (S ∖ {[p]}) l s') X s.
Proof.
  intros Hs Hp. unfold sys_ptrace_detach. quiet. intros _ s1 (A1 & A2 & A3).
  wp_step. unfold sys_ptrace. apply wlp_syscall. intros r d w' Hk.
  destruct (k_detach _ _ _ _ _ Hk) as (Hr & Hn & D1 & D2); [by rewrite A1, A2|].
  assert (Hrc : 0 <= s32 (LSS_RETURN s64 r (errno s1)).1 -> p ∈ A).
  { intros H0. destruct (decide (p ∈ A)) as [|Hno]; [done|]. exfalso.
    destruct Hr as [Hr|Hr]; [|apply Hn; [by rewrite A1|done]].
    pose proof (detach_result r (errno s1) Hr). lia. }
  wp_step. unfold wlp at 1, get_errno. set (s2 := Cst _ w' _).
  assert (Hs2 : Tr (A ∖ {[p]}) (S ∖ {[p]}) l s2) by (split_and!; cbn; congruence).
  quiet. intros _ s3 Hs3. wp_step. unfold wlp at 1, get_errno. wp_step.
  assert (Hend : forall s3, Tr (A ∖ {[p]}) (S ∖ {[p]}) l s3 ->
    wlp (set_errno (errno s2) ;;! ret (s32 (LSS_RETURN s64 r (errno s1)).1))
     (fun rc s' => (0 <= rc -> p ∈ A) /\ Tr (A ∖ {[p]}) (S ∖ {[p]}) l s') X s3).
  { intros s4 Hs4. wp_step. unfold wlp at 1, set_errno. by apply wlp_ret. }
  destruct (_ =? ENOSYS); [quiet; intros _ s4 Hs4|]; apply wlp_ret; by apply Hend.
Qed.

(** Every thread given is detached; the result says whether one was attached. *)
Lemma resume_loop_spec ps X l : forall b A S s, Tr A S l s -> (forall p, p ∈ ps -> p ∈ S \/ p ∉ A) ->
  wlp (resume_loop ps b) (fun r s' => Tr (A ∖ list_to_set ps) (S ∖ list_to_set ps) l s' /\
    (r = true -> b = true \/ exists p, p ∈ ps /\ p ∈ A)) X s.
Proof.
  induction ps as [|p ps IH]; intros b A S s Hs Hp; cbn [resume_loop].
  { apply wlp_ret. cbn [list_to_set]. rewrite !difference_empty_L. auto. }
  wp_step. eapply wlp_mono; [eapply detach_thread; [done|apply Hp; left]| |same_exit].
  intros rc s1 (Hrc & Hs1). cbn beta. eapply wlp_mono; [eapply IH; [done|]| |same_exit].
  - intros q Hq. destruct (Hp q) as [Hq'|Hq']; [by right| |]; destruct (decide (q = p)); set_solver.
  - intros r s2 (Hs2 & Hr). cbn [list_to_set].
    rewrite !(difference_difference_l_L _ {[p]}) in Hs2. split; [done|].
    intros Ht. destruct (Hr Ht) as [Hb|(q & Hq & Hin)].
    + apply orb_true_iff in Hb as [Hb|Hb]; [by left|]. b2p. right. exists p. split; [left|auto].
    + right. exists q. split; [by right|]. set_solver.
Qed.

Lemma resume_all ps X l A S s : Tr A S l s -> (forall p, p ∈ ps -> p ∈ S \/ p ∉ A) ->
  wlp (ResumeAllProcessThreads ps) (fun r s' => Tr (A ∖ list_to_set ps) (S ∖ list_to_set ps) l s' /\
    (r = true -> exists p, p ∈ ps /\ p ∈ A)) X s.
Proof.
  intros Hs Hp. assert (Hin : forall p, p ∈ rev ps <-> p ∈ ps) by (intros p; by rewrite !list_elem_of_In, <- in_rev).
  assert (E : list_to_set (C := gset Z) (rev ps) = list_to_set ps).
  { apply list_to_set_perm_L. by rewrite <- Permutation_rev. }
  unfold ResumeAllProcessThreads. eapply wlp_mono; [eapply resume_loop_spec; [done|]| |same_exit].
  - intros p Hpin. by apply Hp, Hin.
  - intros r s' (Hs' & Hr). rewrite E in Hs'. split; [done|]. intros Ht.
    destruct (Hr Ht) as [|(p & Hp1 & Hp2)]; [done|]. exists p. by rewrite <- Hin.
Qed.

(** *** Attaching *)

(** The array holds the threads traced, each once, and all of them have stopped. *)
Definition Inv (l : list Z) s : Prop := Tr (list_to_set l) (list_to_set l) l s /\ NoDup l.

Lemma ptrace_attach p X A S l s : Tr A S l s ->
  wlp (sys_ptrace PTRACE_ATTACH p 0 0) (fun '(rc, _) s' =>
    if rc <? 0 then Tr A S l s' else Tr ({[p]} ∪ A) S l s') X s.
Proof.
  intros (<- & <- & <-). apply wlp_syscall. intros r d w' Hk.
  destruct (k_attach _ _ _ _ _ Hk) as [(Hr & ? & ?)|(-> & ? & ?)]; [|by split_and!].
  rewrite LSS_RETURN_err by done. by split_and!.
Qed.

(** Waiting for a thread: it has stopped, or it is not traced. *)
Lemma wait_thread n p X A S l : forall s, Tr A S l s -> p ∈ A ->
  wlp (wait_stopped n p) (fun b s' =>
    if b then Tr A ({[p]} ∪ S) l s' else Tr (A ∖ {[p]}) (S ∖ {[p]}) l s') X s.
Proof.
  induction n as [|n IH]; intros s (<- & <- & <-) Hp; [done|]. cbn [wait_stopped]. wp_step.
  apply wlp_syscall. intros r st w' Hk. destruct (k_wait _ _ _ _ _ Hk Hp) as [(-> & HA & HS)|[(Hr & Hne & HA & HS)|(Hr & HA & HS)]].
  - cbn. apply IH; [by split_and!|done].
  - rewrite wait_result by done. cbn. wp_step. unfold wlp at 1, get_errno. cbn.
    rewrite (proj2 (Z.eqb_neq _ _)) by (unfold EINTR in *; lia). cbn. by split_and!.
  - rewrite LSS_RETURN_ok by lia. cbn [fst snd]. rewrite s32_small by lia.
    destruct (Z.ltb_spec r 0); [lia|]. by split_and!.
Qed.

Lemma same_memory_tr p a i X A S l s : Tr A S l s -> wlp (same_memory a p i) (fun _ s' => Tr A S l s') X s.
Proof.
  intros Hs. unfold same_memory, sys_ptrace. quiet. intros [rc j] s1 Hs1. destruct (_ || _)%bool; [done|].
  quiet. intros [rc' j'] s2 Hs2. by apply wlp_ret.
Qed.

Lemma drop_last p X A S l s : Tr A S (l ++ [p]) s -> wlp drop_last_pid (fun _ s' => Tr A S l s') X s.
Proof.
  intros Hs. pose proof Hs as (_ & _ & Hl). unfold drop_last_pid. wp_step.
  eapply wlp_mono; [by eapply Tr_pids| |same_exit]. cbn [pids put_pids]. rewrite Hl.
  rewrite zlen_app, (zlen_cons p []), zlen_nil, ztake_app_le, ztake_all by lia.
  intros [] s1 Hs1. by eapply Tr_modify.
Qed.

Lemma attach_spec fuel a p X l s : Inv l s -> p ∉ l ->
  wlp (attach fuel a p) (fun b s' => if b then Inv (l ++ [p]) s' else Inv l s') X s.
Proof.
  intros [Hs Hnd] Hp. pose proof Hs as (_ & _ & Hl). unfold attach. wp_step. unfold wlp at 1, get_hnd. rewrite Hl.
  assert (Hrem : (({[p]} ∪ list_to_set l) ∖ {[p]} : gset Z) = list_to_set l) by set_solver.
  assert (Hrem' : (list_to_set l ∖ {[p]} : gset Z) = list_to_set l) by set_solver.
  wp_step. eapply wlp_mono; [by eapply Tr_pids| |same_exit]. cbn [pids put_pids]. intros [] s1 Hs1.
  quiet. intros ? s2 Hs2. wp_step. eapply wlp_mono; [by eapply ptrace_attach| |same_exit].
  intros [rc d] s3 Hs3. destruct (rc <? 0).
  { wp_step. eapply wlp_mono; [by eapply drop_last| |same_exit]. intros [] s4 Hs4. by apply wlp_ret. }
  wp_step. eapply wlp_mono; [apply wait_thread; [done|set_solver]| |same_exit]. intros [] s4 Hs4; cbn [negb].
  - wp_step. eapply wlp_mono; [by eapply same_memory_tr| |same_exit]. intros [] s5 Hs5; cbn [negb].
    + apply wlp_ret. split; [|apply NoDup_app; split_and!; [done|set_solver|apply NoDup_singleton]].
      rewrite list_to_set_app_L. cbn [list_to_set]. by rewrite union_empty_r_L, (union_comm_L (list_to_set l)).
    + wp_step. eapply wlp_mono; [eapply detach_thread; [done|set_solver]| |same_exit]. rewrite Hrem.
      intros ? s6 [_ Hs6]. wp_step. eapply wlp_mono; [by eapply drop_last| |same_exit]. intros [] s7 Hs7. by apply wlp_ret.
  - rewrite Hrem, Hrem' in Hs4. wp_step. eapply wlp_mono; [eapply detach_thread; [done|set_solver]| |same_exit]. rewrite Hrem'.
    intros ? s6 [_ Hs6]. wp_step. eapply wlp_mono; [by eapply drop_last| |same_exit]. intros [] s7 Hs7. by apply wlp_ret.
Qed.

(** *** The search of /proc

    Whatever a pass does, it leaves at most [max_threads] threads in the array,
    and it finds the parent only by adding it. *)
Section Scan.
Context (fuel : nat) (i_addr : Z) (X : Z -> state -> Prop).
Context (marker_path : list Z) (marker_ino clone_pid ppid max_threads proc : Z).

Abbreviation FoundIn l fp fp' := (fun s' => exists l', Inv l' s' /\ zlen l' <= max_threads /\ l ⊆ l' /\
  (fp' = true -> fp = true \/ ppid ∈ l')).

Lemma examine_spec fp added e l s : Inv l s -> zlen l <= max_threads ->
  wlp (examine fuel i_addr marker_path marker_ino clone_pid ppid max_threads proc fp added e)
    (fun o => FoundIn l fp (match o with Scanned (fp', _) | Detach fp' => fp' end)) X s.
Proof.
  intros Hs Hl. assert (Hsame : forall s, Inv l s -> FoundIn l fp fp s) by (intros; exists l; auto).
  pose proof Hs as [Htr Hnd]. unfold examine.
  destruct (_ =? 0); [by apply wlp_ret; auto|]. destruct (negb _); [by apply wlp_ret; auto|].
  destruct (_ && _)%bool; [|by apply wlp_ret; auto].
  quiet. intros [rc ino] s1 Hs1. destruct (_ && _)%bool; [|by apply wlp_ret, Hsame; split].
  wp_step. unfold wlp at 1, get_hnd. pose proof Hs1 as (_ & _ & ->).
  destruct (bool_decide _) eqn:Hin; [by apply wlp_ret, Hsame; split|]. apply bool_decide_eq_false in Hin.
  destruct (Z.leb_spec max_threads (zlen l)).
  - quiet. intros rc' s2 Hs2. apply wlp_ret, Hsame. by split.
  - wp_step. eapply wlp_mono; [apply attach_spec; [by split|exact Hin]| |same_exit].
    intros [] s2 Hs2; [|by apply wlp_ret, Hsame]. apply wlp_ret. set (pid := local_atoi _) in *.
    exists (l ++ [pid]). split_and!; [done|rewrite zlen_app, zlen_cons, zlen_nil; lia|set_solver|].
    intros Hfp. apply orb_true_iff in Hfp as [?|E]; [by left|]. b2p. right. set_solver.
Qed.

Lemma examine_all_spec es : forall fp added l s, Inv l s -> zlen l <= max_threads ->
  wlp (examine_all fuel i_addr marker_path marker_ino clone_pid ppid max_threads proc fp added es)
    (fun o => FoundIn l fp (match o with Scanned (fp', _) | Detach fp' => fp' end)) X s.
Proof.
  induction es as [|e es IH]; intros fp added l s Hs Hl; cbn [examine_all].
  - apply wlp_ret. exists l. auto.
  - wp_step. eapply wlp_mono; [by apply examine_spec| |same_exit].
    intros [[fp1 added1]|fp1] s1 (l1 & Hs1 & Hl1 & Hsub & Hfp).
    + eapply wlp_mono; [by apply IH| |same_exit]. cbn beta.
      intros o s2 (l2 & Hs2 & Hl2 & Hsub2 & Hfp2). exists l2. split_and!; [done|done|set_solver|].
      intros Ht. destruct (Hfp2 Ht) as [H1|]; [|tauto]. destruct (Hfp H1); [tauto|]. set_solver.
    + apply wlp_ret. exists l1. auto.
Qed.
End Scan.

(** *** The ways to end *)

Lemma hnd_syscall_ cast (k : W -> Z * unit * W) X h s : hnd s = h ->
  wlp (syscall_ cast k) (fun _ s' => hnd s' = h) X s.
Proof. intros Hh. unfold syscall_. wp_step. by apply wlp_syscall. Qed.

Lemma hnd_close fuel fd X h s : hnd s = h -> wlp (close_nonneg fuel fd) (fun _ s' => hnd s' = h) X s.
Proof.
  intros Hh. unfold close_nonneg. destruct (0 <=? fd); [|by apply wlp_ret]. wp_step.
  apply (wlp_NO_INTR_on (fun s => hnd s = h)); [|done]. intros s1 Hs1.
  eapply wlp_mono; [by apply hnd_syscall_| |same_exit]. by intros a s2 ?.
Qed.

Lemma hnd_resume ps X h s : hnd s = h -> wlp (ResumeAllProcessThreads ps) (fun _ s' => hnd s' = h) X s.
Proof.
  unfold ResumeAllProcessThreads. generalize (rev ps), false. intros qs b Hh. revert b s Hh.
  induction qs as [|q qs IH]; intros b s Hh; cbn [resume_loop]; [by apply wlp_ret|].
  wp_step. eapply wlp_mono with (P := fun _ s' => hnd s' = h); [|intros; by apply IH|done].
  unfold sys_ptrace_detach. wp_step. eapply wlp_mono; [by apply hnd_syscall_| |same_exit]. intros ? s1 Hs1.
  wp_step. unfold sys_ptrace. apply wlp_syscall. intros r d w' _. wp_step. unfold wlp at 1, get_errno.
  wp_step. eapply wlp_mono; [by apply hnd_syscall_| |same_exit]. intros ? s2 Hs2.
  wp_step. unfold wlp at 1, get_errno. wp_step.
  destruct (_ =? ENOSYS); [wp_step; eapply wlp_mono; [by apply hnd_syscall_| |done]; intros ? s3 Hs3|];
    apply wlp_ret; wp_step; unfold wlp, set_errno, ret; cbn in *; congruence.
Qed.

Lemma wlp_modify f (Q : unit -> state -> Prop) X s : Q tt (Cst (errno s) (world s) (f (hnd s))) -> wlp (modify f) Q X s.
Proof. done. Qed.

(** [failure:] reports -1 and exits with 1. *)
Lemma failure_spec fuel {B} marker proc (Q : B -> state -> Prop) s :
  wlp (failure fuel marker proc) Q (fun c s' => c = 1 /\ l_result (hnd s') = -1) s.
Proof.
  unfold failure. wp_step. apply wlp_modify. wp_step. unfold wlp at 1, get_errno. wp_step. apply wlp_modify.
  wp_step. eapply wlp_mono; [by eapply hnd_close| |same_exit]. intros ? s1 Hs1. wp_step. apply wlp_modify.
  wp_step. eapply wlp_mono; [by eapply hnd_close| |same_exit]. intros ? s2 Hs2. wp_step. apply wlp_modify.
  unfold wlp, sys__exit. cbn in *. split; [done|]. by rewrite Hs2, Hs1.
Qed.

Definition failed (c : Z) s : Prop := c = 1 /\ l_result (hnd s) = -1.

(** What is known of the parent after the passes, also when they have to start again. *)
Definition parent_found (o : pass bool) : bool := match o with Scanned b | Detach b => b end.

Lemma scan_proc_spec fuel i_addr n marker marker_path marker_ino clone_pid ppid max_threads proc fp added l s :
  Inv l s -> zlen l <= max_threads ->
  wlp (scan_proc fuel i_addr n marker marker_path marker_ino clone_pid ppid max_threads proc fp added)
    (fun o s' => exists l', Inv l' s' /\ zlen l' <= max_threads /\ l ⊆ l' /\
       (parent_found o = true -> fp = true \/ ppid ∈ l')) failed s.
Proof.
  revert fp added l s. induction n as [|n IH]; intros fp added l s Hs Hl; [done|]. pose proof Hs as [Htr Hnd].
  cbn [scan_proc]. quiet. intros [nb es] s1 Hs1. assert (Inv l s1) as Hi1 by by split.
  destruct (nb <? 0); [apply failure_spec|]. destruct (nb =? 0).
  { destruct (negb _); [quiet; intros ? s2 Hs2; apply IH; [by split|done]|]. apply wlp_ret.
    exists l. split_and!; [done|done|done|]. by left. }
  wp_step. eapply wlp_mono; [by apply examine_all_spec| |same_exit].
  intros [[fp1 added1]|fp1] s2 (l1 & Hs2 & Hl1 & Hsub & Hfp).
  - eapply wlp_mono; [by apply IH| |same_exit]. cbn beta. intros o s3 (l2 & Hs3 & Hl2 & Hsub2 & Hfp2).
    exists l2. split_and!; [done|done|set_solver|]. intros Ho. destruct (Hfp2 Ho) as [H1|]; [|tauto].
    destruct (Hfp H1); [tauto|set_solver].
  - apply wlp_ret. exists l1. done.
Qed.

(** The passes over a directory of /proc attach to threads: afterwards the
    array, of at most [max_threads] entries, lists exactly the threads that are
    traced, each once, and all of them are stopped.  The parent counts as found
    only when it is among them.  When the directory cannot be read the lister
    fails; when there are more threads than the array has room for, [Detach] makes it
    start again, with [found_parent] as it is then. *)
Theorem scan_proc_attaches fuel i_addr n marker marker_path marker_ino clone_pid ppid max_threads proc fp added l s :
  Inv l s -> zlen l <= max_threads ->
  wlp (scan_proc fuel i_addr n marker marker_path marker_ino clone_pid ppid max_threads proc fp added)
    (fun o s' => exists l', Inv l' s' /\ zlen l' <= max_threads /\ l ⊆ l' /\
       (parent_found o = true -> fp = true \/ ppid ∈ l')) failed s.
Proof. apply scan_proc_spec. Qed.

Lemma detach_threads_spec X l s : Inv l s -> wlp detach_threads (fun _ s' => Inv [] s') X s.
Proof.
  intros [Hs Hnd]. pose proof Hs as (_ & _ & Hl). unfold detach_threads. wp_step. unfold wlp at 1, get_hnd. rewrite Hl.
  wp_step. eapply wlp_mono; [eapply resume_all; [done|set_solver]| |same_exit]. intros ? s1 [Hs1 _].
  rewrite difference_diag_L in Hs1. quiet. intros ? s2 Hs2. wp_step.
  eapply wlp_mono; [by eapply Tr_pids| |same_exit]. cbn [pids put_pids]. intros ? s3 Hs3.
  eapply wlp_mono; [by eapply Tr_modify| |same_exit]. intros ? s4 Hs4. split; [done|constructor].
Qed.

(** *** The whole thread *)
Section Whole.
Context (fuel : nat) (i_addr : Z) (callback : list Z -> M state Z).
(** What the callback returns: its result, [errno] and the threads still traced. *)
Context (Post : Z -> Z -> gset Z -> Prop).

(** It is given threads that are all stopped, and may let some of them go. *)
Definition callback_ok : Prop := forall l s, Inv l s ->
  wlp (callback l) (fun r s' => exists A S, Tr A S l s' /\ (forall p, p ∈ l -> p ∈ S \/ p ∉ A) /\
    A ⊆ list_to_set l /\ Post r (errno s') A) (fun _ _ => False) s.

(** The result that is left for the parent: the callback's, unless it did not
    resume all threads. *)
Definition reported s : Prop := exists r e A, Post r e A /\
  (l_result (hnd s) = r /\ l_err (hnd s) = e \/ A <> ∅ /\ l_result (hnd s) = -1 /\ l_err (hnd s) = EINVAL).

Definition ended (c : Z) s : Prop :=
  failed c s \/ attached (world s) = ∅ /\ stopped (world s) = ∅ /\ (c = 3 \/ c = 0 /\ reported s).

Lemma none_stopped (w : W) : attached w = ∅ -> stopped w = ∅.
Proof. pose proof (stopped_attached w). set_solver. Qed.

Lemma ended_well c s : attached (world s) = ∅ -> c = 3 \/ c = 0 /\ reported s -> ended c s.
Proof. intros HA Hc. right. by split_and!; [|apply none_stopped|]. Qed.

(** The same for a callback that is only given threads of which more is known. *)
Definition callback_given (Given : list Z -> W -> Prop) : Prop := forall l s, Inv l s -> Given l (world s) ->
  wlp (callback l) (fun r s' => exists A S, Tr A S l s' /\ (forall p, p ∈ l -> p ∈ S \/ p ∉ A) /\
    A ⊆ list_to_set l /\ Post r (errno s') A) (fun _ _ => False) s.

(** It stays known while the threads are stopped. *)
Definition keeps_given (Given : list Z -> W -> Prop) : Prop := forall l w w',
  stopped w = list_to_set l -> Given l w -> quiet_call w w' -> Given l w'.

Lemma close_given Given X l fd s : keeps_given Given -> Inv l s -> Given l (world s) ->
  wlp (NO_INTR fuel (sys_close fd)) (fun _ s' => Inv l s' /\ Given l (world s')) X s.
Proof.
  intros Hk [Hs Hnd] HG. eapply wlp_mono with (P := fun _ s' => Tr (list_to_set l) (list_to_set l) l s' /\ Given l (world s'));
    [|by intros ? ? []|same_exit].
  apply (wlp_NO_INTR_on (fun s' => Tr (list_to_set l) (list_to_set l) l s' /\ Given l (world s'))); [|done].
  intros s1 [Hs1 HG1]. eapply wlp_mono with (X := fun c s' => X c s' /\ X c s');
    [apply (wlp_conj (sys_close fd) (fun _ => Tr (list_to_set l) (list_to_set l) l) (fun _ s' => Given l (world s')));
      [eapply quiet_syscall_; [exact Hs1|intros; by econstructor; eassumption]|]| |by intros ? ? []].
  - unfold sys_close, syscall_. wp_step. apply wlp_syscall. intros r [] w' Hc. apply wlp_ret.
    eapply Hk; [apply Hs1|done|by econstructor; eassumption].
  - by intros a s2 [? ?].
Qed.

Lemma lister_done_spec {B} Given marker fp l (Q : B -> state -> Prop) s : callback_given Given -> keeps_given Given ->
  Inv l s -> Given l (world s) ->
  wlp (lister_done fuel callback marker fp) Q
    (fun c s' => attached (world s') = ∅ /\ (c = 3 /\ fp = false \/ c = 0 /\ reported s')) s.
Proof.
  intros Hcb Hkeep Hi HG. unfold lister_done. wp_step. eapply wlp_mono; [by apply (close_given Given)| |same_exit].
  intros ? s1 [[Hs1 Hnd] HG1]. wp_step. apply wlp_modify. set (s2 := Cst _ _ _).
  assert (Hs2 : Tr (list_to_set l) (list_to_set l) l s2) by done. assert (HG2 : Given l (world s2)) by done. clearbody s2.
  wp_step. unfold wlp at 1, get_hnd. pose proof Hs2 as (_ & _ & Hl). rewrite Hl. destruct fp; cbn [negb].
  2:{ wp_step. eapply wlp_mono; [eapply resume_all; [done|set_solver]| |same_exit]. intros ? s3 [Hs3 _].
      rewrite difference_diag_L in Hs3. destruct Hs3 as (HA & _). unfold wlp, sys__exit. auto. }
  wp_step. eapply wlp_mono; [apply Hcb; [by split|done]| |done]. intros r s3 (A & S & Hs3 & Hst & HA & HP).
  wp_step. eapply wlp_mono; [apply wlp_conj with (X := fun _ _ => False) (Y := fun _ _ => False)
    (P := fun _ s' => Tr A S l s') (Q := fun _ s' => l_result (hnd s') = r /\ errno s' = errno s3);
    [by eapply Tr_modify|done]| |by intros ? ? [[] _]]. intros ? s4 (Hs4 & Hr4 & He4).
  wp_step. unfold wlp at 1, get_errno. rewrite He4.
  wp_step. eapply wlp_mono; [apply wlp_conj with (X := fun _ _ => False) (Y := fun _ _ => False)
    (P := fun _ s' => Tr A S l s') (Q := fun _ s' => l_result (hnd s') = r /\ l_err (hnd s') = errno s3);
    [by eapply Tr_modify|by apply wlp_modify]| |by intros ? ? [[] _]]. intros ? s5 (Hs5 & Hr5 & He5).
  wp_step. eapply wlp_mono; [apply wlp_conj with (X := fun _ _ => False) (Y := fun _ _ => False);
    [by eapply resume_all|by apply hnd_resume]| |by intros ? ? [[] _]]. intros late s6 ((Hs6 & Hlate) & Hh6).
  assert (HE : A ∖ list_to_set l = ∅) by set_solver. rewrite HE in Hs6. destruct Hs6 as (HA6 & _ & _).
  destruct late.
  - wp_step. wp_step. apply wlp_modify. apply wlp_modify. unfold wlp, sys__exit. cbn. split; [done|]. right. split; [done|].
    exists r, (errno s3), A. split; [done|]. right. split; [|done]. destruct Hlate as (p & _ & Hp); [done|]. set_solver.
  - wp_step. apply wlp_ret. unfold wlp, sys__exit. split; [done|]. right. split; [done|].
    exists r, (errno s3), A. split; [done|]. left. by rewrite Hh6.
Qed.

Lemma lister_loop_spec {B} marker marker_path marker_ino clone_pid ppid (Q : B -> state -> Prop) :
  callback_ok -> forall n path paths max_threads fp s, Inv [] s -> 0 <= max_threads ->
  wlp (lister_loop fuel i_addr callback n marker marker_path marker_ino clone_pid ppid path paths max_threads fp)
    Q ended s.
Proof.
  intros Hcb. assert (Hdone : forall fp l s, Inv l s -> wlp (lister_done fuel callback marker fp) Q ended s).
  { intros fp l s Hs. eapply wlp_mono; [eapply (lister_done_spec (fun _ _ => True)); [by intros l' s' Hi _; apply Hcb|done|done|done]
      |by intros; eassumption|].
    intros c s' (HA & [(-> & _)|(-> & HR)]); apply ended_well; auto. }
  assert (Hfail : forall m p s, wlp (failure fuel m p) Q ended s).
  { intros m p s. eapply wlp_mono; [apply failure_spec with (Q := Q)|done|]. by left. }
  induction n as [|n IH]; intros path paths max_threads fp s [Hs Hnd] Hm; [done|]. cbn [lister_loop].
  unfold c_open, sys_opendir. quiet. intros proc s1 Hs1. quiet. intros ? s2 Hs2. destruct (proc <? 0).
  { destruct paths; [apply Hfail|apply IH; [by split|done]]. }
  quiet. intros [rc nlink] s3 Hs3. destruct (rc <? 0); [apply Hfail|]. cbv zeta.
  set (m' := if max_threads <? nlink + 100 then nlink + 100 else max_threads).
  assert (Hm' : 0 <= m') by (unfold m'; destruct (Z.ltb_spec max_threads (nlink + 100)); lia).
  quiet. intros ? s4 Hs4. quiet. intros ? s5 Hs5. wp_step.
  eapply wlp_mono; [eapply scan_proc_spec with (l := []); [by split|done]| |by left].
  intros [fp'|fp'] s6 (l & Hs6 & _).
  - pose proof Hs6 as [Htr6 Hnd6]. quiet. intros ? s7 Hs7. quiet. intros ? s8 Hs8.
    wp_step. unfold wlp at 1, get_hnd. destruct (1 <? _); [by eapply Hdone; split|].
    destruct paths; [by eapply Hdone; split|].
    wp_step. eapply wlp_mono; [by eapply detach_threads_spec; split| |same_exit]. intros ? s9 Hs9. apply IH; [done|lia].
  - wp_step. eapply wlp_mono; [by eapply detach_threads_spec| |same_exit]. intros ? s9 Hs9. apply IH; [done|lia].
Qed.

Lemma install_handlers_spec sigs X A S l : forall s, Tr A S l s -> wlp (install_handlers sigs) (fun _ s' => Tr A S l s') X s.
Proof. induction sigs as [|sg sigs IH]; intros s Hs; cbn [install_handlers]; [by apply wlp_ret|]. quiet. intros. by apply IH. Qed.

Lemma ListerThread_spec {B} (Q : B -> state -> Prop) s : callback_ok ->
  attached (world s) = ∅ -> stopped (world s) = ∅ -> pids (hnd s) = [] ->
  wlp (ListerThread fuel i_addr callback) Q ended s.
Proof.
  intros Hcb HA HS Hl. assert (Hs : Tr ∅ ∅ [] s) by done.
  assert (Hfail : forall m p s, wlp (failure fuel m p) Q ended s).
  { intros m p s'. eapply wlp_mono; [apply failure_spec with (Q := Q)|done|]. by left. }
  unfold ListerThread, sys_gettid. wp_step. quiet. intros tid s1 Hs1.
  eapply wlp_mono with (P := fun _ s' => Tr ∅ ∅ [] s') (X := ended);
    [destruct (negb _); [by apply wlp_ret|by eapply quiet_syscall_; [eassumption|intros; by econstructor; eassumption]]| |done].
  intros clone_pid s2 Hs2. quiet. intros ppid s3 Hs3. quiet. intros marker s4 Hs4.
  destruct (marker <? 0); [apply Hfail|]. quiet. intros rc s5 Hs5. destruct (rc <? 0); [apply Hfail|].
  wp_step. apply wlp_lift. intros ppid_s. wp_step. apply wlp_lift. intros marker_s. cbv zeta.
  quiet. intros [rc' ino] s6 Hs6. destruct (rc' <? 0); [apply Hfail|].
  quiet. intros ? s7 Hs7. quiet. intros ? s8 Hs8. quiet. intros ? s9 Hs9.
  wp_step. eapply wlp_mono; [by eapply install_handlers_spec| |same_exit]. intros ? s10 Hs10.
  apply lister_loop_spec; [done|by split; [|constructor]|lia].
Qed.

(** C7. The lister ends by exiting.  When it ends well, or because it did not find
    the parent (code 3), no thread of the process is left traced or stopped; the
    callback has been given stopped threads only, and its result and [errno] are
    what the parent gets, unless it did not resume all of them: then that is -1 and
    EINVAL.  A failure has code 1 and the result -1. *)
Theorem ListerThread_ends {B} (Q : B -> state -> Prop) s : callback_ok ->
  attached (world s) = ∅ -> stopped (world s) = ∅ -> pids (hnd s) = [] ->
  wlp (ListerThread fuel i_addr callback) Q ended s.
Proof. apply ListerThread_spec. Qed.

(** *** The caller *)

Lemma run_clone_spec (m : M state unit) X s : wlp m (fun _ _ => False) ended s ->
  wlp (run_clone m) (fun status s' => (status = 256 \/ status = 768 \/ status = 0 \/ status = SIGABRT) /\
    (status = 0 -> attached (world s') = ∅ /\ reported s')) X s.
Proof.
  unfold wlp, run_clone. destruct (m s) as [?|c s'|? s'|s'|]; [done| | | |done].
  - intros [[-> Hr]|(HA & _ & [->|[-> Hr]])]; cbn; (split; [auto|try (by intros)]); auto.
  - intros _. split; [auto|by intros].
  - intros _. split; [auto|by intros].
Qed.

(** Waiting for the clone, which is not traced. *)
Lemma wait_clone_spec p X s h : hnd s = h ->
  wlp (wait_clone fuel p) (fun _ s' => hnd s' = h /\ (attached (world s) = ∅ -> attached (world s') = ∅)) X s.
Proof.
  intros Hh. unfold wait_clone.
  apply wlp_MY_NO_INTR with (I := fun s' => hnd s' = h /\ (attached (world s) = ∅ -> attached (world s') = ∅)); [|done].
  intros my s1 [Hs1 HA]. unfold sys0_waitpid. apply wlp_syscall0. intros r st w' Hk. cbn.
  assert (attached (world s) = ∅ -> attached w' = ∅); [|done].
  intros H0. rewrite <- (HA H0). apply (k_wait_other _ _ _ _ _ _ Hk). right. by apply HA.
Qed.

Lemma report_spec rc status e X s :
  (status = 256 \/ status = 768 \/ status = 0 \/ status = SIGABRT) ->
  wlp (report rc status e) (fun _ s' => world s' = world s /\
    (l_result (hnd s') = -1 \/ status = 0 /\ hnd s' = hnd s)) X s.
Proof.
  intros Hst. unfold report. destruct (rc <? 0); [by split; [|left]|].
  destruct Hst as [-> | [-> | [-> | ->]]]; cbn; (split; [done|]); auto.
Qed.

Lemma ListAllProcessThreads_spec X s : callback_ok ->
  attached (world s) = ∅ -> stopped (world s) = ∅ -> pids (hnd s) = [] ->
  wlp (ListAllProcessThreads fuel i_addr callback) (fun r s' => r = -1 \/
    attached (world s') = ∅ /\ exists e A, Post r e A /\ errno s' = e) X s.
Proof.
  intros Hcb HA HS Hl. assert (Hs : Tr ∅ ∅ [] s) by done. unfold ListAllProcessThreads.
  quiet. intros dumpable s1 Hs1. wp_step.
  eapply wlp_mono with (P := fun _ s' => Tr ∅ ∅ [] s') (X := X); [|clear s1 Hs1; intros ? s1 Hs1|done].
  { destruct (dumpable =? 0); [quiet; intros ? s2 Hs2|]; by apply wlp_ret. }
  quiet. intros ? s2 Hs2. quiet. intros ? s3 Hs3. quiet. intros [rc old] s4 Hs4.
  assert (Hend : forall s', (l_result (hnd s') = -1 \/ attached (world s') = ∅ /\ reported s') ->
    wlp ((if dumpable =? 0 then sys_prctl PR_SET_DUMPABLE dumpable ;;! ret tt else ret tt) ;;!
      let! l := get_hnd in set_errno (l_err l) ;;! ret (l_result l))
      (fun r s' => r = -1 \/ attached (world s') = ∅ /\ exists e A, Post r e A /\ errno s' = e) X s').
  { intros s' Hr. wp_step. eapply wlp_mono with (P := fun _ s2 => hnd s2 = hnd s' /\ (attached (world s') = ∅ -> attached (world s2) = ∅)) (X := X);
      [| |done].
    - destruct (dumpable =? 0); [|by apply wlp_ret]. wp_step.
      eapply wlp_mono; [apply wlp_conj with (X := X) (Y := X); [by eapply quiet_syscall_ with (s := s'); [|intros; by econstructor; eassumption]|by apply hnd_syscall_]| |by intros ? ? []].
      intros ? s5 [(HA5 & _) Hh5]. apply wlp_ret. split; [done|]. by rewrite HA5.
    - intros [] s5 [Hh5 HA5]. wp_step. unfold wlp, get_hnd, set_errno, bind, ret. cbn. rewrite Hh5.
      destruct Hr as [Hr|(HAr & r & e & A & HP & [[<- <-]|(_ & Hr & _)])]; [by left| |by left].
      right. split; [by apply HA5|]. by exists (l_err (hnd s')), A. }
  wp_step. destruct (negb (rc =? 0)).
  { wp_step. unfold wlp at 1, get_errno. wp_step. apply wlp_modify. apply wlp_modify. apply Hend. by left. }
  quiet. intros clone_pid s5 Hs5. wp_step. unfold wlp at 1, get_errno. quiet. intros ? s6 Hs6. quiet. intros ? s7 Hs7.
  destruct (0 <=? clone_pid).
  2:{ wp_step. apply wlp_modify. apply wlp_modify. apply Hend. by left. }
  wp_step. eapply wlp_mono; [apply run_clone_spec| |same_exit].
  { by eapply ListerThread_spec; [|apply Hs7..]. }
  intros status s8 [Hst H0]. wp_step. eapply wlp_mono; [by apply wait_clone_spec| |same_exit].
  intros [[rc' ?] e'] s9 [Hh9 HA9]. cbn beta iota. eapply wlp_mono; [by apply report_spec| |same_exit].
  intros ? s10 [Hw10 [Hr|[Hz Hh10]]]; apply Hend; [by left|]. right. destruct (H0 Hz) as [HA8 HR8].
  rewrite Hw10. split; [by apply HA9|]. unfold reported. by rewrite Hh10, Hh9.
Qed.

(** [ListAllProcessThreads] returns -1, or it returns what the callback has
    returned, with the [errno] of the callback, and then no thread is traced. *)
Theorem ListAllProcessThreads_result X s : callback_ok ->
  attached (world s) = ∅ -> stopped (world s) = ∅ -> pids (hnd s) = [] ->
  wlp (ListAllProcessThreads fuel i_addr callback) (fun r s' => r = -1 \/
    attached (world s') = ∅ /\ exists e A, Post r e A /\ errno s' = e) X s.
Proof. apply ListAllProcessThreads_spec. Qed.
End Whole.
End Tracing.

(** ** A concrete instance

    A process with the threads 7 and 9, and the clone 200 that lists them. *)

Record procs := Procs { tp_marked : gset Z; tp_waited : gset Z; tp_read : bool }.

Definition tp_threads : gset Z := {[7; 9]}.
Definition tp_attached (w : procs) : gset Z := tp_marked w ∩ tp_threads.
Definition tp_stopped (w : procs) : gset Z := tp_waited w ∩ tp_attached w.

Definition tp_ptrace (r p a own : Z) (w : procs) : Z * list Z * procs :=
  if r =? PTRACE_ATTACH then
    if bool_decide (p ∈ tp_threads ∖ tp_attached w) then
      (0, [], Procs ({[p]} ∪ tp_marked w) (tp_waited w ∖ {[p]}) (tp_read w))
    else (- EPERM, [], w)
  else if r =? PTRACE_DETACH then
    if bool_decide (p ∈ tp_stopped w) then
      (0, [], Procs (tp_marked w ∖ {[p]}) (tp_waited w ∖ {[p]}) (tp_read w))
    else (-3, [], Procs (tp_marked w) (tp_waited w ∖ {[p]}) (tp_read w))
  else if r =? PTRACE_PEEKDATA then (0, le 8 own, w)
  else if (r =? PTRACE_GETREGS) || (r =? PTRACE_GETFPREGS) then
    (0, concat (replicate 27 (le 8 p)), w)
  else (- EINVAL, [], w).

Definition tp_waitpid (p o : Z) (w : procs) : Z * Z * procs :=
  if bool_decide (p ∉ tp_attached w) then (if p =? 200 then 200 else - ECHILD, 0, w)
  else if (0 <=? p) && (p <? 1000) then
    (p, 4991, Procs (tp_marked w) ({[p]} ∪ tp_waited w) (tp_read w))
  else (- ECHILD, 0, Procs (tp_marked w ∖ {[p]}) (tp_waited w ∖ {[p]}) (tp_read w)).

Definition tp_getdents (f c : Z) (w : procs) : Z * list kernel_dirent * procs :=
  if tp_read w then (0, [], w)
  else (72, [Dirent 1 (bytes "."); Dirent 2 (bytes "7"); Dirent 3 (bytes "9")],
        Procs (tp_marked w) (tp_waited w) true).

Definition tp_const {A : Type} (r : Z) (a : A) (w : procs) : Z * A * procs := (r, a, w).

#[export] Instance tp_io : KernelIO procs := {|
  k_read f c := tp_const (- EBADF) []; k_write f b c := tp_const (- EBADF) tt; k_open p f m := tp_const (-2) tt;
  k_close f := tp_const 0 tt; k_pipe := tp_const (-24) (0, 0); k_dup f := tp_const (- EBADF) tt;
  k_dup2 f g := tp_const (- EBADF) tt; k_fcntl f c a := tp_const 0 tt; k_poll u t := tp_const 0 [] |}.

#[export] Instance tp_proc : KernelProc procs := {|
  k_gettid := tp_const 200 tt; k_getpid := tp_const 200 tt; k_getppid := tp_const 7 tt;
  k_ptrace := tp_ptrace; k_waitpid := tp_waitpid;
  k_tkill p sg := tp_const 0 tt; k_kill p sg := tp_const 0 tt; k_sched_yield := tp_const 0 tt;
  k_prctl o a := tp_const 1 tt; k_socket := tp_const 3 tt; k_stat p := tp_const 0 7;
  k_fstat f := tp_const 0 2; k_opendir p w := (5, tt, Procs (tp_marked w) (tp_waited w) false); k_getdents := tp_getdents;
  k_lseek f o h w := (0, tt, Procs (tp_marked w) (tp_waited w) false);
  k_sigaltstack := tp_const 0 tt; k_rt_sigaction sg := tp_const 0 tt;
  k_rt_sigprocmask how set := tp_const 0 []; k_clone := tp_const 200 tt |}.

(** What happens to the threads traced. *)
Lemma tp_attached_add p S r w : p ∈ tp_threads -> tp_attached (Procs ({[p]} ∪ tp_marked w) S r) = {[p]} ∪ tp_attached w.
Proof. unfold tp_attached. cbn. set_solver. Qed.

Lemma tp_attached_remove p S r w : tp_attached (Procs (tp_marked w ∖ {[p]}) S r) = tp_attached w ∖ {[p]}.
Proof. unfold tp_attached. cbn. set_solver. Qed.

Lemma tp_stopped_remove p r w : tp_stopped (Procs (tp_marked w ∖ {[p]}) (tp_waited w ∖ {[p]}) r) = tp_stopped w ∖ {[p]}.
Proof. unfold tp_stopped. rewrite tp_attached_remove. cbn. set_solver. Qed.

#[export] Instance tp_tracing : Tracing procs.
Proof.
  refine {| attached := tp_attached; stopped := tp_stopped |}.
  - intros w. unfold tp_stopped. set_solver.
  - intros w w' Hq. inversion Hq as [? ? ? ? Hk|? ? ? ? Hk|? ? ? ? Hk|? ? ? ? ? ? ? Hk|? ? ? ? ? Hk|? ? ? ? ? Hk|
      ? ? ? ? Hk|? ? ? ? Hk|? ? ? ? ? Hk|? ? ? ? ? Hk|? ? ? ? ? Hk|? ? ? ? ? ? Hk|? ? ? ? ? ? ? Hk|? ? ? ? Hk|
      ? ? ? ? ? Hk|? ? ? ? ? Hk|? ? ? ? ? ? ? Hk|? ? ? ? ? ? Hk|? ? ? ? ? ? Hk|? ? ? ? Hk]; cbn in Hk; try (injection Hk as <- <- <-; done).
    unfold tp_getdents in Hk. destruct (tp_read w); by injection Hk as <- <- <-.
  - intros p w r d w' Hk. cbn in Hk. unfold tp_ptrace in Hk. cbn in Hk. destruct (bool_decide _) eqn:E.
    + apply bool_decide_eq_true in E. injection Hk as <- <- <-. right. rewrite tp_attached_add by set_solver.
      split_and!; [done|done|]. unfold tp_stopped. rewrite tp_attached_add by set_solver. cbn. set_solver.
    + injection Hk as <- <- <-. left. unfold is_err, EPERM. done.
  - intros p w r d w' Hk Hp. cbn in Hk. unfold tp_ptrace in Hk. cbn in Hk. destruct (bool_decide _) eqn:E.
    + apply bool_decide_eq_true in E. injection Hk as <- <- <-. rewrite tp_stopped_remove, tp_attached_remove.
      unfold tp_stopped in E. split_and!; [by right|set_solver|done|done].
    + apply bool_decide_eq_false in E. destruct Hp as [Hp|Hp]; [done|]. injection Hk as <- <- <-.
      fold (tp_attached w) in Hp. unfold tp_stopped, tp_attached in *. cbn. unfold is_err. split_and!; [left; lia|done|set_solver|set_solver].
  - intros p w r st w' Hk Hp. cbn in Hk. unfold tp_waitpid in Hk. rewrite bool_decide_false in Hk by auto.
    destruct (_ && _)%bool eqn:E.
    + b2p. injection Hk as <- <- <-. right. right. split; [lia|]. split; [done|]. unfold tp_stopped.
      change (tp_attached (Procs _ _ _)) with (tp_attached w). cbn. set_solver.
    + injection Hk as <- <- <-. right. left. rewrite tp_stopped_remove, tp_attached_remove. by unfold is_err, ECHILD, EINTR.
  - intros p o w r st w' Hk Ha. cbn in Hk. unfold tp_waitpid in Hk. rewrite bool_decide_true in Hk.
    + by injection Hk as <- <- <-.
    + destruct Ha as [[_ Ha]| ->]; [done|set_solver].
Defined.

Definition tp_start : cst procs lister :=
  Cst 0 (Procs ∅ ∅ false) (mkLister [] false 0 (-1) (-1) (-1) 0 None).

(** A callback that resumes the threads and returns 7. *)
Definition tp_callback (l : list Z) : M (cst procs lister) Z := ResumeAllProcessThreads l ;;! ret 7.

Lemma tp_callback_ok : callback_ok tp_callback (fun r e A => r = 7 /\ A = ∅).
Proof.
  intros l s [Hs Hnd]. unfold tp_callback. wp_step. eapply wlp_mono; [eapply resume_all; [done|set_solver]| |same_exit].
  intros ? s1 [Hs1 _]. rewrite difference_diag_L in Hs1. apply wlp_ret. exists ∅, ∅. split_and!; [done|set_solver|set_solver|done..].
Qed.

Lemma scan_proc_attaches_witness :
  wlp (scan_proc 100 4096 100 3 (bytes "/fd/3") 7 200 7 102 5 false 0)
    (fun o s' => exists l', Inv l' s' /\ zlen l' <= 102 /\ [] ⊆ l' /\ (parent_found o = true -> false = true \/ 7 ∈ l'))
    failed tp_start.
Proof. apply (scan_proc_attaches 100 4096 100 3 (bytes "/fd/3") 7 200 7 102 5 false 0 []); [split; [done|constructor]|done]. Defined.

Lemma ListerThread_ends_witness :
  wlp (ListerThread (A := unit) 100 4096 tp_callback) (fun _ _ => False) (ended (fun r e A => r = 7 /\ A = ∅)) tp_start.
Proof. apply (ListerThread_ends 100 4096 tp_callback); [apply tp_callback_ok|done|done|done]. Defined.

(** It does end, and well: both threads were found. *)
Example lister_runs :
  (match ListerThread (A := unit) 100 4096 tp_callback tp_start with
   | Exited 0 s => (l_result (hnd s), pids (hnd s), bool_decide (attached (world s) = ∅))
   | _ => (0, [], false)
   end) = (7, [7; 9], true).
Proof. vm_compute. reflexivity. Qed.

Lemma ListAllProcessThreads_result_witness :
  wlp (ListAllProcessThreads 100 4096 tp_callback) (fun r s' => r = -1 \/
    attached (world s') = ∅ /\ exists e (A : gset Z), (r = 7 /\ A = ∅) /\ errno s' = e) (fun _ _ => False) tp_start.
Proof.
  apply (ListAllProcessThreads_result 100 4096 tp_callback (fun r e A => r = 7 /\ A = ∅));
    [apply tp_callback_ok|done|done|done].
Defined.

Example list_all_runs :
  (match ListAllProcessThreads 100 4096 tp_callback tp_start with Ret r _ => r | _ => 0 end) = 7.
Proof. vm_compute. reflexivity. Qed.
