(* ===== verification/Complete.v ===== *)
(** The search for threads is complete: when the passes over /proc end, every thread
    of the process is in the array and stopped, even if the threads make new ones
    while the search is going on. *)
From stdpp Require Import gmap.
From S2P Require Import Prelude Syscall KernelSpec Params Lister ListerSpec.

(** ** What the kernel says about the threads of a process *)

(** The calls of the lister; those of them, other than reading the directory on and
    from its start, that are made while it is being read. *)
Inductive lister_call {W : Type} `{KernelIO W} `{KernelProc W} : W -> W -> Prop :=
  | l_quiet w w' : quiet_call w w' -> lister_call w w'
  | l_attach p w r d w' : k_ptrace PTRACE_ATTACH p 0 0 w = (r, d, w') -> lister_call w w'
  | l_detach p w r d w' : k_ptrace PTRACE_DETACH p 0 0 w = (r, d, w') -> lister_call w w'
  | l_wait p w r st w' : k_waitpid p __WALL w = (r, st, w') -> lister_call w w'.

Inductive pass_call {W : Type} `{KernelIO W} `{KernelProc W} : W -> W -> Prop :=
  | p_fstat f w r i w' : k_fstat f w = (r, i, w') -> pass_call w w'
  | p_stat p w r i w' : k_stat p w = (r, i, w') -> pass_call w w'
  | p_attach p w r d w' : k_ptrace PTRACE_ATTACH p 0 0 w = (r, d, w') -> pass_call w w'
  | p_detach p w r d w' : k_ptrace PTRACE_DETACH p 0 0 w = (r, d, w') -> pass_call w w'
  | p_peek p a o w r d w' : k_ptrace PTRACE_PEEKDATA p a o w = (r, d, w') -> pass_call w w'
  | p_wait p w r st w' : k_waitpid p __WALL w = (r, st, w') -> pass_call w w'
  | p_tkill p w r u w' : k_tkill p SIGCONT w = (r, u, w') -> pass_call w w'
  | p_kill p w r u w' : k_kill p SIGCONT w = (r, u, w') -> pass_call w w'
  | p_yield w r u w' : k_sched_yield w = (r, u, w') -> pass_call w w'.

(** A directory entry for thread [t]. *)
Definition names_thread (e : kernel_dirent) (t : Z) : Prop := d_ino e <> 0 /\ local_itoa itoa_fuel t = Some (d_name e).

(** Threads do not end meanwhile; they make new ones only while one of them is
    running that is not the one that waits for the lister. *)
Definition spawns {W : Type} (alive stopped : W -> gset Z) (w w' : W) : Prop :=
  alive w ⊆ alive w' /\ (alive w ⊆ stopped w \/ (base.size (alive w) <= 1)%nat -> alive w' = alive w).

Class Threads (W : Type) `{Tracing W} (i_addr : Z) := {
  alive : W -> gset Z;          (* the threads of the process, the lister excepted *)
  full : W -> Prop;             (* the open directory is one that lists all of them *)
  pending : W -> gset Z;        (* those that it has still to list *)
  calls_alive : forall w w', lister_call w w' -> spawns alive stopped w w';
  pass_pending : forall w w', pass_call w w' -> pending w' = pending w /\ (full w -> full w');
  (* the end of the directory is reached when nothing is left to be listed *)
  getdents_lists : forall f c w r es w', k_getdents f c w = (r, es, w') -> full w ->
    full w' /\ (is_err r \/ 0 <= r < 2 ^ 31) /\ (r = 0 -> pending w = ∅) /\
    (0 < r -> forall t, t ∈ pending w -> t ∈ pending w' \/ exists e, In e es /\ names_thread e t);
  (* a directory that is read from the start lists all threads there are *)
  rewind_lists : forall f w r u w', k_lseek f 0 SEEK_SET w = (r, u, w') -> full w -> full w' /\ alive w' ⊆ pending w';
  alive_ids : forall w t, t ∈ alive w -> 0 < t < 2 ^ 31;
  (* the process may be traced, and its threads share the memory of the lister *)
  own_attach : forall t w r d w', k_ptrace PTRACE_ATTACH t 0 0 w = (r, d, w') ->
    t ∈ alive w -> t ∉ attached w -> r = 0;
  own_wait : forall t w r st w', k_waitpid t __WALL w = (r, st, w') -> t ∈ alive w -> t ∈ attached w ->
    r = - EINTR \/ 0 <= r;
  own_peek : forall t o w r d w', k_ptrace PTRACE_PEEKDATA t i_addr o w = (r, d, w') ->
    t ∈ alive w -> t ∈ stopped w -> 0 <= o < 2 ^ 64 -> r = 0 /\ unle (ztake 8 d) = o }.

Lemma entry_pid t s : 0 < t < 2 ^ 31 -> local_itoa itoa_fuel t = Some s ->
  exists c s', s = c :: s' /\ c <> ord "." /\ is_digit c = true /\ local_atoi s = t.
Proof.
  intros Ht Hs. destruct (itoa_pos 12 t) as (s1 & Hs1 & Hne & Hd & Hv); [cbn; lia|lia|lia|].
  unfold itoa_fuel in Hs. rewrite Hs1 in Hs. injection Hs as <-. destruct s1 as [|c s']; [done|].
  inversion_clear Hd as [|? ? Hc]. exists c, s'. split; [done|]. split; [by intros ->|]. split; [done|].
  cbn [local_atoi]. destruct (c =? ord "-") eqn:E; [|done]. b2p. by subst.
Qed.

(** Thread ids are [int]s, so there are not many of them in an array without
    duplicates. *)
Definition int_id (p : Z) : Prop := - 2 ^ 31 <= p < 2 ^ 31.

Lemma ids_few (l : list Z) : NoDup l -> Forall int_id l -> zlen l < 2 ^ 62.
Proof.
  intros Hnd Hl. assert (H : (length l <= length (seqZ (- 2 ^ 31) (2 ^ 32)))%nat).
  { apply NoDup_incl_length; [by apply NoDup_ListNoDup|]. intros x Hx. apply list_elem_of_In, elem_of_seqZ.
    rewrite Forall_forall in Hl. specialize (Hl x (proj2 (list_elem_of_In _ _) Hx)). unfold int_id in Hl. lia. }
  rewrite length_seqZ in H. unfold zlen. lia.
Qed.

Lemma atoi_int s : int_id (local_atoi s).
Proof.
  assert (Hd : forall l n, int_id n -> int_id (atoi_digits n l)).
  { induction l as [|c s' IH]; intros n Hn; cbn [atoi_digits]; [done|]. destruct (is_digit c); [|done].
    apply IH. unfold int_id, s32. pose proof (Z.mod_pos_bound (10 * n + (c - ord "0") + 2 ^ 31) (2 ^ 32)). lia. }
  assert (H0 : int_id 0) by (unfold int_id; lia).
  unfold local_atoi. destruct s as [|c s']; [done|]. destruct (c =? ord "-"); [|by apply Hd].
  unfold int_id, s32. pose proof (Z.mod_pos_bound (- atoi_digits 0 s' + 2 ^ 31) (2 ^ 32)). lia.
Qed.

Section Complete.
Context {W : Type} `{!KernelIO W} `{!KernelProc W} `{!Tracing W} {i_addr : Z} `{!Threads W i_addr}.
Abbreviation state := (cst W lister).
Implicit Types (s : state) (A S T : gset Z).

Lemma pass_lister (w w' : W) : pass_call w w' -> lister_call w w'.
Proof. intros []; first [by eapply l_attach|by eapply l_detach|by eapply l_wait|apply l_quiet; by econstructor]. Qed.

(** ** One pass: the threads there were at its start are [T], those in the array
    then are [l0]; [P] is still to be listed. *)
Section Pass.
Context (T : gset Z) (l0 : list Z).
Context (X : Z -> state -> Prop).

Definition Kp (P : gset Z) s : Prop :=
  T ⊆ alive (world s) /\ (T ⊆ list_to_set l0 -> alive (world s) = T) /\ pending (world s) = P /\ full (world s).

Definition Tk A S (l : list Z) (P : gset Z) s : Prop := Tr A S l s /\ list_to_set l0 ⊆ S /\ Kp P s.

Lemma spawns_T (w w' : W) : spawns alive stopped w w' -> list_to_set l0 ⊆ stopped w ->
  T ⊆ alive w -> (T ⊆ list_to_set l0 -> alive w = T) -> T ⊆ alive w' /\ (T ⊆ list_to_set l0 -> alive w' = T).
Proof.
  intros [H1 H2] Hs HT HE. split; [set_solver|]. intros Hl. rewrite H2; [auto|]. left. rewrite HE by done. set_solver.
Qed.

Lemma Kp_step P s e w' : Kp P s -> list_to_set l0 ⊆ stopped (world s) -> pass_call (world s) w' -> Kp P (Cst e w' (hnd s)).
Proof.
  intros (HT & HE & HP & HF) Hs Hc. destruct (pass_pending _ _ Hc) as [EP EF].
  destruct (spawns_T _ _ (calls_alive _ _ (pass_lister _ _ Hc)) Hs HT HE). split_and!; [done|done|cbn; congruence|by apply EF].
Qed.

Lemma tk_syscall {B} cast (k : W -> Z * B * W) A S l P s : Tk A S l P s ->
  (forall r a w', k (world s) = (r, a, w') -> quiet_call (world s) w') ->
  (forall r a w', k (world s) = (r, a, w') -> pass_call (world s) w') ->
  wlp (syscall cast k) (fun _ s' => Tk A S l P s') X s.
Proof.
  intros (Hs & Hl & HK) Hq Hp. pose proof Hs as (_ & HS & _). apply wlp_syscall. intros r a w' E.
  destruct Hs as (<- & <- & <-). destruct (quiet_tracing _ _ (Hq _ _ _ E)) as [E1 E2].
  split; [by split_and!|]. split; [done|]. eapply Kp_step; eauto.
Qed.

Lemma tk_syscall_ cast (k : W -> Z * unit * W) A S l P s : Tk A S l P s ->
  (forall r a w', k (world s) = (r, a, w') -> quiet_call (world s) w') ->
  (forall r a w', k (world s) = (r, a, w') -> pass_call (world s) w') ->
  wlp (syscall_ cast k) (fun _ s' => Tk A S l P s') X s.
Proof.
  intros Hs Hq Hp. unfold syscall_. wp_step. eapply wlp_mono; [by eapply tk_syscall| |same_exit].
  intros [rc []] s' Hs'. by apply wlp_ret.
Qed.

Lemma tk_modify f A S l P s : Tk A S l P s -> wlp (modify f) (fun _ s' => Tk A S (pids (f (hnd s))) P s') X s.
Proof. intros ((? & ? & ?) & ? & HK). unfold modify. wp_step. unfold wlp, get_hnd, set_hnd. by split. Qed.

(** A step that has no influence on tracing. *)
Ltac quietk :=
  wp_step; eapply wlp_mono;
    [first [ eapply tk_syscall_; [eassumption|intros; by econstructor; eassumption|intros; by econstructor; eassumption]
           | eapply tk_syscall; [eassumption|intros; by econstructor; eassumption|intros; by econstructor; eassumption] ]
    | cbn beta | same_exit ].

Lemma tk_detach p A S l P s : Tk A S l P s -> p ∈ S \/ p ∉ A -> p ∉ l0 ->
  wlp (sys_ptrace_detach p) (fun _ s' => Tk (A ∖ {[p]}) (S ∖ {[p]}) l P s') X s.
Proof.
  intros Hs Hp Hp0. unfold sys_ptrace_detach. quietk. intros _ s1 ((A1 & A2 & A3) & Hl & HK).
  wp_step. unfold sys_ptrace. apply wlp_syscall. intros r d w' Hk.
  destruct (k_detach _ _ _ _ _ Hk) as (Hr & Hn & D1 & D2); [by rewrite A1, A2|].
  wp_step. unfold wlp at 1, get_errno. set (s2 := Cst _ w' _).
  assert (Hs2 : Tk (A ∖ {[p]}) (S ∖ {[p]}) l P s2).
  { split; [split_and!; cbn; congruence|]. split; [set_solver|]. eapply Kp_step; [done|by rewrite A2|by eapply p_detach]. }
  quietk. intros _ s3 Hs3. wp_step. unfold wlp at 1, get_errno. wp_step.
  destruct (_ =? ENOSYS); [quietk; intros _ s4 Hs4|]; by apply wlp_ret.
Qed.

Lemma tk_attach p A S l P s : Tk A S l P s ->
  wlp (sys_ptrace PTRACE_ATTACH p 0 0) (fun '(rc, _) s' =>
    (if rc <? 0 then Tk A S l P s' else Tk ({[p]} ∪ A) S l P s') /\ (p ∈ T -> p ∉ A -> (rc <? 0) = false)) X s.
Proof.
  intros ((<- & <- & <-) & Hl & HK). apply wlp_syscall. intros r d w' Hk.
  assert (HK' : forall e, Kp P (Cst e w' (hnd s))) by (intros e; eapply Kp_step; [done|done|by eapply p_attach]).
  destruct (k_attach _ _ _ _ _ Hk) as [(Hr & ? & ?)|(-> & ? & ?)].
  - rewrite LSS_RETURN_err by done. split; [by split_and!|]. intros Hp Hna. exfalso.
    assert (r = 0) as -> by (eapply own_attach; [exact Hk| |done]; by apply HK). unfold is_err in Hr. lia.
  - split; [by split_and!|done].
Qed.

Lemma tk_wait n p A S l P : forall s, Tk A S l P s -> p ∈ A -> p ∉ l0 ->
  wlp (wait_stopped n p) (fun b s' =>
    (if b then Tk A ({[p]} ∪ S) l P s' else Tk (A ∖ {[p]}) (S ∖ {[p]}) l P s') /\ (p ∈ T -> b = true)) X s.
Proof.
  induction n as [|n IH]; intros s ((<- & <- & <-) & Hl & HK) Hp Hp0; [done|]. cbn [wait_stopped]. wp_step.
  apply wlp_syscall. intros r st w' Hk.
  assert (HK' : forall e, Kp P (Cst e w' (hnd s))) by (intros e; eapply Kp_step; [done|done|by eapply p_wait]).
  destruct (k_wait _ _ _ _ _ Hk Hp) as [(-> & HA & HS)|[(Hr & Hne & HA & HS)|(Hr & HA & HS)]].
  - cbn. apply IH; [by split_and!|done|done].
  - rewrite wait_result by done. cbn. wp_step. unfold wlp at 1, get_errno. cbn.
    rewrite (proj2 (Z.eqb_neq _ _)) by (unfold EINTR in *; lia). cbn.
    split; [split; [by split_and!|split; [set_solver|apply HK']]|]. intros HpT. exfalso.
    destruct (own_wait _ _ _ _ _ Hk) as [|H0]; [by apply HK|done|done|]. unfold is_err in Hr. lia.
  - rewrite LSS_RETURN_ok by lia. cbn [fst snd]. rewrite s32_small by lia.
    destruct (Z.ltb_spec r 0); [lia|]. split; [split; [by split_and!|split; [set_solver|apply HK']]|done].
Qed.

Lemma tk_same_memory p i A S l P s : Tk A S l P s -> 0 <= i < 2 ^ 63 -> p ∈ S ->
  wlp (same_memory i_addr p i) (fun b s' => Tk A S l P s' /\ (p ∈ T -> b = true)) X s.
Proof.
  intros Hs Hi Hp. unfold same_memory, sys_ptrace. wp_step.
  assert (Hpeek : forall o s (Q : Z * list Z -> state -> Prop), Tk A S l P s -> 0 <= o < 2 ^ 64 ->
    (forall rc d s', Tk A S l P s' -> (p ∈ T -> rc = 0 /\ unle (ztake 8 d) = o) -> Q (rc, d) s') ->
    wlp (syscall s64 (k_ptrace PTRACE_PEEKDATA p i_addr o)) Q X s).
  { intros o s1 Q Hs1 Ho HQ. pose proof Hs1 as ((_ & HS & _) & _ & HT & _).
    eapply wlp_mono; [apply wlp_conj with (X := X) (Y := X);
      [eapply tk_syscall; [exact Hs1|intros; by econstructor; eassumption|intros; by econstructor; eassumption]|]| |by intros ? ? []].
    - apply wlp_syscall with (Q := fun a _ => p ∈ T -> a.1 = 0 /\ unle (ztake 8 a.2) = o).
      intros r d w' Hk HpT. destruct (own_peek _ _ _ _ _ _ Hk) as [-> E]; [set_solver|by rewrite HS|done|done].
    - intros [rc d] s2 [Hs2 Hr]. by apply HQ. }
  apply Hpeek; [done|lia|]. intros rc d s1 Hs1 Hr. destruct (_ || _)%bool eqn:E.
  { apply wlp_ret. split; [done|]. intros HpT. destruct (Hr HpT) as [-> E1]. by rewrite E1, !Z.eqb_refl in E. }
  wp_step. apply Hpeek; [done|lia|]. intros rc' d' s2 Hs2 Hr'. apply wlp_ret. split; [done|].
  intros HpT. destruct (Hr' HpT) as [-> E1]. by rewrite E1, !Z.eqb_refl.
Qed.

Lemma tk_drop_last p A S l P s : Tk A S (l ++ [p]) P s -> wlp drop_last_pid (fun _ s' => Tk A S l P s') X s.
Proof.
  intros Hs. pose proof Hs as ((_ & _ & Hl) & _). unfold drop_last_pid. wp_step.
  eapply wlp_mono; [by eapply tk_modify| |same_exit]. cbn [pids put_pids]. rewrite Hl.
  rewrite zlen_app, (zlen_cons p []), zlen_nil, ztake_app_le, ztake_all by lia.
  intros [] s1 Hs1. pose proof Hs1 as ((_ & _ & Hl1) & _). eapply wlp_mono; [by eapply tk_modify| |same_exit].
  cbn [pids put_sig_num]. by rewrite Hl1.
Qed.

(** The array holds the threads traced, and [P] is still to be listed. *)
Definition InvP (l : list Z) (P : gset Z) s : Prop := Inv l s /\ Kp P s /\ Forall int_id l.

Lemma InvP_Tk l P s : InvP l P s -> l0 ⊆ l -> Tk (list_to_set l) (list_to_set l) l P s.
Proof. intros [[Hs _] [HK _]] Hl. split_and!; [done| |done]. intros x. rewrite !elem_of_list_to_set. apply Hl. Qed.

(** Attaching to a thread of the process succeeds. *)
Lemma attach_complete fuel p l P s : InvP l P s -> l0 ⊆ l -> p ∉ l -> int_id p ->
  wlp (attach fuel i_addr p) (fun b s' => (if b then InvP (l ++ [p]) P s' else InvP l P s') /\ (p ∈ T -> b = true)) X s.
Proof.
  intros Hi Hl0 Hp Hint. pose proof (InvP_Tk l P s Hi Hl0) as Hs. pose proof Hi as [[(_ & _ & Hl) Hnd] [_ Hids]].
  pose proof (ids_few l Hnd Hids) as Hlen.
  assert (p ∉ l0) as Hp0 by set_solver.
  assert (Hback : forall s', Tk (list_to_set l) (list_to_set l) l P s' -> InvP l P s') by (intros s' (? & ? & ?); by split_and!).
  unfold attach. wp_step. unfold wlp at 1, get_hnd. rewrite Hl.
  assert (Hrem : (({[p]} ∪ list_to_set l) ∖ {[p]} : gset Z) = list_to_set l) by set_solver.
  assert (Hrem' : (list_to_set l ∖ {[p]} : gset Z) = list_to_set l) by set_solver.
  wp_step. eapply wlp_mono; [by eapply tk_modify| |same_exit]. cbn [pids put_pids]. intros [] s1 Hs1.
  wp_step. eapply wlp_mono; [by eapply tk_modify| |same_exit]. cbn [pids put_sig_num]. intros [] s2 Hs2.
  pose proof Hs1 as ((_ & _ & E1) & _). rewrite E1 in Hs2. wp_step.
  eapply wlp_mono; [by eapply tk_attach| |same_exit]. intros [rc d] s3 [Hs3 Hok3]. destruct (rc <? 0).
  { wp_step. eapply wlp_mono; [by eapply tk_drop_last| |same_exit]. intros [] s4 Hs4. apply wlp_ret. split; [auto|].
    intros HpT. exfalso. discriminate Hok3; [done|set_solver]. }
  wp_step. eapply wlp_mono; [apply tk_wait; [done|set_solver|done]| |same_exit].
  intros [] s4 [Hs4 Hok4]; cbn [negb].
  - wp_step. eapply wlp_mono; [eapply tk_same_memory; [done|unfold zlen in *; lia|set_solver]| |same_exit].
    intros [] s5 [Hs5 Hok5]; cbn [negb].
    + apply wlp_ret. split; [|done]. destruct Hs5 as (Ht5 & _ & HK5).
      split; [split|split; [done|apply Forall_app; auto]].
      * by rewrite list_to_set_app_L; cbn [list_to_set]; rewrite union_empty_r_L, (union_comm_L (list_to_set l)).
      * apply NoDup_app. split_and!; [done|set_solver|apply NoDup_singleton].
    + wp_step. eapply wlp_mono; [eapply tk_detach; [done|set_solver|done]| |same_exit]. rewrite Hrem.
      intros ? s6 Hs6. wp_step. eapply wlp_mono; [by eapply tk_drop_last| |same_exit]. intros [] s7 Hs7.
      apply wlp_ret. split; [auto|]. intros HpT. by specialize (Hok5 HpT).
  - rewrite Hrem, Hrem' in Hs4. wp_step.
    eapply wlp_mono; [eapply tk_detach; [done|set_solver|done]| |same_exit]. rewrite Hrem'.
    intros ? s6 Hs6. wp_step. eapply wlp_mono; [by eapply tk_drop_last| |same_exit]. intros [] s7 Hs7.
    apply wlp_ret. split; [auto|]. intros HpT. by specialize (Hok4 HpT).
Qed.

(** *** The entries of the directory *)
Context (fuel : nat) (marker_path : list Z) (marker_ino clone_pid ppid max_threads proc : Z).
(** The lister is not one of the threads that are searched for, and all of them
    have the marker open. *)
Hypothesis (not_lister : clone_pid ∉ T).
Hypothesis (marker_seen : forall t name w r ino w', k_stat (bytes "/proc/" ++ name ++ marker_path) w = (r, ino, w') ->
  t ∈ alive w -> local_itoa itoa_fuel t = Some name -> r = 0 /\ ino = marker_ino).
Abbreviation examine := (examine fuel i_addr marker_path marker_ino clone_pid ppid max_threads proc).
Abbreviation examine_all := (examine_all fuel i_addr marker_path marker_ino clone_pid ppid max_threads proc).

(** What is known after entries [es] when [added] has become [added']: nothing new
    was found in them, or something was. *)
Definition examined (es : list kernel_dirent) (l l' : list Z) (added added' : Z) : Prop :=
  l ⊆ l' /\ zlen l' <= max_threads /\
  (added' = added /\ l' = l /\ (forall e t, In e es -> t ∈ T -> names_thread e t -> t ∈ l) \/ added < added').

Lemma examine_complete fp added e l P s : InvP l P s -> l0 ⊆ l -> zlen l <= max_threads ->
  wlp (examine fp added e) (fun o s' => forall fp' added', o = Scanned (fp', added') ->
    exists l', InvP l' P s' /\ examined [e] l l' added added') X s.
Proof.
  intros Hi Hl0 Hl. pose proof (InvP_Tk l P s Hi Hl0) as Hs.
  assert (Hsame : forall s (b : bool), InvP l P s -> (forall t, t ∈ T -> names_thread e t -> t ∈ l) ->
    wlp (ret (Scanned (b, added))) (fun (o : pass (bool * Z)) s' => forall fp' added', o = Scanned (fp', added') ->
      exists l', InvP l' P s' /\ examined [e] l l' added added') X s).
  { intros s1 b Hi1 Hn. apply wlp_ret. intros fp' added' [= <- <-]. exists l. split; [done|]. split_and!; [done|done|].
    left. split_and!; [done|done|]. intros e' t [<-|[]]; apply Hn. }
  assert (HT : forall t, t ∈ T -> 0 < t < 2 ^ 31) by (intros t Ht; eapply alive_ids, Hi, Ht).
  unfold Lister.examine. destruct (Z.eqb_spec (d_ino e) 0) as [E|Hino]; [apply Hsame; [done|by intros t _ [? _]]|].
  set (ptr := match d_name e with [] => _ | _ => _ end).
  assert (Hptr : forall t, t ∈ T -> names_thread e t -> ptr = d_name e /\ is_digit (nth 0 ptr 0) = true /\ local_atoi ptr = t).
  { intros t Ht [_ Hn]. destruct (entry_pid t _ (HT t Ht) Hn) as (c & s' & E & Hc & Hd & Ha). unfold ptr. rewrite E in *.
    rewrite (proj2 (Z.eqb_neq _ _)) by done. done. }
  destruct (is_digit _) eqn:Ed; cbn [negb].
  2:{ apply Hsame; [done|]. intros t Ht Hn. by destruct (Hptr t Ht Hn) as (_ & ? & _). }
  destruct (_ && _)%bool eqn:Ec.
  2:{ apply Hsame; [done|]. intros t Ht Hn. destruct (Hptr t Ht Hn) as (_ & _ & E). rewrite E in Ec.
      specialize (HT t Ht). apply andb_false_iff in Ec as [Ec|Ec]; apply negb_false_iff, Z.eqb_eq in Ec; [lia|]. by subst. }
  wp_step. unfold sys_stat. eapply wlp_mono; [apply wlp_conj with (X := X) (Y := X);
    [eapply tk_syscall; [exact Hs|intros; by econstructor; eassumption|intros; by econstructor; eassumption]
    |apply wlp_syscall with (Q := fun a _ => forall t, t ∈ T -> names_thread e t -> a.1 = 0 /\ a.2 = marker_ino)]
    | |by intros ? ? []].
  { intros r ino w' Hk t Ht Hn. destruct (marker_seen _ _ _ _ _ _ Hk (proj1 (proj1 (proj2 Hi)) t Ht) (proj2 Hn)) as [-> ->]. done. }
  intros [rc ino] s1 [Hs1 Hstat]. cbn [fst snd] in Hstat.
  assert (Hi1 : InvP l P s1) by (destruct Hs1 as (? & ? & ?); split; [split; [done|apply Hi]|split; [done|apply Hi]]).
  destruct ((0 <=? rc) && (marker_ino =? ino))%bool eqn:Em.
  2:{ apply Hsame; [done|]. intros t Ht Hn. destruct (Hstat t Ht Hn) as [-> ->]. by rewrite Z.eqb_refl in Em. }
  wp_step. unfold wlp at 1, get_hnd. pose proof Hs1 as ((_ & _ & ->) & _).
  assert (Hpid : forall t, t ∈ T -> names_thread e t -> local_atoi ptr = t) by (intros; by apply Hptr).
  destruct (bool_decide _) eqn:Hin; [apply bool_decide_eq_true in Hin; apply Hsame; [done|]; intros t Ht Hn; by rewrite <- (Hpid t)|].
  apply bool_decide_eq_false in Hin. destruct (Z.leb_spec max_threads (zlen l)).
  { wp_step. apply (wlp_NO_INTR_on (fun _ => True)); [|done]. intros s2 _. unfold sys_close, syscall_. wp_step.
    apply wlp_syscall. intros. apply wlp_ret. split; [done|]. intros _. by apply wlp_ret. }
  wp_step. eapply wlp_mono; [apply attach_complete; [exact Hi1|done|exact Hin|apply atoi_int]| |same_exit].
  intros [] s2 [Hi2 Hok].
  - apply wlp_ret. intros fp' added' [= <- <-]. exists (l ++ [local_atoi ptr]). split; [done|].
    split_and!; [set_solver +|rewrite zlen_app, zlen_cons, zlen_nil; lia|right; lia].
  - apply Hsame; [done|]. intros t Ht Hn. rewrite (Hpid t Ht Hn) in Hok. by specialize (Hok Ht).
Qed.

Lemma examine_all_complete es : forall fp added l P s, InvP l P s -> l0 ⊆ l -> zlen l <= max_threads ->
  wlp (examine_all fp added es) (fun o s' => forall fp' added', o = Scanned (fp', added') ->
    exists l', InvP l' P s' /\ examined es l l' added added') X s.
Proof.
  induction es as [|e es IH]; intros fp added l P s Hi Hl0 Hl; cbn [Lister.examine_all].
  { apply wlp_ret. intros fp' added' [= <- <-]. exists l. split; [done|]. split_and!; [done|done|]. left.
    split_and!; [done|done|]. by intros e t []. }
  wp_step. eapply wlp_mono; [by apply examine_complete| |same_exit]. intros [[fp1 added1]|fp1] s1 H1; [|by apply wlp_ret].
  destruct (H1 fp1 added1 eq_refl) as (l1 & Hi1 & Hsub1 & Hl1 & Hcase1).
  eapply wlp_mono; [apply IH; [exact Hi1|by etrans|done]| |same_exit]. cbn beta.
  intros o s2 H2 fp' added' ->. destruct (H2 fp' added' eq_refl) as (l2 & Hi2 & Hsub2 & Hl2 & Hcase2).
  exists l2. split; [done|]. split_and!; [by etrans|done|].
  destruct Hcase1 as [(-> & -> & Hc1)|Hc1], Hcase2 as [(-> & -> & Hc2)|Hc2]; [left|right; lia..].
  split_and!; [done|done|]. intros e' t [<-|Hin]; [apply Hc1; by left|by apply Hc2].
Qed.

(** Reading on in the directory. *)
Lemma getdents_complete l P s : InvP l P s -> l0 ⊆ l ->
  wlp (sys_getdents proc 4096) (fun '(nb, es) s' => exists P', InvP l P' s' /\ (nb = 0 -> P = ∅) /\
    (0 < nb -> forall t, t ∈ P -> t ∈ P' \/ exists e, In e es /\ names_thread e t)) X s.
Proof.
  intros [[(HA & HS & Hl) Hnd] [(HT & HE & HP & HF) Hids]] Hl0. apply wlp_syscall. intros r es w' Hk.
  destruct (getdents_lists _ _ _ _ _ _ Hk HF) as (HF' & Hr & H0 & Hpos).
  pose proof (calls_alive (world s) w' ltac:(apply l_quiet; by econstructor)) as Hsp.
  destruct (quiet_tracing (world s) w') as [E1 E2]; [by econstructor|]. exists (pending w').
  destruct (spawns_T _ _ Hsp) as [HT' HE']; [rewrite HS; set_solver + Hl0|done|done|].
  split; [split; [split; [by split_and!; cbn; congruence|done]|split; [by split_and!|done]]|].
  destruct Hr as [Hr|Hr].
  - rewrite LSS_RETURN_err by done. cbn. change (s32 (-1)) with (-1). split; [done|lia].
  - rewrite LSS_RETURN_ok by lia. cbn [fst]. rewrite s32_small by lia. rewrite <- HP. auto.
Qed.
End Pass.

(** ** All passes *)
Section Scan.
Context (fuel : nat) (marker : Z) (marker_path : list Z) (marker_ino clone_pid ppid max_threads proc : Z).
Hypothesis (not_lister : forall w, clone_pid ∉ alive w).
Hypothesis (marker_seen : forall t name w r ino w', k_stat (bytes "/proc/" ++ name ++ marker_path) w = (r, ino, w') ->
  t ∈ alive w -> local_itoa itoa_fuel t = Some name -> r = 0 /\ ino = marker_ino).

(** Reading the directory from its start. *)
Lemma rewind_complete l s X : Inv l s -> Forall int_id l -> full (world s) ->
  wlp (sys_lseek proc 0 SEEK_SET) (fun _ s' => exists T P, InvP T l l P s' /\ T ⊆ P) X s.
Proof.
  intros [(HA & HS & Hl) Hnd] Hids HF. unfold sys_lseek, syscall_. wp_step. apply wlp_syscall. intros r [] w' Hk. apply wlp_ret.
  destruct (rewind_lists _ _ _ _ _ Hk HF) as [HF' Hin].
  destruct (quiet_tracing (world s) w') as [E1 E2]; [by econstructor|]. exists (alive w'), (pending w').
  split; [|done]. split; [split; [by split_and!; cbn; congruence|done]|split; [by split_and!|done]].
Qed.

(** The passes have come to an end. *)
Definition scanned (o : pass bool) : Prop := match o with Scanned _ => True | Detach _ => False end.

Lemma scan_complete n : forall T l0 fp added l P s, InvP T l0 l P s -> clone_pid ∉ T -> l0 ⊆ l -> zlen l <= max_threads ->
  0 <= added -> (added = 0 -> l = l0 /\ T ⊆ P ∪ list_to_set l) ->
  wlp (scan_proc fuel i_addr n marker marker_path marker_ino clone_pid ppid max_threads proc fp added)
    (fun o s' => scanned o -> exists l', Inv l' s' /\ zlen l' <= max_threads /\ alive (world s') ⊆ list_to_set l') failed s.
Proof.
  induction n as [|n IH]; intros T l0 fp added l P s Hi Hc Hl0 Hl Hadd Hcov; [done|]. cbn [scan_proc]. wp_step.
  eapply wlp_mono; [by eapply getdents_complete| |same_exit]. intros [nb es] s1 (P1 & Hi1 & Hend & Hmore).
  destruct (nb <? 0) eqn:E1; [apply failure_spec|]. destruct (nb =? 0) eqn:E2; b2p.
  - subst nb. destruct (Z.eqb_spec added 0) as [->|Ha]; cbn [negb].
    + apply wlp_ret. intros _. destruct (Hcov eq_refl) as [-> HT]. rewrite (Hend eq_refl) in HT.
      destruct Hi1 as [Hi1 [(_ & HE & _) _]]. assert (HT' : T ⊆ list_to_set l0) by set_solver + HT.
      exists l0. split_and!; [done|done|]. by rewrite HE.
    + wp_step. eapply wlp_mono; [apply rewind_complete; apply Hi1| |same_exit]. intros ? s2 (T2 & P2 & Hi2 & Hsub).
      eapply IH; [exact Hi2| |done|done|done|]; [|by intros _; split; [|set_solver + Hsub]].
      intros Hin. apply (not_lister (world s2)). destruct Hi2 as [_ [(HT2 & _) _]]. by apply HT2.
  - wp_step. eapply wlp_mono; [by eapply examine_all_complete| |same_exit]. intros [[fp1 added1]|fp1] s2 H2; [|by apply wlp_ret; intros []].
    destruct (H2 fp1 added1 eq_refl) as (l2 & Hi2 & Hsub & Hl2 & Hcase).
    eapply IH; [exact Hi2|done|by etrans|done|destruct Hcase as [(? & _)|?]; lia|].
    intros H0. destruct Hcase as [(E & -> & Hn)|?]; [|lia]. destruct (Hcov ltac:(lia)) as [-> HT]. split; [done|].
    intros t Ht. destruct (elem_of_union P (list_to_set l0) t) as [Hu _]. destruct (Hu (HT t Ht)) as [HP|HP]; [|set_solver + HP].
    destruct (Hmore ltac:(lia) t HP) as [HP2|(e & He & Hnm)]; [set_solver + HP2|]. specialize (Hn e t He Ht Hnm). set_solver + Hn.
Qed.

(** The search is complete.  The threads of a process are found by passes over a
    directory of /proc, and may make new threads while that goes on; but when
    [scan_proc] ends, having made a pass that found nothing new, every thread of
    the process is in the array, traced and stopped, so that there are no others. *)
Theorem scan_proc_complete n fp l s : Inv l s -> Forall int_id l -> zlen l <= max_threads -> full (world s) -> alive (world s) ⊆ pending (world s) ->
  wlp (scan_proc fuel i_addr n marker marker_path marker_ino clone_pid ppid max_threads proc fp 0)
    (fun o s' => scanned o -> exists l', Inv l' s' /\ zlen l' <= max_threads /\ alive (world s') ⊆ list_to_set l') failed s.
Proof.
  intros Hi Hids Hl HF Hp. eapply (scan_complete n (alive (world s)) l); [split; [exact Hi|split; [by split_and!|done]]|done|done|done|done|].
  intros _. split; [done|set_solver + Hp].
Qed.
End Scan.
End Complete.

(** ** An instance: the example process of [ListerSpec] *)
#[export] Instance tp_threads_listed : Threads procs 4096.
Proof.
  refine {| alive _ := tp_threads; full _ := True; pending w := if tp_read w then ∅ else tp_threads |}.
  - intros w w' Hc. split; [intros x ?; done|done].
  - intros w w' Hc. split; [|done].
    inversion Hc as [? ? ? ? ? Hk|? ? ? ? ? Hk|? ? ? ? ? Hk|? ? ? ? ? Hk|? ? ? ? ? ? ? Hk|? ? ? ? ? Hk|? ? ? ? ? Hk|? ? ? ? ? Hk|? ? ? ? Hk];
      cbn in Hk; unfold tp_ptrace, tp_waitpid, tp_const in Hk; cbn in Hk;
      repeat match type of Hk with context [if ?b then _ else _] => destruct b end; by injection Hk as <- <- <-.
  - intros f c w r es w' Hk _. cbn in Hk. unfold tp_getdents in Hk. split; [done|].
    destruct (tp_read w); injection Hk as <- <- <-; cbn; (split; [lia|]).
    + split; [done|lia].
    + split; [lia|]. intros _ t Ht. right. unfold tp_threads in Ht. apply elem_of_union in Ht as [Ht|Ht]; apply elem_of_singleton in Ht as ->.
      * exists (Dirent 2 (bytes "7")). split; [by right; left|]. by split.
      * exists (Dirent 3 (bytes "9")). split; [by right; right; left|]. by split.
  - intros f w r u w' Hk _. cbn in Hk. by injection Hk as <- <- <-.
  - intros w t Ht. unfold tp_threads in Ht. assert (t = 7 \/ t = 9) by set_solver. lia.
  - intros t w r d w' Hk Ht Ha. cbn in Hk. unfold tp_ptrace in Hk. cbn in Hk.
    rewrite bool_decide_true in Hk by set_solver. by injection Hk as <- <- <-.
  - intros t w r st w' Hk Ht Ha. cbn in Hk. unfold tp_waitpid in Hk. rewrite bool_decide_false in Hk by (intros Hn; by apply Hn).
    assert (t = 7 \/ t = 9) as [-> | ->] by (unfold tp_threads in Ht; set_solver); injection Hk as <- <- <-; lia.
  - intros t o w r d w' Hk Ht Hs Ho. cbn in Hk. unfold tp_ptrace in Hk. cbn in Hk. injection Hk as <- <- <-. split; [done|].
    transitivity (o mod 2 ^ 64); [exact (unle_le 8 o)|apply Z.mod_small; lia].
Defined.

Lemma tp_not_lister (w : procs) : 200 ∉ alive w.
Proof. cbn. unfold tp_threads. set_solver. Qed.

Lemma tp_marker_seen t name (w : procs) r ino w' : k_stat (bytes "/proc/" ++ name ++ bytes "/fd/3") w = (r, ino, w') ->
  t ∈ alive w -> local_itoa itoa_fuel t = Some name -> r = 0 /\ ino = 7.
Proof. intros Hk _ _. by injection Hk as <- <- <-. Qed.

Lemma tp_pending : alive (world tp_start) ⊆ pending (world tp_start).
Proof. done. Qed.

Lemma scan_proc_complete_witness :
  wlp (scan_proc 100 4096 100 3 (bytes "/fd/3") 7 200 7 102 5 false 0)
    (fun o s' => scanned o -> exists l', Inv l' s' /\ zlen l' <= 102 /\ alive (world s') ⊆ list_to_set l') failed tp_start.
Proof.
  apply (scan_proc_complete 100 3 (bytes "/fd/3") 7 200 7 102 5 tp_not_lister tp_marker_seen 100 false []
    tp_start); [by split; [|constructor]|constructor|by_compute|exact I|apply tp_pending].
Defined.
