(* ===== verification/Search.v ===== *)
(** The lister up to the point where it has found the threads.  [ListerThread] is
    this search followed by [lister_done], whatever the callback does: a device of
    the proofs, which lets what is known of a search by different means be put
    together before the callback is run. *)
From S2P Require Import Prelude Syscall Params Lister.

Section Search.
Context {W : Type} `{KernelIO W} `{KernelProc W}.
Context (fuel : nat) (i_addr : Z).
Abbreviation P A := (M (cst W lister) A).

(** The outer loop: whether the parent has been found. *)
Fixpoint lister_search (n : nat) (marker : Z) (marker_path : list Z) (marker_ino clone_pid ppid : Z)
    (path : list Z) (paths : list (list Z)) (max_threads : Z) (found_parent : bool) : P bool :=
  match n with
  | O => out_of_fuel
  | S n' =>
      let! proc := c_open fuel path in
      modify (put_sig_proc proc) ;;!
      if proc <? 0 then
        match paths with
        | p :: ps => lister_search n' marker marker_path marker_ino clone_pid ppid p ps max_threads found_parent
        | [] => failure fuel marker proc
        end
      else
        let! (rc, st_nlink) := sys_fstat proc in
        if rc <? 0 then failure fuel marker proc
        else
          let max_threads := if max_threads <? st_nlink + 100 then st_nlink + 100 else max_threads in
          modify (fun l => put_sig_num (zlen (pids l)) l) ;;!
          modify (put_sig_pids true) ;;!
          let! o := scan_proc fuel i_addr fuel marker marker_path marker_ino clone_pid ppid max_threads proc
                      found_parent 0 in
          match o with
          | Detach found_parent =>
              detach_threads ;;!
              lister_search n' marker marker_path marker_ino clone_pid ppid path paths
                (max_threads + 100) found_parent
          | Scanned found_parent =>
              NO_INTR fuel (sys_close proc) ;;!
              modify (put_sig_proc (-1)) ;;!
              let! l := get_hnd in
              if 1 <? zlen (pids l) then ret found_parent
              else
                match paths with
                | [] => ret found_parent
                | p :: ps =>
                    detach_threads ;;!
                    lister_search n' marker marker_path marker_ino clone_pid ppid p ps
                      (max_threads + 100) found_parent
                end
          end
  end.

(** All of the thread before that: the marker, and whether the parent has been found. *)
Definition thread_search : P (Z * bool) :=
  let! clone_pid := sys_gettid in
  let! ppid := sys_getppid in
  let! marker := sys_socket in
  if marker <? 0 then failure fuel marker (-1)
  else
    let! rc := sys_fcntl marker F_SETFD FD_CLOEXEC in
    if rc <? 0 then failure fuel marker (-1)
    else
      let! ppid_s := lift (local_itoa itoa_fuel ppid) in
      let! marker_s := lift (local_itoa itoa_fuel marker) in
      let proc_self_task := bytes "/proc/" ++ ppid_s ++ bytes "/task/" in
      let marker_path := bytes "/fd/" ++ marker_s in
      let marker_name := bytes "/proc/" ++ ppid_s ++ marker_path in
      let! (rc, marker_ino) := sys_stat marker_name in
      if rc <? 0 then failure fuel marker (-1)
      else
        sys_sigaltstack ;;!
        modify (put_sig_marker marker) ;;!
        modify (put_sig_proc (-1)) ;;!
        install_handlers sync_signals ;;!
        let! found_parent := lister_search fuel marker marker_path marker_ino clone_pid ppid proc_self_task
          [bytes "/proc/"] 0 false in
        ret (marker, found_parent).

(** ** The lister is the search, and then [lister_done] *)
Lemma bind_ext {A B : Type} (m : P A) (k k' : A -> P B) s : (forall a s, k a s = k' a s) -> bind m k s = bind m k' s.
Proof. intros Hk. unfold bind. by destruct (m s). Qed.

Lemma bind_assoc {A B C : Type} (m : P A) (k : A -> P B) (h : B -> P C) s :
  bind (bind m k) h s = bind m (fun a => bind (k a) h) s.
Proof. unfold bind. by destruct (m s). Qed.

Lemma failure_exits {A B : Type} marker proc (k : A -> P B) s :
  failure fuel marker proc s = bind (failure fuel marker proc) k s.
Proof.
  unfold failure. repeat (rewrite bind_assoc; apply bind_ext; intros ? ?). done.
Qed.

Context (callback : list Z -> P Z).

(** Goes through code that is the same on both sides, up to the continuation. *)
Ltac along :=
  repeat first
    [ rewrite bind_assoc; apply bind_ext; intros ? ?; cbn beta iota zeta
    | apply failure_exits
    | match goal with |- (match ?x with _ => _ end) _ = _ => destruct x end ].

Lemma lister_loop_search {A : Type} marker marker_path marker_ino clone_pid ppid n : forall path paths max_threads fp s,
  lister_loop (A := A) fuel i_addr callback n marker marker_path marker_ino clone_pid ppid path paths max_threads fp s =
  bind (lister_search n marker marker_path marker_ino clone_pid ppid path paths max_threads fp)
    (lister_done fuel callback marker) s.
Proof.
  induction n as [|n IH]; intros path paths max_threads fp s; [done|]. cbn [lister_loop lister_search].
  along; auto.
Qed.

Lemma ListerThread_search {A : Type} s : ListerThread (A := A) fuel i_addr callback s =
  bind thread_search (fun '(marker, fp) => lister_done fuel callback marker fp) s.
Proof.
  unfold ListerThread, thread_search. along. rewrite lister_loop_search.
  rewrite bind_assoc. by apply bind_ext.
Qed.
End Search.
