(* ===== verification/Found.v ===== *)
(** The lister finds every thread: the callback is only called when all threads of
    the process are in its array and stopped. *)
From stdpp Require Import gmap.
From S2P Require Import Prelude Syscall KernelSpec Params Lister ListerSpec Complete Search.

Create HintDb stays.

(** ** What the calls of the lister preserve *)
Section Keeps.
Context {W : Type} `{!KernelIO W} `{!KernelProc W}.
Context (I : W -> Prop) (I_call : forall w w', I w -> lister_call w w' -> I w').
Abbreviation state := (cst W lister).

Definition stays {A} (m : M state A) : Prop := forall s, I (world s) -> wlp m (fun _ s' => I (world s')) (fun _ _ => True) s.

Lemma stays_ret {A} (a : A) : stays (ret a).
Proof. by intros s HI. Qed.

Lemma stays_fuel {A} : stays (out_of_fuel : M state A).
Proof. by intros s HI. Qed.

Lemma stays_bind {A B} (m : M state A) (k : A -> M state B) : stays m -> (forall a, stays (k a)) -> stays (bind m k).
Proof. intros Hm Hk s HI. wp_step. eapply wlp_mono; [by apply Hm| |done]. intros a s' HI'. by apply Hk. Qed.

Lemma stays_NO_INTR_on {A} f n (m : M state A) : stays m -> stays (NO_INTR_on f n m).
Proof.
  intros Hm s HI. apply (wlp_NO_INTR_on (fun s => I (world s))); [|done]. intros s1 HI1.
  eapply wlp_mono; [by apply Hm| |done]. by intros a s2 ?.
Qed.

Lemma stays_syscall {A} cast (k : W -> Z * A * W) :
  (forall w r a w', k w = (r, a, w') -> lister_call w w') -> stays (syscall cast k).
Proof. intros Hk s HI. apply wlp_syscall. intros r a w' E. cbn. eauto. Qed.

Lemma stays_syscall_ cast (k : W -> Z * unit * W) :
  (forall w r a w', k w = (r, a, w') -> lister_call w w') -> stays (syscall_ cast k).
Proof. intros Hk. apply stays_bind; [by apply stays_syscall|]. intros [rc []]. apply stays_ret. Qed.

Lemma stays_state :
  stays get_errno /\ (forall e, stays (set_errno e)) /\ stays get_hnd /\ (forall f, stays (modify f)) /\
  (forall A c, stays (sys__exit c : M state A)).
Proof. unfold stays, wlp. split_and!; intros; cbn; done. Qed.

(** Goes through the code of a function. *)
Ltac keeping :=
  cbv zeta;
  repeat match goal with
  | |- stays (bind _ _) => apply stays_bind
  | |- stays (NO_INTR _ _) => apply stays_NO_INTR_on
  | |- stays (syscall _ _) => apply stays_syscall; intros; first
      [ by eapply l_attach | by eapply l_detach | by eapply l_wait | apply l_quiet; by econstructor; eassumption ]
  | |- stays (syscall_ _ _) => apply stays_syscall_; intros; apply l_quiet; by econstructor; eassumption
  | |- stays (ret _) => apply stays_ret
  | |- stays out_of_fuel => apply stays_fuel
  | |- stays (match ?x with _ => _ end) => destruct x
  | |- stays _ => solve [eauto with stays | apply stays_state]
  | |- forall _, _ => intros ?
  end.

Lemma stays_detach p : stays (sys_ptrace_detach p).
Proof. unfold sys_ptrace_detach, sys_sched_yield, sys_ptrace, sys_tkill, sys_kill. keeping. Qed.
#[local] Hint Resolve stays_detach : stays.

Lemma stays_resume ps : stays (ResumeAllProcessThreads ps).
Proof.
  unfold ResumeAllProcessThreads. generalize (rev ps), false. intros l.
  induction l as [|p l IH]; intros b; cbn [resume_loop]; keeping.
Qed.

Lemma stays_close fd : stays (sys_close fd).
Proof. unfold sys_close. keeping. Qed.
#[local] Hint Resolve stays_resume stays_close : stays.

Lemma stays_close_nonneg fuel fd : stays (close_nonneg fuel fd).
Proof. unfold close_nonneg. keeping. Qed.
#[local] Hint Resolve stays_close_nonneg : stays.

Lemma stays_failure {A} fuel marker proc : stays (failure fuel marker proc : M state A).
Proof. unfold failure. keeping. Qed.

Lemma stays_wait n p : stays (wait_stopped n p).
Proof. induction n as [|n IH]; cbn [wait_stopped]; unfold sys_waitpid; keeping. Qed.

Lemma stays_same_memory a p i : stays (same_memory a p i).
Proof. unfold same_memory, sys_ptrace. keeping. Qed.

Lemma stays_drop_last : stays drop_last_pid.
Proof. unfold drop_last_pid. keeping. Qed.
#[local] Hint Resolve stays_failure stays_wait stays_same_memory stays_drop_last : stays.

Lemma stays_attach fuel a p : stays (attach fuel a p).
Proof. unfold attach, sys_ptrace. keeping. Qed.
#[local] Hint Resolve stays_attach : stays.

Lemma stays_examine fuel a mp mi c pp mt proc fp added e : stays (examine fuel a mp mi c pp mt proc fp added e).
Proof. unfold examine, sys_stat. keeping. Qed.
#[local] Hint Resolve stays_examine : stays.

Lemma stays_examine_all fuel a mp mi c pp mt proc es : forall fp added,
  stays (examine_all fuel a mp mi c pp mt proc fp added es).
Proof. induction es as [|e es IH]; intros fp added; cbn [examine_all]; keeping. Qed.
#[local] Hint Resolve stays_examine_all : stays.

Lemma stays_scan_proc fuel a marker mp mi c pp mt proc n : forall fp added,
  stays (scan_proc fuel a n marker mp mi c pp mt proc fp added).
Proof. induction n as [|n IH]; intros fp added; cbn [scan_proc]; unfold sys_getdents, sys_lseek; keeping. Qed.

Lemma stays_detach_threads : stays detach_threads.
Proof. unfold detach_threads. keeping. Qed.
#[local] Hint Resolve stays_scan_proc stays_detach_threads : stays.

Lemma stays_lift {A} (o : option A) : stays (lift o).
Proof. destruct o; [apply stays_ret|apply stays_fuel]. Qed.

Lemma stays_handlers sigs : stays (install_handlers sigs).
Proof. induction sigs as [|sg sigs IH]; cbn [install_handlers]; unfold sys_rt_sigaction; keeping. Qed.
#[local] Hint Resolve stays_lift stays_handlers : stays.

Lemma stays_search fuel a marker mp mi c pp n : forall path paths mt fp,
  stays (lister_search fuel a n marker mp mi c pp path paths mt fp).
Proof. induction n as [|n IH]; intros path paths mt fp; cbn [lister_search]; unfold c_open, sys_opendir, sys_fstat; keeping. Qed.
#[local] Hint Resolve stays_search : stays.

Lemma stays_thread_search fuel a : stays (thread_search fuel a).
Proof. unfold thread_search, sys_gettid, sys_getpid, sys_getppid, sys_socket, sys_fcntl, sys_stat, sys_sigaltstack. keeping. Qed.
End Keeps.

(** ** The process of the lister

    Its directory of threads lists all of them; so does /proc while there is only
    one.  [ino_of] is the inode of the file at [/fd/<n>], which all threads share. *)
Definition task_dir (name : list Z) : list Z := bytes "/proc/" ++ name ++ bytes "/task/".

Class Process (W : Type) (i_addr : Z) `{Threads W i_addr} := {
  parent : Z;
  parent_name : list Z;
  ino_of : list Z -> Z;
  parent_itoa : 0 <= parent < 2 ^ 31 /\ local_itoa itoa_fuel parent = Some parent_name;
  own_gettid : forall w r u w', k_gettid w = (r, u, w') -> 0 < r < 2 ^ 31 /\ forall w, r ∉ alive w;
  own_getppid : forall w r u w', k_getppid w = (r, u, w') -> r = parent;
  open_result : forall p w r u w', k_opendir p w = (r, u, w') ->
    (is_err r \/ 0 <= r < 2 ^ 31) /\ (p = task_dir parent_name -> is_err r -> r = - EINTR);
  open_lists : forall p w r u w', k_opendir p w = (r, u, w') -> 0 <= r ->
    p = task_dir parent_name \/ (base.size (alive w') <= 1)%nat -> full w' /\ alive w' ⊆ pending w';
  own_fds : forall path w r ino w', k_stat (bytes "/proc/" ++ parent_name ++ path) w = (r, ino, w') ->
    is_err r \/ r = 0 /\ ino = ino_of path;
  shared_fds : forall t name path w r ino w', k_stat (bytes "/proc/" ++ name ++ path) w = (r, ino, w') ->
    t ∈ alive w -> local_itoa itoa_fuel t = Some name -> r = 0 /\ ino = ino_of path }.

Section Found.
Context {W : Type} `{!KernelIO W} `{!KernelProc W} `{!Tracing W} {i_addr : Z} `{!Threads W i_addr} `{!Process W i_addr}.
Abbreviation state := (cst W lister).
Implicit Types (s : state).

Definition alone (w : W) : Prop := (base.size (alive w) <= 1)%nat.

Lemma alone_call w w' : alone w -> lister_call w w' -> alone w'.
Proof. intros Ha Hc. destruct (calls_alive w w' Hc) as [_ E]. unfold alone. rewrite E; auto. Qed.

(** All threads are among those listed. *)
Definition all_listed (l : list Z) (w : W) : Prop := alive w ⊆ list_to_set l.

Lemma all_listed_keeps : keeps_given all_listed.
Proof.
  intros l w w' Hs Ha Hq. unfold all_listed in *. destruct (calls_alive w w' (l_quiet _ _ Hq)) as [_ ->]; [done|].
  left. by rewrite Hs.
Qed.

Lemma listed_alone l s : NoDup l -> all_listed l (world s) -> zlen l <= 1 -> alone (world s).
Proof.
  intros Hnd Ha Hl. unfold alone. transitivity (base.size (list_to_set l : gset Z)); [by apply subseteq_size|].
  rewrite size_list_to_set by done. unfold zlen in Hl. lia.
Qed.

(** The paths that the search goes through, the one that is next first. *)
Definition on_way (path : list Z) (paths : list (list Z)) (w : W) : Prop :=
  path = task_dir parent_name /\ paths = [bytes "/proc/"] \/ paths = [] /\ alone w.

(** A directory that has just been opened; nothing is attached. *)
Definition opened s : Prop := exists T P, Tk T [] ∅ ∅ [] P s /\ T ⊆ P.

Lemma open_dir fuel path paths s X : Tr ∅ ∅ [] s -> on_way path paths (world s) ->
  wlp (c_open fuel path) (fun proc s' => Tr ∅ ∅ [] s' /\ on_way path paths (world s') /\
    (0 <= proc -> opened s') /\ (proc < 0 -> paths = [])) X s.
Proof.
  intros Hs Hw. unfold c_open. apply (wlp_NO_INTR_on (fun s => Tr ∅ ∅ [] s /\ on_way path paths (world s))); [|done].
  clear s Hs Hw. intros s [(HA & HS & Hl) Hw]. unfold sys_opendir, syscall_. wp_step. apply wlp_syscall.
  intros r [] w' Hk. apply wlp_ret. assert (Hq : quiet_call (world s) w') by by econstructor.
  destruct (quiet_tracing _ _ Hq) as [E1 E2]. destruct (open_result _ _ _ _ _ Hk) as [Hr Htask]. cbn [errno].
  assert (Hs' : forall e, Tr ∅ ∅ [] (Cst e w' (hnd s))) by (intros e; split_and!; cbn; congruence).
  assert (Hw' : on_way path paths w').
  { destruct Hw as [?|[? Ha]]; [by left|right; split; [done|]]. by eapply alone_call, l_quiet. }
  split; [done|]. destruct Hr as [Hr|Hr].
  - rewrite LSS_RETURN_err by done. cbn. intros Hn. split_and!; [done|done|by intros|]. intros _.
    destruct Hw as [[-> _]|[-> _]]; [|done]. rewrite (Htask eq_refl Hr) in Hn. by destruct Hn.
  - rewrite LSS_RETURN_ok by lia. cbn. rewrite s32_small by lia. intros _. split_and!; [done|done| |lia]. intros _.
    destruct (open_lists _ _ _ _ _ Hk) as [HF HP]; [lia|destruct Hw' as [[-> _]|[_ ?]]; auto|].
    exists (alive w'), (pending w'). split; [|done]. split; [done|]. by split.
Qed.

Lemma opened_tr s : opened s -> Tr ∅ ∅ [] s.
Proof. by intros (T & P & [Hs _] & _). Qed.

Lemma opened_put s e h : opened s -> pids h = pids (hnd s) -> opened (Cst e (world s) h).
Proof. intros (T & P & ((HA & HS & Hl) & Hl0 & HK) & HTP) Hh. exists T, P. split; [|done]. split; [by split_and!; cbn; congruence|done]. Qed.

Lemma opened_fstat proc path paths s X : opened s -> on_way path paths (world s) ->
  wlp (sys_fstat proc) (fun _ s' => opened s' /\ on_way path paths (world s')) X s.
Proof.
  intros (T & P & Hs & HTP) Hw. unfold sys_fstat. eapply wlp_mono with (X := fun c s' => X c s' /\ X c s');
    [apply (wlp_conj _ (fun _ => Tk T [] ∅ ∅ [] P) (fun _ s' => on_way path paths (world s')))| |by intros ? ? []].
  - eapply tk_syscall; [exact Hs|intros; by econstructor; eassumption|intros; by econstructor; eassumption].
  - apply wlp_syscall. intros r ino w' Hk. destruct Hw as [?|[? Ha]]; [by left|right; split; [done|]].
    eapply alone_call; [done|]. apply l_quiet. by econstructor.
  - intros [] s' [Hs' Hw']. split; [by exists T, P|done].
Qed.

(** The search in an open directory. *)
Lemma opened_scan fuel marker marker_path clone_pid ppid max_threads proc fp path paths s :
  opened s -> on_way path paths (world s) -> 0 <= max_threads -> (forall w, clone_pid ∉ alive w) ->
  wlp (scan_proc fuel i_addr fuel marker marker_path (ino_of marker_path) clone_pid ppid max_threads proc fp 0)
    (fun o s' => on_way path paths (world s') /\ exists l, Inv l s' /\ (scanned o -> all_listed l (world s'))) failed s.
Proof.
  intros (T & P & (Hs & _ & HK) & HTP) Hw Hm Hc. assert (Hi : Inv [] s) by (split; [done|constructor]).
  assert (Hway : wlp (scan_proc fuel i_addr fuel marker marker_path (ino_of marker_path) clone_pid ppid max_threads proc fp 0)
    (fun _ s' => on_way path paths (world s')) (fun _ _ => True) s).
  { apply (stays_scan_proc (on_way path paths)); [|done]. intros w w' [?|[? Ha]] Hcall; [by left|].
    right. split; [done|]. by eapply alone_call. }
  pose proof (scan_proc_spec fuel i_addr fuel marker marker_path (ino_of marker_path) clone_pid ppid max_threads proc
    fp 0 [] s Hi Hm) as Hspec.
  assert (Hcomp : wlp (scan_proc fuel i_addr fuel marker marker_path (ino_of marker_path) clone_pid ppid max_threads proc fp 0)
    (fun o s' => scanned o -> exists l', Inv l' s' /\ zlen l' <= max_threads /\ all_listed l' (world s')) failed s).
  { eapply (scan_complete fuel marker marker_path (ino_of marker_path) clone_pid ppid max_threads proc Hc) with
      (T := T) (l0 := []) (l := []) (P := P); [|by split; [|split; [|constructor]]| |done|done|done|].
    - intros t name w r ino w' Hk Ht Hn. by eapply shared_fds.
    - intros Hin. apply (Hc (world s)). by apply HK.
    - intros _. split; [done|set_solver + HTP]. }
  eapply wlp_mono; [exact (wlp_conj _ _ _ _ _ _ Hway (wlp_conj _ _ _ _ _ _ Hspec Hcomp))| |].
  - intros o s' (Hw' & (l1 & Hi1 & _) & Hc'). split; [done|]. destruct o as [b|b]; [|by exists l1].
    destruct (Hc' Logic.I) as (l2 & Hi2 & _ & Ha). exists l2. by split.
  - by intros c s' (_ & ? & _).
Qed.

(** ** The whole search *)
Context (fuel : nat).

Lemma detach_on_way path paths X l s : Inv l s -> on_way path paths (world s) ->
  wlp detach_threads (fun _ s' => Inv [] s' /\ on_way path paths (world s')) X s.
Proof.
  intros Hi Hw. assert (Hk : wlp detach_threads (fun _ s' => on_way path paths (world s')) (fun _ _ => True) s).
  { apply (stays_detach_threads (on_way path paths)); [|done]. intros w w' [?|[? Ha]] Hcall; [by left|].
    right. split; [done|]. by eapply alone_call. }
  eapply wlp_mono; [exact (wlp_conj _ _ _ _ _ _ (detach_threads_spec X l s Hi) Hk)|done|by intros ? ? []].
Qed.

Lemma search_finds marker marker_path clone_pid ppid : (forall w, clone_pid ∉ alive w) ->
  forall n path paths max_threads fp s, Inv [] s -> on_way path paths (world s) -> 0 <= max_threads ->
  wlp (lister_search fuel i_addr n marker marker_path (ino_of marker_path) clone_pid ppid path paths max_threads fp)
    (fun _ s' => exists l, Inv l s' /\ all_listed l (world s')) failed s.
Proof.
  intros Hc. induction n as [|n IH]; intros path paths max_threads fp s [Hs _] Hw Hm; [done|]. cbn [lister_search]. wp_step.
  eapply wlp_mono; [by apply (open_dir fuel path paths)| |same_exit]. intros proc s1 (Hs1 & Hw1 & Ho & Hend).
  wp_step. destruct (Z.ltb_spec proc 0) as [Hneg|Hpos].
  { apply wlp_modify. rewrite Hend by done. apply failure_spec. }
  apply wlp_modify. set (s2 := Cst _ _ _). assert (Ho2 : opened s2) by (by apply opened_put; [apply Ho|]).
  assert (Hw2 : on_way path paths (world s2)) by done. clearbody s2. wp_step.
  eapply wlp_mono; [by apply (opened_fstat proc path paths)| |same_exit]. intros [rc nlink] s3 [Ho3 Hw3].
  destruct (rc <? 0); [apply failure_spec|]. cbv zeta.
  set (m' := if max_threads <? nlink + 100 then nlink + 100 else max_threads).
  assert (Hm' : 0 <= m') by (unfold m'; destruct (Z.ltb_spec max_threads (nlink + 100)); lia).
  wp_step. apply wlp_modify. wp_step. apply wlp_modify. set (s4 := Cst _ _ _).
  assert (Ho4 : opened s4) by by apply (opened_put s3). assert (Hw4 : on_way path paths (world s4)) by done. clearbody s4.
  wp_step. eapply wlp_mono; [by apply (opened_scan fuel marker marker_path clone_pid ppid m' proc fp path paths)| |same_exit].
  intros [fp'|fp'] s5 (Hw5 & l & Hi5 & Ha5).
  - wp_step. eapply wlp_mono; [apply (close_given fuel all_listed _ l); [apply all_listed_keeps|done|by apply Ha5]| |same_exit].
    intros ? s6 [Hi6 Ha6]. wp_step. apply wlp_modify. set (s7 := Cst _ _ _). assert (Hi7 : Inv l s7) by done.
    assert (Ha7 : all_listed l (world s7)) by done. clearbody s7. wp_step. unfold wlp at 1, get_hnd.
    pose proof Hi7 as [(HA7 & HS7 & Hl7) Hnd]. rewrite Hl7. destruct (Z.ltb_spec 1 (zlen l)); [apply wlp_ret; by exists l|].
    destruct paths as [|p ps]; [apply wlp_ret; by exists l|].
    assert (Hw7 : on_way p ps (world s7)).
    { destruct Hw5 as [[_ [= -> ->]]|[? _]]; [|done]. right. split; [done|]. eapply listed_alone; [|done|]; [done|lia]. }
    wp_step. eapply wlp_mono; [by apply (detach_on_way p ps _ l)| |same_exit]. intros ? s8 [Hi8 Hw8]. apply IH; [done|done|lia].
  - wp_step. eapply wlp_mono; [by apply (detach_on_way path paths _ l)| |same_exit]. intros ? s6 [Hi6 Hw6]. apply IH; [done|done|lia].
Qed.

(** The calls before the search, of which the result is known. *)
Lemma known_syscall {B} cast (k : W -> Z * B * W) (F : Z * B -> Prop) X s : Tr ∅ ∅ [] s ->
  (forall r a w', k (world s) = (r, a, w') -> quiet_call (world s) w' /\ forall e, F ((LSS_RETURN cast r e).1, a)) ->
  wlp (syscall cast k) (fun a s' => Tr ∅ ∅ [] s' /\ F a) X s.
Proof.
  intros (HA & HS & Hl) Hk. apply wlp_syscall. intros r a w' E. destruct (Hk r a w' E) as [Hq HF].
  destruct (quiet_tracing _ _ Hq) as [E1 E2]. split; [split_and!; cbn; congruence|apply HF].
Qed.

Lemma known_gettid X s : Tr ∅ ∅ [] s -> wlp sys_gettid (fun tid s' => Tr ∅ ∅ [] s' /\ forall w, tid ∉ alive w) X s.
Proof.
  intros Hs. unfold sys_gettid, syscall_. wp_step. wp_step.
  eapply wlp_mono; [apply (known_syscall s32 k_gettid (fun a => a.1 <> -1 /\ forall w, a.1 ∉ alive w)); [done|]| |same_exit].
  - intros r a w' Hk. destruct (own_gettid _ _ _ _ Hk) as [Hr Hn]. split; [by econstructor|]. intros e.
    rewrite LSS_RETURN_ok by lia. cbn. rewrite s32_small by lia. split; [lia|done].
  - intros [tid []] s1 [Hs1 [Ht Hn]]. apply wlp_ret. cbn in Ht. rewrite (proj2 (Z.eqb_neq _ _) Ht). by apply wlp_ret.
Qed.

Lemma known_getppid X s : Tr ∅ ∅ [] s -> wlp sys_getppid (fun ppid s' => Tr ∅ ∅ [] s' /\ ppid = parent) X s.
Proof.
  intros Hs. unfold sys_getppid, syscall_. wp_step.
  eapply wlp_mono; [apply (known_syscall s32 k_getppid (fun a => a.1 = parent)); [done|]| |same_exit].
  - intros r a w' Hk. rewrite (own_getppid _ _ _ _ Hk). split; [by econstructor|]. intros e.
    pose proof (proj1 parent_itoa). rewrite LSS_RETURN_ok by lia. cbn. by rewrite s32_small by lia.
  - intros [ppid []] s1 [Hs1 Hp]. by apply wlp_ret.
Qed.

Lemma known_stat path X s : Tr ∅ ∅ [] s ->
  wlp (sys_stat (bytes "/proc/" ++ parent_name ++ path)) (fun a s' => Tr ∅ ∅ [] s' /\ (0 <= a.1 -> a.2 = ino_of path)) X s.
Proof.
  intros Hs. apply known_syscall; [done|]. intros r ino w' Hk. split; [by econstructor|]. intros e.
  destruct (own_fds _ _ _ _ _ Hk) as [Hr|[-> ->]]; [|done]. rewrite LSS_RETURN_err by done. cbn [fst]. by intros [].
Qed.

(** A call that has no influence on tracing. *)
Ltac quietly :=
  wp_step; eapply wlp_mono;
    [first [ eapply quiet_NO_INTR; [eassumption|intros; by econstructor; eassumption]
           | eapply quiet_syscall_; [eassumption|intros; by econstructor; eassumption] ]
    | cbn beta | same_exit ].

Lemma thread_search_finds s : attached (world s) = ∅ -> stopped (world s) = ∅ -> pids (hnd s) = [] ->
  wlp (thread_search fuel i_addr) (fun _ s' => exists l, Inv l s' /\ all_listed l (world s')) failed s.
Proof.
  intros HA HS Hl. unfold thread_search. wp_step. eapply wlp_mono; [by apply known_gettid| |same_exit].
  intros clone_pid s1 [Hs1 Hc]. wp_step. eapply wlp_mono; [by apply known_getppid| |same_exit]. intros ppid s2 [Hs2 ->].
  quietly. intros marker s3 Hs3. destruct (marker <? 0); [apply failure_spec|].
  quietly. intros rc s4 Hs4. destruct (rc <? 0); [apply failure_spec|].
  wp_step. rewrite (proj2 parent_itoa). apply wlp_ret. wp_step. apply wlp_lift. intros marker_s. cbv zeta.
  wp_step. eapply wlp_mono; [by apply known_stat| |same_exit]. intros [rc' ino] s5 [Hs5 Hino].
  destruct (Z.ltb_spec rc' 0); [apply failure_spec|]. cbn [fst snd] in Hino. rewrite Hino by done.
  quietly. intros ? s6 Hs6. wp_step. apply wlp_modify. wp_step. apply wlp_modify. set (s7 := Cst _ _ _).
  assert (Hs7 : Tr ∅ ∅ [] s7) by done. clearbody s7. wp_step.
  eapply wlp_mono; [by eapply install_handlers_spec| |same_exit]. intros ? s8 Hs8. wp_step.
  eapply wlp_mono; [apply search_finds; [done|split; [done|constructor]|by left|lia]|by intros; apply wlp_ret|same_exit].
Qed.

(** ** The whole thread *)
Context (callback : list Z -> M state Z) (Post : Z -> Z -> gset Z -> Prop).
(** The callback is given threads that are stopped, and there are no others. *)
Hypothesis (callback_all : callback_given callback Post all_listed).

(** C14. When the callback of [ListAllProcessThreads] is called, it is given every
    thread of the process, each of them stopped, although threads may make new ones
    while they are being searched for, and although the search is given up and
    started again when there are more than expected or when it is to be repeated in
    another directory: what holds of the callback for complete lists of threads is
    enough for the lister to end as it should. *)
Theorem ListerThread_complete {B} (Q : B -> state -> Prop) s :
  attached (world s) = ∅ -> stopped (world s) = ∅ -> pids (hnd s) = [] ->
  wlp (ListerThread fuel i_addr callback) Q (ended Post) s.
Proof.
  intros HA HS Hl. eapply wlp_ext; [apply ListerThread_search|]. wp_step.
  eapply wlp_mono; [by apply thread_search_finds| |by left]. intros [marker fp] s' (l & Hi & Ha).
  eapply wlp_mono; [by eapply (lister_done_spec fuel callback Post all_listed);
    [|apply all_listed_keeps| |]|by intros; eassumption|].
  intros c s'' (HA' & [(-> & _)|(-> & HR)]); apply ended_well; auto.
Qed.
End Found.

(** ** An instance: the example process of [ListerSpec] *)
#[export] Instance tp_process : Process procs 4096.
Proof.
  refine {| parent := 7; parent_name := bytes "7"; ino_of _ := 7 |}.
  - by split.
  - intros w r u w' Hk. injection Hk as <- <- <-. split; [lia|]. intros w0. cbn. unfold tp_threads. set_solver.
  - intros w r u w' Hk. by injection Hk as <- <- <-.
  - intros p w r u w' Hk. cbn in Hk. injection Hk as <- <- <-. split; [lia|]. intros _ Hr. unfold is_err in Hr. lia.
  - intros p w r u w' Hk _ _. cbn in Hk. by injection Hk as <- <- <-.
  - intros path w r ino w' Hk. injection Hk as <- <- <-. by right.
  - intros t name path w r ino w' Hk _ _. by injection Hk as <- <- <-.
Defined.

(** A callback that insists on both threads. *)
Definition tp_strict (l : list Z) : M (cst procs lister) Z :=
  if bool_decide (7 ∈ l /\ 9 ∈ l) then tp_callback l else ret 8.

Lemma tp_strict_ok : callback_given tp_strict (fun r e A => r = 7 /\ A = ∅) all_listed.
Proof.
  intros l s Hi Ha. unfold tp_strict. rewrite bool_decide_true; [by apply tp_callback_ok|].
  unfold all_listed in Ha. cbn in Ha. unfold tp_threads in Ha. set_solver.
Qed.

Lemma ListerThread_complete_witness :
  wlp (ListerThread (A := unit) 100 4096 tp_strict) (fun _ _ => False) (ended (fun r e A => r = 7 /\ A = ∅)) tp_start.
Proof. apply (ListerThread_complete 100 tp_strict); [apply tp_strict_ok|done|done|done]. Defined.

Example strict_runs :
  (match ListerThread (A := unit) 100 4096 tp_strict tp_start with
   | Exited 0 s => (l_result (hnd s), pids (hnd s))
   | _ => (0, [])
   end) = (7, [7; 9]).
Proof. vm_compute. reflexivity. Qed.
