(* ===== verification/Ends.v ===== *)
(** The lister ends: on a kernel that does not interrupt it for ever and whose
    directories end, [ListAllProcessThreads] returns; and it only fails if a call
    that it needs does. *)
From stdpp Require Import gmap.
From S2P Require Import Prelude Syscall KernelSpec Params Lister ListerSpec Complete Search.

(** ** What the kernel has to do

    Nearly all signals are blocked in the lister, so that only so many calls are
    interrupted; process ids are bounded, and so are directories of /proc.  Threads
    may be made, and entries appear, at any time. *)
Definition valid (r : Z) : Prop := is_err r \/ 0 <= r < 2 ^ 31.

Class Progress (W : Type) `{KernelIO W} `{KernelProc W} := {
  patience : W -> nat;       (* interruptions that are still to come *)
  to_read : W -> nat;         (* reads from the directory until its end is reached *)
  dir_reads : nat;
  max_pid : nat;
  calls_patience : forall w w', lister_call w w' -> (patience w' <= patience w)%nat;
  pass_to_read : forall w w', pass_call w w' -> (to_read w' <= to_read w)%nat;
  opendir_progress : forall p w r u w', k_opendir p w = (r, u, w') -> valid r /\
    (r = - EINTR -> (patience w' < patience w)%nat) /\ (to_read w' <= dir_reads)%nat;
  close_progress : forall f w r u w', k_close f w = (r, u, w') -> valid r /\
    (r = - EINTR -> (patience w' < patience w)%nat);
  wait_progress : forall p w r st w', k_waitpid p __WALL w = (r, st, w') -> valid r /\
    (r = - EINTR -> (patience w' < patience w)%nat);
  getdents_progress : forall f c w r es w', k_getdents f c w = (r, es, w') -> valid r /\
    (0 < r -> (to_read w' < to_read w)%nat);
  lseek_progress : forall f w r u w', k_lseek f 0 SEEK_SET w = (r, u, w') -> (to_read w' <= dir_reads)%nat;
  attach_pid : forall p w r d w', k_ptrace PTRACE_ATTACH p 0 0 w = (r, d, w') -> is_err r \/ 0 < p <= Z.of_nat max_pid;
  getppid_valid : forall w r u w', k_getppid w = (r, u, w') -> valid r;
  socket_valid : forall w r u w', k_socket w = (r, u, w') -> valid r }.

(** The calls outside the passes, other than those that open or close a descriptor. *)
Inductive between_call {W : Type} `{KernelIO W} `{KernelProc W} : W -> W -> Prop :=
  | b_gettid w r u w' : k_gettid w = (r, u, w') -> between_call w w'
  | b_getpid w r u w' : k_getpid w = (r, u, w') -> between_call w w'
  | b_getppid w r u w' : k_getppid w = (r, u, w') -> between_call w w'
  | b_fcntl f c a w r u w' : k_fcntl f c a w = (r, u, w') -> between_call w w'
  | b_stat p w r i w' : k_stat p w = (r, i, w') -> between_call w w'
  | b_sigaltstack w r u w' : k_sigaltstack w = (r, u, w') -> between_call w w'
  | b_sigaction sg w r u w' : k_rt_sigaction sg w = (r, u, w') -> between_call w w'
  | b_prctl o a w r u w' : k_prctl o a w = (r, u, w') -> between_call w w'
  | b_sigprocmask h g w r l w' : k_rt_sigprocmask h g w = (r, l, w') -> between_call w w'
  | b_clone w r u w' : k_clone w = (r, u, w') -> between_call w w'.

Lemma between_quiet {W : Type} `{KernelIO W} `{KernelProc W} (w w' : W) : between_call w w' -> quiet_call w w'.
Proof.
  intros [].
  - by eapply q_gettid.
  - by eapply q_getpid.
  - by eapply q_getppid.
  - by eapply q_fcntl.
  - by eapply q_stat.
  - by eapply q_sigaltstack.
  - by eapply q_sigaction.
  - by eapply q_prctl.
  - by eapply q_sigprocmask.
  - by eapply q_clone.
Qed.

(** The name of the parent in /proc, and the directories the lister opens. *)
Definition own_name (W : Type) `{KernelProc W} (name : list Z) : Prop :=
  exists (w : W) r u w', k_getppid w = (r, u, w') /\ local_itoa itoa_fuel (LSS_RETURN s32 r 0).1 = Some name.

Definition own_dir (W : Type) `{KernelProc W} (p : list Z) : Prop :=
  p = bytes "/proc/" \/ exists name, own_name W name /\ p = bytes "/proc/" ++ name ++ bytes "/task/".

(** What else is to hold while the lister runs: [D m d] when the marker [m] and the
    directory [d] are open, if any.  [may_fail] says whether calls may fail that have
    to succeed if the lister is to. *)
Class Keeps (W : Type) `{KernelIO W} `{KernelProc W} (may_fail : Prop) (D : option Z -> option Z -> W -> Prop) := {
  keep_pass : forall m d w w', D m d w -> pass_call w w' -> D m d w';
  keep_between : forall m w w', D m None w -> between_call w w' -> D m None w';
  keep_socket : forall w r u w', D None None w -> k_socket w = (r, u, w') ->
    (is_err r -> may_fail) /\ (0 <= r -> D (Some r) None w');
  keep_opendir : forall p m w r u w', D m None w -> own_dir W p -> k_opendir p w = (r, u, w') ->
    (is_err r -> D m None w' /\ (r = - EINTR \/ may_fail)) /\ (0 <= r -> D m (Some r) w');
  keep_getdents : forall f c m w r es w', D m (Some f) w -> k_getdents f c w = (r, es, w') ->
    (is_err r -> may_fail) /\ D m (Some f) w';
  keep_lseek : forall f o h m w r u w', D m (Some f) w -> k_lseek f o h w = (r, u, w') -> D m (Some f) w';
  keep_close : forall f m d w r u w', D m d w -> k_close f w = (r, u, w') ->
    exists m' d', D m' d' w' /\ (d' = d \/ d' = None) /\ (r <> - EINTR -> d = Some f -> d' = None);
  fcntl_works : forall f w r u w', D (Some f) None w -> k_fcntl f F_SETFD FD_CLOEXEC w = (r, u, w') ->
    0 <= r < 2 ^ 31 \/ may_fail;
  fstat_works : forall f m w r i w', D m (Some f) w -> k_fstat f w = (r, i, w') -> 0 <= r < 2 ^ 31 \/ may_fail;
  stat_works : forall name f digits w r i w', D (Some f) None w -> own_name W name -> local_itoa itoa_fuel f = Some digits ->
    k_stat (bytes "/proc/" ++ name ++ bytes "/fd/" ++ digits) w = (r, i, w') -> 0 <= r < 2 ^ 31 \/ may_fail;
  sigprocmask_works : forall h g w r l w', k_rt_sigprocmask h g w = (r, l, w') -> r = 0 \/ may_fail;
  clone_works : forall w r u w', k_clone w = (r, u, w') -> 0 <= r < 2 ^ 31 \/ may_fail;
  wait_works : forall p w0 r0 u w1 w r st w', k_clone w0 = (r0, u, w1) -> p = s32 r0 -> k_waitpid p __WALL w = (r, st, w') ->
    r = - EINTR \/ 0 <= r \/ may_fail }.

(** Whatever the marker. *)
Definition held {W : Type} (D : option Z -> option Z -> W -> Prop) (d : option Z) (w : W) : Prop := exists m, D m d w.

(** Nothing else, and everything may fail. *)
#[export] Instance keeps_nothing {W : Type} `{KernelIO W} `{KernelProc W} : Keeps W True (fun _ _ _ => True).
Proof. split; try (intros; auto; fail). intros f m d w r u w' _ _. exists m, None. auto. Qed.

(** Rounds that are enough for the passes over a directory: each pass but the last
    finds a thread, and reads the directory to its end. *)
Definition lister_rounds (max_pid dir_reads : nat) : nat := (max_pid + 2) * (dir_reads + 2).

Section Calm.
Context {W : Type} `{!KernelIO W} `{!KernelProc W} `{!Progress W} {may_fail : Prop} {D : option Z -> option Z -> W -> Prop}
  `{!Keeps W may_fail D}.
Abbreviation state := (cst W lister).
Implicit Types (s : state) (l : list Z).

(** What stays true all the time. *)
Definition calm (fuel : nat) s : Prop := (patience (world s) < fuel)%nat.

Lemma quiet_calm fuel s e w' h : calm fuel s -> quiet_call (world s) w' -> calm fuel (Cst e w' h).
Proof. intros Hs Hq. pose proof (calls_patience _ _ (l_quiet _ _ Hq)). unfold calm in *. cbn. lia. Qed.

Lemma held_close f d w r u w' : held D d w -> k_close f w = (r, u, w') ->
  (held D d w' \/ held D None w') /\ (r <> - EINTR -> d = Some f -> held D None w').
Proof.
  intros [m Hd] Hk. destruct (keep_close _ _ _ _ _ _ _ Hd Hk) as (m' & d' & Hd' & [-> | ->] & Hf).
  - split; [left; by exists m'|]. intros Hr Hdf. specialize (Hf Hr Hdf) as ->. by exists m'.
  - split; [right; by exists m'|]. intros _ _. by exists m'.
Qed.

Lemma close_kept fuel fd d l X s : calm fuel s -> held D d (world s) -> pids (hnd s) = l ->
  tlp (NO_INTR fuel (sys_close fd)) (fun _ s' => calm fuel s' /\ (d = None \/ d = Some fd -> held D None (world s')) /\
    pids (hnd s') = l) X s.
Proof.
  intros Hp Hd Hl. apply wp_tlp,
    (wp_NO_INTR (fun s => calm fuel s /\ (held D d (world s) \/ held D None (world s)) /\ pids (hnd s) = l) (fun s => patience (world s))); [|auto..].
  clear s Hp Hd Hl. intros s r u w' (Hp & Hd & Hl) Hk. destruct (close_progress _ _ _ _ _ Hk) as [Hr Hi].
  pose proof (quiet_calm fuel s 0 w' (hnd s) Hp (q_close _ _ _ _ _ Hk)) as Hc.
  assert (Hd' : held D d w' \/ held D None w') by (destruct Hd as [Hd|Hd]; destruct (held_close _ _ _ _ _ _ Hd Hk) as [[?|?] _]; auto).
  assert (Hn : r <> - EINTR -> d = None \/ d = Some fd -> held D None w').
  { intros Hne Hf. destruct Hd as [Hd|Hd]; destruct (held_close _ _ _ _ _ _ Hd Hk) as [[?|?] Hcl]; destruct Hf as [-> | ->]; auto. }
  split; [intros _ E; specialize (Hi E); done|]. split; [intros _ Hne; split_and!; auto|].
  intros He. destruct Hr as [|Hr]; [done|]. split; [done|]. split_and!; [done| |done]. apply Hn. unfold EINTR. lia.
Qed.
End Calm.

Section Ends.
Context {W : Type} `{!KernelIO W} `{!KernelProc W} `{!Progress W} {may_fail : Prop} {D : option Z -> option Z -> W -> Prop}
  `{!Keeps W may_fail D}.
Abbreviation state := (cst W lister).
Implicit Types (s : state) (l : list Z).

Lemma tlp_modify f (Q : unit -> state -> Prop) X s : Q tt (Cst (errno s) (world s) (f (hnd s))) -> tlp (modify f) Q X s.
Proof. done. Qed.

(** ** Parts of a pass

    [G] is what holds of the world during a pass; [pids] is [l]. *)
Section Pass.
Context (G : W -> Prop) (G_pass : forall w w', G w -> pass_call w w' -> G w').
Context (X : Z -> state -> Prop).

Definition Gs l s : Prop := G (world s) /\ pids (hnd s) = l.

Lemma g_syscall {B} cast (k : W -> Z * B * W) l s : Gs l s ->
  (forall r a w', k (world s) = (r, a, w') -> pass_call (world s) w') ->
  tlp (syscall cast k) (fun _ s' => Gs l s') X s.
Proof.
  intros [HG Hl] Hk. apply wp_tlp, wp_syscall. intros r a w' E. split; [|done]. by eapply G_pass; [|eapply Hk].
Qed.

Lemma g_syscall_ cast (k : W -> Z * unit * W) l s : Gs l s ->
  (forall r a w', k (world s) = (r, a, w') -> pass_call (world s) w') ->
  tlp (syscall_ cast k) (fun _ s' => Gs l s') X s.
Proof.
  intros Hs Hk. unfold syscall_. wp_step. eapply tlp_mono; [by apply g_syscall| |same_exit].
  intros [rc []] s' Hs'. by apply tlp_ret.
Qed.

Lemma g_modify f l s : Gs l s -> tlp (modify f) (fun _ s' => Gs (pids (f (hnd s))) s') X s.
Proof. by intros []. Qed.

(** A step of a pass. *)
Ltac passing :=
  wp_step; eapply tlp_mono;
    [first [ eapply g_syscall_; [eassumption|intros; by econstructor; eassumption]
           | eapply g_syscall; [eassumption|intros; by econstructor; eassumption]
           | eapply g_modify; eassumption ]
    | cbn beta | same_exit ].

Lemma g_detach p l s : Gs l s -> tlp (sys_ptrace_detach p) (fun _ s' => Gs l s') X s.
Proof.
  intros Hs. unfold sys_ptrace_detach. passing. intros ? s1 Hs1. passing. intros [rc d] s2 Hs2.
  wp_step. unfold tlp at 1, get_errno. passing. intros ? s3 Hs3. wp_step. unfold tlp at 1, get_errno.
  assert (Hend : forall s4, Gs l s4 -> tlp (set_errno (errno s2) ;;! ret (s32 rc)) (fun _ s' => Gs l s') X s4) by by intros s4 [].
  wp_step. destruct (_ =? ENOSYS); [passing; intros ? s4 Hs4|]; apply tlp_ret; by apply Hend.
Qed.

Lemma g_resume ps l s : Gs l s -> tlp (ResumeAllProcessThreads ps) (fun _ s' => Gs l s') X s.
Proof.
  unfold ResumeAllProcessThreads. generalize (rev ps), false. intros qs. revert s.
  induction qs as [|q qs IH]; intros s b Hs; cbn [resume_loop]; [by apply tlp_ret|].
  wp_step. eapply tlp_mono; [by apply g_detach| |same_exit]. intros ? s1 Hs1. by apply IH.
Qed.

Lemma g_drop_last p l s : Gs (l ++ [p]) s -> tlp drop_last_pid (fun _ s' => Gs l s') X s.
Proof.
  intros Hs. pose proof Hs as [_ Hl]. unfold drop_last_pid. passing. cbn [pids put_pids]. rewrite Hl.
  rewrite zlen_app, (zlen_cons p []), zlen_nil, ztake_app_le, ztake_all by lia. intros [] s1 [Hs1 Hl1]. by split.
Qed.

Lemma g_same_memory p a i l s : Gs l s -> tlp (same_memory a p i) (fun _ s' => Gs l s') X s.
Proof.
  intros Hs. unfold same_memory, sys_ptrace. passing. intros [rc j] s1 Hs1. destruct (_ || _)%bool; [done|].
  passing. intros [rc' j'] s2 Hs2. by apply tlp_ret.
Qed.

(** Waiting is repeated as often as it is interrupted. *)
Lemma g_wait n p l : forall s, Gs l s -> (patience (world s) < n)%nat -> tlp (wait_stopped n p) (fun _ s' => Gs l s') X s.
Proof.
  induction n as [|n IH]; intros s Hs Hn; [lia|]. cbn [wait_stopped]. wp_step. apply wp_tlp, wp_syscall. intros r st w' Hk.
  assert (Hs' : forall e, Gs l (Cst e w' (hnd s))) by (intros e; split; [by eapply G_pass; [apply Hs|eapply p_wait]|apply Hs]).
  destruct (wait_progress _ _ _ _ _ Hk) as [[Hr|Hr] Hp].
  - rewrite LSS_RETURN_err by done. cbn [fst snd]. change (s32 (-1) <? 0) with true. cbn iota. wp_step.
    unfold tlp at 1, get_errno. cbn [errno]. destruct (Z.eqb_spec (- r) EINTR) as [E|]; [|by apply tlp_ret].
    apply IH; [done|]. cbn. specialize (Hp ltac:(lia)). lia.
  - rewrite LSS_RETURN_ok by lia. cbn [fst snd]. rewrite s32_small by lia. rewrite (proj2 (Z.ltb_ge r 0)) by lia. by apply tlp_ret.
Qed.

(** Looking at a directory entry. *)
Context (fuel : nat) (G_calm : forall w, G w -> (patience w < fuel)%nat).
Context (proc : Z) (G_dir : forall w, G w -> held D (Some proc) w).

Lemma g_attach a p l s : Gs l s ->
  tlp (attach fuel a p) (fun b s' => Gs (if b then l ++ [p] else l) s' /\ (b = true -> 0 < p <= Z.of_nat max_pid)) X s.
Proof.
  intros Hs. pose proof Hs as [_ Hl]. unfold attach. wp_step. unfold tlp at 1, get_hnd. rewrite Hl. passing.
  cbn [pids put_pids]. intros ? s1 Hs1. wp_step. eapply tlp_mono; [by eapply g_modify| |same_exit].
  intros ? s2 Hs2. destruct Hs1 as [HG1 Hl1]. cbn [pids put_sig_num] in Hs2. rewrite Hl1 in Hs2.
  assert (Hdrop : forall s', Gs (l ++ [p]) s' -> tlp (drop_last_pid ;;! ret false)
    (fun (b : bool) s' => Gs (if b then l ++ [p] else l) s' /\ (b = true -> 0 < p <= Z.of_nat max_pid)) X s').
  { intros s' Hs'. wp_step. eapply tlp_mono; [by eapply g_drop_last| |same_exit]. intros ? s3 Hs3. by apply tlp_ret. }
  wp_step. apply wp_tlp, wp_syscall. intros r d w' Hk.
  assert (Hs3 : forall e, Gs (l ++ [p]) (Cst e w' (hnd s2))) by (intros e; split; [by eapply G_pass; [apply Hs2|eapply p_attach]|apply Hs2]).
  destruct (attach_pid _ _ _ _ _ Hk) as [Hr|Hp]; [rewrite LSS_RETURN_err by done; by apply Hdrop|].
  destruct (_ <? 0); [by apply Hdrop|]. wp_step. eapply tlp_mono; [apply g_wait; [done|apply G_calm; by destruct (Hs3 0)]| |same_exit].
  intros [] s4 Hs4; cbn [negb].
  - wp_step. eapply tlp_mono; [by apply g_same_memory| |same_exit]. intros [] s5 Hs5; cbn [negb]; [by apply tlp_ret|].
    wp_step. eapply tlp_mono; [by apply g_detach| |same_exit]. intros ? s6 Hs6. by apply Hdrop.
  - wp_step. eapply tlp_mono; [by apply g_detach| |same_exit]. intros ? s6 Hs6. by apply Hdrop.
Qed.

(** The array holds every thread once, so that there are at most [max_pid]. *)
Definition Good l : Prop := NoDup l /\ Forall (fun p => 0 < p <= Z.of_nat max_pid) l.

Lemma good_few l : Good l -> zlen l <= Z.of_nat max_pid.
Proof.
  intros [Hnd Hl]. assert (H : (length l <= length (seqZ 1 (Z.of_nat max_pid)))%nat).
  { apply NoDup_incl_length; [by apply NoDup_ListNoDup|]. intros x Hx. apply list_elem_of_In, elem_of_seqZ.
    rewrite Forall_forall in Hl. specialize (Hl x (proj2 (list_elem_of_In _ _) Hx)). lia. }
  rewrite length_seqZ in H. unfold zlen. lia.
Qed.

Section Entries.
Context (a : Z) (marker_path : list Z) (marker_ino clone_pid ppid max_threads : Z).

(** The parent counts as found when it is in the array. *)
Definition Seen (fp : bool) l : Prop := ppid ∈ l -> fp = true.

(** What an entry, or some of them, make of a pass: a thread is counted when it is
    added; the pass is given up when the array is full. *)
Definition Looked l added (o : pass (bool * Z)) s : Prop :=
  match o with
  | Scanned (fp', added') => exists l', Gs l' s /\ Good l' /\ Seen fp' l' /\ added <= added' /\ zlen l' - zlen l = added' - added
  | Detach _ => calm fuel s /\ held D None (world s) /\ Good (pids (hnd s)) /\ max_threads <= zlen (pids (hnd s))
  end.

Lemma examine_ends fp added e l s : Gs l s -> Good l -> Seen fp l ->
  tlp (examine fuel a marker_path marker_ino clone_pid ppid max_threads proc fp added e) (Looked l added) X s.
Proof.
  intros Hs Hg Hfp. assert (Hsame : forall s, Gs l s -> Looked l added (Scanned (fp, added)) s).
  { intros s' Hs'. exists l. split_and!; [done|done|done|lia|lia]. }
  unfold examine. destruct (_ =? 0); [by apply tlp_ret; auto|]. destruct (negb _); [by apply tlp_ret; auto|].
  destruct (_ && _)%bool; [|by apply tlp_ret; auto]. passing. intros [rc ino] s1 Hs1.
  destruct (_ && _)%bool; [|by apply tlp_ret, Hsame]. wp_step. unfold tlp at 1, get_hnd. pose proof Hs1 as [HG1 Hl1]. rewrite Hl1.
  destruct (bool_decide _) eqn:Hin; [by apply tlp_ret, Hsame|]. apply bool_decide_eq_false in Hin.
  destruct (Z.leb_spec max_threads (zlen l)).
  - wp_step. eapply tlp_mono; [apply close_kept; [by apply G_calm|by apply G_dir|exact Hl1]| |same_exit].
    intros ? s2 (Hp2 & Hd2 & Hl2). apply tlp_ret. unfold Looked. rewrite Hl2. auto.
  - wp_step. eapply tlp_mono; [by apply g_attach| |same_exit]. intros [] s2 [Hs2 Hp]; [|by apply tlp_ret, Hsame].
    apply tlp_ret. eexists. split; [exact Hs2|]. destruct Hg as [Hnd Hall]. split; [split|split_and!].
    + apply NoDup_app. split_and!; [done|set_solver + Hin|apply NoDup_singleton].
    + apply Forall_app. split; [done|]. repeat constructor; by apply Hp.
    + intros Hpp. apply elem_of_app in Hpp as [Hpp|Hpp]; [by rewrite Hfp|]. apply list_elem_of_singleton in Hpp as <-.
      by rewrite Z.eqb_refl, orb_true_r.
    + lia.
    + rewrite zlen_app, zlen_cons, zlen_nil. lia.
Qed.

Lemma examine_all_ends es : forall fp added l s, Gs l s -> Good l -> Seen fp l ->
  tlp (examine_all fuel a marker_path marker_ino clone_pid ppid max_threads proc fp added es) (Looked l added) X s.
Proof.
  induction es as [|e es IH]; intros fp added l s Hs Hg Hfp; cbn [examine_all].
  { apply tlp_ret. exists l. split_and!; [done|done|done|lia|lia]. }
  wp_step. eapply tlp_mono; [by apply examine_ends| |same_exit]. intros [[fp1 added1]|fp1] s1; [|by intros Hd; apply tlp_ret].
  intros (l1 & Hs1 & Hg1 & Hfp1 & Ha1 & Hz1). eapply tlp_mono; [by apply (IH fp1 added1 l1)| |same_exit].
  intros [[fp2 added2]|fp2] s2; [|done]. intros (l2 & Hs2 & Hg2 & Hfp2 & Ha2 & Hz2). exists l2. split_and!; [done|done|done|lia|lia].
Qed.
End Entries.
End Pass.

(** ** The passes over a directory *)
Section Lister.
Context (fuel : nat).

Abbreviation calm := (calm fuel).

(** What holds during a pass over [f], with [u] reads to come. *)
Definition reading (f : Z) (u : nat) (w : W) : Prop := (patience w < fuel)%nat /\ (to_read w <= u)%nat /\ held D (Some f) w.
Definition over (c : Z) s : Prop := calm s.
(** The ways in which the search may fail. *)
Definition lost (c : Z) s : Prop := may_fail /\ calm s.

Lemma reading_pass f u w w' : reading f u w -> pass_call w w' -> reading f u w'.
Proof.
  intros (Hp & Hu & Hd) Hc. pose proof (calls_patience _ _ (pass_lister _ _ Hc)). pose proof (pass_to_read _ _ Hc).
  split_and!; [lia|lia|]. destruct Hd as [m Hd]. exists m. by eapply keep_pass.
Qed.

Lemma reading_calm f u w : reading f u w -> (patience w < fuel)%nat.
Proof. by intros []. Qed.

Lemma reading_dir f u w : reading f u w -> held D (Some f) w.
Proof. by intros (_ & _ & ?). Qed.

Lemma close_calm fd l X s : calm s -> pids (hnd s) = l ->
  tlp (NO_INTR fuel (sys_close fd)) (fun _ s' => calm s' /\ pids (hnd s') = l) X s.
Proof.
  intros Hp Hl. eapply tlp_mono; [apply (close_kept (D := fun _ _ _ => True) (may_fail := True) fuel fd None l); [done|by exists None|done]| |same_exit].
  by intros ? s' (? & _ & ?).
Qed.

Lemma close_ends fd X s : calm s -> tlp (close_nonneg fuel fd) (fun _ s' => calm s') X s.
Proof.
  intros Hs. unfold close_nonneg. destruct (0 <=? fd); [|by apply tlp_ret]. wp_step.
  eapply tlp_mono; [by eapply close_calm| |same_exit]. intros ? s1 [Hs1 _]. by apply tlp_ret.
Qed.

Lemma failure_lost {B} marker proc (Q : B -> state -> Prop) s : may_fail -> calm s -> tlp (failure fuel marker proc) Q lost s.
Proof.
  intros Hf Hs. unfold failure. wp_step. apply tlp_modify. wp_step. unfold tlp at 1, get_errno. wp_step. apply tlp_modify.
  wp_step. eapply tlp_mono; [by apply close_ends| |same_exit]. intros ? s1 Hs1. wp_step. apply tlp_modify.
  wp_step. eapply tlp_mono; [by apply close_ends| |same_exit]. by intros ? s2 Hs2.
Qed.

(** [added] is the number of threads that this pass has found. *)
Definition scan_left l (added : Z) (u : nat) : nat :=
  (Z.to_nat (Z.of_nat max_pid - zlen l) + (if added =? 0 then 0 else 1)) * (dir_reads + 2) + u.

Lemma scan_left_more l l' added added' u u' : Good l' -> 0 <= added <= added' -> zlen l' - zlen l = added' - added ->
  (u' < u)%nat -> (scan_left l' added' u' < scan_left l added u)%nat.
Proof.
  intros Hg Ha Hz Hu. pose proof (good_few _ Hg) as Hf. unfold scan_left.
  assert (Hle : (Z.to_nat (Z.of_nat max_pid - zlen l')%Z + (if (added' =? 0)%Z then 0 else 1) <=
    Z.to_nat (Z.of_nat max_pid - zlen l)%Z + (if (added =? 0)%Z then 0 else 1))%nat)
    by (destruct (Z.eqb_spec added 0), (Z.eqb_spec added' 0); lia).
  apply (Nat.mul_le_mono_r _ _ (dir_reads + 2)) in Hle. lia.
Qed.

Lemma scan_left_again l added u u' : added <> 0 -> (u' <= dir_reads)%nat -> (scan_left l 0 u' < scan_left l added u)%nat.
Proof. intros Ha Hu. unfold scan_left. rewrite (proj2 (Z.eqb_neq added 0)) by done. cbn [Z.eqb]. nia. Qed.

Lemma scan_ends a marker marker_path marker_ino clone_pid ppid max_threads proc n : forall fp added l u s,
  Gs (reading proc u) l s -> Good l -> Seen ppid fp l -> 0 <= added -> (scan_left l added u < n)%nat ->
  tlp (scan_proc fuel a n marker marker_path marker_ino clone_pid ppid max_threads proc fp added)
    (fun o s' => calm s' /\ Good (pids (hnd s')) /\
       match o with
       | Scanned fp' => held D (Some proc) (world s') /\ Seen ppid fp' (pids (hnd s'))
       | Detach _ => held D None (world s') /\ max_threads <= zlen (pids (hnd s'))
       end) lost s.
Proof.
  induction n as [|n IH]; intros fp added l u s [(Hp & Hu & Hdir) Hl] Hg Hfp Ha Hn; [lia|]. cbn [scan_proc].
  wp_step. apply wp_tlp, wp_syscall. intros r es w' Hk. destruct (getdents_progress _ _ _ _ _ _ Hk) as [Hr Hd].
  pose proof Hdir as [m Hm]. destruct (keep_getdents _ _ _ _ _ _ _ Hm Hk) as [Hfail Hm']. assert (Hdir' : held D (Some proc) w') by by exists m.
  assert (Hs' : forall e, calm (Cst e w' (hnd s))) by (intros e; by eapply quiet_calm; [|econstructor]).
  destruct Hr as [Hr|Hr]; [rewrite LSS_RETURN_err by done; by apply failure_lost; [apply Hfail|]|].
  rewrite LSS_RETURN_ok by lia. cbn [fst snd]. rewrite s32_small by lia. rewrite (proj2 (Z.ltb_ge r 0)) by lia.
  destruct (Z.eqb_spec r 0) as [->|Hr0].
  - destruct (Z.eqb_spec added 0) as [->|Ha0]; cbn [negb]; [apply tlp_ret; cbn [hnd world]; rewrite Hl; by split_and!|].
    wp_step. unfold sys_lseek, syscall_. wp_step. apply wp_tlp, wp_syscall. intros r0 [] w'' Hk2. wp_step. cbn [hnd errno].
    pose proof (lseek_progress _ _ _ _ _ Hk2) as Hu2.
    apply (IH fp 0 l (to_read w'')); [|done|done|lia|].
    + split; [|done]. split; [change (calm (Cst 0 w'' (hnd s))); by eapply quiet_calm with (s := Cst 0 w' (hnd s)); [done|econstructor]|].
      split; [done|]. exists m. by eapply keep_lseek.
    + enough (scan_left l 0 (to_read w'') < scan_left l added u)%nat by lia. by apply scan_left_again.
  - assert (Hs1 : forall e, Gs (reading proc (to_read w')) l (Cst e w' (hnd s))) by (intros e; split; [by split; [exact (Hs' 0)|]|done]).
    wp_step. eapply tlp_mono; [by apply (examine_all_ends (reading proc (to_read w')) (reading_pass _ _) lost fuel (reading_calm _ _) proc (reading_dir _ _))| |same_exit].
    intros [[fp1 added1]|fp1] s1; [|by intros (Hp2 & Hd2 & Hg2 & Hm2); apply tlp_ret].
    intros (l1 & Hs2 & Hg1 & Hfp1 & Ha1 & Hz1). apply (IH fp1 added1 l1 (to_read w')); [done|done|done|lia|].
    enough (scan_left l1 added1 (to_read w') < scan_left l added u)%nat by lia. apply scan_left_more; [done|lia|lia|].
    specialize (Hd ltac:(lia)). lia.
Qed.

Lemma resume_calm ps X s : calm s -> tlp (ResumeAllProcessThreads ps) (fun _ s' => calm s' /\ pids (hnd s') = pids (hnd s)) X s.
Proof.
  intros Hs. apply (g_resume (fun w => (patience w < fuel)%nat)); [|by split].
  intros w w' Hw Hc. pose proof (calls_patience _ _ (pass_lister _ _ Hc)). lia.
Qed.

(** ** The whole thread *)
Context (a : Z).
Hypothesis (fuel_rounds : (lister_rounds max_pid dir_reads <= fuel)%nat).

(** Calls between the passes. *)
Definition steady m h s : Prop := calm s /\ D m None (world s) /\ hnd s = h.

Lemma c_syscall {B} cast (k : W -> Z * B * W) m h X (Q : Z * B -> state -> Prop) s : steady m h s ->
  (forall r a w', k (world s) = (r, a, w') -> between_call (world s) w') ->
  (forall r a w', k (world s) = (r, a, w') -> steady m h (Cst (LSS_RETURN cast r (errno s)).2 w' h) ->
    Q ((LSS_RETURN cast r (errno s)).1, a) (Cst (LSS_RETURN cast r (errno s)).2 w' h)) ->
  tlp (syscall cast k) Q X s.
Proof.
  intros (Hs & Hd & <-) Hk HQ. apply wp_tlp, wp_syscall. intros r x w' E. apply HQ; [done|]. pose proof (Hk _ _ _ E) as Hc.
  split; [by eapply quiet_calm; [|apply between_quiet]|]. split; [by eapply keep_between|done].
Qed.

Lemma c_syscall_ cast (k : W -> Z * unit * W) m h X (Q : Z -> state -> Prop) s : steady m h s ->
  (forall r a w', k (world s) = (r, a, w') -> between_call (world s) w') ->
  (forall r w', k (world s) = (r, tt, w') -> steady m h (Cst (LSS_RETURN cast r (errno s)).2 w' h) ->
    Q (LSS_RETURN cast r (errno s)).1 (Cst (LSS_RETURN cast r (errno s)).2 w' h)) ->
  tlp (syscall_ cast k) Q X s.
Proof.
  intros Hs Hk HQ. unfold syscall_. wp_step. eapply c_syscall; [done|done|]. intros r [] w' E Hs'. apply tlp_ret. by apply HQ.
Qed.

(** Its result may matter, or not. *)
Ltac calmly :=
  wp_step; first
    [ eapply c_syscall_; [eassumption|intros; by econstructor; eassumption|]
    | eapply c_syscall; [eassumption|intros; by econstructor; eassumption|] ]; cbn [fst snd].

(** The result of a call does not depend on what [errno] was. *)
Lemma LSS_RETURN_any cast r e : (LSS_RETURN cast r e).1 = (LSS_RETURN cast r 0).1.
Proof. unfold LSS_RETURN. by destruct (_ <=? _). Qed.

(** A result that shows a failure. *)
Lemma failure_shown cast r e : (cast = s32 \/ cast = s64) -> (LSS_RETURN cast r e).1 < 0 -> 0 <= r < 2 ^ 31 \/ may_fail -> may_fail.
Proof.
  intros Hc Hneg [Hr|]; [|done]. exfalso. rewrite LSS_RETURN_ok in Hneg by lia. cbn [fst] in Hneg.
  destruct Hc as [-> | ->]; [rewrite s32_small in Hneg by lia|rewrite s64_small in Hneg by lia]; lia.
Qed.

(** The state between two searches. *)
Definition ready h s : Prop := calm s /\ held D None (world s) /\ hnd s = h.

Lemma open_ends path h X s : own_dir W path -> ready h s ->
  tlp (c_open fuel path) (fun fd s' => calm s' /\ hnd s' = h /\
    if fd <? 0 then held D None (world s') /\ may_fail else reading fd dir_reads (world s')) X s.
Proof.
  intros Hpath Hs. apply wp_tlp, (wp_NO_INTR (ready h) (fun s => patience (world s))); [|done|apply Hs].
  clear s Hs. intros s r u w' (Hp & [m Hd] & Hh) Hk. destruct (opendir_progress _ _ _ _ _ Hk) as (Hr & Hi & Hu).
  pose proof (quiet_calm fuel s 0 w' (hnd s) Hp (q_opendir _ _ _ _ _ Hk)) as Hc. destruct (keep_opendir _ _ _ _ _ _ Hd Hpath Hk) as [Hbad Hok].
  split; [|split].
  - intros He E. destruct (Hbad He) as [Hd' _]. split; [|auto]. split; [done|]. split; [by exists m|done].
  - intros He Hne. destruct (Hbad He) as [Hd' [?|Hf]]; [done|]. split_and!; [done|done|]. split; [by exists m|done].
  - intros Hn. destruct Hr as [|Hr]; [done|]. split; [done|]. rewrite (proj2 (Z.ltb_ge r 0)) by lia. cbn [world hnd].
    split; [done|]. split; [done|]. split_and!; [exact Hc|done|]. exists m. apply Hok. lia.
Qed.

Lemma resume_held ps X s : calm s -> held D None (world s) ->
  tlp (ResumeAllProcessThreads ps) (fun _ s' => calm s' /\ held D None (world s')) X s.
Proof.
  intros Hs Hd. eapply tlp_mono; [apply (g_resume (fun w => (patience w < fuel)%nat /\ held D None w)) with (l := pids (hnd s)); [|done]| |same_exit].
  - intros w w' [Hw [m Hm]] Hc. pose proof (calls_patience _ _ (pass_lister _ _ Hc)). split; [lia|]. exists m. by eapply keep_pass.
  - by intros ? s1 [? _].
Qed.

Lemma detach_calm X s : calm s -> held D None (world s) ->
  tlp detach_threads (fun _ s' => calm s' /\ held D None (world s') /\ pids (hnd s') = []) X s.
Proof.
  intros Hs Hd. unfold detach_threads. wp_step. unfold tlp at 1, get_hnd. wp_step.
  eapply tlp_mono; [by apply resume_held| |same_exit].
  intros ? s1 [Hs1 Hd1]. wp_step. apply tlp_modify. wp_step. apply tlp_modify. by apply tlp_modify.
Qed.

(** The search is started again in the next directory, or with room for more
    threads; there is a bound on how many there can be. *)
Definition searched ppid (fp : bool) s : Prop :=
  calm s /\ held D None (world s) /\ Good (pids (hnd s)) /\ Seen ppid fp (pids (hnd s)).

Lemma search_ends marker marker_path marker_ino clone_pid ppid n : forall path paths max_threads fp h s,
  ready h s -> pids h = [] -> Forall (own_dir W) (path :: paths) -> (length paths + Z.to_nat (Z.of_nat max_pid + 1 - max_threads) < n)%nat ->
  tlp (lister_search fuel a n marker marker_path marker_ino clone_pid ppid path paths max_threads fp) (searched ppid) lost s.
Proof.
  induction n as [|n IH]; intros path paths max_threads fp h s Hs Hl Hown Hn; [lia|]. cbn [lister_search]. wp_step.
  apply Forall_cons in Hown as [Hown Howns]. eapply tlp_mono; [by apply open_ends| |same_exit]. intros proc s1 (Hc1 & Hh1 & Hr1). wp_step. apply tlp_modify.
  set (s2 := Cst _ _ _). assert (Hl2 : pids (hnd s2) = []) by (cbn; by rewrite Hh1).
  destruct (proc <? 0).
  { destruct Hr1 as [Hd1 Hf]. destruct paths as [|p ps]; [by apply failure_lost|]. cbn [length] in Hn.
    by apply (IH _ _ _ _ (hnd s2)); [|done|done|lia]. }
  assert (Hs2 : Gs (reading proc dir_reads) [] s2) by done. clearbody s2. clear s1 Hc1 Hh1 Hr1.
  wp_step. unfold sys_fstat. apply wp_tlp, wp_syscall. intros r nlink w' Hk. cbn [fst snd]. set (s3 := Cst _ w' _).
  assert (Hs3 : Gs (reading proc dir_reads) [] s3) by (split; [by eapply reading_pass; [apply Hs2|econstructor]|done]).
  destruct (Z.ltb_spec (LSS_RETURN s32 r (errno s2)).1 0) as [Hneg|_].
  { apply failure_lost; [|by destruct Hs3 as [[? _] _]]. eapply failure_shown; [by left|exact Hneg|].
    destruct (reading_dir _ _ _ (proj1 Hs2)) as [mk Hmk]. by eapply fstat_works. }
  clearbody s3. clear Hk. cbv zeta. set (m := if max_threads <? nlink + 100 then nlink + 100 else max_threads).
  assert (Hm : max_threads <= m) by (unfold m; destruct (Z.ltb_spec max_threads (nlink + 100)); lia). clearbody m.
  wp_step. apply tlp_modify. wp_step. apply tlp_modify. set (s4 := Cst _ _ _).
  assert (Hs4 : Gs (reading proc dir_reads) [] s4) by done. clearbody s4. wp_step.
  eapply tlp_mono; [apply scan_ends with (l := []) (u := dir_reads); [done|by split; [constructor|]|by intros ?%elem_of_nil|done|]| |same_exit].
  { unfold scan_left, lister_rounds in *. cbn [Z.eqb]. rewrite zlen_nil, Z.sub_0_r, Nat2Z.id. lia. }
  intros o s5 (Hc5 & Hg5 & Ho). pose proof (good_few _ Hg5). destruct o as [fp'|].
  - destruct Ho as [Hd5 Hseen]. wp_step. eapply tlp_mono; [by eapply close_kept| |same_exit]. intros ? s6 (Hc6 & Hd6 & Hl6).
    wp_step. apply tlp_modify. wp_step. unfold tlp at 1, get_hnd. set (s7 := Cst _ _ _).
    assert (Hs7 : searched ppid fp' s7) by (split; [done|]; split; [by apply Hd6; right|]; cbn [s7 hnd pids put_sig_proc]; by rewrite Hl6).
    clearbody s7. destruct (1 <? _); [by apply tlp_ret|].
    destruct paths as [|p ps]; [by apply tlp_ret|]. wp_step. eapply tlp_mono; [apply detach_calm; apply Hs7| |same_exit].
    intros ? s8 (Hc8 & Hd8 & Hl8). cbn [length] in Hn. by apply (IH _ _ _ _ (hnd s8)); [|done|done|lia].
  - destruct Ho as [Hd5 Hfull]. wp_step. eapply tlp_mono; [by apply detach_calm| |same_exit]. intros ? s6 (Hc6 & Hd6 & Hl6).
    by apply (IH _ _ _ _ (hnd s6)); [|done|by constructor|lia].
Qed.

(** The ids that are printed are no less than -1. *)
Lemma itoa_over {B} r e (k : list Z -> M state B) (Q : B -> state -> Prop) X s : valid r ->
  (forall t, local_itoa itoa_fuel (LSS_RETURN s32 r e).1 = Some t -> tlp (k t) Q X s) ->
  tlp (let! t := lift (local_itoa itoa_fuel (LSS_RETURN s32 r e).1) in k t) Q X s.
Proof.
  intros [Hr|Hr] Hk; wp_step.
  - rewrite LSS_RETURN_err in Hk |- * by done. by apply Hk.
  - rewrite LSS_RETURN_ok in Hk |- * by lia. cbn [fst] in Hk |- *. rewrite s32_small in Hk |- * by lia.
    destruct (itoa_pos itoa_fuel r) as (t & E & _); [unfold itoa_fuel; lia|lia|unfold itoa_fuel; lia|]. rewrite E. by apply Hk.
Qed.

Lemma handlers_calm sigs m h X : forall s, steady m h s -> tlp (install_handlers sigs) (fun _ s' => steady m h s') X s.
Proof.
  induction sigs as [|sg sigs IH]; intros s Hs; cbn [install_handlers]; [by apply tlp_ret|].
  calmly. intros r w' _ Hs1. by apply IH.
Qed.

(** The search as a whole; the parent is found if it is in the array. *)
Lemma thread_search_ends s : steady None (hnd s) s -> pids (hnd s) = [] ->
  tlp (thread_search fuel a) (fun '(_, fp) s' => exists (w : W) r u w', k_getppid w = (r, u, w') /\
    searched (LSS_RETURN s32 r 0).1 fp s') lost s.
Proof.
  intros Hs Hl. set (h := hnd s) in *. clearbody h. unfold thread_search, sys_gettid. wp_step. calmly. intros rt w1 _ Hs1.
  set (s1 := Cst _ w1 _) in *. clearbody s1.
  eapply tlp_mono with (P := fun _ s' => steady None h s') (X := lost);
    [destruct (negb _); [by apply tlp_ret|eapply c_syscall_; [eassumption|intros; by econstructor; eassumption|by intros]]| |done].
  intros clone_pid s2 Hs2. unfold sys_getppid. calmly. intros rp w3 Hk3 Hs3. pose proof (getppid_valid _ _ _ _ Hk3) as Hrp.
  set (e2 := errno s2) in *. set (s3 := Cst _ w3 _) in *. clearbody s3.
  unfold sys_socket, syscall_. wp_step. wp_step. apply wp_tlp, wp_syscall. intros rm [] w4 Hk4. pose proof (socket_valid _ _ _ _ Hk4) as Hrm.
  destruct Hs3 as (Hc3 & Hd3 & Hh3). destruct (keep_socket _ _ _ _ Hd3 Hk4) as [Hbad Hgood].
  set (e3 := errno s3). set (s4 := Cst _ w4 _). assert (Hc4 : calm s4) by (by eapply quiet_calm; [|eapply q_socket; eassumption]).
  wp_step. cbn [fst]. destruct (Z.ltb_spec (LSS_RETURN s32 rm e3).1 0) as [Hneg|Hpos].
  { apply failure_lost; [|done]. destruct Hrm as [Hrm|Hrm]; [by apply Hbad|]. by eapply failure_shown; [left|exact Hneg|left]. }
  assert (Hs4 : steady (Some rm) h s4).
  { split; [done|]. split; [|done]. apply Hgood. destruct Hrm as [Hrm|Hrm]; [rewrite LSS_RETURN_err in Hpos by done; done|lia]. }
  assert (Hm0 : 0 <= rm < 2 ^ 31) by (destruct Hrm as [Hrm|Hrm]; [rewrite LSS_RETURN_err in Hpos by done; done|done]).
  rewrite LSS_RETURN_ok by lia. cbn [fst]. rewrite (s32_small rm) by lia.
  clearbody s4. unfold sys_fcntl. calmly. intros r5 w5 Hk5 Hs5.
  destruct (Z.ltb_spec (LSS_RETURN s32 r5 (errno s4)).1 0) as [Hneg|_].
  { apply failure_lost; [|apply Hs5]. eapply failure_shown; [by left|exact Hneg|eapply fcntl_works; [apply Hs4|exact Hk5]]. }
  apply itoa_over; [done|]. intros ppid_s Hname.
  assert (Hown : own_name W ppid_s) by (exists (world s2), rp, tt, w3; split; [done|by rewrite <- (LSS_RETURN_any s32 rp e2)]).
  destruct (itoa_pos itoa_fuel rm) as (marker_s & Em & _); [unfold itoa_fuel; lia|lia|unfold itoa_fuel; lia|].
  wp_step. rewrite Em. apply tlp_ret.
  cbv zeta. unfold sys_stat. set (s5 := Cst _ w5 _) in *. clearbody s5. calmly. intros r6 ino w6 Hk6 Hs6.
  destruct (Z.ltb_spec (LSS_RETURN s32 r6 (errno s5)).1 0) as [Hneg|_].
  { apply failure_lost; [|apply Hs6]. eapply failure_shown; [by left|exact Hneg|]. eapply stat_works; [apply Hs5|exact Hown|exact Em|exact Hk6]. }
  set (s6 := Cst _ w6 _) in *. clearbody s6. unfold sys_sigaltstack. calmly. intros r7 w7 _ Hs7.
  wp_step. apply tlp_modify. wp_step. apply tlp_modify. set (s8 := Cst _ _ _).
  assert (Hs8 : steady (Some rm) (hnd s8) s8) by (destruct Hs7 as (? & ? & ?); done). assert (Hl8 : pids (hnd s8) = []) by done. clearbody s8. wp_step.
  eapply tlp_mono; [by apply handlers_calm| |same_exit]. intros ? s9 Hs9. wp_step.
  eapply tlp_mono; [apply (search_ends _ _ _ _ _ _ _ _ _ _ (hnd s8)); [|exact Hl8| |]| |same_exit].
  { destruct Hs9 as (? & ? & ?). split; [done|]. split; [by exists (Some rm)|done]. }
  { constructor; [right; by exists ppid_s|]. constructor; [by left|constructor]. }
  { cbn [length]. rewrite Z.sub_0_r. unfold lister_rounds in *. pose proof (Nat.mul_le_mono_l 2 (dir_reads + 2) (max_pid + 2)). lia. }
  intros fp s10 Hs10. apply tlp_ret. exists (world s2), rp, tt, w3. split; [done|]. by rewrite <- (LSS_RETURN_any s32 rp e2).
Qed.

(** *** With a callback that always ends *)
Section Callback.
Context (callback : list Z -> M state Z).
Hypothesis (callback_ends : forall l s, calm s -> tlp (callback l) (fun _ s' => calm s') over s).

Lemma done_over {B} marker fp (Q : B -> state -> Prop) s : calm s -> tlp (lister_done fuel callback marker fp) Q over s.
Proof.
  intros Hs. unfold lister_done. wp_step. eapply tlp_mono; [by eapply close_calm| |same_exit]. intros ? s1 [Hs1 _].
  wp_step. apply tlp_modify. wp_step. unfold tlp at 1, get_hnd. cbn [hnd]. set (l := pids _). clearbody l.
  set (s2 := Cst _ _ _). assert (Hs2 : calm s2) by done. clearbody s2. destruct (negb fp).
  { wp_step. eapply tlp_mono; [by apply resume_calm| |same_exit]. by intros ? s3 []. }
  wp_step. eapply tlp_mono; [by apply callback_ends| |same_exit]. intros r s3 Hs3. wp_step. apply tlp_modify.
  wp_step. unfold tlp at 1, get_errno. wp_step. apply tlp_modify. wp_step.
  eapply tlp_mono; [by apply resume_calm| |same_exit]. intros [] s4 [Hs4 _]; wp_step; [|done].
  wp_step. apply tlp_modify. by apply tlp_modify.
Qed.

Lemma ListerThread_over {B} (Q : B -> state -> Prop) s : steady None (hnd s) s -> pids (hnd s) = [] ->
  tlp (ListerThread fuel a callback) Q over s.
Proof.
  intros Hs Hl. eapply tlp_ext; [apply ListerThread_search|]. wp_step.
  eapply tlp_mono; [by apply thread_search_ends| |by intros ? ? []]. intros [marker fp] s' (w & r & u & w' & _ & [Hs' _]).
  by apply done_over.
Qed.
End Callback.

(** ** The caller

    [I] holds before the search; [R] of the result and of [errno] when the thread
    has ended well, and whatever the calls after that do. *)
Section Caller.
Context (callback : list Z -> M state Z) (I : W -> Prop) (R : Z -> Z -> W -> Prop) (fails : Prop).
Hypothesis (I_between : forall w w', I w -> between_call w w' -> I w').
Hypothesis (R_between : forall r e w w', R r e w -> between_call w w' -> R r e w').
Hypothesis (R_wait : forall r e p w rc st w', R r e w -> k_waitpid p __WALL w = (rc, st, w') -> R r e w').
Hypothesis (may : may_fail -> fails).

Definition left_behind s : Prop := fails \/ R (l_result (hnd s)) (l_err (hnd s)) (world s).

Hypothesis (thread_ends : forall s, steady None (hnd s) s -> pids (hnd s) = [] -> I (world s) ->
  tlp (ListerThread fuel a callback) (fun (_ : unit) _ => False)
    (fun c s' => calm s' /\ (fails \/ c = 0 /\ left_behind s')) s).

Lemma run_clone_ends s : steady None (hnd s) s -> pids (hnd s) = [] -> I (world s) ->
  wp (run_clone (ListerThread fuel a callback)) (fun status s' => calm s' /\ (fails \/ status = 0 /\ left_behind s')) s.
Proof.
  intros Hs Hl HI. specialize (thread_ends s Hs Hl HI). unfold tlp, wp, run_clone in *.
  destruct (ListerThread _ _ _ s); [done| |done..]. destruct thread_ends as [? [?|[-> ?]]]; auto.
Qed.

Lemma wait_clone_ends p s : calm s -> fails \/ left_behind s -> fails \/ (exists w0 r0 u w1, k_clone w0 = (r0, u, w1) /\ p = s32 r0) ->
  wp (wait_clone fuel p) (fun a s' => (fails \/ 0 <= a.1.1) /\ (fails \/ left_behind s')) s.
Proof.
  intros Hs Hl Hp0. unfold wait_clone.
  apply (wp_MY_NO_INTR (fun s => calm s /\ (fails \/ left_behind s)) (fun s => patience (world s))); [|done|done].
  clear s Hs Hl. intros my s [Hs Hl]. unfold sys0_waitpid. apply wp_syscall0. intros r st w' Hk. cbn [fst snd].
  destruct (wait_progress _ _ _ _ _ Hk) as [Hr Hp]. pose proof (calls_patience _ _ (l_wait _ _ _ _ _ Hk)).
  assert (Hc : calm (Cst (errno s) w' (hnd s))) by (red in Hs |- *; cbn; lia).
  assert (Hl' : fails \/ left_behind (Cst (errno s) w' (hnd s))) by (destruct Hl as [|[|?]]; [by left..|right; right; by eapply R_wait]).
  destruct Hr as [Hr|Hr].
  - rewrite LSS_RETURN_err by done. cbn [fst snd world]. split; [intros _ E; split; [done|apply Hp; lia]|].
    intros Hn. split; [|done].
    destruct Hp0 as [?|(w0 & r0 & u0 & w1 & Hk0 & Hp0)]; [by left|].
    destruct (wait_works _ _ _ _ _ _ _ _ _ Hk0 Hp0 Hk) as [->|[H0|Hf]]; [by destruct Hn|unfold is_err in Hr; lia|auto].
  - rewrite LSS_RETURN_ok by lia. cbn [fst]. rewrite s32_small by lia. split; [lia|]. intros _. split; [right; lia|done].
Qed.

Lemma report_ends rc status e s : fails \/ (0 <= rc /\ status = 0 /\ left_behind s) ->
  wp (report rc status e) (fun _ s' => left_behind s') s.
Proof.
  intros Hs. unfold report. assert (Hf : fails -> forall s', left_behind s') by by left.
  destruct (Z.ltb_spec rc 0); [destruct Hs as [?|[? _]]; [by apply Hf|lia]|].
  destruct Hs as [Hs|(_ & -> & Hs)]; [|done]. destruct (wifexited _); [|by apply Hf]. cbv zeta.
  destruct (_ =? 0); [by apply Hf|]. destruct (_ =? 2); [by apply Hf|]. destruct (_ =? 3); by apply Hf.
Qed.

Lemma list_all_ends s : steady None (hnd s) s -> pids (hnd s) = [] -> I (world s) ->
  wp (ListAllProcessThreads fuel a callback) (fun r s' => fails \/ R r (errno s') (world s')) s.
Proof.
  intros Hs Hl HI. apply tlp_wp. set (h := hnd s) in *. clearbody h. unfold ListAllProcessThreads, sys_prctl.
  set (J := fun h s => steady None h s /\ I (world s)).
  assert (Hcall : forall cast (k : W -> Z * unit * W) h (Q : Z -> state -> Prop) s, J h s ->
    (forall r u w', k (world s) = (r, u, w') -> between_call (world s) w') ->
    (forall r s', (exists w', k (world s) = (r, tt, w')) -> J h s' -> Q (LSS_RETURN cast r (errno s)).1 s') ->
    tlp (syscall_ cast k) Q (fun _ _ => False) s).
  { intros cast k h0 Q s0 [Hs0 HI0] Hk HQ. eapply c_syscall_; [done|done|]. intros r w' E Hs1. eapply HQ; [eauto|].
    split; [done|]. by eapply I_between; [|eapply Hk]. }
  wp_step. eapply Hcall; [by split|intros; by econstructor; eassumption|]. intros rd s1 _ Hs1. set (dumpable := (LSS_RETURN _ _ _).1). clearbody dumpable.
  wp_step. eapply tlp_mono with (P := fun _ s' => J h s') (X := fun _ _ => False);
    [destruct (dumpable =? 0); [wp_step; eapply Hcall; [done|intros; by econstructor; eassumption|]; intros r2 s2 _ Hs2|]; by apply tlp_ret| |done].
  clear s1 Hs1. intros ? s2 Hs2. wp_step. apply tlp_modify. wp_step. apply tlp_modify.
  set (s3 := Cst _ _ _). assert (Hs3 : J (hnd s3) s3) by by destruct Hs2 as [(? & ? & ?) ?].
  assert (Hl3 : pids (hnd s3) = []) by (destruct Hs2 as [(_ & _ & E) _]; cbn; by rewrite E). clearbody s3. clear s2 Hs2.
  assert (Hend : forall s', left_behind s' -> tlp ((if dumpable =? 0 then syscall_ s32 (k_prctl PR_SET_DUMPABLE dumpable) ;;! ret tt else ret tt) ;;!
      let! h := get_hnd in set_errno (l_err h) ;;! ret (l_result h)) (fun r s' => fails \/ R r (errno s') (world s')) (fun _ _ => False) s').
  { intros s' Hs'. wp_step. eapply tlp_mono with (P := fun _ s' => left_behind s') (X := fun _ _ => False); [|by intros ? s4 [?|?]; [left|right]|done].
    destruct (dumpable =? 0); [|by apply tlp_ret]. wp_step. unfold syscall_. wp_step. apply wp_tlp, wp_syscall. intros r [] w' Hk.
    apply wp_ret. destruct Hs' as [|HR]; [by left|right]. eapply R_between; [exact HR|by econstructor]. }
  unfold sys_sigprocmask. wp_step. eapply c_syscall; [apply Hs3|intros; by econstructor; eassumption|]. intros r4 old w4 Hk4 Hs4.
  cbn [fst snd]. set (s4 := Cst _ w4 _) in *. assert (HI4 : I (world s4)) by (eapply I_between; [apply Hs3|by econstructor]).
  cbn beta iota. wp_step. destruct (negb _) eqn:Hrc.
  { assert may_fail by (destruct (sigprocmask_works _ _ _ _ _ _ Hk4) as [-> |]; [rewrite LSS_RETURN_ok in Hrc by lia|]; done).
    wp_step. unfold tlp at 1, get_errno. wp_step. apply tlp_modify. apply tlp_modify. apply Hend. left. auto. }
  clearbody s4. unfold sys_clone. wp_step. eapply Hcall; [by split|intros; by econstructor; eassumption|]. intros r5 s5 [w5 Hk5] Hs5.
  wp_step. unfold tlp at 1, get_errno. wp_step. eapply Hcall; [done|intros; by econstructor; eassumption|]. intros r6 s6 _ Hs6.
  wp_step. eapply c_syscall; [apply Hs6|intros; by econstructor; eassumption|]. intros r7 o7 w7 Hk7 Hs7.
  set (s7 := Cst _ w7 _) in *. assert (HI7 : I (world s7)) by (eapply I_between; [apply Hs6|by econstructor]).
  assert (Hs7' : steady None (hnd s7) s7) by by destruct Hs7 as (? & ? & ?). assert (Hl7 : pids (hnd s7) = []) by done. clearbody s7.
  destruct (clone_works _ _ _ _ Hk5) as [Hr5|Hf].
  2:{ assert (Hb : forall s', left_behind s') by (intros; left; auto). destruct (0 <=? _); [|wp_step; apply tlp_modify; apply tlp_modify; by apply Hend].
      wp_step. eapply tlp_mono with (X := fun _ _ => False); [apply wp_tlp, run_clone_ends; [exact Hs7'|exact Hl7|exact HI7]| |done]. intros status s8 [Hs8 Hst].
      wp_step. eapply tlp_mono with (X := fun _ _ => False); [apply wp_tlp, wait_clone_ends; [done|auto|auto]| |done].
      intros [[rc' ?] e'] s9 _. cbn beta iota. eapply tlp_mono with (X := fun _ _ => False); [apply wp_tlp, report_ends; left; auto| |done]. intros ? s10 Hs10. by apply Hend. }
  rewrite LSS_RETURN_ok by lia. cbn [fst]. rewrite (s32_small r5), (proj2 (Z.leb_le 0 r5)) by lia.
  wp_step. eapply tlp_mono with (X := fun _ _ => False); [apply wp_tlp, run_clone_ends; [exact Hs7'|exact Hl7|exact HI7]| |done]. intros status s8 [Hs8 Hst].
  wp_step. eapply tlp_mono with (X := fun _ _ => False); [apply wp_tlp, wait_clone_ends; [done|tauto|]| |done].
  { right. do 4 eexists. split; [exact Hk5|]. by rewrite s32_small by lia. }
  intros [[rc' ?] e'] s9 [Hrc' Hl9]. cbn beta iota.
  eapply tlp_mono with (X := fun _ _ => False); [apply wp_tlp, report_ends; cbn [fst] in Hrc'; tauto| |done]. intros ? s10 Hs10. by apply Hend.
Qed.
End Caller.
End Lister.
End Ends.

(** ** It returns, with the result that ListerSpec.v gives *)
Section Returns.
Context {W : Type} `{!KernelIO W} `{!KernelProc W} `{!Progress W} `{!Tracing W}.
Context (fuel : nat) (i_addr : Z) (callback : list Z -> M (cst W lister) Z) (Post : Z -> Z -> gset Z -> Prop).

(** C16. [ListAllProcessThreads] returns, whatever the threads of the process do
    while they are being listed, if the callback returns: the passes over /proc, the
    searches that are given up and started again, the waiting for threads and the
    calls that are repeated when they are interrupted all come to an end.  Then it
    has returned -1, or what the callback has, and no thread is traced. *)
Theorem ListAllProcessThreads_returns s :
  (lister_rounds max_pid dir_reads <= fuel)%nat -> calm fuel s ->
  (forall l s, calm fuel s -> tlp (callback l) (fun _ s' => calm fuel s') (over fuel) s) ->
  callback_ok callback Post -> attached (world s) = ∅ -> stopped (world s) = ∅ -> pids (hnd s) = [] ->
  wp (ListAllProcessThreads fuel i_addr callback) (fun r s' => r = -1 \/
    attached (world s') = ∅ /\ exists e A, Post r e A /\ errno s' = e) s.
Proof.
  intros Hf Hs Hcb Hok HA HS Hl.
  pose proof (ListAllProcessThreads_spec fuel i_addr callback Post (fun _ _ => False) s Hok HA HS Hl) as Hr.
  eapply wp_mono; [eapply wp_conj; [|exact Hr]|by intros r s' [_ ?]].
  apply (list_all_ends (D := fun _ _ _ => True) fuel i_addr Hf callback (fun _ => True) (fun _ _ _ => True) True); try done.
  clear s Hs HA HS Hl Hr. intros s Hs Hl _. eapply tlp_mono; [apply (ListerThread_over (D := fun _ _ _ => True)) with (Q := fun _ _ => False); [done|exact Hcb|exact Hs|exact Hl]|done|].
  intros c s' Hc. split; [exact Hc|by left].
Qed.
End Returns.

(** ** An instance: the example process of [ListerSpec] *)
#[export] Instance tp_progress : Progress procs.
Proof.
  refine {| patience _ := 0%nat; to_read w := if tp_read w then 0%nat else 1%nat; dir_reads := 1; max_pid := 9 |}.
  - done.
  - intros w w' Hc. inversion Hc as [? ? ? ? ? Hk|? ? ? ? ? Hk|? ? ? ? ? Hk|? ? ? ? ? Hk|? ? ? ? ? ? ? Hk|? ? ? ? ? Hk|
      ? ? ? ? ? Hk|? ? ? ? ? Hk|? ? ? ? Hk]; subst; cbn in Hk; try (by injection Hk as <- <- <-).
    + unfold tp_ptrace in Hk. cbn in Hk. destruct (bool_decide _); by injection Hk as <- <- <-.
    + unfold tp_ptrace in Hk. cbn in Hk. destruct (bool_decide _); by injection Hk as <- <- <-.
    + unfold tp_waitpid in Hk. destruct (bool_decide _); [|destruct (_ && _)%bool]; by injection Hk as <- <- <-.
  - intros p w r u w' Hk. cbn in Hk. injection Hk as <- <- <-. split; [right; lia|]. split; [done|cbn; lia].
  - intros f w r u w' Hk. cbn in Hk. injection Hk as <- <- <-. split; [right; lia|done].
  - intros p w r st w' Hk. cbn in Hk. unfold tp_waitpid in Hk.
    destruct (bool_decide _); [destruct (p =? 200)|destruct (_ && _)%bool eqn:E; b2p]; injection Hk as <- <- <-;
      (split; [first [right; lia|left; unfold is_err, ECHILD; lia]|]); try done. intros ->. done.
  - intros f c w r es w' Hk. cbn in Hk. unfold tp_getdents in Hk. destruct (tp_read w) eqn:E; injection Hk as <- <- <-;
      (split; [right; lia|]); [done|cbn; lia].
  - intros f w r u w' Hk. cbn in Hk. injection Hk as <- <- <-. cbn. lia.
  - intros p w r d w' Hk. cbn in Hk. unfold tp_ptrace in Hk. cbn in Hk. destruct (bool_decide _) eqn:E; injection Hk as <- <- <-; [|left; unfold is_err, EPERM; lia].
    apply bool_decide_eq_true in E. right. unfold tp_threads in E. assert (p = 7 \/ p = 9) by set_solver. cbn. lia.
  - intros w r u w' Hk. cbn in Hk. injection Hk as <- <- <-. right. lia.
  - intros w r u w' Hk. cbn in Hk. injection Hk as <- <- <-. right. lia.
Defined.

Lemma tp_callback_ends l s : calm 400 s -> tlp (tp_callback l) (fun _ s' => calm 400 s') (over 400) s.
Proof.
  intros Hs. unfold tp_callback. wp_step. eapply tlp_mono; [by apply resume_calm| |same_exit]. by intros ? s1 [].
Qed.

Lemma ListAllProcessThreads_returns_witness :
  wp (ListAllProcessThreads 400 4096 tp_callback) (fun r s' => r = -1 \/
    attached (world s') = ∅ /\ exists e (A : gset Z), (r = 7 /\ A = ∅) /\ errno s' = e) tp_start.
Proof.
  apply (ListAllProcessThreads_returns 400 4096 tp_callback (fun r e A => r = 7 /\ A = ∅));
    [by_compute|unfold calm; cbn; lia|apply tp_callback_ends|apply tp_callback_ok|done|done|done].
Defined.
