(* ===== verification/Delivers.v ===== *)
(** The lister delivers: its search ends (Ends.v) and finds all threads (Found.v),
    so the callback is run, and what it establishes is what the caller gets. *)
From stdpp Require Import gmap.
From S2P Require Import Prelude Syscall KernelSpec Params Lister ListerSpec Complete Search Found Ends.

(** The parent is there all the time, be it only for the sake of its threads. *)
Class Leader (W : Type) (i_addr : Z) `{Process W i_addr} := leader_alive : forall w, parent ∈ alive w.

Section Delivers.
Context {W : Type} `{!KernelIO W} `{!KernelProc W} `{!Tracing W} {i_addr : Z} `{!Threads W i_addr} `{!Process W i_addr}
  `{!Leader W i_addr} `{!Progress W} {may_fail : Prop} {D : option Z -> option Z -> W -> Prop} `{!Keeps W may_fail D}.
Abbreviation state := (cst W lister).
Implicit Types (s : state) (l : list Z).
Context (fuel : nat) (fuel_rounds : (lister_rounds max_pid dir_reads <= fuel)%nat).
(** What holds whatever the lister does, and what holds when the callback has ended well. *)
Context (J : W -> Prop) (J_call : forall w w', J w -> lister_call w w' -> J w').
Context (R : Z -> Z -> W -> Prop).
Hypothesis (R_pass : forall r e w w', R r e w -> pass_call w w' -> R r e w').
Hypothesis (R_between : forall r e w w', R r e w -> between_call w w' -> R r e w').
Context (callback : list Z -> M state Z).

(** What the callback can rely on. *)
Record called l s : Prop := {
  cd_inv : Inv l s;
  cd_all : all_listed l (world s);
  cd_calm : calm fuel s;
  cd_kept : held D None (world s);
  cd_good : Good l;
  cd_always : J (world s) }.

(** It returns, and has let all threads go. *)
Hypothesis (callback_returns : forall l s, called l s ->
  wp (callback l) (fun r s' => Tr ∅ ∅ l s' /\ calm fuel s' /\ R r (errno s') (world s')) s).

Lemma search_delivers s : steady (D := D) fuel None (hnd s) s -> pids (hnd s) = [] -> attached (world s) = ∅ -> stopped (world s) = ∅ ->
  J (world s) ->
  tlp (thread_search fuel i_addr) (fun '(_, fp) s' => fp = true /\ exists l, called l s') (lost (may_fail := may_fail) fuel) s.
Proof.
  intros Hs Hl HA HS HJ.
  pose proof (thread_search_ends fuel i_addr fuel_rounds s Hs Hl) as Ht.
  pose proof (thread_search_finds (i_addr := i_addr) fuel s HA HS Hl) as Hf.
  pose proof (stays_thread_search J J_call fuel i_addr s HJ) as HJ'.
  eapply tlp_mono; [exact (tlp_conj _ _ _ _ _ _ Ht (wlp_conj _ _ _ _ _ _ Hf HJ'))| |by intros c s' [? _]].
  intros [marker fp] s' ((w & r & u & w' & Hk & Hc & Hd & Hg & Hseen) & (l & Hi & Ha) & HJs).
  pose proof Hi as [(_ & _ & Hl') _]. rewrite Hl' in *. split; [|by exists l]. apply Hseen.
  rewrite (own_getppid _ _ _ _ Hk). pose proof (proj1 parent_itoa) as Hp.
  rewrite LSS_RETURN_ok by lia. cbn [fst]. rewrite s32_small by lia.
  pose proof (leader_alive (world s')) as Hin. apply Ha in Hin. set_solver.
Qed.

(** The state that the lister leaves when the callback has been run. *)
Definition delivered s : Prop := attached (world s) = ∅ /\ R (l_result (hnd s)) (l_err (hnd s)) (world s).

Lemma done_delivers {B} marker l (Q : B -> state -> Prop) s : called l s ->
  tlp (lister_done fuel callback marker true) Q (fun c s' => calm fuel s' /\ c = 0 /\ delivered s') s.
Proof.
  intros [Hi Ha Hc Hd Hg HJ]. pose proof Hi as [(_ & _ & Hl) _]. unfold lister_done. wp_step.
  eapply tlp_mono.
  { eapply tlp_conj; [by apply (close_kept fuel marker None l (fun _ _ => False))|].
    eapply wlp_conj; [apply (close_given fuel all_listed (fun _ _ => True) l); [apply all_listed_keeps|done|done]|].
    apply (stays_NO_INTR_on J); [|exact HJ]. by apply stays_close. }
  2:{ by intros c s' [[] _]. }
  intros ? s1 ((Hc1 & Hd1 & Hl1) & [Hi1 Ha1] & HJ1). wp_step. apply tlp_modify. wp_step. unfold tlp at 1, get_hnd.
  set (s2 := Cst _ _ _). assert (Hs2 : called l s2) by (split; try done; by apply Hd1; left).
  change (pids (hnd s2)) with (pids (hnd s1)). rewrite Hl1. clearbody s2. cbn [negb]. wp_step.
  eapply tlp_mono with (X := fun _ _ => False); [by apply wp_tlp, callback_returns| |done].
  intros r s3 (Ht3 & Hc3 & HR3). wp_step. apply tlp_modify. wp_step. unfold tlp at 1, get_errno. wp_step. apply tlp_modify.
  set (s4 := Cst _ _ _). assert (Ht4 : Tr ∅ ∅ l s4) by done. assert (Hc4 : calm fuel s4) by done.
  assert (HR4 : R (l_result (hnd s4)) (l_err (hnd s4)) (world s4)) by done. clearbody s4. wp_step.
  eapply tlp_mono.
  { eapply tlp_conj.
    - apply (g_resume (fun w => (patience w < fuel)%nat /\ R (l_result (hnd s4)) (l_err (hnd s4)) w)) with (l := l) (X := fun _ _ => False); [|by split; [|apply Ht4]].
      intros w w' [Hp HR] Hcall. pose proof (calls_patience _ _ (pass_lister _ _ Hcall)). split; [lia|by eapply R_pass].
    - eapply wlp_conj; [eapply (resume_all _ (fun _ _ => True)); [exact Ht4|set_solver]|by apply (hnd_resume _ (fun _ _ => True))]. }
  2:{ by intros c s' [[] _]. }
  intros late s5 (([Hp5 HR5] & _) & ((Ht5 & Hlate) & Hh5)). destruct late.
  { destruct Hlate as (p & _ & Hp); [done|]. set_solver. }
  wp_step. wp_step. unfold tlp, sys__exit. rewrite empty_difference_L in Ht5. split; [done|]. split; [done|].
  split; [apply Ht5|]. by rewrite Hh5.
Qed.

Lemma ListerThread_delivers {B} (Q : B -> state -> Prop) s : steady (D := D) fuel None (hnd s) s -> pids (hnd s) = [] ->
  attached (world s) = ∅ -> stopped (world s) = ∅ -> J (world s) ->
  tlp (ListerThread fuel i_addr callback) Q (fun c s' => calm fuel s' /\ (may_fail \/ c = 0 /\ delivered s')) s.
Proof.
  intros Hs Hl HA HS HJ. eapply tlp_ext; [apply ListerThread_search|]. wp_step.
  eapply tlp_mono; [by apply search_delivers| |by intros c s' [? ?]; auto].
  intros [marker fp] s' (-> & l & Hc). eapply tlp_mono; [by eapply done_delivers|intros; eassumption|].
  intros c s'' (? & ? & ?). auto.
Qed.

Lemma list_all_delivers s : steady (D := D) fuel None (hnd s) s -> pids (hnd s) = [] ->
  attached (world s) = ∅ -> stopped (world s) = ∅ -> J (world s) ->
  wp (ListAllProcessThreads fuel i_addr callback) (fun r s' => may_fail \/ attached (world s') = ∅ /\ R r (errno s') (world s')) s.
Proof.
  intros Hs Hl HA HS HJ.
  apply (list_all_ends (D := D) fuel i_addr fuel_rounds callback (fun w => attached w = ∅ /\ stopped w = ∅ /\ J w)
    (fun r e w => attached w = ∅ /\ R r e w) may_fail); try done.
  - intros w w' (HA' & HS' & HJ') Hc. destruct (quiet_tracing _ _ (between_quiet _ _ Hc)) as [-> ->].
    split_and!; [done|done|]. by eapply J_call, l_quiet, between_quiet.
  - intros r e w w' [HA' HR] Hc. destruct (quiet_tracing _ _ (between_quiet _ _ Hc)) as [-> _]. split; [done|by eapply R_between].
  - intros r e p w rc st w' [HA' HR] Hk. destruct (k_wait_other _ _ _ _ _ _ Hk (or_intror HA')) as [-> _].
    split; [done|]. eapply R_pass; [done|by eapply p_wait].
  - clear s Hs Hl HA HS HJ. intros s Hs Hl (HA & HS & HJ). eapply tlp_mono; [apply ListerThread_delivers with (Q := fun _ _ => False); done|done|].
    intros c s' [Hc [Hf|[-> Hd]]]; split; [done|by left|done|]. right. split; [done|]. right. exact Hd.
Qed.

(** C15. [ListAllProcessThreads] does what it is for.  The threads of the process may
    make new ones while they are being listed; calls may be interrupted; the search
    may be given up and started again.  If the callback returns [R] for every
    complete list of threads, all of them stopped, and lets them go, then
    [ListAllProcessThreads] returns, no thread is traced, and [R] holds of its
    result, of [errno] and of the world, unless a call that it needs has failed. *)
Theorem ListAllProcessThreads_delivers s : steady (D := D) fuel None (hnd s) s -> pids (hnd s) = [] ->
  attached (world s) = ∅ -> stopped (world s) = ∅ -> J (world s) ->
  wp (ListAllProcessThreads fuel i_addr callback) (fun r s' => may_fail \/ attached (world s') = ∅ /\ R r (errno s') (world s')) s.
Proof. apply list_all_delivers. Qed.
End Delivers.

(** ** An instance: the example process of [ListerSpec], where nothing fails *)
#[export] Instance tp_keeps : Keeps procs False (fun _ _ _ => True).
Proof.
  split; try done.
  - intros w r u w' _ Hk. cbn in Hk. injection Hk as <- <- <-. unfold is_err. split; [lia|done].
  - intros p m w r u w' _ _ Hk. cbn in Hk. injection Hk as <- <- <-. unfold is_err. split; [lia|done].
  - intros f c m w r es w' _ Hk. cbn in Hk. unfold tp_getdents in Hk. unfold is_err. destruct (tp_read w); injection Hk as <- <- <-; (split; [lia|done]).
  - intros f m d w r u w' _ _. exists m, None. auto.
  - intros f w r u w' _ Hk. cbn in Hk. injection Hk as <- <- <-. left. lia.
  - intros f m w r i w' _ Hk. cbn in Hk. injection Hk as <- <- <-. left. lia.
  - intros name f digits w r i w' _ _ _ Hk. cbn in Hk. injection Hk as <- <- <-. left. lia.
  - intros h g w r l w' Hk. cbn in Hk. injection Hk as <- <- <-. by left.
  - intros w r u w' Hk. cbn in Hk. injection Hk as <- <- <-. left. lia.
  - intros p w0 r0 u w1 w r st w' Hc -> Hk. cbn in Hc, Hk. injection Hc as <- _ _. right. left. unfold tp_waitpid in Hk.
    change (s32 200) with 200 in Hk. destruct (bool_decide _); [|destruct (_ && _)%bool eqn:E; [|done]]; injection Hk as <- <- <-; cbn; lia.
Qed.

#[export] Instance tp_leader : Leader procs 4096.
Proof. intros w. cbn. unfold tp_threads. set_solver. Qed.

Lemma tp_callback_returns l s : called (i_addr := 4096) (D := fun _ _ _ => True) 400 (fun _ => True) l s ->
  wp (tp_callback l) (fun r s' => Tr ∅ ∅ l s' /\ calm 400 s' /\ r = 7) s.
Proof.
  intros [[Hs _] _ Hc _ _ _]. unfold tp_callback. wp_step. apply tlp_wp. eapply tlp_mono.
  - eapply tlp_conj; [by apply (resume_calm 400 l (fun _ _ => False))|]. eapply (resume_all l (fun _ _ => True)); [exact Hs|set_solver].
  - intros r s' ([Hc' _] & Hs' & _). rewrite difference_diag_L in Hs'. by apply wp_ret.
  - by intros c s' [[] _].
Qed.

Lemma ListAllProcessThreads_delivers_witness :
  wp (ListAllProcessThreads 400 4096 tp_callback) (fun r s' => False \/ attached (world s') = ∅ /\ r = 7) tp_start.
Proof.
  apply (ListAllProcessThreads_delivers (D := fun _ _ _ => True) 400 ltac:(by_compute) (fun _ => True) ltac:(done) (fun r _ _ => r = 7)
    ltac:(done) ltac:(done) tp_callback tp_callback_returns); [|done..].
  split; [red; cbn; lia|done].
Defined.
