(* ===== verification/Signals.v ===== *)
(** The handler of [linuxthreads.c] for synchronous signals in the lister: a crash
    of the lister does not leave the process suspended. *)
From stdpp Require Import gmap.
From S2P Require Import Prelude Syscall KernelSpec Params Lister ListerSpec.

Section Signals.
Context {W : Type} `{!KernelIO W} `{!KernelProc W} `{!Tracing W}.
Context (fuel : nat).
Implicit Types s : cst W lister.

(** The variables the handler sees describe the threads in the array. *)
Definition armed (l : list Z) s : Prop := sig_pids (hnd s) = true /\ sig_num_threads (hnd s) = zlen l.

(** Closing descriptors and forgetting them keeps what was resumed. *)
Lemma close_nonneg_tr fd A S l s X : Tr A S l s -> wlp (close_nonneg fuel fd) (fun _ s' => Tr A S l s') X s.
Proof.
  intros Hs. unfold close_nonneg. destruct (0 <=? fd); [|by apply wlp_ret]. wp_step.
  eapply wlp_mono; [eapply quiet_NO_INTR; [exact Hs|intros; by econstructor; eassumption]| |same_exit].
  intros ? s1 Hs1. by apply wlp_ret.
Qed.

(** The threads that are to be released, after the branch on [sig_pids]. *)
Lemma release_tr l s X : Inv l s -> wlp (if 0 <? zlen l then ResumeAllProcessThreads l ;;! ret tt else ret tt)
  (fun _ s' => Tr ∅ ∅ l s') X s.
Proof.
  intros [Hs Hnd]. destruct (Z.ltb_spec 0 (zlen l)) as [|Hl].
  - wp_step. eapply wlp_mono; [eapply resume_all; [exact Hs|set_solver]| |same_exit].
    intros ? s1 [Hs1 _]. rewrite difference_diag_L in Hs1. by apply wlp_ret.
  - destruct l as [|p l]; [|unfold zlen in Hl; cbn in Hl; lia]. by apply wlp_ret.
Qed.

Lemma SignalHandler_spec {B} signum l (Q : B -> cst W lister -> Prop) s : Inv l s -> armed l s -> signum <> SIGABRT ->
  wlp (SignalHandler fuel signum) Q (fun c s' => c = 2 /\ attached (world s') = ∅ /\ stopped (world s') = ∅) s.
Proof.
  intros Hs [Ha Hn] Hsig. unfold SignalHandler. wp_step. unfold wlp at 1, get_hnd. rewrite Ha, Hn.
  pose proof Hs as [(_ & _ & Hl) _]. rewrite Hl, ztake_all by lia.
  rewrite (proj2 (Z.eqb_neq _ _)) by done. wp_step.
  eapply wlp_mono; [by apply release_tr| |same_exit]. intros ? s1 Hs1.
  wp_step. eapply wlp_mono; [eapply Tr_modify; [exact Hs1|done]| |same_exit]. intros ? s2 Hs2.
  wp_step. eapply wlp_mono; [eapply close_nonneg_tr; exact Hs2| |same_exit]. intros ? s3 Hs3.
  wp_step. eapply wlp_mono; [eapply Tr_modify; [exact Hs3|done]| |same_exit]. intros ? s4 Hs4.
  wp_step. eapply wlp_mono; [eapply close_nonneg_tr; exact Hs4| |same_exit]. intros ? s5 Hs5.
  wp_step. eapply wlp_mono; [eapply Tr_modify; [exact Hs5|done]| |same_exit]. intros ? s6 (HA & HS & _).
  unfold wlp, sys__exit. auto.
Qed.

(** C36. A synchronous signal other than SIGABRT ends the lister: its handler detaches
    every thread listed, so that the process goes on, and exits with 2, of which the
    caller of [ListAllProcessThreads] makes the result -1 with EFAULT. *)
Theorem SignalHandler_resumes {B} signum l (Q : B -> cst W lister -> Prop) s : Inv l s -> armed l s -> signum <> SIGABRT ->
  wlp (SignalHandler fuel signum) Q (fun c s' => attached (world s') = ∅ /\ stopped (world s') = ∅ /\
    forall rc e, 0 <= rc -> wp (report rc (Z.shiftl (Z.land c 255) 8) e)
      (fun _ s2 => world s2 = world s' /\ l_result (hnd s2) = -1 /\ l_err (hnd s2) = EFAULT) s') s.
Proof.
  intros Hs Ha Hsig. eapply wlp_mono; [by apply (SignalHandler_spec signum l Q)|done|].
  intros c s' (-> & HA & HS). split_and!; [done|done|]. intros rc e Hrc. unfold report.
  by rewrite (proj2 (Z.ltb_ge _ _)) by lia.
Qed.
End Signals.

Definition tp_armed : cst procs lister :=
  Cst 0 (Procs {[7; 9]} {[7; 9]} true) (mkLister [7; 9] true 2 5 3 0 0 None).

Lemma SignalHandler_resumes_witness :
  wlp (SignalHandler (A := unit) 10 SIGSEGV) (fun _ _ => False)
    (fun c s' => attached (world s') = ∅ /\ stopped (world s') = ∅ /\
       forall rc e, 0 <= rc -> wp (report rc (Z.shiftl (Z.land c 255) 8) e)
         (fun _ s2 => world s2 = world s' /\ l_result (hnd s2) = -1 /\ l_err (hnd s2) = EFAULT) s') tp_armed.
Proof.
  apply (SignalHandler_resumes 10 SIGSEGV [7; 9]); [|done|done].
  split; [by split_and!; [set_solver..|]|apply NoDup_cons; split; [set_solver|apply NoDup_singleton]].
Defined.
