(* ===== verification/Calm.v ===== *)
(** The dump leaves everything but its files alone: a property of the world that
    the calls it makes preserve holds throughout, and only the processes it forks
    ever exit. *)
From S2P Require Import Prelude Syscall KernelSpec CIO ProcIO Smaps ElfTypes Vdso ElfCore.
From S2P Require Import Closure Params Lister Frame Pipeline CoreDump.

(** The calls that the dump makes between the callback and the resuming of the
    threads; it waits only for processes that are [fresh]. *)
Inductive dump_call {W : Type} `{KernelIO W} `{KernelProc W} `{KernelMisc W} (fresh : Z -> Prop) : W -> W -> Prop :=
  | d_read f n w r d w' : k_read f n w = (r, d, w') -> dump_call fresh w w'
  | d_write f p n w r u w' : k_write f p n w = (r, u, w') -> dump_call fresh w w'
  | d_open p f m w r u w' : k_open p f m w = (r, u, w') -> dump_call fresh w w'
  | d_close f w r u w' : k_close f w = (r, u, w') -> dump_call fresh w w'
  | d_pipe w r p w' : k_pipe w = (r, p, w') -> dump_call fresh w w'
  | d_dup f w r u w' : k_dup f w = (r, u, w') -> dump_call fresh w w'
  | d_dup2 f g w r u w' : k_dup2 f g w = (r, u, w') -> dump_call fresh w w'
  | d_fcntl f c a w r u w' : k_fcntl f c a w = (r, u, w') -> dump_call fresh w w'
  | d_poll l t w r e w' : k_poll l t w = (r, e, w') -> dump_call fresh w w'
  | d_ptrace q p a o w r d w' : k_ptrace q p a o w = (r, d, w') ->
      q = PTRACE_GETREGS \/ q = PTRACE_GETFPREGS \/ q = PTRACE_PEEKUSER -> dump_call fresh w w'
  | d_waitpid p w r st w' : k_waitpid p 0 w = (r, st, w') -> fresh p -> dump_call fresh w w'
  | d_getppid w r u w' : k_getppid w = (r, u, w') -> dump_call fresh w w'
  | d_sigprocmask h g w r l w' : k_rt_sigprocmask h g w = (r, l, w') -> dump_call fresh w w'
  | d_getpriority a b w r u w' : k_getpriority a b w = (r, u, w') -> dump_call fresh w w'
  | d_geteuid w r u w' : k_geteuid w = (r, u, w') -> dump_call fresh w w'
  | d_getegid w r u w' : k_getegid w = (r, u, w') -> dump_call fresh w w'
  | d_getpgrp w r u w' : k_getpgrp w = (r, u, w') -> dump_call fresh w w'
  | d_getsid p w r u w' : k_getsid p w = (r, u, w') -> dump_call fresh w w'
  | d_readlink p n w r l w' : k_readlink p n w = (r, l, w') -> dump_call fresh w w'
  | d_creat p f m w r u w' : k_creat p f m w = (r, u, w') -> dump_call fresh w w'
  | d_socketpair w r p w' : k_socketpair w = (r, p, w') -> dump_call fresh w w'
  | d_sendmsg s x f w r u w' : k_sendmsg s x f w = (r, u, w') -> dump_call fresh w w'
  | d_recvmsg s w r d w' : k_recvmsg s w = (r, d, w') -> dump_call fresh w w'
  | d_shutdown s w r u w' : k_shutdown s w = (r, u, w') -> dump_call fresh w w'
  | d_execve p a w r u w' : k_execve p a w = (r, u, w') -> dump_call fresh w w'.

(** [I] is a property that these calls preserve; a new process is [fresh]. *)
Class Undisturbed {W : Type} `{KernelIO W} `{KernelProc W} `{KernelMisc W} (I : W -> Prop) (fresh : Z -> Prop) := {
  I_call : forall w w', I w -> dump_call fresh w w' -> I w';
  I_clone : forall w r u w', I w -> k_clone_vm w = (r, u, w') ->
    I w' /\ forall e, 0 <= (LSS_RETURN s32 r e).1 -> fresh (LSS_RETURN s32 r e).1 }.

#[export] Instance always_undisturbed {W : Type} `{KernelIO W} `{KernelProc W} `{KernelMisc W} :
  Undisturbed (W := W) any any.
Proof. by split. Qed.

(** Steps in [calm_post] have a postcondition of their own. *)
Create HintDb calm.
Create HintDb calm_post.

(** ** Computations that preserve it *)
Section Calm.
Context {W Hd : Type} `{!KernelIO W} `{!KernelProc W} `{!KernelMisc W}.
Context (I : W -> Prop) (fresh : Z -> Prop) `{!Undisturbed I fresh}.
(** What holds of the handle, the codes with which a forked process exits and the
    programs by which it is replaced. *)
Context (R : Hd -> Prop) (X : Z -> Prop) (E : list Z -> Prop).

Definition calm {A} (V : A -> Prop) (m : M (cst W Hd) A) : Prop := forall s, I (world s) -> R (hnd s) ->
  match m s with
  | Ret a s' => V a /\ I (world s') /\ R (hnd s')
  | Exited c s' => X c /\ R (hnd s')
  | Execed p s' => E p /\ R (hnd s')
  | Aborted _ => False
  | OutOfFuel => True
  end.

Lemma calm_wlp {A} (V : A -> Prop) (m : M (cst W Hd) A) s : calm V m -> I (world s) -> R (hnd s) ->
  wlp m (fun a s' => V a /\ I (world s') /\ R (hnd s')) (fun c s' => X c /\ R (hnd s')) s.
Proof. intros Hm HI HR. specialize (Hm s HI HR). unfold wlp. by destruct (m s). Qed.

Lemma calm_ret {A} (V : A -> Prop) a : V a -> calm V (ret a).
Proof. by intros HV s HI HR. Qed.

Lemma calm_fuel {A} (V : A -> Prop) : calm V out_of_fuel.
Proof. done. Qed.

Lemma calm_exit {A} (V : A -> Prop) c : X c -> calm V (sys__exit c).
Proof. by intros HX s HI HR. Qed.

Lemma calm_exec {A} (V : A -> Prop) p : E p -> calm V (sys__exec p).
Proof. by intros HE s HI HR. Qed.

Lemma calm_bind_post {A B} (U : A -> Prop) (V : B -> Prop) (m : M (cst W Hd) A) (k : A -> M (cst W Hd) B) :
  calm U m -> (forall a, U a -> calm V (k a)) -> calm V (bind m k).
Proof.
  intros Hm Hk s HI HR. specialize (Hm s HI HR). unfold bind. destruct (m s) as [a s'| | | |]; [|done..].
  destruct Hm as (HU & HI' & HR'). by apply Hk.
Qed.

Lemma calm_mono {A} (V U : A -> Prop) (m : M (cst W Hd) A) : calm V m -> (forall a, V a -> U a) -> calm U m.
Proof. intros Hm HV s HI HR. specialize (Hm s HI HR). destruct (m s); auto. destruct Hm as (? & ? & ?). auto. Qed.

Lemma calm_bind {A B} (V : B -> Prop) (m : M (cst W Hd) A) (k : A -> M (cst W Hd) B) :
  calm any m -> (forall a, calm V (k a)) -> calm V (bind m k).
Proof. intros Hm Hk. apply (calm_bind_post any); [done|]. by intros a _. Qed.

Lemma calm_obind {A B} (m : M (cst W Hd) (option A)) (k : A -> M (cst W Hd) (option B)) :
  calm any m -> (forall a, calm any (k a)) -> calm any (obind m k).
Proof. intros Hm Hk. apply calm_bind; [done|]. intros [a|]; [apply Hk|by apply calm_ret]. Qed.

Lemma calm_get_errno : calm any get_errno.
Proof. done. Qed.

Lemma calm_set_errno e : calm any (set_errno e).
Proof. done. Qed.

Lemma calm_get_hnd : calm R get_hnd.
Proof. done. Qed.

Lemma calm_set_hnd h : R h -> calm any (set_hnd h).
Proof. done. Qed.

Lemma calm_syscall {A} cast (k : W -> Z * A * W) : (forall w r a w', k w = (r, a, w') -> dump_call fresh w w') ->
  calm any (syscall cast k).
Proof.
  intros Hk s HI HR. unfold syscall. destruct (k (world s)) as [[r a] w'] eqn:Ek. destruct (LSS_RETURN _ _ _).
  split_and!; [done|eapply I_call; eauto|done].
Qed.

Lemma calm_syscall0 {A} cast (k : W -> Z * A * W) my : (forall w r a w', k w = (r, a, w') -> dump_call fresh w w') ->
  calm any (syscall0 cast k my).
Proof.
  intros Hk s HI HR. unfold syscall0. destruct (k (world s)) as [[r a] w'] eqn:Ek. destruct (LSS_RETURN _ _ _).
  split_and!; [done|eapply I_call; eauto|done].
Qed.

Lemma calm_syscall_ cast (k : W -> Z * unit * W) : (forall w r a w', k w = (r, a, w') -> dump_call fresh w w') ->
  calm any (syscall_ cast k).
Proof. intros Hk. apply calm_bind; [by apply calm_syscall|]. intros [rc []]. by apply calm_ret. Qed.

Lemma calm_NO_INTR_on fuel {A} (f : A -> Z) (m : M (cst W Hd) A) : calm any m -> calm any (NO_INTR_on f fuel m).
Proof.
  intros Hm. induction fuel as [|n IH]; [done|]. cbn [NO_INTR_on]. apply calm_bind; [done|]. intros a.
  apply calm_bind; [done|]. intros e. destruct (_ && _)%bool; [done|by apply calm_ret].
Qed.

Lemma calm_MY_NO_INTR fuel {A} (fn : Z -> M (cst W Hd) (Z * A * Z)) my : (forall my, calm any (fn my)) ->
  calm any (MY_NO_INTR fuel fn my).
Proof.
  intros Hm. revert my. induction fuel as [|n IH]; intros my; [done|]. cbn [MY_NO_INTR]. apply calm_bind; [done|].
  intros [[rc a] e]. destruct (_ && _)%bool; [done|by apply calm_ret].
Qed.
End Calm.

(** One system call of the dump. *)
Ltac calm_call :=
  first [eapply calm_syscall_ | eapply calm_syscall | eapply calm_syscall0];
  [first [eassumption | apply always_undisturbed] | intros; econstructor; solve [eassumption | auto]].

(** Goes through the code of a function. *)
Ltac calmly :=
  cbv zeta;
  repeat match goal with
  | |- calm _ _ _ _ _ (bind _ _) => eapply calm_bind_post; [solve [eauto with calm_post nocore]|]
  | |- calm _ _ _ _ _ (bind _ _) => eapply calm_bind
  | |- calm _ _ _ _ _ (obind _ _) => eapply calm_obind
  | |- calm _ _ _ _ _ (match ?x with _ => _ end) => destruct x eqn:?
  | |- calm _ _ _ _ _ (ret _) => apply calm_ret; try exact Logic.I
  | |- calm _ _ _ _ _ (set_hnd _) => apply calm_set_hnd; try done
  | |- calm _ _ _ _ _ _ => solve [eauto with calm | calm_call]
  | |- forall _, _ => intros ?
  end.

#[export] Hint Resolve always_undisturbed calm_fuel calm_get_errno calm_set_errno : calm.
#[export] Hint Extern 1 (calm _ _ _ _ _ (NO_INTR _ _)) => apply calm_NO_INTR_on; calm_call : calm.
#[export] Hint Extern 1 (calm _ _ _ _ _ (NO_INTR_on _ _ _)) => apply calm_NO_INTR_on; calm_call : calm.
#[export] Hint Resolve calm_get_hnd : calm_post.

(** ** The core writer *)
Section Core.
Context {W Hd : Type} `{!KernelIO W} `{!KernelProc W} `{!KernelMisc W} `{!AddressSpace}.
Context (I : W -> Prop) (fresh : Z -> Prop) `{!Undisturbed I fresh}.
Context (R : Hd -> Prop) (X : Z -> Prop) (E : list Z -> Prop) (fuel : nat).
Abbreviation calm m := (calm I R X E any m).

Lemma calm_closed wr : Closed fuel any wr (fun A V (m : M (cst W Hd) A) => Calm.calm I R X E V m).
Proof.
  split; intros; [by apply calm_ret|done|by eapply calm_mono|by eapply calm_bind_post|done|done| | |
    |by apply calm_NO_INTR_on|by apply calm_MY_NO_INTR|apply calm_NO_INTR_on|].
  5: eapply calm_bind_post; [apply calm_NO_INTR_on|
    match goal with Hk : forall fd, any fd -> _ |- _ => intros fd ?; exact (Hk fd Logic.I) end].
  all: cbn beta; calm_call.
Qed.

(** What the descriptors are does not matter. *)
Lemma calm_holds {A} `{!Holds A} (m : M (cst W Hd) A) : Calm.calm I R X E (holds any) m -> calm m.
Proof. intros Hm. by eapply calm_mono. Qed.

Lemma calm_c_read fd n : calm (c_read fuel fd n : M (cst W Hd) _).
Proof. pose proof (calm_closed fd). by apply calm_holds, (closed_c_read fuel any fd (fun A V m => Calm.calm I R X E V m)). Qed.

Lemma calm_c_write fd p n : calm (c_write fuel fd p n : M (cst W Hd) _).
Proof. pose proof (calm_closed fd). apply calm_holds, (closed_c_write fuel any fd (fun A V m => Calm.calm I R X E V m)). Qed.

Lemma calm_count_mappings : calm (count_mappings fuel : M (cst W Hd) _).
Proof. pose proof (calm_closed 0). apply calm_holds, (closed_count_mappings fuel any 0 (fun A V m => Calm.calm I R X E V m)). Qed.

Lemma calm_CountAUXV : calm (CountAUXV fuel : M (cst W Hd) _).
Proof. pose proof (calm_closed 0). apply calm_holds, (closed_CountAUXV fuel any 0 (fun A V m => Calm.calm I R X E V m)). Qed.

Lemma calm_load_mappings aarch64 uninit rd wr ps n : calm (load_mappings fuel aarch64 uninit rd wr ps n : M (cst W Hd) _).
Proof. pose proof (calm_closed wr). by apply calm_holds, (closed_load_mappings fuel any wr (fun A V m => Calm.calm I R X E V m)). Qed.
#[local] Hint Resolve calm_count_mappings calm_CountAUXV calm_load_mappings : calm.

Context (writer : ptr -> Z -> M (cst W Hd) Z) (calm_writer : forall p n, calm (writer p n)).

Lemma calm_put p n : calm (put writer p n).
Proof. unfold put. calmly. Qed.
#[local] Hint Resolve calm_put : calm.

Lemma calm_put_bytes l : calm (put_bytes writer l).
Proof. apply calm_put. Qed.
#[local] Hint Resolve calm_put_bytes : calm.

Lemma calm_put_all {A} (f : A -> M (cst W Hd) (option unit)) l : (forall x, calm (f x)) -> calm (put_all f l).
Proof. intros Hf. induction l as [|x l IH]; cbn [put_all]; calmly. Qed.

Lemma calm_put_core_note t n d : calm d -> calm (put_core_note writer t n d).
Proof. intros Hd'. unfold put_core_note. calmly. Qed.
#[local] Hint Resolve calm_put_all calm_put_core_note : calm.

Lemma calm_WriteThreadRegs st t : calm (WriteThreadRegs writer st t).
Proof. unfold WriteThreadRegs. calmly. Qed.
#[local] Hint Resolve calm_WriteThreadRegs : calm.

Lemma calm_copy_auxv n fd : calm (copy_auxv fuel writer n fd).
Proof. induction n as [|n IH]; cbn [copy_auxv]; calmly. Qed.
#[local] Hint Resolve calm_copy_auxv : calm.

Lemma calm_write_auxv n : calm (write_auxv fuel writer n).
Proof. unfold write_auxv. calmly. apply calm_put_core_note. calmly. Qed.

Lemma calm_write_main_thread st p ts : calm (write_main_thread writer st p ts).
Proof. induction ts as [|t ts IH]; cbn [write_main_thread]; calmly. Qed.

Lemma calm_write_threads st p ts : calm (write_threads writer st p ts).
Proof. pose proof calm_write_main_thread. unfold write_threads. calmly. apply calm_put_all. intros t. unfold write_other_thread. calmly. Qed.

Lemma calm_write_extra_note n : calm (write_extra_note writer n).
Proof. unfold write_extra_note. calmly. Qed.

Lemma calm_write_nt_file ps ms : calm (write_nt_file writer ps ms).
Proof. unfold write_nt_file, write_file_triple, write_file_name. calmly. Qed.

Lemma calm_write_segment m : calm (write_segment writer m).
Proof. unfold write_segment. calmly. Qed.
#[local] Hint Resolve calm_write_auxv calm_write_threads calm_write_extra_note calm_write_nt_file calm_write_segment : calm.

Lemma calm_write_core info user st ts ps pml pid notes ms na v :
  calm (write_core fuel writer info user st ts ps pml pid notes ms na v).
Proof. unfold write_core, write_vdso_phdr. calmly. Qed.
#[local] Hint Resolve calm_write_core : calm.

Lemma calm_CreateElfCore is_done aarch64 uninit info user st ts ps pml pid notes :
  calm (CreateElfCore fuel writer is_done aarch64 uninit info user st ts ps pml pid notes).
Proof. unfold CreateElfCore, create_body, close_if_open, sys_pipe. calmly. Qed.
End Core.
#[export] Hint Resolve calm_c_read calm_c_write : calm.

(** ** The output functions, and the pipeline *)
Section Writers.
Context {W : Type} `{!KernelIO W} `{!KernelProc W} `{!KernelMisc W}.
Context (I : W -> Prop) (fresh : Z -> Prop) `{!Undisturbed I fresh} (X : Z -> Prop) (E : list Z -> Prop) (fuel : nat).
Abbreviation calm m := (calm I any X E any m).

Lemma calm_SimpleWriter p n : calm (SimpleWriter fuel p n).
Proof. unfold SimpleWriter. calmly. Qed.

Lemma calm_take_max_length rc : calm (take_max_length (W := W) rc).
Proof. unfold take_max_length. calmly. Qed.
#[local] Hint Resolve calm_take_max_length : calm.

Lemma calm_LimitWriter p n : calm (LimitWriter fuel p n).
Proof. unfold LimitWriter. calmly. Qed.

Lemma calm_drain_compressed n : calm (drain_compressed fuel n).
Proof. induction n as [|n IH]; cbn [drain_compressed]; calmly. Qed.
#[local] Hint Resolve calm_drain_compressed : calm.

Lemma calm_pipe_turn p n : calm (pipe_turn fuel p n).
Proof. unfold pipe_turn. calmly. Qed.
#[local] Hint Resolve calm_pipe_turn : calm.

Lemma calm_PipeWriter p n : calm (PipeWriter fuel p n).
Proof.
  unfold PipeWriter. enough (forall m p l, calm (pipe_loop fuel m n p l)) by done.
  induction m as [|m IH]; intros q l; cbn [pipe_loop]; calmly.
Qed.

Lemma calm_FlushPipe : calm (FlushPipe fuel).
Proof.
  unfold FlushPipe. assert (forall m, calm (flush_loop fuel m)).
  { induction m as [|m IH]; cbn [flush_loop]; calmly. }
  calmly.
Qed.
End Writers.

Section Pipeline.
Context {W Hd : Type} `{!KernelIO W} `{!KernelProc W} `{!KernelMisc W}.
Context (I : W -> Prop) (fresh : Z -> Prop) `{!Undisturbed I fresh}.
Context (R : Hd -> Prop) (X : Z -> Prop) (E : list Z -> Prop) (fuel : nat).
Context (at_ptr : list Z -> option (list CoredumperCompressor)) (seen final : CreateArgs -> CreateArgs).
Abbreviation calm m := (calm I R X E any m).

Lemma calm_close2 a b : calm (close2 fuel a b : M (cst W Hd) _).
Proof. unfold close2. calmly. Qed.

Lemma calm_keeping_errno (m : M (cst W Hd) unit) : calm m -> calm (keeping_errno m).
Proof. intros Hm. unfold keeping_errno. calmly. Qed.

Lemma calm_read_choice n fd buf : calm (read_choice fuel n fd buf : M (cst W Hd) _).
Proof. revert buf. induction n as [|n IH]; intros buf; cbn [read_choice]; calmly. Qed.

Lemma calm_reap n pid : fresh pid -> calm (reap n pid : M (cst W Hd) _).
Proof. intros Hp. unfold sys_waitpid in *. induction n as [|n IH]; cbn [reap]; calmly. Qed.
#[local] Hint Resolve calm_close2 calm_keeping_errno calm_read_choice calm_reap : calm.

#[local] Hint Extern 1 (fresh _) => b2p; auto : calm.

Lemma calm_clone_vm : Calm.calm I R X E (fun rc => 0 <= rc -> fresh rc) (sys_clone_vm : M (cst W Hd) _).
Proof.
  intros s HI HR. unfold sys_clone_vm, syscall_, syscall, bind. destruct (k_clone_vm _) as [[r []] w'] eqn:Ek.
  destruct (I_clone _ _ _ _ HI Ek) as [HI' Hf]. specialize (Hf (errno s)). by destruct (LSS_RETURN _ _ _).
Qed.
#[local] Hint Resolve calm_clone_vm : calm_post.

Lemma calm_start_compressor fds openmax PATH cs : calm (start_compressor fuel at_ptr seen final fds openmax PATH cs : M (cst W Hd) _).
Proof.
  unfold start_compressor, sys_pipe. calmly.
Qed.
#[local] Hint Resolve calm_start_compressor : calm.

Lemma calm_CreatePipeline fds openmax PATH cs : calm (CreatePipeline fuel at_ptr seen final fds openmax PATH cs : M (cst W Hd) _).
Proof. unfold CreatePipeline, sys_pipe. calmly. Qed.
End Pipeline.

(** *** The child that becomes the compressor *)

(** The program that an entry of the table is looked up as: the name itself if it
    has a slash, or the name in a directory of PATH. *)
Definition runs_compressor (PATH : option (list Z)) (cs : list CoredumperCompressor) (path : list Z) : Prop :=
  exists c name, c ∈ cs /\ compressor c = Some name /\ name <> [] /\
    (((ord "/" ∈ name) /\ path = name) \/
     ((ord "/" ∉ name) /\ exists p d, PATH = Some p /\ d ∈ split_path p /\ path = executable_in d name)).

(** A descriptor is only replaced when it is not above 2. *)
Definition kept (x y : Z) : Prop := 2 < x -> y = x.

(** The descriptors of the shared structure: of each pipe the child may replace the
    end that it uses. *)
Definition keeps_ends (a b : CreateArgs) : Prop :=
  (a_fds b).1 = (a_fds a).1 /\ kept (a_fds a).2 (a_fds b).2 /\
  kept (a_zip_in a).1 (a_zip_in b).1 /\ (a_zip_in b).2 = (a_zip_in a).2 /\
  (a_zip_out b).1 = (a_zip_out a).1 /\ kept (a_zip_out a).2 (a_zip_out b).2.

(** What a child makes of the shared structure [a]: it goes on in the table of
    compressors, and changes descriptors only up to 2. *)
Definition args_ok (a b : CreateArgs) : Prop :=
  a_PATH b = a_PATH a /\ a_compressors b `suffix_of` a_compressors a /\ keeps_ends a b.

Lemma args_ok_refl a : args_ok a a.
Proof. by unfold args_ok, keeps_ends, kept. Qed.

(** The ends that the child uses are above 2. *)
Definition above_2 (a : CreateArgs) : Prop := 2 < (a_fds a).2 /\ 2 < (a_zip_in a).1 /\ 2 < (a_zip_out a).2.

(** Then nothing changes. *)
Lemma keeps_ends_above a b : keeps_ends a b -> above_2 a ->
  a_fds b = a_fds a /\ a_zip_in b = a_zip_in a /\ a_zip_out b = a_zip_out a.
Proof.
  intros (H1 & H2 & H3 & H4 & H5 & H6) (A1 & A2 & A3). specialize (H2 A1). specialize (H3 A2). specialize (H6 A3).
  destruct (a_fds a), (a_fds b), (a_zip_in a), (a_zip_in b), (a_zip_out a), (a_zip_out b); cbn in *. by subst.
Qed.

Section Steps.
Context {W : Type} `{!KernelIO W} `{!KernelProc W} `{!KernelMisc W}.
Context (fuel : nat) (R : CreateArgs -> Prop) (X : Z -> Prop) (E : list Z -> Prop).
Abbreviation calm m := (calm (W := W) any R X E any m).

Lemma calm_set_args f : (forall a, R a -> R (f a)) -> calm (set_args f).
Proof. intros Hf. unfold set_args, get_args. calmly. by apply Hf. Qed.

Lemma calm_sys0 {A} (k : W -> Z * A * W) : (forall w r a w', k w = (r, a, w') -> dump_call any w w') -> calm (sys0 k).
Proof. intros Hk. unfold sys0. eapply calm_bind; [by apply (calm_syscall0 any any)|calmly]. Qed.

Lemma calm_my_no_intr k : (forall w r a w', k w = (r, a, w') -> dump_call any w w') -> calm (my_no_intr fuel k).
Proof.
  intros Hk. unfold my_no_intr. eapply calm_bind; [|calmly]. apply calm_MY_NO_INTR. intros my. by apply (calm_syscall0 any any).
Qed.
End Steps.
#[local] Hint Extern 1 (calm _ _ _ _ _ (sys0 _)) => apply calm_sys0; intros; by econstructor; eassumption : calm.
#[local] Hint Extern 1 (calm _ _ _ _ _ (my_no_intr _ _)) => apply calm_my_no_intr; intros; by econstructor; eassumption : calm.
#[local] Hint Resolve calm_set_args : calm.

(** *** The descriptors are put above 2 *)
Section Dup.
Context {W : Type} `{!KernelIO W} `{!KernelProc W} `{!KernelMisc W}.
Context (fuel : nat) (a0 : CreateArgs).
Abbreviation state := (cst W CreateArgs).

(** [m] returns, and takes structures with [R] to structures with [R']. *)
Definition reaches (R R' : CreateArgs -> Prop) {A} (m : M state A) : Prop := forall s, R (hnd s) ->
  match m s with Ret _ s' => R' (hnd s') | OutOfFuel => True | _ => False end.

Lemma reaches_bind R R1 R' {A B} (m : M state A) (k : A -> M state B) :
  reaches R R1 m -> (forall a, reaches R1 R' (k a)) -> reaches R R' (bind m k).
Proof. intros Hm Hk s HR. specialize (Hm s HR). unfold bind. destruct (m s); try done. by apply Hk. Qed.

Lemma reaches_get_hnd R : reaches R R get_hnd.
Proof. by intros s HR. Qed.

Lemma reaches_mono R R1 R' {A} (m : M state A) : reaches R R1 m -> (forall a, R1 a -> R' a) -> reaches R R' m.
Proof. intros Hm Hi s HR. specialize (Hm s HR). destruct (m s); auto. Qed.

Lemma calm_reaches R {A} (m : M state A) : calm any R (fun _ => False) (fun _ => False) any m -> reaches R R m.
Proof. intros Hm s HR. specialize (Hm s Logic.I HR). destruct (m s); tauto. Qed.

(** A loop of [dup] keeps what it has no influence on, and leaves a descriptor above 2. *)
Lemma dup_reaches (R : CreateArgs -> Prop) get set n :
  (forall fd a b, R a -> get a <= 2 -> R b -> R (set fd b)) ->
  reaches R (fun a => R a /\ 2 < get a) (dup_above_2 fuel n get set).
Proof.
  intros Hs. induction n as [|n IH]; cbn [dup_above_2]; [done|]. intros s HR. unfold get_args, bind at 1, get_hnd.
  destruct (Z.leb_spec (get (hnd s)) 2) as [Hle|Hgt]; [|done].
  assert (Hr : reaches R (fun a => R a /\ 2 < get a)
    (let! fd := my_no_intr fuel (k_dup (get (hnd s))) in set_args (set fd) ;;! dup_above_2 fuel n get set)).
  { eapply reaches_bind; [apply calm_reaches; auto with calm|]. intros fd. eapply reaches_bind; [|done].
    apply calm_reaches, calm_set_args. eauto. }
  exact (Hr s HR).
Qed.

Abbreviation ok := (args_ok a0).

(** Replacing an end that was not above 2. *)
Lemma set_fds1_ok fd a b : ok a -> (a_fds a).2 <= 2 -> ok b -> ok (set_fds1 fd b).
Proof.
  intros (_ & _ & _ & Ha & _) Hl (? & ? & ? & ? & ? & ? & ? & ?). unfold args_ok, keeps_ends. cbn. split_and!; try done.
  intros Hk. rewrite Ha in Hl by done. lia.
Qed.

Lemma set_zip_in0_ok fd a b : ok a -> (a_zip_in a).1 <= 2 -> ok b -> ok (set_zip_in0 fd b).
Proof.
  intros (_ & _ & _ & _ & Ha & _) Hl (? & ? & ? & ? & ? & ? & ? & ?). unfold args_ok, keeps_ends. cbn. split_and!; try done.
  intros Hk. rewrite Ha in Hl by done. lia.
Qed.

Lemma set_zip_out1_ok fd a b : ok a -> (a_zip_out a).2 <= 2 -> ok b -> ok (set_zip_out1 fd b).
Proof.
  intros (_ & _ & _ & _ & _ & _ & _ & Ha) Hl (? & ? & ? & ? & ? & ? & ? & ?). unfold args_ok, keeps_ends. cbn. split_and!; try done.
  intros Hk. rewrite Ha in Hl by done. lia.
Qed.

Lemma dup_fds n : reaches ok (fun a => ok a /\ 2 < (a_fds a).2) (dup_above_2 fuel n (fun a => (a_fds a).2) set_fds1).
Proof. apply dup_reaches, set_fds1_ok. Qed.

Lemma dup_zip_in n : reaches (fun a => ok a /\ 2 < (a_fds a).2) (fun a => (ok a /\ 2 < (a_fds a).2) /\ 2 < (a_zip_in a).1)
  (dup_above_2 fuel n (fun a => (a_zip_in a).1) set_zip_in0).
Proof. apply dup_reaches. intros fd a b [Ha _] Hl [Hb ?]. split; [by apply (set_zip_in0_ok _ a)|done]. Qed.

Lemma dup_zip_out n : reaches (fun a => (ok a /\ 2 < (a_fds a).2) /\ 2 < (a_zip_in a).1) (fun a => ok a /\ above_2 a)
  (dup_above_2 fuel n (fun a => (a_zip_out a).2) set_zip_out1).
Proof.
  eapply reaches_mono; [apply dup_reaches|unfold above_2; tauto].
  intros fd a b [[Ha _] _] Hl [[Hb ?] ?]. split; [|done]. split; [by apply (set_zip_out1_ok _ a)|done].
Qed.
End Dup.

(** *** The compressors are tried *)
Section Child.
Context {W : Type} `{!KernelIO W} `{!KernelProc W} `{!KernelMisc W}.
Context (fuel : nat) (ptr_bytes : list CoredumperCompressor -> list Z).
Context (a0 : CreateArgs).
Abbreviation PATH := (a_PATH a0).
Abbreviation all := (a_compressors a0).
Definition child_args (a : CreateArgs) : Prop := args_ok a0 a /\ above_2 a.

Abbreviation calm m := (calm (W := W) any child_args (fun c => c = 0) (runs_compressor PATH all) any m).

Lemma calm_stderr_to_null n : calm (stderr_to_null n).
Proof. induction n as [|n IH]; cbn [stderr_to_null]; calmly. Qed.

Lemma calm_close_others fds : calm (close_others fuel fds).
Proof. induction fds as [|i fds IH]; cbn [close_others]; unfold get_args; calmly. Qed.

Lemma calm_tell_parent : calm (tell_parent fuel ptr_bytes).
Proof. unfold tell_parent, my_c_write, get_args. calmly. Qed.
#[local] Hint Resolve calm_stderr_to_null calm_close_others calm_tell_parent : calm.

Lemma calm_try_exec path argv : runs_compressor PATH all path -> calm (try_exec path argv).
Proof. intros HE. unfold try_exec. calmly. by apply calm_exec. Qed.
#[local] Hint Resolve calm_try_exec : calm.

Lemma calm_try_dirs dirs nm argv : (forall d, d ∈ dirs -> runs_compressor PATH all (executable_in d nm)) ->
  calm (try_dirs dirs nm argv).
Proof.
  induction dirs as [|d dirs IH]; intros Hd; cbn [try_dirs]; [by apply calm_ret|]. calmly.
  - apply calm_try_exec, Hd. left.
  - apply IH. intros. apply Hd. by right.
Qed.

Lemma calm_try_compressor c nm argv : c ∈ all -> compressor c = Some nm -> nm <> [] -> calm (try_compressor PATH nm argv).
Proof.
  intros Hc Hn Hne. unfold try_compressor. destruct (bool_decide _) eqn:Hs.
  - apply bool_decide_eq_true in Hs. apply calm_try_exec. exists c, nm. auto 10.
  - apply bool_decide_eq_false in Hs. destruct PATH as [p|] eqn:EP; [|by apply calm_ret]. rewrite <- EP. apply calm_try_dirs.
    intros d Hd. exists c, nm. rewrite EP. split_and!; eauto 10.
Qed.

Lemma calm_try_compressors cs : cs `suffix_of` all -> calm (try_compressors fuel ptr_bytes cs).
Proof.
  induction cs as [|c cs IH]; intros Hcs; cbn [try_compressors]; [by apply calm_ret|].
  destruct (compressor c) as [[|x xs]|] eqn:Ec; [by apply calm_ret| |by apply calm_ret].
  apply calm_bind; [apply calm_tell_parent|]. intros _. unfold get_args.
  assert (cs `suffix_of` all) as Hsub by (etransitivity; [|exact Hcs]; by exists [c]).
  eapply calm_bind_post; [apply calm_get_hnd|]. intros a [(Ea & _) _]. rewrite Ea. apply calm_bind.
  - eapply calm_try_compressor; [|done|done]. destruct Hcs as [l ->]. rewrite elem_of_app. right. left.
  - intros _. apply calm_bind; [|auto]. apply calm_set_args. by intros b [(Eb & _ & Kb) Ab].
Qed.

(** What is left to do then: it ends with the structure as it should be. *)
Definition child_ends (R : CreateArgs -> Prop) {A} (m : M (cst W CreateArgs) A) : Prop := forall s, R (hnd s) ->
  match m s with
  | Execed path s' => runs_compressor PATH all path /\ child_args (hnd s')
  | Exited c s' => c = 0 /\ child_args (hnd s')
  | Ret _ _ | Aborted _ => False
  | OutOfFuel => True
  end.

Lemma child_ends_bind R R1 {A B} (m : M (cst W CreateArgs) A) (k : A -> M (cst W CreateArgs) B) :
  reaches R R1 m -> (forall a, child_ends R1 (k a)) -> child_ends R (bind m k).
Proof. intros Hm Hk s HR. specialize (Hm s HR). unfold bind. destruct (m s); try done. by apply Hk. Qed.

Lemma calm_child_ends {A} (m : M (cst W CreateArgs) A) :
  Calm.calm any child_args (fun c => c = 0) (runs_compressor PATH all) (fun _ => False) m -> child_ends child_args m.
Proof. intros Hm s HR. specialize (Hm s Logic.I HR). destruct (m s); tauto. Qed.

Lemma child_end : child_ends (args_ok a0) (CreatePipelineChild fuel ptr_bytes).
Proof.
  unfold CreatePipelineChild, get_args.
  eapply child_ends_bind; [apply reaches_get_hnd|]. intros a.
  eapply child_ends_bind; [apply calm_reaches; auto with calm|]. intros _.
  eapply child_ends_bind; [apply dup_fds|]. intros _.
  eapply child_ends_bind; [apply reaches_get_hnd|]. intros b.
  eapply child_ends_bind; [apply calm_reaches; auto with calm|]. intros _.
  eapply child_ends_bind; [apply dup_zip_in|]. intros _.
  eapply child_ends_bind; [apply dup_zip_out|]. intros _.
  apply calm_child_ends. calmly; [|by apply calm_exit].
  apply calm_try_compressors. by match goal with Ha : child_args ?a |- a_compressors ?a `suffix_of` _ => destruct Ha as [(_ & ? & _) _] end.
Qed.
End Child.

(** C22. The child that is to become the compressor never returns into the caller's
    code, whatever the system calls do: it is replaced by a program of the table,
    found as the table and PATH say, or it exits with 0.  In the structure it shares
    with its parent, the end that it uses of each of the three pipes is then above 2,
    and it is the one it was given if that was above 2; the other ends are as they
    were, and the pointer into the table has only moved forward. *)
Theorem CreatePipelineChild_ends {W : Type} `{!KernelIO W} `{!KernelProc W} `{!KernelMisc W} fuel ptr_bytes (s : cst W CreateArgs) :
  match CreatePipelineChild fuel ptr_bytes s with
  | Execed path s' => runs_compressor (a_PATH (hnd s)) (a_compressors (hnd s)) path /\ args_ok (hnd s) (hnd s') /\ above_2 (hnd s')
  | Exited c s' => c = 0 /\ args_ok (hnd s) (hnd s') /\ above_2 (hnd s')
  | Ret _ _ | Aborted _ => False
  | OutOfFuel => True
  end.
Proof. exact (child_end fuel ptr_bytes (hnd s) s (args_ok_refl _)). Qed.

(** The shared structure at the end of a child that starts in [w]. *)
Definition child_final {W : Type} `{!KernelIO W} `{!KernelProc W} `{!KernelMisc W} fuel ptr_bytes (w : W) (a : CreateArgs) : CreateArgs :=
  match CreatePipelineChild fuel ptr_bytes (Cst 0 w a) with
  | Execed _ s' | Exited _ s' => hnd s'
  | _ => a
  end.

Lemma child_final_keeps {W : Type} `{!KernelIO W} `{!KernelProc W} `{!KernelMisc W} fuel ptr_bytes (w : W) a :
  keeps_ends a (child_final fuel ptr_bytes w a).
Proof.
  pose proof (child_end fuel ptr_bytes a (Cst 0 w a) (args_ok_refl a)) as Hc. unfold child_final, child_args, args_ok in *.
  destruct (CreatePipelineChild fuel ptr_bytes (Cst 0 w a)); try tauto; apply args_ok_refl.
Qed.
