(* ===== verification/Resumed.v ===== *)
(** [InternalGetCoreDump] lets the threads of the process go, whatever happens
    while it dumps, and the process it forks never returns. *)
From stdpp Require Import gmap.
From S2P Require Import Prelude Syscall KernelSpec CIO ProcIO Smaps ElfTypes Vdso ElfCore.
From S2P Require Import Params Lister Frame Pipeline CoreDump Calm ListerSpec.

(** ** Through the code of [InternalGetCoreDump] *)
Section Code.
Context {W : Type} `{!KernelIO W} `{!KernelProc W} `{!KernelMisc W} `{!AddressSpace}.
Context (I : W -> Prop) (fresh : Z -> Prop) `{!Undisturbed I fresh}.
Context (R : lister -> Prop) (X : Z -> Prop) (E : list Z -> Prop).
Context (R_selected : forall v l, R l -> R (put_selected v l)) (fuel : nat) (aarch64 : bool) (uninit : list Z).
Context (ptr_bytes : list CoredumperCompressor -> list Z) (at_ptr : list Z -> option (list CoredumperCompressor)).
Context (seen final : CreateArgs -> CreateArgs) (openmax pagesize : Z).
Abbreviation calm_to V m := (calm I R X E V m).
Abbreviation calm m := (calm I R X E any m).

Lemma calm_modify f : (forall l, R l -> R (f l)) -> calm (modify f : M (cst W lister) _).
Proof. intros Hf. unfold modify. calmly. by apply Hf. Qed.

Lemma calm_select v : calm (modify (put_selected v) : M (cst W lister) _).
Proof. apply calm_modify. auto. Qed.

Lemma calm_with_handle {Hd A} (h : Hd) (m : M (cst W Hd) A) : Calm.calm I any X E any m -> calm (with_handle h m).
Proof.
  intros Hm s HI HR. specialize (Hm (Cst (errno s) (world s) h) HI Logic.I). unfold with_handle.
  destruct (m _); cbn in *; intuition.
Qed.
#[local] Hint Resolve calm_select calm_with_handle : calm.

Lemma calm_sys_num k : (forall w r u w', k w = (r, u, w') -> dump_call fresh w w') -> calm (sys_num k : M (cst W lister) _).
Proof. intros Hk. by eapply calm_syscall_. Qed.
#[local] Hint Extern 1 (Calm.calm _ _ _ _ _ (sys_num _)) => apply calm_sys_num; intros; by econstructor; eassumption : calm.
#[local] Hint Extern 1 (Calm.calm _ _ _ _ _ (NO_INTR _ _)) => apply calm_NO_INTR_on; calm_call : calm.

Lemma calm_read_thread frame pid : calm (read_thread frame pid : M (cst W lister) _).
Proof. unfold read_thread, sys_ptrace. calmly. Qed.
#[local] Hint Resolve calm_read_thread : calm.

Lemma calm_read_threads ps : forall frame, calm (read_threads frame ps : M (cst W lister) _).
Proof. induction ps as [|p ps IH]; intros frame; cbn [read_threads]; calmly. Qed.

Lemma calm_get_user p t : calm (get_user p t : M (cst W lister) _).
Proof.
  unfold get_user. assert (forall n i u, calm (read_user n p i u : M (cst W lister) _)).
  { induction n as [|n IH]; intros i u; cbn [read_user]; unfold sys_ptrace; calmly. }
  calmly.
Qed.

Lemma calm_get_psargs : calm (get_psargs fuel : M (cst W lister) _).
Proof. unfold get_psargs. calmly. Qed.
#[local] Hint Resolve calm_get_psargs : calm.

Lemma calm_get_prpsinfo p : calm (get_prpsinfo fuel p : M (cst W lister) _).
Proof. unfold get_prpsinfo, sys_getppid. calmly. Qed.

Lemma calm_get_prstatus i : calm (get_prstatus fuel i : M (cst W lister) _).
Proof. unfold get_prstatus. calmly. Qed.

Lemma calm_close_all_but k fds : calm (close_all_but fuel k fds : M (cst W lister) _).
Proof. induction fds as [|i fds IH]; cbn [close_all_but]; calmly. Qed.

Lemma calm_receive_fd n sock fd b : calm (receive_fd at_ptr n sock fd b : M (cst W lister) _).
Proof. induction n as [|n IH]; cbn [receive_fd]; calmly. Qed.

Lemma calm_close_nonneg fd : calm (close_nonneg fuel fd : M (cst W lister) _).
Proof. unfold close_nonneg. calmly. Qed.
#[local] Hint Resolve calm_close_nonneg : calm.

Lemma calm_close_fds fds : calm (close_fds fuel fds : M (cst W lister) _).
Proof. induction fds as [|fd fds IH]; unfold close_fds in *; cbn [fold_right]; calmly. Qed.

Lemma calm_open_output p : calm (open_output fuel p : M (cst W lister) _).
Proof. unfold open_output, sys_creat. calmly. Qed.
#[local] Hint Resolve calm_close_all_but calm_receive_fd calm_close_fds calm_open_output calm_keeping_errno
  calm_CreatePipeline calm_CreateElfCore calm_SimpleWriter calm_LimitWriter calm_PipeWriter calm_FlushPipe : calm.

Lemma calm_write_output fds fd ml pr info user st ts p notes :
  calm (write_output fuel aarch64 uninit pagesize fds fd ml pr info user st ts p notes : M (cst W lister) _).
Proof. unfold write_output, set_nonblocking. calmly. Qed.
#[local] Hint Resolve calm_write_output : calm.

Lemma calm_dump_to_file f ml PATH cs sel pr info user st ts p notes :
  calm_to (fun o => o = None \/ o = Some 0)
    (dump_to_file fuel aarch64 uninit at_ptr seen final openmax pagesize f ml PATH cs sel pr info user st ts p notes).
Proof. unfold dump_to_file. calmly. all: auto. Qed.

(** The forked child. *)
Lemma calm_insist n m : X 1 -> calm m -> calm (insist n m : M (cst W lister) _).
Proof. intros HX Hm. induction n as [|n IH]; cbn [insist]; calmly. by apply calm_exit. Qed.

Lemma calm_dump_child {V : Z -> Prop} sockets PATH cs info user st ts p notes : X 0 -> X 1 ->
  calm_to V (dump_child fuel aarch64 uninit ptr_bytes at_ptr seen final openmax pagesize sockets PATH cs info user st ts p notes).
Proof.
  intros H0 H1. unfold dump_child, _exit_if, sys_pipe. pose proof calm_insist. calmly.
  all: first [by apply calm_exit | apply calm_insist; [done|calmly]].
Qed.
End Code.
#[export] Hint Resolve calm_select calm_with_handle calm_read_threads calm_get_user calm_get_prpsinfo calm_get_prstatus
  calm_receive_fd calm_close_nonneg calm_dump_to_file : calm.

(** C23. The process that is forked to write the core file never returns into the
    program and executes nothing, whatever the system calls do: it exits, with 0 or,
    when it could not get as far as writing, with 1. *)
Theorem dump_child_ends {W : Type} `{!KernelIO W} `{!KernelProc W} `{!KernelMisc W} `{!AddressSpace}
    fuel aarch64 uninit ptr_bytes at_ptr seen final openmax pagesize
    sockets PATH cs info user st ts p notes (s : cst W lister) :
  match dump_child fuel aarch64 uninit ptr_bytes at_ptr seen final openmax pagesize
          sockets PATH cs info user st ts p notes s with
  | Exited c _ => c = 0 \/ c = 1
  | Ret _ _ | Execed _ _ | Aborted _ => False
  | OutOfFuel => True
  end.
Proof.
  pose proof (calm_dump_child (W := W) any any any (fun c => c = 0 \/ c = 1) (fun _ => False)
    fuel aarch64 uninit ptr_bytes at_ptr seen final openmax pagesize (V := fun _ => False)
    sockets PATH cs info user st ts p notes ltac:(by left) ltac:(by right) s Logic.I Logic.I) as Hc.
  destruct (dump_child _ _ _ _ _ _ _ _ _ _ _ _ _ _ _ _ _ _ s); tauto.
Qed.

(** ** What the kernel says about the processes of a dump *)

(** The calls of the dump have no influence on tracing; a new process is not
    traced, and [fork] returns its id. *)
Class DumpTracing (W : Type) `{Tracing W} `{KernelMisc W} := {
  dump_call_tracing : forall w w', dump_call (fun _ => False) w w' ->
    attached w' = attached w /\ stopped w' = stopped w;
  k_clone_vm_new : forall w r u w', k_clone_vm w = (r, u, w') ->
    attached w' = attached w /\ stopped w' = stopped w /\ (is_err r \/ 0 < r < 2 ^ 31 /\ r ∉ attached w);
  k_fork_parent : forall w r u w', k_fork w = (r, u, w') ->
    attached w' = attached w /\ stopped w' = stopped w /\ (is_err r \/ 0 < r < 2 ^ 31) }.

Section Resumed.
Context {W : Type} `{!KernelIO W} `{!KernelProc W} `{!Tracing W} `{!KernelMisc W} `{!DumpTracing W} `{!AddressSpace}.
Implicit Types (A S : gset Z).

Definition traced A S (w : W) : Prop := attached w = A /\ stopped w = S.

#[export] Instance traced_undisturbed A S : Undisturbed (traced A S) (fun p => 0 < p /\ p ∉ A).
Proof.
  split.
  - intros w w' [HA HS] Hc. assert (attached w' = attached w /\ stopped w' = stopped w) as [EA ES]; [|by split; congruence].
    inversion Hc; subst; try (apply dump_call_tracing; econstructor; eassumption).
    eapply k_wait_other; [eassumption|]. by left.
  - intros w r u w' [HA HS] Hk. destruct (k_clone_vm_new _ _ _ _ Hk) as (EA & ES & Hr). split; [by split; congruence|].
    intros e. destruct Hr as [Hr|[Hr Hn]].
    + rewrite LSS_RETURN_err by done. cbn. change (s32 (-1)) with (-1). lia.
    + rewrite LSS_RETURN_ok by lia. cbn [fst]. rewrite s32_small by lia. intros _. rewrite <- HA. split; [lia|done].
Qed.

Section Dump.
Context (fuel : nat) (aarch64 : bool) (uninit : list Z).
Context (ptr_bytes : list CoredumperCompressor -> list Z) (at_ptr : list Z -> option (list CoredumperCompressor)).
Context (seen final : CreateArgs -> CreateArgs) (openmax pagesize : Z).
Context (call : Z -> Z -> M (cst W lister) Z).

Abbreviation Tr := (Tr (W := W)).
Abbreviation never := (fun _ _ => False).

Definition lists (l : list Z) (h : lister) : Prop := pids h = l.

Lemma lists_selected l v h : lists l h -> lists l (put_selected v h).
Proof. done. Qed.
#[local] Hint Resolve lists_selected : calm.

Lemma calm_Tr {B} (V : B -> Prop) (m : M (cst W lister) B) A S l s :
  Tr A S l s -> calm (traced A S) (lists l) (fun _ => False) (fun _ => False) V m ->
  wlp m (fun a s' => V a /\ Tr A S l s') never s.
Proof.
  intros (HA & HS & Hl) Hm. eapply wlp_mono; [by apply (calm_wlp _ _ _ _ V m s Hm)| |by intros ? ? []].
  intros a s' (HV & [? ?] & ?). by split_and!.
Qed.

(** In the parent, forking leaves tracing alone and does not lead into the child. *)
Lemma fork_parent A S l s : Tr A S l s ->
  wlp (sys_num k_fork) (fun pid s' => pid <> 0 /\ Tr A S l s') never s.
Proof.
  intros (HA & HS & Hl). unfold sys_num, syscall_. wp_step. apply wlp_syscall. intros r [] w' Hk. apply wlp_ret.
  destruct (k_fork_parent _ _ _ _ Hk) as (EA & ES & Hr). split; [|by split_and!; cbn; congruence].
  destruct Hr as [Hr|Hr].
  - by rewrite LSS_RETURN_err.
  - rewrite LSS_RETURN_ok by lia. cbn [fst]. rewrite s32_small by lia. lia.
Qed.

(** Goes through code that makes only the calls of the dump. *)
Ltac part := eapply wlp_mono; [eapply (calm_Tr any); [eassumption|calmly] | cbn beta; intros ? ? [_ ?] | same_exit].

#[local] Hint Extern 1 (calm _ _ _ _ _ (sys_num _)) => eapply calm_sys_num; [eassumption|intros; by econstructor; eassumption] : calm.
#[local] Hint Extern 1 (Undisturbed _ _) => apply traced_undisturbed : calm.

Lemma dump_to_pipe_tr PATH cs sel info user st ts p notes A S l s : Tr A S l s ->
  wlp (dump_to_pipe fuel aarch64 uninit ptr_bytes at_ptr seen final openmax pagesize PATH cs sel info user st ts p notes)
    (fun _ s' => Tr A S l s') never s.
Proof.
  intros Hs. pose proof (traced_undisturbed A S). unfold dump_to_pipe. wp_step. part.
  match goal with |- context [let '(_, _) := ?x in _] => destruct x as [rc sockets] end.
  destruct (0 <=? rc); [|by apply wlp_ret]. wp_step. part.
  match goal with |- context [let '(_, _) := ?x in _] => destruct x as [rc' old] end.
  wp_step. eapply wlp_mono; [by apply fork_parent| |same_exit]. intros pid s3 [Hpid Hs3].
  rewrite (proj2 (Z.eqb_neq _ _)) by done. unfold sys_sigprocmask. part. done.
Qed.
Lemma resume_everything l s : Inv l s ->
  wlp (ResumeAllProcessThreads l) (fun _ s' => Tr ∅ ∅ l s') never s.
Proof.
  intros [Hs _]. eapply wlp_mono; [eapply resume_all; [exact Hs|set_solver]| |same_exit].
  intros ? s1 [Hs1 _]. by rewrite difference_diag_L in Hs1.
Qed.

Lemma resume_nothing l s : Tr ∅ ∅ l s -> wlp (ResumeAllProcessThreads l) (fun _ s' => Tr ∅ ∅ l s') never s.
Proof.
  intros Hs. eapply wlp_mono; [eapply resume_all; [exact Hs|set_solver]| |same_exit].
  intros ? s1 [Hs1 _]. by rewrite empty_difference_L in Hs1.
Qed.

(** What the caller of the dump may rely on: all threads run again, and a dump to
    a file returns 0 or -1. *)
Definition dumped (to_file : bool) (l : list Z) (r : Z) (s : cst W lister) : Prop :=
  Tr ∅ ∅ l s /\ (to_file = true -> r = 0 \/ r = -1).

Lemma dump_error_resumes b l s : Inv l s -> wlp (dump_error l) (dumped b l) never s.
Proof.
  intros Hs. unfold dump_error. wp_step. eapply wlp_mono; [by apply resume_everything| |same_exit].
  intros ? s1 Hs1. apply wlp_ret. split; auto.
Qed.

(** The callback of the application does not trace, and returns. *)
Context (call_tr : forall f a A S l s, Tr A S l s -> wlp (call f a) (fun _ s' => Tr A S l s') never s).

Lemma InternalGetCoreDump_spec frame params file_name PATH l s : Inv l s ->
  wlp (InternalGetCoreDump fuel aarch64 uninit ptr_bytes at_ptr seen final openmax pagesize call
         frame params file_name PATH l)
    (dumped (bool_decide (is_Some file_name)) l) never s.
Proof.
  intros [Hs Hnd]. pose proof (traced_undisturbed (list_to_set l) (list_to_set l)).
  assert (Hok : forall s, Tr (list_to_set l) (list_to_set l) l s -> Inv l s) by by split.
  unfold InternalGetCoreDump. cbv zeta. wp_step.
  eapply wlp_mono with (P := fun _ s' => Tr (list_to_set l) (list_to_set l) l s') (X := never);
    [destruct (negb _); [by apply call_tr|by apply wlp_ret]| |done].
  intros crc s1 Hs1. destruct (negb _); [by apply dump_error_resumes, Hok|]. wp_step. part.
  match goal with |- context [match ?o with _ => _ end] => destruct o as [ts|] end.
  2:{ wp_step. eapply wlp_mono; [by apply resume_everything, Hok| |same_exit]. intros ? s3 Hs3.
      unfold dump_error. wp_step. eapply wlp_mono; [by apply resume_nothing| |same_exit].
      intros ? s4 Hs4. apply wlp_ret. split; auto. }
  wp_step. part. wp_step. part. wp_step. part. wp_step. part.
  destruct file_name as [f|].
  - wp_step. eapply wlp_mono; [eapply calm_Tr; [eassumption|eapply calm_dump_to_file; eauto with calm]| |same_exit].
    intros o s6 [Ho Hs6]. destruct Ho as [-> | ->]; [by apply dump_error_resumes, Hok|].
    wp_step. eapply wlp_mono; [by apply resume_everything, Hok| |same_exit]. intros ? s7 Hs7. apply wlp_ret. split; auto.
  - wp_step. eapply wlp_mono; [by apply dump_to_pipe_tr| |same_exit]. intros fd s6 Hs6.
    wp_step. eapply wlp_mono; [by apply resume_everything, Hok| |same_exit]. intros ? s7 Hs7. apply wlp_ret. split; [done|].
    by rewrite bool_decide_false by (by intros [? ?]).
Qed.

(** C9. Given the threads of the process, all of them stopped, [InternalGetCoreDump]
    returns with every one of them detached and running, on success and on every
    error path, and it never exits in the parent; a dump to a file returns 0 or -1. *)
Theorem InternalGetCoreDump_resumes frame params file_name PATH l s : Inv l s ->
  wlp (InternalGetCoreDump fuel aarch64 uninit ptr_bytes at_ptr seen final openmax pagesize call
         frame params file_name PATH l)
    (dumped (bool_decide (is_Some file_name)) l) never s.
Proof. apply InternalGetCoreDump_spec. Qed.
End Dump.
End Resumed.

(** ** An instance *)
#[export] Instance tp_misc : KernelMisc procs := {|
  k_getpriority a b := tp_const 0 tt; k_geteuid := tp_const 1000 tt; k_getegid := tp_const 1000 tt;
  k_getpgrp := tp_const 7 tt; k_getsid p := tp_const 7 tt; k_readlink p n := tp_const (- EINVAL) [];
  k_creat p f m := tp_const 6 tt; k_socketpair := tp_const 0 (8, 9); k_fork := tp_const 300 tt;
  k_sendmsg s x f := tp_const (- EBADF) tt; k_recvmsg s := tp_const 8 (0, Some 10);
  k_shutdown s := tp_const 0 tt; k_clone_vm := tp_const (- EAGAIN) tt; k_execve p a := tp_const (- EPERM) tt |}.

#[export] Instance tp_dump_tracing : DumpTracing procs.
Proof.
  split.
  - intros w w' Hc. inversion Hc; subst; cbn in *; unfold tp_const in *; simplify_eq; try done.
    match goal with Hq : _ \/ _ |- _ => destruct Hq as [-> | [-> | ->]] end; cbn in *; by simplify_eq.
  - intros w r u w' Hk. cbn in Hk. injection Hk as <- <- <-. split_and!; [done|done|]. left. unfold is_err, EAGAIN. lia.
  - intros w r u w' Hk. cbn in Hk. injection Hk as <- <- <-. split_and!; [done|done|]. right. lia.
Qed.

#[export] Instance tp_memory : AddressSpace := fun _ => 0.

Definition tp_frame : Frame := mkFrame zero_regs 0 7.

(** The state in which the lister calls back. *)
Definition tp_listed : cst procs lister :=
  Cst 0 (Procs {[7; 9]} {[7; 9]} true) (mkLister [7; 9] true 2 (-1) (-1) (-1) 0 None).

Lemma InternalGetCoreDump_resumes_witness :
  wlp (InternalGetCoreDump 100 false [] (fun _ => []) (fun _ => None) (fun a => a) (fun a => a)
         10 4096 (fun _ _ => ret 0) tp_frame default_params None None [7; 9])
    (dumped (bool_decide (is_Some (@None (list Z)))) [7; 9]) (fun _ _ => False) tp_listed.
Proof.
  apply InternalGetCoreDump_resumes.
  - intros f a A S l s Hs. by apply wlp_ret.
  - split; [|apply NoDup_cons; split; [set_solver|apply NoDup_singleton]]. by split_and!; [set_solver..|].
Defined.
