(* ===== verification/Gather.v ===== *)
(** What [InternalGetCoreDump] gathers before it writes: the registers of the
    threads, the user structure, PRPSINFO and PRSTATUS.  Gathering ends, whatever
    it finds, and the registers are those of the threads. *)
From stdpp Require Import gmap.
From S2P Require Import Prelude Syscall KernelSpec CIO FileOps ElfTypes ElfCore ElfImage ElfLayout CreateCore LeadingZeros SmapsText.
From S2P Require Import Params Lister Frame Pipeline CoreDump Calm ListerSpec Resumed.

(** ** The size of the file

    It depends only on how many threads there are. *)
Section Size.
Context `{AddressSpace}.

Lemma core_image_size info u st ts info' u' st' ts' ps main_pid notes ms aux extra :
  inputs_ok info (Some u) ts notes ps -> inputs_ok info' (Some u') ts' notes ps ->
  NoDup (map t_pid ts) -> map t_pid ts' = map t_pid ts ->
  zlen (core_image info (Some u) st ts ps main_pid notes ms aux extra) =
  zlen (core_image info' (Some u') st' ts' ps main_pid notes ms aux extra).
Proof.
  intros [F A U R _ _] [F' A' U' R' _ _] Hnd Hp.
  assert (Hl : zlen ts' = zlen ts) by (unfold zlen; rewrite <- (length_map t_pid), Hp, length_map; done).
  unfold core_image. cbv zeta. unfold notes_filesz. rewrite Hl. unfold notes_image.
  rewrite !zlen_app. rewrite !zlen_core_note, !zlen_prpsinfo, (U u), (U' u'), !zlen_threads, Hl by (done || by rewrite Hp). done.
Qed.

Lemma note_align_range offset filesz ps : 0 < ps -> 0 <= note_align offset filesz ps < ps.
Proof.
  intros Hp. unfold note_align. cbv zeta. pose proof (Z.mod_pos_bound (u64 (offset + filesz)) ps Hp).
  destruct (Z.eqb_spec (ps - u64 (offset + filesz) mod ps) ps); lia.
Qed.

(** With fewer threads it gets no larger, but for the padding of the notes. *)
Lemma core_image_fewer info u st ts info' u' st' ts' ps main_pid notes ms aux extra :
  inputs_ok info (Some u) ts notes ps -> inputs_ok info' (Some u') ts' notes ps ->
  NoDup (map t_pid ts) -> NoDup (map t_pid ts') -> zlen ts' <= zlen ts ->
  zlen (core_image info' (Some u') st' ts' ps main_pid notes ms aux extra) <=
  zlen (core_image info (Some u) st ts ps main_pid notes ms aux extra) + ps.
Proof.
  intros [F A U R _ [Hps _]] [F' A' U' R' _ _] Hnd Hnd' Hl. unfold core_image. cbv zeta.
  set (noffset := notes_offset _). set (f := notes_filesz _ (zlen ts) _ _ _). set (f' := notes_filesz _ (zlen ts') _ _ _).
  pose proof (note_align_range noffset f ps Hps). pose proof (note_align_range noffset f' ps Hps).
  assert (Hh : zlen (concat (map Phdr_bytes (core_phdrs noffset f' ps ms extra))) =
    zlen (concat (map Phdr_bytes (core_phdrs noffset f ps ms extra)))) by by rewrite !zlen_phdr_table, !zlen_core_phdrs.
  unfold notes_image. rewrite !zlen_app, Hh. rewrite !zlen_core_note, !zlen_prpsinfo, (U u), (U' u'), !zlen_threads by done.
  unfold zeros. rewrite !zlen_replicate. unfold sizeof_Nhdr, sizeof_prstatus, sizeof_fpregs. nia.
Qed.
End Size.

(** What the file needs of its inputs does not depend on what the kernel reports. *)
Lemma core_inputs_any {W : Type} `{!KernelIO W} `{!AddressSpace} `{!Files W} {k : Z} `{!PipePage W (2 ^ k)}
    aarch64 info u st ts info' u' st' ts' main_pid notes gs es last nmax :
  core_inputs (k := k) aarch64 info (Some u) st ts main_pid notes gs es last nmax ->
  inputs_ok info' (Some u') ts' notes (2 ^ k) -> map t_pid ts' = map t_pid ts ->
  core_inputs (k := k) aarch64 info' (Some u') st' ts' main_pid notes gs es last nmax.
Proof.
  intros [Hi Hp Hf Hn Hs] Hi' Hp'. split; [done|by rewrite Hp'|done|done|]. unfold core_file in *.
  by rewrite <- (core_image_size info u st ts).
Qed.

(** ** What the kernel reports *)

(** The calls that only ask, other than those on files. *)
Inductive info_call {W : Type} `{KernelProc W} `{KernelMisc W} : W -> W -> Prop :=
  | i_ptrace q p a o w r d w' : k_ptrace q p a o w = (r, d, w') ->
      q = PTRACE_GETREGS \/ q = PTRACE_GETFPREGS \/ q = PTRACE_PEEKUSER -> info_call w w'
  | i_getppid w r u w' : k_getppid w = (r, u, w') -> info_call w w'
  | i_getpriority a b w r u w' : k_getpriority a b w = (r, u, w') -> info_call w w'
  | i_geteuid w r u w' : k_geteuid w = (r, u, w') -> info_call w w'
  | i_getegid w r u w' : k_getegid w = (r, u, w') -> info_call w w'
  | i_getpgrp w r u w' : k_getpgrp w = (r, u, w') -> info_call w w'
  | i_getsid p w r u w' : k_getsid p w = (r, u, w') -> info_call w w'
  | i_readlink p n w r l w' : k_readlink p n w = (r, l, w') -> info_call w w'.

Class Reports (W : Type) `{DumpTracing W} `{AddressSpace} `{!Files W} `{!Interrupts W} := {
  user_regs : Z -> list Z;
  user_fpregs : Z -> list Z;
  getregs_reports : forall p w r d w', k_ptrace PTRACE_GETREGS p 0 0 w = (r, d, w') -> p ∈ stopped w ->
    r = 0 /\ d = user_regs p;
  getfpregs_reports : forall p w r d w', k_ptrace PTRACE_GETFPREGS p 0 0 w = (r, d, w') -> p ∈ stopped w ->
    r = 0 /\ d = user_fpregs p;
  info_quiet : forall w w', info_call w w' -> (intr w' <= intr w)%nat /\ (slots w <= slots w')%nat }.

(** The registers of a thread in the dump: what ptrace says of it, or the frame, for
    the thread that asked. *)
Definition regs_in (gp : list Z) (frame : Frame) (p : Z) : regs :=
  let r := regs_of (from_scratch gp sizeof_regs) in
  if tid frame =? p then with_bases r (uregs frame) else r.

Lemma zlen_from_scratch d n : 0 <= n <= 4096 -> zlen (from_scratch d n) = n.
Proof.
  intros Hn. unfold from_scratch. apply zlen_ztake. rewrite zlen_app, zlen_replicate. pose proof (zlen_nonneg d). lia.
Qed.

Section Gather.
Context {W : Type} `{!KernelIO W} `{!KernelProc W} `{!Tracing W} `{!KernelMisc W} `{!DumpTracing W} `{!AddressSpace}
  `{!Files W} `{!Interrupts W} `{!Reports W} `{!ReadReady W}.
Context (fuel : nat).
Implicit Types (S : gset Z) (s : cst W lister).

(** The threads of [A] are traced and those of [S] stopped; [n] descriptors can be
    had, and not all calls are interrupted for ever. *)
Context (A : gset Z).

Definition rest S (h : lister) (n : nat) s : Prop :=
  traced A S (world s) /\ (intr (world s) < fuel)%nat /\ (n <= slots (world s))%nat /\ hnd s = h.

Lemma info_dump w w' : info_call w w' -> dump_call (fun _ => False) w w'.
Proof.
  intros [].
  - by eapply d_ptrace.
  - by eapply d_getppid.
  - by eapply d_getpriority.
  - by eapply d_geteuid.
  - by eapply d_getegid.
  - by eapply d_getpgrp.
  - by eapply d_getsid.
  - by eapply d_readlink.
Qed.

Lemma rest_info S h n s e w' : rest S h n s -> info_call (world s) w' -> rest S h n (Cst e w' (hnd s)).
Proof.
  intros ([HA HS] & Hi & Hn & Hh) Hc. destruct (info_quiet _ _ Hc). destruct (dump_call_tracing _ _ (info_dump _ _ Hc)) as [EA E].
  split; [by split; cbn; congruence|]. split_and!; cbn; [lia|lia|done].
Qed.

Lemma rest_errno S h n s e : rest S h n s -> rest S h n (Cst e (world s) (hnd s)).
Proof. done. Qed.

Lemma rest_syscall {B} cast (k : W -> Z * B * W) S h n s : rest S h n s ->
  (forall r a w', k (world s) = (r, a, w') -> info_call (world s) w') ->
  wp (syscall cast k) (fun _ s' => rest S h n s') s.
Proof. intros Hs Hk. apply wp_syscall. intros r a w' E. apply rest_info; eauto. Qed.

Lemma rest_syscall_ cast (k : W -> Z * unit * W) S h n s : rest S h n s ->
  (forall r a w', k (world s) = (r, a, w') -> info_call (world s) w') ->
  wp (syscall_ cast k) (fun _ s' => rest S h n s') s.
Proof.
  intros Hs Hk. unfold syscall_. wp_step. eapply wp_mono; [by apply rest_syscall|]. intros [rc []] s' Hs'. by apply wp_ret.
Qed.

(** A call that only asks. *)
Ltac ask :=
  wp_step; eapply wp_mono;
    [first [ eapply rest_syscall_; [eassumption|intros; by econstructor; eauto]
           | eapply rest_syscall; [eassumption|intros; by econstructor; eauto] ] | cbn beta ].

(** *** Threads *)

Definition thread_of (frame : Frame) (p : Z) : thread :=
  mkThread p (regs_in (user_regs p) frame p) (from_scratch (user_fpregs p) sizeof_fpregs).

(** Only the bases of the frame are changed, and they are set again each time. *)
Definition same_frame (f g : Frame) : Prop := tid f = tid g /\ forall r, with_bases r (uregs f) = with_bases r (uregs g).

Lemma read_thread_reports frame f0 p S h n s : same_frame frame f0 -> rest S h n s -> p ∈ S ->
  wp (read_thread frame p) (fun o s' => exists f', o = Some (f', thread_of f0 p) /\ same_frame f' f0 /\ rest S h n s') s.
Proof.
  intros [Ht Hf] Hs Hp. unfold read_thread. wp_step. apply wp_syscall. intros r d w' Hk.
  assert (Hs1 : forall e, rest S h n (Cst e w' (hnd s))) by (intros e; eapply rest_info; [done|econstructor; eauto]).
  destruct (getregs_reports _ _ _ _ _ Hk) as [-> ->]; [by destruct Hs as ([_ ->] & _)|].
  rewrite LSS_RETURN_ok by lia. cbn [fst snd]. change (negb (s64 0 =? 0)) with false. cbv iota zeta. wp_step.
  apply wp_mono with (P := fun '(f', r') s' => same_frame f' f0 /\ r' = regs_in (user_regs p) f0 p /\ rest S h n s').
  - unfold regs_in. rewrite Ht. destruct (tid f0 =? p) eqn:E.
    + unfold SET_FRAME. wp_step. unfold wp at 1, set_errno. apply wp_ret. cbn [uregs]. split; [|by rewrite Hf].
      split; [done|]. intros r. cbn [uregs]. rewrite <- Hf. done.
    + by apply wp_ret.
  - intros [f' r'] s2 (Hf' & -> & Hs2). wp_step. apply wp_syscall. intros r d w2 Hk2.
    destruct (getfpregs_reports _ _ _ _ _ Hk2) as [-> ->]; [by destruct Hs2 as ([_ ->] & _)|].
    rewrite LSS_RETURN_ok by lia. cbn [fst snd]. change (negb (s64 0 =? 0)) with false. cbv iota. apply wp_ret.
    exists f'. split_and!; [done|apply Hf'..|]. eapply rest_info; [done|econstructor; eauto].
Qed.

Lemma read_threads_reports frame f0 ps S h n : forall s, same_frame frame f0 -> rest S h n s -> (forall p, p ∈ ps -> p ∈ S) ->
  wp (read_threads frame ps) (fun o s' => o = Some (map (thread_of f0) ps) /\ rest S h n s') s.
Proof.
  revert frame. induction ps as [|p ps IH]; intros frame s Hf Hs Hp; cbn [read_threads]; [by apply wp_ret|].
  wp_step. eapply wp_mono; [apply read_thread_reports; [exact Hf|exact Hs|apply Hp; left]|].
  intros ? s1 (f' & -> & Hf' & Hs1). wp_step. eapply wp_mono; [apply IH; [exact Hf'|exact Hs1|]|].
  - intros q Hq. apply Hp. by right.
  - intros ? s2 (-> & Hs2). by apply wp_ret.
Qed.

(** *** The user structure *)

Lemma read_user_size n pid S h m : forall i user s, rest S h m s -> zlen user = sizeof_core_user -> 0 <= i ->
  i + 4 * Z.of_nat n <= sizeof_core_user ->
  wp (read_user n pid i user) (fun u s' => zlen u = sizeof_core_user /\ rest S h m s') s.
Proof.
  induction n as [|n IH]; intros i user s Hs Hu Hi Hn; cbn [read_user]; [by apply wp_ret|]. unfold sys_ptrace. ask.
  intros [rc d] s1 Hs1. apply IH; [done| |lia|lia]. destruct (0 <=? rc); [|done]. apply zlen_ztake. unfold store.
  rewrite !zlen_app, zlen_ztake by lia. set (d8 := ztake 8 d). pose proof (zlen_nonneg d8). unfold sizeof_core_user in *. split; [lia|].
  destruct (Z.leb_spec (i + zlen d8) 928); [rewrite zlen_zdrop by lia; lia|].
  pose proof (zlen_nonneg (zdrop (i + zlen d8) user)). lia.
Qed.

Lemma zlen_regs_bytes r : zlen (regs_bytes r) = sizeof_regs.
Proof. unfold regs_bytes. rewrite (zlen_concat_const _ 8); [done|]. unfold regs_list. cbn [map]. repeat constructor. Qed.

Lemma get_user_size pid r0 S h m s : rest S h m s ->
  wp (get_user pid r0) (fun u s' => zlen u = sizeof_core_user /\ ztake sizeof_regs u = regs_bytes r0 /\ rest S h m s') s.
Proof.
  intros Hs. unfold get_user. wp_step. eapply wp_mono; [apply (read_user_size _ _ S h m); [done|by rewrite zlen_replicate|done|done]|].
  intros u s1 [Hu Hs1]. apply wp_ret. unfold store. rewrite ztake_0. cbn [app].
  rewrite zlen_app, ztake_app_le, ztake_all, zlen_regs_bytes, zlen_zdrop; rewrite ?zlen_regs_bytes, ?Hu; done.
Qed.

(** *** Files *)

(** What the dump makes of its calls keeps the threads as they are. *)
Lemma rest_calm {B} (m : M (cst W lister) B) (Q : B -> cst W lister -> Prop) S h n s : rest S h n s ->
  calm (traced A S) (fun h' => h' = h) (fun _ => False) (fun _ => False) any m ->
  wp m (fun a s' => Q a s' /\ (intr (world s') <= intr (world s))%nat /\ (n <= slots (world s'))%nat) s ->
  wp m (fun a s' => Q a s' /\ rest S h n s') s.
Proof.
  intros (HT & Hi & Hn & Hh) Hc Hm. eapply wp_mono; [eapply wp_conj; [exact Hm|by eapply calm_wlp]|].
  intros a s' ((HQ & Hi' & Hn') & _ & HT' & Hh'). split; [done|]. split_and!; [done|lia|done|done].
Qed.

Lemma rest_less S h n m s : rest S h n s -> (m <= n)%nat -> rest S h m s.
Proof. intros (HT & Hi & Hn & Hh) Hm. split_and!; [done|done|lia|done]. Qed.

Lemma open_any p n s : (intr (world s) < fuel)%nat -> (Datatypes.S n <= slots (world s))%nat ->
  wp (NO_INTR fuel (sys_open p O_RDONLY 0)) (fun fd s' => (0 <= fd -> rd_open (world s') fd) /\
    (intr (world s') <= intr (world s))%nat /\ (n <= slots (world s'))%nat) s.
Proof.
  intros Hi Hn. unfold sys_open.
  apply (wp_NO_INTR (fun s' => (intr (world s') <= intr (world s))%nat /\ (Datatypes.S n <= slots (world s'))%nat)
    (fun s' => intr (world s'))); [|done|done].
  intros s1 r u w' [Hi1 Hn1] Hk. destruct (k_open_intr _ _ _ _ _ _ _ Hk) as [I1 I2].
  destruct (k_open_frame _ _ _ _ _ _ _ Hk) as (_ & _ & _ & F4 & F5). cbn [world]. split_and!.
  - intros He Hr. specialize (I2 Hr). unfold is_err in He. split_and!; lia.
  - intros He Hne. unfold is_err in He. split_and!; lia.
  - intros Hne. destruct (k_open_range _ _ _ _ _ _ _ Hk) as [|Hr]; [done|]. split; [done|].
    destruct (k_open_in _ _ _ _ _ _ Hk (proj1 Hr)) as (_ & Ho & _). split_and!; [done|lia|lia].
Qed.

(** Opening a file, reading once from it and closing it. *)
Lemma rest_open p S h n s : rest S h (Datatypes.S n) s ->
  wp (NO_INTR fuel (sys_open p O_RDONLY 0)) (fun fd s' => (0 <= fd -> rd_open (world s') fd) /\ rest S h n s') s.
Proof.
  intros Hs. apply rest_calm; [eapply rest_less; [done|lia]| |apply open_any; apply Hs].
  pose proof (traced_undisturbed A S). unfold sys_open. apply calm_NO_INTR_on. calm_call.
Qed.

Lemma rest_read fd k S h n s : rest S h n s -> rd_open (world s) fd -> 0 < k < SSIZE_LIM ->
  wp (c_read fuel fd k) (fun r s' => (0 <= r.1 <= k /\ zlen r.2 = r.1) /\ rest S h n s') s.
Proof.
  intros Hs Ho Hk. pose proof (traced_undisturbed A S). apply rest_calm; [done|by eapply calm_c_read|].
  destruct Hs as (_ & Hi & Hn & _). eapply wp_mono; [by apply c_read_ready|].
  intros r s' ((_ & (_ & _ & _ & Hsl) & [[Hr _]|(_ & _ & _ & Hz & _)]) & Hr' & Hi'); [lia|]. split_and!; (done || lia).
Qed.

Lemma rest_close fd S h n s : rest S h n s -> wp (NO_INTR fuel (sys_close fd)) (fun _ s' => rest S h n s') s.
Proof.
  intros Hs. pose proof (traced_undisturbed A S). eapply wp_mono; [apply (rest_calm _ (fun _ _ => True) S h n s Hs)|by intros ? ? [_ ?]].
  - unfold sys_close. apply calm_NO_INTR_on. calm_call.
  - eapply wp_mono; [apply close_file; apply Hs|]. intros ? s' (_ & Hi & _ & _ & _ & Hsl). destruct Hs as (_ & _ & Hn & _).
    split_and!; (done || lia).
Qed.

(** *** PRPSINFO and PRSTATUS *)

Lemma zlen_padded n l : 0 <= n -> zlen (padded n l) = n.
Proof.
  intros Hn. unfold padded. rewrite zlen_app, zlen_replicate. pose proof (zlen_nonneg (ztake n l)).
  assert (zlen (ztake n l) <= n) by (unfold zlen, ztake; rewrite length_take; lia). lia.
Qed.

Lemma get_psargs_size S h n s : rest S h (Datatypes.S n) s ->
  wp (get_psargs fuel) (fun l s' => zlen l = 80 /\ rest S h n s') s.
Proof.
  intros Hs. unfold get_psargs. wp_step. eapply wp_mono; [by apply rest_open|]. intros fd s1 [Ho Hs1].
  destruct (Z.leb_spec 0 fd); [|by apply wp_ret]. wp_step.
  eapply wp_mono; [apply rest_read; [exact Hs1|auto|done]|]. intros [size d] s2 [_ Hs2].
  wp_step. eapply wp_mono; [by apply rest_close|]. intros ? s3 Hs3. apply wp_ret. split; [by apply zlen_padded|done].
Qed.

(** The structure names the process that asked, and its strings have their sizes. *)
Definition info_ok (main_pid : Z) (info : prpsinfo) : Prop :=
  ps_pid info = main_pid /\ zlen (pr_fname info) = 16 /\ zlen (pr_psargs info) = 80.

Lemma get_prpsinfo_ok main_pid S h n s : rest S h (Datatypes.S n) s ->
  wp (get_prpsinfo fuel main_pid) (fun info s' => info_ok main_pid info /\ rest S h n s') s.
Proof.
  intros Hs. unfold get_prpsinfo, sys_num, sys_getppid. do 6 (ask; intros ? ? ?). ask. intros [size link] s7 Hs7.
  wp_step. eapply wp_mono; [by apply get_psargs_size|]. intros psargs s8 [Hp Hs8]. apply wp_ret.
  split; [|done]. by split_and!; [|apply zlen_padded|].
Qed.

Lemma get_prstatus_ends info S h n s : rest S h (Datatypes.S n) s -> wp (get_prstatus fuel info) (fun _ s' => rest S h n s') s.
Proof.
  intros Hs. unfold get_prstatus. cbv zeta. wp_step. eapply wp_mono; [by apply rest_open|]. intros fd s1 [Ho Hs1].
  destruct (Z.leb_spec 0 fd); [|by apply wp_ret]. wp_step.
  eapply wp_mono; [apply rest_read; [exact Hs1|auto|done]|]. intros [size d] s2 [_ Hs2]. cbv beta iota zeta.
  wp_step. eapply wp_mono; [by apply rest_close|]. intros ? s3 Hs3. by apply wp_ret.
Qed.
End Gather.
