(* ===== verification/OtherDump.v ===== *)
(** How [InternalGetCoreDump] reads the registers of a thread on MIPS and AArch64,
    and how it gets those of its own process where there is no thread lister
    ([GetParentRegs], for x86-64).  System calls report errors as on x86-64 here;
    [LSS_RETURN_agree] of Abi.v says that this makes no difference. *)
From stdpp Require Import gmap.
From S2P Require Import Prelude Syscall KernelSpec ElfTypes Params Lister ListerSpec Complete Found Frame CoreDump.

Definition PTRACE_GETREGSET : Z := 0x4204.
Definition NT_PRSTATUS_SET : Z := 1.
Definition NT_FPREGSET_SET : Z := 2.

(** The user-area offsets of the MIPS kernel: 0 to 31 are the general registers, 32 to
    63 those of the floating-point unit, then these. *)
Definition MIPS_PC : Z := 64.
Definition MIPS_CAUSE : Z := 65.
Definition MIPS_BADVADDR : Z := 66.
Definition MIPS_MMHI : Z := 67.
Definition MIPS_MMLO : Z := 68.
Definition MIPS_FPC_CSR : Z := 69.
Definition MIPS_FPC_EIR : Z := 70.

(** ** MIPS *)
Section Mips.
Context {W H : Type} `{KernelProc W}.
Abbreviation P A := (M (cst W H) A).

(** The size of a long. *)
Variable long : Z.

(** Where the kernel keeps each field of [struct regs]; -1 for those it does not have. *)
Definition map_regs : list Z :=
  [-1; -1; -1; -1; -1; -1; 0; 1; 2; 3; 4; 5; 6; 7; 8; 9; 10; 11; 12; 13;
   14; 15; 16; 17; 18; 19; 20; 21; 22; 23; 24; 25; 26; 27; 28; 29; 30; 31;
   67; 68; 64; 66; 69; 65; -1].

(** [None] is [goto error]. *)
Fixpoint peek_regs (pid : Z) (map : list Z) : P (option (list Z)) :=
  match map with
  | [] => ret (Some [])
  | m :: map' =>
      let? v :=
        (if 0 <=? m then
           let! (rc, d) := sys_ptrace PTRACE_PEEKUSER pid m 0 in
           if negb (rc =? 0) then ret None else ret (Some (unle (ztake long d)))
         else ret (Some 0)) in
      let? vs := peek_regs pid map' in
      ret (Some (v :: vs))
  end.

(** The fields of the structure, as the machine stores them. *)
Definition mips_of (l : list Z) : mips_regs :=
  mkMips (take 6 l) (take 32 (drop 6 l)) (nth 38 l 0) (nth 39 l 0) (nth 40 l 0) (drop 41 l).

(** The floating-point registers, each in eight bytes. *)
Fixpoint peek_fpregs (n : nat) (pid j : Z) (fp : list Z) : P (option (list Z)) :=
  match n with
  | O => ret (Some fp)
  | S n' =>
      let! (rc, d) := sys_ptrace PTRACE_PEEKUSER pid (32 + j) 0 in
      if negb (rc =? 0) then ret None
      else peek_fpregs n' pid (j + 1) (store (8 * j) (ztake long d) fp)
  end.

Definition sizeof_mips_fpregs : Z := 264.

Definition read_thread_mips (frame : MipsFrame) (pid : Z) : P (option (mips_regs * list Z)) :=
  let? l := peek_regs pid map_regs in
  let r := mips_of l in
  let fp := replicate (Z.to_nat sizeof_mips_fpregs) 255 in
  let? fp := peek_fpregs 32 pid 0 fp in
  let! (rc, d) := sys_ptrace PTRACE_PEEKUSER pid 69 0 in
  let fp := if rc =? 0 then store 256 (ztake 4 d) fp else fp in
  let! (rc, d) := sys_ptrace PTRACE_PEEKUSER pid 70 0 in
  let fp := if rc =? 0 then store 260 (ztake 4 d) fp else fp in
  let! (rc, d) := sys_ptrace PTRACE_GETFPREGS pid 0 0 in
  let fp := if rc =? 0 then from_scratch d sizeof_mips_fpregs else fp in
  if mips_tid frame =? pid then
    let (e, r) := mips_SET_FRAME frame r in
    set_errno e ;;!
    ret (Some (r, fp))
  else ret (Some (r, fp)).
End Mips.

(** ** AArch64 *)
Section Arm64.
Context {W H : Type} `{KernelProc W}.
Abbreviation P A := (M (cst W H) A).

(** [struct arm64_regs] is 34 words. *)
Definition sizeof_arm64_regs : Z := 272.
Definition sizeof_arm64_fpregs : Z := 520.
Definition arm64_of (l : list Z) : list Z := map (word l) (seq 0 34).

Definition read_thread_arm64 (frame : Arm64Frame) (pid : Z) : P (option (list Z * list Z)) :=
  let! (rc, d) := sys_ptrace PTRACE_GETREGSET pid NT_PRSTATUS_SET 0 in
  if rc <? 0 then ret None
  else
    let r := arm64_of (from_scratch d sizeof_arm64_regs) in
    let! r :=
      (if arm64_tid frame =? pid then
         let (e, r) := arm64_SET_FRAME frame r in set_errno e ;;! ret r
       else ret r) in
    let! (rc, d) := sys_ptrace PTRACE_GETREGSET pid NT_FPREGSET_SET 0 in
    if rc <? 0 then ret None
    else ret (Some (r, from_scratch d sizeof_arm64_fpregs)).
End Arm64.

(** ** Without threads *)
Section Parent.
Context {W H : Type} `{KernelIO W} `{KernelProc W} `{KernelMisc W}.
Abbreviation P A := (M (cst W H) A).

(** What [GetParentRegs] has stored through its arguments. *)
Record parent_regs := ParentRegs { p_frame : Frame; p_cpu : regs; p_fp : list Z; p_hasSSE : Z }.

(** [GetParentRegs]; the process that returns is the one it forks. *)
Definition GetParentRegs (a : parent_regs) : P (Z * parent_regs) :=
  let! pid := sys_getppid in
  let! (rc, _) := sys_ptrace PTRACE_ATTACH pid 0 0 in
  let! (rc, a) :=
    (if rc =? 0 then
       let! (w, _) := sys_waitpid pid __WALL in
       if 0 <=? w then
         let! (rc, d) := sys_ptrace PTRACE_GETREGS pid 0 0 in
         if rc =? 0 then
           let cpu := regs_of (from_scratch d sizeof_regs) in
           let '(e, f, cpu) := SET_FRAME (p_frame a) cpu in
           set_errno e ;;!
           let a := ParentRegs f cpu (p_fp a) (p_hasSSE a) in
           let! (rc, d) := sys_ptrace PTRACE_GETFPREGS pid 0 0 in
           if rc =? 0 then ret (1, ParentRegs f cpu (from_scratch d sizeof_fpregs) 0)
           else ret (0, a)
         else ret (0, a)
       else ret (0, a)
     else ret (0, a)) in
  sys_ptrace_detach pid ;;!
  let! child := syscall_ s32 k_fork in
  if child =? -1 then ret (0, a)
  else if child =? 0 then ret (rc, a)
  else sys__exit 0.
End Parent.

(** ** What is read on MIPS *)
Section MipsFacts.
Context {W H : Type} `{KernelProc W}.
Abbreviation P A := (M (cst W H) A).
Variables (long : Z) (u : Z -> list Z).
(** The kernel has [u m] at offset [m] of the user area. *)
Hypothesis (user_area : forall pid m own w, 0 <= m <= 70 -> exists w', k_ptrace PTRACE_PEEKUSER pid m own w = (0, u m, w')).

Definition value (m : Z) : Z := unle (ztake long (u m)).

Lemma peek_user pid m (Q : Z * list Z -> cst W H -> Prop) s : 0 <= m <= 70 -> (forall s', Q (0, u m) s') ->
  wp (sys_ptrace PTRACE_PEEKUSER pid m 0) Q s.
Proof. intros Hm HQ. destruct (user_area pid m 0 (world s) Hm) as [w' E]. unfold wp, sys_ptrace, syscall. rewrite E. apply HQ. Qed.

Lemma peek_regs_all pid map (s : cst W H) : Forall (fun m => m <= 70) map ->
  wp (peek_regs long pid map) (fun o _ => o = Some (List.map (fun m => if 0 <=? m then value m else 0) map)) s.
Proof.
  intros Hm. revert s. induction Hm as [|m map Hm _ IH]; intros s; cbn [peek_regs]; [done|]. wp_step.
  apply wp_mono with (P := fun o _ => o = Some (if 0 <=? m then value m else 0)).
  - destruct (Z.leb_spec 0 m); [|done]. wp_step. by apply peek_user; [lia|].
  - intros ? s1 ->. wp_step. eapply wp_mono; [apply IH|]. by intros ? s2 ->.
Qed.

Lemma peek_fpregs_all n pid : forall j fp (s : cst W H), 0 <= j -> j + Z.of_nat n <= 32 ->
  wp (peek_fpregs long n pid j fp) (fun o _ => exists fp', o = Some fp') s.
Proof.
  induction n as [|n IH]; intros j fp s Hj Hn; cbn [peek_fpregs]; [by eexists|]. wp_step.
  apply peek_user; [lia|]. intros s1. cbn. apply IH; lia.
Qed.

(** C28. On a kernel that has the registers of a MIPS thread in its user area, they
    are all found; the general registers, hi, lo, the program counter, the bad
    address and the cause are those of the thread, or the former four those of the
    frame if the thread is the one that asked for the dump.  But the status
    register holds the control register of the floating-point unit. *)
Theorem mips_thread_registers frame pid (s : cst W H) :
  wp (read_thread_mips long frame pid) (fun o _ => exists r fp, o = Some (r, fp) /\
    mips_rest r = [value MIPS_BADVADDR; value MIPS_FPC_CSR; value MIPS_CAUSE; 0] /\
    if mips_tid frame =? pid then
      mips_pad r = replicate 6 0 /\ take 32 (mips_uregs r) = take 32 (mips_uregs (mips frame)) /\
      mips_hi r = mips_hi (mips frame) /\ mips_lo r = mips_lo (mips frame) /\ mips_epc r = mips_epc (mips frame)
    else
      mips_uregs r = List.map value (seqZ 0 32) /\ mips_hi r = value MIPS_MMHI /\ mips_lo r = value MIPS_MMLO /\
      mips_epc r = value MIPS_PC) s.
Proof.
  unfold read_thread_mips. wp_step. eapply wp_mono; [apply peek_regs_all; repeat constructor; lia|].
  intros ? s1 ->. wp_step. eapply wp_mono; [apply peek_fpregs_all; lia|]. intros ? s2 [fp1 ->].
  wp_step. apply peek_user; [lia|]. intros s3. wp_step. apply peek_user; [lia|]. intros s4. cbn [Z.eqb].
  wp_step. unfold sys_ptrace. apply wp_syscall. intros r d w' _. cbn [fst snd].
  set (regs := mips_of _). assert (Hrest : mips_rest regs = [value MIPS_BADVADDR; value MIPS_FPC_CSR; value MIPS_CAUSE; 0]) by done.
  destruct (mips_tid frame =? pid).
  - unfold mips_SET_FRAME. wp_step. unfold wp at 1, set_errno. apply wp_ret. eexists _, _. split; [done|]. split; [done|].
    cbn [mips_pad mips_uregs mips_hi mips_lo mips_epc]. split_and!; [done| |done..].
    change (drop 32 (mips_uregs regs)) with (@nil Z). by rewrite app_nil_r, take_take.
  - apply wp_ret. eexists _, _. by split_and!.
Qed.
End MipsFacts.

(** ** The registers of the parent *)

(** The process that makes the calls: the one that has called [GetParentRegs], the same
    after it has forked, or the one that it has forked. *)
Inductive process := Caller | Forker | Forked.

(** [parent_regs p] and [parent_fpregs p] are the registers with which [p] has stopped.
    Where [traceable] holds the parent may be traced.  Reading registers and forking
    do not make a process trace another. *)
Class Forking (W : Type) `{Tracing W} `{KernelMisc W} := {
  running : W -> process;
  the_parent : Z;
  traceable : Prop;
  saved_regs : Z -> list Z;
  saved_fpregs : Z -> list Z;
  f_parent : 0 < the_parent < 2 ^ 31;
  f_getppid : forall w r u w', k_getppid w = (r, u, w') -> r = the_parent;
  f_lister : forall w w', lister_call w w' -> running w' = running w;
  f_attach : forall w r d w', k_ptrace PTRACE_ATTACH the_parent 0 0 w = (r, d, w') -> traceable -> the_parent ∉ attached w -> r = 0;
  f_wait : forall w r st w', k_waitpid the_parent __WALL w = (r, st, w') -> traceable -> the_parent ∈ attached w -> 0 <= r;
  f_regs : forall q p w r d w', k_ptrace q p 0 0 w = (r, d, w') -> q = PTRACE_GETREGS \/ q = PTRACE_GETFPREGS ->
    attached w' = attached w /\ stopped w' = stopped w /\ running w' = running w /\
    (p ∈ stopped w -> is_err r /\ ~ traceable \/ r = 0 /\ d = (if q =? PTRACE_GETREGS then saved_regs p else saved_fpregs p));
  f_fork : forall w r u w', k_fork w = (r, u, w') -> attached w' ⊆ attached w /\
    (is_err r /\ running w' = running w \/ 0 < r < 2 ^ 31 /\ running w' = Forker \/ r = 0 /\ running w' = Forked) }.

Section ParentFacts.
Context {W : Type} `{!KernelIO W} `{!KernelProc W} `{!KernelMisc W} `{!Tracing W} `{!Forking W}.
Implicit Types (A S : gset Z) (s : cst W lister).
Abbreviation pid := the_parent.

(** The threads traced, before the fork. *)
Definition unforked A S l s : Prop := Tr A S l s /\ running (world s) = Caller.

(** One of the two calls that read registers. *)
Lemma read_regs q X l s : unforked {[pid]} {[pid]} l s -> q = PTRACE_GETREGS \/ q = PTRACE_GETFPREGS ->
  wlp (sys_ptrace q pid 0 0) (fun '(rc, d) s' => unforked {[pid]} {[pid]} l s' /\
    (rc <> 0 /\ ~ traceable \/ rc = 0 /\ d = (if q =? PTRACE_GETREGS then saved_regs pid else saved_fpregs pid))) X s.
Proof.
  intros [(HA & HS & Hl) Hr] Hq. apply wlp_syscall. intros r d w' Hk.
  destruct (f_regs _ _ _ _ _ _ Hk Hq) as (E1 & E2 & E3 & Hd). destruct Hd as [[He Hn]|[-> ->]]; [rewrite HS; set_solver| |].
  - rewrite LSS_RETURN_err by done. split; [|by left]. split; [by split_and!; cbn; congruence|cbn; congruence].
  - split; [|by right]. split; [by split_and!; cbn; congruence|cbn; congruence].
Qed.

(** What [GetParentRegs] stores when it returns 1: what ptrace has said of the
    parent, with the registers of the frame. *)
Definition registers_read (a a' : parent_regs) : Prop := p_hasSSE a' = 0 /\
  p_cpu a' = (SET_FRAME (p_frame a) (regs_of (from_scratch (saved_regs pid) sizeof_regs))).2 /\
  p_fp a' = from_scratch (saved_fpregs pid) sizeof_fpregs.

(** Reading them, and the state before the parent is detached. *)
Lemma read_parent a X l s : unforked {[pid]} {[pid]} l s ->
  wlp (let! (rc, d) := sys_ptrace PTRACE_GETREGS pid 0 0 in
       if rc =? 0 then
         let cpu := regs_of (from_scratch d sizeof_regs) in
         let '(e, f, cpu) := SET_FRAME (p_frame a) cpu in
         set_errno e ;;!
         let a := ParentRegs f cpu (p_fp a) (p_hasSSE a) in
         let! (rc, d) := sys_ptrace PTRACE_GETFPREGS pid 0 0 in
         if rc =? 0 then ret (1, ParentRegs f cpu (from_scratch d sizeof_fpregs) 0) else ret (0, a)
       else ret (0, a))
    (fun '(rc, a') s' => unforked {[pid]} {[pid]} l s' /\ (rc = 0 /\ ~ traceable \/ rc = 1 /\ registers_read a a')) X s.
Proof.
  intros Hs. wp_step. eapply wlp_mono; [apply read_regs; [exact Hs|by left]| |same_exit]. intros [rc d] s1 [Hs1 [[Hne Hn]|[-> ->]]].
  { rewrite (proj2 (Z.eqb_neq rc 0)) by done. apply wlp_ret. auto. }
  cbn [Z.eqb]. cbv zeta. destruct (SET_FRAME _ _) as [[e f] cpu] eqn:E.
  wp_step. unfold wlp at 1, set_errno. wp_step. eapply wlp_mono; [apply read_regs; [exact Hs1|by right]| |same_exit].
  intros [rc d] s2 [Hs2 [[Hne Hn]|[-> ->]]]; [rewrite (proj2 (Z.eqb_neq rc 0)) by done; apply wlp_ret; auto|].
  apply wlp_ret. split; [done|]. right. split; [done|]. unfold registers_read. cbn [p_cpu p_fp p_hasSSE].
  change (PTRACE_GETREGS =? PTRACE_GETREGS) with true in E. cbv iota in E. by rewrite E.
Qed.

(** Detaching returns, whatever it does. *)
Lemma any_syscall_ cast (k : W -> Z * unit * W) X s : wlp (syscall_ cast k) (fun _ _ => True) X s.
Proof. unfold syscall_. wp_step. apply wlp_syscall. intros r [] w' _. by apply wlp_ret. Qed.

Lemma any_detach p X s : wlp (sys_ptrace_detach p) (fun _ _ => True) X s.
Proof.
  unfold sys_ptrace_detach. wp_step. eapply wlp_mono; [apply any_syscall_| |same_exit]. intros ? s1 _.
  wp_step. apply wlp_syscall. intros r d w' _. wp_step. unfold wlp at 1, get_errno.
  wp_step. eapply wlp_mono; [apply any_syscall_| |same_exit]. intros ? s2 _. wp_step. unfold wlp at 1, get_errno. wp_step.
  eapply wlp_mono with (P := fun _ _ => True) (X := X); [destruct (_ =? ENOSYS)| |done]; [wp_step; eapply wlp_mono;
    [apply any_syscall_|intros ? s3 _; by apply wlp_ret|same_exit]|by apply wlp_ret|].
  intros ? s3 _. wp_step. unfold wlp at 1, set_errno. by apply wlp_ret.
Qed.

Lemma detach_caller p X s : running (world s) = Caller ->
  wlp (sys_ptrace_detach p) (fun _ s' => running (world s') = Caller) X s.
Proof.
  intros Hr. assert (Hk : forall w w', running w = Caller -> lister_call w w' -> running w' = Caller) by (intros w w' Hw Hc; by rewrite (f_lister _ _ Hc)).
  eapply wlp_mono; [exact (wlp_conj _ _ _ _ _ _ (any_detach p X s) (stays_detach (fun w => running w = Caller) Hk p s Hr))|..];
    by intros ? ? [].
Qed.

(** The results: in the forked process they say whether the registers have been
    read; in the process that called, that it could not be forked. *)
Definition returned (a : parent_regs) (rc : Z) (a' : parent_regs) s : Prop :=
  running (world s) = Caller /\ rc = 0 \/
  running (world s) = Forked /\
    (rc = 0 /\ ~ traceable \/ rc = 1 /\ attached (world s) = ∅ /\ registers_read a a').

(** The process that has forked exits; the one that is forked goes on. *)
Lemma fork_away a rc a' s : running (world s) = Caller ->
  rc = 0 /\ ~ traceable \/ rc = 1 /\ attached (world s) = ∅ /\ registers_read a a' ->
  wlp (let! child := syscall_ s32 k_fork in
       if child =? -1 then ret (0, a') else if child =? 0 then ret (rc, a') else sys__exit 0)
    (fun '(rc, a') => returned a rc a') (fun c s' => c = 0 /\ running (world s') = Forker) s.
Proof.
  intros HR Hrc. wp_step. unfold syscall_. wp_step. apply wlp_syscall. intros r [] w' E. apply wlp_ret.
  destruct (f_fork _ _ _ _ E) as [Ha [[He Hw]|[[Hr Hw]|[-> Hw]]]].
  - rewrite LSS_RETURN_err by done. cbn [fst]. change (-1 =? -1) with true. cbv iota. apply wlp_ret. left. cbn. split; [congruence|done].
  - rewrite LSS_RETURN_ok, s32_small by lia. cbn [fst]. rewrite (proj2 (Z.eqb_neq r (-1))), (proj2 (Z.eqb_neq r 0)) by lia. done.
  - change (_ =? -1) with false. change (_ =? 0) with true. cbv iota. apply wlp_ret. right. split; [done|].
    destruct Hrc as [Hrc|(Hrc & Hat & Hrr)]; [by left|right]. split_and!; [done| |done]. cbn. rewrite Hat in Ha. set_solver + Ha.
Qed.

End ParentFacts.

(** ** Instances *)

(** A MIPS kernel that has the number [1000 + m] at offset [m] of the user area. *)
Module MipsKernel.
Definition peek_user_area (q p m own : Z) (w : unit) : Z * list Z * unit :=
  if q =? PTRACE_PEEKUSER then (0, le 8 (1000 + m), w) else (- EINVAL, [], w).

Definition none {A : Type} (a : A) (w : unit) : Z * A * unit := (- ENOSYS, a, w).

#[export] Instance mips_proc : KernelProc unit := {|
  k_gettid := none tt; k_getpid := none tt; k_getppid := none tt; k_ptrace := peek_user_area;
  k_waitpid p o := none 0; k_tkill p sg := none tt; k_kill p sg := none tt; k_sched_yield := none tt;
  k_prctl o a := none tt; k_socket := none tt; k_stat p := none 0; k_fstat f := none 0; k_opendir p := none tt;
  k_getdents f c := none []; k_lseek f o h := none tt; k_sigaltstack := none tt; k_rt_sigaction sg := none tt;
  k_rt_sigprocmask how set := none []; k_clone := none tt |}.

Lemma mips_user_area pid m own (w : unit) : 0 <= m <= 70 ->
  exists w', k_ptrace PTRACE_PEEKUSER pid m own w = (0, le 8 (1000 + m), w').
Proof. intros _. by exists w. Qed.

(** Another thread than the one that asked. *)
Lemma mips_thread_registers_witness :
  wp (read_thread_mips (H := unit) 8 (mips_FRAME [] 0 0 0 0 7) 9) (fun o _ => exists r fp, o = Some (r, fp) /\
    mips_rest r = [1066; 1069; 1065; 0] /\ mips_uregs r = List.map (Z.add 1000) (seqZ 0 32) /\ mips_epc r = 1064)
    (Cst 0 tt tt).
Proof.
  eapply wp_mono; [apply (mips_thread_registers 8 (fun m => le 8 (1000 + m)) mips_user_area (mips_FRAME [] 0 0 0 0 7) 9 (Cst 0 tt tt))|].
  intros o s' (r & fp & -> & Hr & Hu & _ & _ & He). exists r, fp. split; [done|]. split; [exact Hr|]. split; [exact Hu|exact He].
Defined.
End MipsKernel.

(** The process of [ListerSpec] again; 1 marks a forked process. *)
Module Fork.
#[export] Instance forked_misc : KernelMisc procs := {|
  k_getpriority a b := tp_const 0 tt; k_geteuid := tp_const 1000 tt; k_getegid := tp_const 1000 tt;
  k_getpgrp := tp_const 7 tt; k_getsid p := tp_const 7 tt; k_readlink p n := tp_const (- EINVAL) [];
  k_creat p f m := tp_const 6 tt; k_socketpair := tp_const 0 (8, 9);
  k_fork w := (0, tt, Procs {[1]} ∅ false);
  k_sendmsg s x f := tp_const (- EBADF) tt; k_recvmsg s := tp_const 8 (0, Some 10);
  k_shutdown s := tp_const 0 tt; k_clone_vm := tp_const (- EAGAIN) tt; k_execve p a := tp_const (- EPERM) tt |}.

Definition tp_running (w : procs) : process := if bool_decide (1 ∈ tp_marked w) then Forked else Caller.

(** Marking or unmarking a thread leaves it that. *)
Lemma tp_running_same w m S r : (1 ∈ m <-> 1 ∈ tp_marked w) -> tp_running (Procs m S r) = tp_running w.
Proof. intros E. unfold tp_running. cbn. by rewrite (bool_decide_ext _ _ E). Qed.

Lemma tp_not_one p w : p ∈ tp_attached w -> p <> 1.
Proof. unfold tp_attached, tp_threads. intros Hp ->. set_solver. Qed.

#[export] Instance tp_forking : Forking procs.
Proof.
  refine {| running := tp_running; the_parent := 7; traceable := True;
    saved_regs p := concat (replicate 27 (le 8 p)); saved_fpregs p := concat (replicate 27 (le 8 p)) |}.
  - lia.
  - intros w r u w' Hk. by injection Hk as <- <- <-.
  - intros w w' Hc. destruct Hc as [w w' Hq|p w r d w' Hk|p w r d w' Hk|p w r st w' Hk].
    + inversion Hq as [? ? ? ? Hk|? ? ? ? Hk|? ? ? ? Hk|? ? ? ? ? ? ? Hk|? ? ? ? ? Hk|? ? ? ? ? Hk|
        ? ? ? ? Hk|? ? ? ? Hk|? ? ? ? ? Hk|? ? ? ? ? Hk|? ? ? ? ? Hk|? ? ? ? ? ? Hk|? ? ? ? ? ? ? Hk|? ? ? ? Hk|
        ? ? ? ? ? Hk|? ? ? ? ? Hk|? ? ? ? ? ? ? Hk|? ? ? ? ? ? Hk|? ? ? ? ? ? Hk|? ? ? ? Hk]; cbn in Hk; try (injection Hk as <- <- <-; done).
      unfold tp_getdents in Hk. destruct (tp_read w); by injection Hk as <- <- <-.
    + cbn in Hk. unfold tp_ptrace in Hk. cbn in Hk. destruct (bool_decide _) eqn:E; injection Hk as <- <- <-; [|done].
      apply bool_decide_eq_true in E. apply tp_running_same. unfold tp_threads in E. set_solver.
    + cbn in Hk. unfold tp_ptrace in Hk. cbn in Hk. destruct (bool_decide _) eqn:E; injection Hk as <- <- <-; [|done].
      apply bool_decide_eq_true in E. assert (p <> 1) by (apply (tp_not_one p w); unfold tp_stopped in E; set_solver).
      apply tp_running_same. set_solver.
    + cbn in Hk. unfold tp_waitpid in Hk. destruct (bool_decide _) eqn:E; [by injection Hk as <- <- <-|].
      apply bool_decide_eq_false in E. assert (p <> 1) by (apply (tp_not_one p w); by destruct (decide (p ∈ tp_attached w))).
      destruct (_ && _)%bool; injection Hk as <- <- <-; [done|]. apply tp_running_same. set_solver.
  - intros w r d w' Hk _ Hn. cbn in Hk. unfold tp_ptrace in Hk. cbn in Hk. rewrite bool_decide_true in Hk; [by injection Hk|].
    change (attached w) with (tp_attached w) in Hn. unfold tp_threads. set_solver.
  - intros w r st w' Hk _ Hin. cbn in Hk. unfold tp_waitpid in Hk. rewrite bool_decide_false in Hk by auto. cbn in Hk. injection Hk as <- <- <-. lia.
  - intros q p w r d w' Hk Hq. destruct Hq as [-> | ->]; cbn in Hk; unfold tp_ptrace in Hk; cbn in Hk; injection Hk as <- <- <-; split_and!; auto.
  - intros w r u w' Hk. cbn in Hk. injection Hk as <- <- <-. split; [cbn; unfold tp_attached, tp_threads; cbn; set_solver|]. by right; right.
Defined.

Definition ex_args : parent_regs := ParentRegs (mkFrame zero_regs 5 7) zero_regs [] 1.


Example parent_runs : match GetParentRegs ex_args tp_start with Ret (rc, a') _ => (rc, p_hasSSE a') | _ => (0, 1) end = (1, 0).
Proof. vm_compute. reflexivity. Qed.
End Fork.
