(* ===== verification/ApiClaims.v ===== *)
(** The entry points of [coredumper.c]: each is a dump with a certain parameter
    structure, and what they leave behind. *)
From stdpp Require Import gmap.
From S2P Require Import Prelude Syscall KernelSpec CIO ElfTypes Params Lister Frame.
From S2P Require Import Pipeline CoreDump Calm ListerSpec Resumed.

(** The calls a program can make. *)
Inductive entry : Type :=
  | EGet
  | EGetWith (params : CoreDumpParameters)
  | EGetCompressed (compressors : option (list CoredumperCompressor)) (selected : option Z)
  | EWrite (file_name : list Z)
  | EWriteWith (params : CoreDumpParameters) (file_name : list Z)
  | EWriteLimited (file_name : list Z) (max_length : Z)
  | EWriteLimitedByPriority (file_name : list Z) (max_length : Z)
  | EWriteCompressed (file_name : list Z) (max_length : Z)
      (compressors : option (list CoredumperCompressor)) (selected : option Z).

(** The parameters that a call stands for, and the file it writes. *)
Definition entry_params (e : entry) : CoreDumpParameters :=
  match e with
  | EGet | EWrite _ => default_params
  | EGetWith p | EWriteWith p _ => p
  | EGetCompressed cs sel => with_compressors cs (with_selected sel default_params)
  | EWriteLimited _ n => with_flags COREDUMPER_FLAG_LIMITED (with_max_length n default_params)
  | EWriteLimitedByPriority _ n =>
      with_flags (COREDUMPER_FLAG_LIMITED + COREDUMPER_FLAG_LIMITED_BY_PRIORITY) (with_max_length n default_params)
  | EWriteCompressed _ n cs sel =>
      with_flags COREDUMPER_FLAG_LIMITED (with_max_length n (with_compressors cs (with_selected sel default_params)))
  end.

Definition entry_file (e : entry) : option (list Z) :=
  match e with
  | EGet | EGetWith _ | EGetCompressed _ _ => None
  | EWrite f | EWriteWith _ f | EWriteLimited f _ | EWriteLimitedByPriority f _ | EWriteCompressed f _ _ _ => Some f
  end.

(** Either of the flags that limit the size is set. *)
Lemma limited_flags p : has_flag p COREDUMPER_FLAG_LIMITED || has_flag p COREDUMPER_FLAG_LIMITED_BY_PRIORITY =
  negb (Z.land (p_cflags p) 3 =? 0).
Proof.
  unfold has_flag. rewrite <- negb_andb. f_equal. apply eq_true_iff_eq. rewrite andb_true_iff, !Z.eqb_eq.
  change 3 with (Z.lor 1 2). rewrite Z.land_lor_distr_r, Z.lor_eq_0_iff. done.
Qed.

Section Api.
Context {W : Type} `{!KernelIO W} `{!KernelProc W} `{!KernelMisc W} `{!AddressSpace}.
Context (fuel : nat) (i_addr : Z).
Context (dump : Frame -> CoreDumpParameters -> option (list Z) -> option (list Z) -> list Z -> M (cst W lister) Z).
Context (PATH : option (list Z)) (raw : CoreDumpParameters) (frame : Frame).

Definition run_entry (e : entry) : M (cst W lister) Z :=
  match e with
  | EGet => GetCoreDump fuel i_addr dump PATH raw frame
  | EGetWith p => GetCoreDumpWith fuel i_addr dump PATH frame p
  | EGetCompressed cs sel => GetCompressedCoreDump fuel i_addr dump PATH raw frame cs sel
  | EWrite f => WriteCoreDump fuel i_addr dump PATH raw frame f
  | EWriteWith p f => WriteCoreDumpWith fuel i_addr dump PATH frame p f
  | EWriteLimited f n => WriteCoreDumpLimited fuel i_addr dump PATH raw frame f n
  | EWriteLimitedByPriority f n => WriteCoreDumpLimitedByPriority fuel i_addr dump PATH raw frame f n
  | EWriteCompressed f n cs sel => WriteCompressedCoreDump fuel i_addr dump PATH raw frame f n cs sel
  end.

Lemma with_params_ret {A} (m : M pstate A) (k : CoreDumpParameters -> M (cst W lister) Z) a p s :
  m (PState (errno s) raw) = Ret a (PState (errno s) p) -> with_params raw m k s = k p s.
Proof. unfold with_params. intros ->. by destruct s. Qed.

Lemma run_clear {A} (m : M pstate A) e : (ClearCoreDumpParameters ;;! m) (PState e raw) = m (PState e default_params).
Proof. unfold bind. by rewrite clear_default. Qed.

Lemma get_unlimited p : Z.land (p_cflags p) 3 = 0 ->
  GetCoreDumpWith fuel i_addr dump PATH frame p = GetCoreDumpFunction fuel i_addr dump PATH frame p.
Proof. intros Hp. unfold GetCoreDumpWith. by rewrite limited_flags, (proj2 (Z.eqb_eq _ _) Hp). Qed.

Lemma entry_as_with e s : run_entry e s =
  match entry_file e with
  | Some f => WriteCoreDumpWith fuel i_addr dump PATH frame (entry_params e) f
  | None => GetCoreDumpWith fuel i_addr dump PATH frame (entry_params e)
  end s.
Proof.
  destruct e as [|p|cs sel|f|p f|f n|f n|f n cs sel]; cbn [run_entry entry_file entry_params]; [|done| | |done| | |];
    rewrite ?get_unlimited by done;
    unfold GetCoreDump, GetCompressedCoreDump, WriteCoreDump, WriteCoreDumpWith, WriteCoreDumpLimited,
      WriteCoreDumpLimitedByPriority, WriteCompressedCoreDump;
    lazymatch goal with
    | |- with_params _ ?m ?k ?s = GetCoreDumpFunction _ _ _ _ _ ?p _ => eapply (with_params_ret m k _ p s)
    | |- with_params _ ?m ?k ?s = WriteCoreDumpFunction _ _ _ _ _ ?p _ _ => eapply (with_params_ret m k _ p s)
    end; rewrite ?run_clear; (apply clear_default || reflexivity).
Qed.

(** C10. Every entry point is [GetCoreDumpWith] or [WriteCoreDumpWith] with the
    parameters its documentation names, whatever the uninitialised structure on its
    stack held; and [GetCoreDumpWith] refuses limits with EINVAL, doing nothing else. *)
Theorem entry_points e s :
  run_entry e s =
    match entry_file e with
    | Some f => run_entry (EWriteWith (entry_params e) f) s
    | None => run_entry (EGetWith (entry_params e)) s
    end /\
  forall p, run_entry (EGetWith p) s =
    (if Z.land (p_cflags p) 3 =? 0 then ListAllProcessThreads fuel i_addr (dump frame p None PATH) s
     else Ret (-1) (Cst EINVAL (world s) (hnd s))).
Proof.
  split; [rewrite entry_as_with; by destruct (entry_file e)|].
  intros p. unfold run_entry, GetCoreDumpWith. rewrite limited_flags. by destruct (_ =? 0).
Qed.
End Api.

(** ** What a call leaves behind *)
Section Result.
Context {W : Type} `{!KernelIO W} `{!KernelProc W} `{!Tracing W} `{!KernelMisc W} `{!DumpTracing W} `{!AddressSpace}.
Context (fuel : nat) (i_addr : Z) (aarch64 : bool) (uninit : list Z).
Context (ptr_bytes : list CoredumperCompressor -> list Z) (at_ptr : list Z -> option (list CoredumperCompressor)).
Context (seen final : CreateArgs -> CreateArgs) (openmax pagesize : Z).
Context (call : Z -> Z -> M (cst W lister) Z) (PATH : option (list Z)) (raw : CoreDumpParameters) (frame : Frame).

Abbreviation dump := (InternalGetCoreDump fuel aarch64 uninit ptr_bytes at_ptr seen final openmax pagesize call).

(** The callback of the application does not trace, and returns. *)
Hypothesis call_tr : forall f a A S l s, Tr A S l s -> wlp (call f a) (fun _ s' => Tr A S l s') (fun _ _ => False) s.

Lemma dump_callback_ok params file_name : callback_ok (dump frame params file_name PATH)
  (fun r _ A => A = ∅ /\ (is_Some file_name -> r = 0 \/ r = -1)).
Proof.
  intros l s Hs. eapply wlp_mono; [by apply InternalGetCoreDump_spec| |same_exit].
  intros r s' [Hs' Hr]. exists ∅, ∅. split_and!; [done|set_solver|set_solver|done|].
  intros Hf. by rewrite bool_decide_true in Hr by done; apply Hr.
Qed.

Lemma list_all_dump params file_name X s : attached (world s) = ∅ -> stopped (world s) = ∅ -> pids (hnd s) = [] ->
  wlp (ListAllProcessThreads fuel i_addr (dump frame params file_name PATH))
    (fun r s' => r = -1 \/ attached (world s') = ∅ /\ (is_Some file_name -> r = 0)) X s.
Proof.
  intros HA HS Hl. eapply wlp_mono; [by apply ListAllProcessThreads_spec; [apply dump_callback_ok|..]| |same_exit].
  intros r s' [->|(HA' & e & A & [_ Hr] & _)]; [by left|].
  destruct (decide (is_Some file_name)) as [Hf|]; [destruct (Hr Hf) as [-> | ->]|]; naive_solver.
Qed.

(** C8. Called while no thread is traced, an entry point returns -1, or it returns
    with no thread traced or left stopped by it; the functions that write a file
    then return 0.  They never exit. *)
Theorem entry_result e s : attached (world s) = ∅ -> stopped (world s) = ∅ -> pids (hnd s) = [] ->
  wlp (run_entry fuel i_addr dump PATH raw frame e)
    (fun r s' => r = -1 \/ attached (world s') = ∅ /\ (is_Some (entry_file e) -> r = 0)) (fun _ _ => False) s.
Proof.
  intros HA HS Hl. eapply wlp_ext; [apply entry_as_with|]. destruct (entry_file e) as [f|].
  - by apply list_all_dump.
  - unfold GetCoreDumpWith. destruct (_ || _)%bool; [by left|]. by apply list_all_dump.
Qed.
End Result.

(** ** On the example process *)

Lemma entry_result_witness :
  wlp (run_entry 100 4096 (InternalGetCoreDump 100 false [] (fun _ => []) (fun _ => None) (fun a => a) (fun a => a)
         1024 4096 (fun _ _ => ret 0)) None default_params tp_frame (EWriteLimited (bytes "core") 1000))
    (fun r s' => r = -1 \/ attached (world s') = ∅ /\ (is_Some (Some (bytes "core")) -> r = 0)) (fun _ _ => False) tp_start.
Proof.
  apply (entry_result 100 4096 false [] (fun _ => []) (fun _ => None) (fun a => a) (fun a => a)
    1024 4096 (fun _ _ => ret 0) None default_params tp_frame); [|done..].
  intros f a A S l s Hs. by apply wlp_ret.
Defined.

(** A dump of the process that succeeds: the descriptor received is returned, and
    nothing is traced any more. *)
Example get_runs :
  (match run_entry 100 4096 (InternalGetCoreDump 100 false [] (fun _ => []) (fun _ => None) (fun a => a) (fun a => a)
           10 4096 (fun _ _ => ret 0)) None default_params tp_frame EGet tp_start with
   | Ret fd s => (fd, bool_decide (attached (world s) = ∅))
   | _ => (-1, false)
   end) = (10, true).
Proof. vm_compute. reflexivity. Qed.
