(* ===== verification/FileDump.v ===== *)
(** Writing a core file without a compressor, from the opening of the file to its
    closing: [dump_to_file] of [elfcore.c], and what is in the file afterwards. *)
From S2P Require Import Prelude Syscall KernelSpec ToyKernel CIO FileOps ProcIO LeadingZeros Smaps.
From S2P Require Import SmapsClaims ElfTypes Vdso ElfCore ElfImage Untouched CreateCore.
From S2P Require Import Params Lister Frame Pipeline CoreDump Scenario CoreClaims.

(** Creating the output file gives the descriptor [out] of an empty file; closing
    it does not change what was written. *)
Class OutputFile (W : Type) (out : Z) `{OutFile W out} `{!Files W} `{!Interrupts W} `{KernelMisc W} := {
  k_creat_out : forall p m w r u w', k_creat p (Z.lor O_FLAGS O_LARGEFILE) m w = (r, u, w') ->
    (r = - EINTR /\ (intr w' < intr w)%nat /\ (slots w <= slots w')%nat) \/
    (r = out /\ (intr w' <= intr w)%nat /\ (slots w <= S (slots w'))%nat /\ sink w' = [] /\ not_piped out w');
  k_close_out : forall w r u w', k_close out w = (r, u, w') -> sink w' = sink w }.

(** Code that runs on a handle of its own. *)
Lemma wp_with_handle {W H A : Type} (h : H) (m : M (cst W H) A) (Q : A * H -> cst W lister -> Prop) s :
  wp m (fun a s' => Q (a, hnd s') (Cst (errno s') (world s') (hnd s))) (Cst (errno s) (world s) h) ->
  wp (with_handle h m) Q s.
Proof. unfold wp, with_handle. by destruct (m _). Qed.

Section FileDump.
Context {W : Type} `{!KernelIO W} `{!KernelProc W} `{!KernelMisc W} `{!AddressSpace} {out : Z} `{!OutFile W out}
  `{!Files W} `{!Interrupts W} `{!WriteReady W out} `{!AuxvWhole W} `{!ReadReady W} `{!Pipes W} `{!PipeFresh W out}
  `{!OutputFile W out} {k : Z} `{!PipePage W (2 ^ k)}.
Context (fuel : nat) (aarch64 : bool) (uninit : list Z)
  (at_ptr : list Z -> option (list CoredumperCompressor)) (seen final : CreateArgs -> CreateArgs) (openmax : Z).
Context (info : prpsinfo) (user : list Z) (st : prstatus) (ts : list thread) (main_pid : Z) (notes : list CoredumperNote).
Context (maps : list Z) (gs : list segment) (es : list (list Z)) (last : list Z) (rest : list Z).
Hypothesis (page_bits : 0 <= k < 31) (out_fd : 0 <= out < 2 ^ 31).
Hypothesis (proc : proc_files (k := k) gs es last fuel maps rest).
Hypothesis (inputs : core_inputs (k := k) aarch64 info (Some user) st ts main_pid notes gs es last (nmax fuel)).
Abbreviation file := (core_file (k := k) aarch64 info (Some user) st ts main_pid notes gs es last).
Implicit Types s : cst W lister.

Definition output_open (n : nat) s : Prop :=
  sink (world s) = [] /\ ready (out := out) fuel s /\ (n <= slots (world s))%nat.

Lemma open_output_opens n path s : (intr (world s) < fuel)%nat -> (S n <= slots (world s))%nat ->
  wp (open_output fuel path) (fun fd s' => fd = out /\ output_open n s' /\ hnd s' = hnd s) s.
Proof.
  intros Hi Hs. unfold open_output. wp_step.
  eapply wp_mono with (P := fun fd s' => fd = out /\ output_open n s' /\ hnd s' = hnd s).
  - unfold sys_creat.
    apply (wp_NO_INTR (fun s' => (intr (world s') < fuel)%nat /\ (S n <= slots (world s'))%nat /\ hnd s' = hnd s)
      (fun s' => intr (world s'))); [|done|done].
    intros s1 r u w' (Hi1 & Hs1 & Hh1) Hk.
    destruct (k_creat_out _ _ _ _ _ _ Hk) as [(-> & I & S')|(-> & I & S' & Hsink & Hnp)].
    + split; [intros _ _; cbn; split_and!; (done || lia)|]. split; [done|]. intros Hn. destruct Hn. unfold is_err, EINTR. lia.
    + unfold is_err. split; [lia|]. split; [lia|]. intros _. split; [lia|]. split; [done|]. unfold output_open, ready. cbn.
      split_and!; [done|lia|done|lia|done].
  - intros fd s1 (-> & Ho & Hh). wp_step. unfold wp at 1, get_errno.
    rewrite (proj2 (Z.ltb_ge out 0)) by lia. by apply wp_ret.
Qed.

(** The core file is written up to the limit. *)
Lemma write_output_writes max_length s : 0 <= max_length < 2 ^ 64 -> output_open 6 s ->
  wp (write_output fuel aarch64 uninit (2 ^ k) (-1, -1) out max_length false info user st ts main_pid notes)
    (fun '(rc, fds) s' => rc = 0 /\ fds = (-1, -1) /\ sink (world s') = ztake max_length file /\
       (intr (world s') < fuel)%nat /\ hnd s' = hnd s) s.
Proof.
  intros Hm (Hsink & [Hi Hnp] & Hs). unfold write_output. change (0 <=? (-1, -1).2) with false. cbn [fst].
  change (0 <=? -1) with false. cbv iota. wp_step. apply wp_with_handle.
  set (s0 := Cst _ _ _). eapply wp_mono.
  { apply (CreateElfCore_sent (k := k) (LimitWriter fuel) (fun s : cst W WriterFds => limit_inv (out := out) s /\ ready (out := out) fuel s)
      (fun s : cst W WriterFds => sink (world s)) (eq out) (fun h => Some (CIO.max_length h)) (fun _ => nmax fuel) fuel PipeDone aarch64 uninit
      info (Some user) st ts main_pid notes maps gs es last rest page_bits) with (size := nmax fuel); try done; try lia.
    by intros s' [_ [? _]]. }
  cbn beta. intros rc s' ([[Hof Hml] [Hi' _]] & o & Hsent & ->). apply wp_ret. unfold sent in Hsent.
  subst s0. cbn [world hnd errno CIO.max_length fits room_sub] in *. rewrite Hsink in Hsent. cbn [app] in Hsent. destruct o as [u|].
  - destruct Hsent as (Hf & _ & ->). rewrite ztake_all by lia. split_and!; [by destruct (negb _)|done..].
  - destruct Hsent as (r & [= <-] & _ & [= Hr] & ->). unfold PipeDone. rewrite Hr. done.
Qed.

Lemma close_output s : (intr (world s) < fuel)%nat ->
  wp (close_fds fuel [out; -1; -1]) (fun _ s' => sink (world s') = sink (world s) /\ hnd s' = hnd s) s.
Proof.
  intros Hi. unfold close_fds. cbn [fold_right]. unfold close_nonneg. change (0 <=? -1) with false.
  rewrite (proj2 (Z.leb_le 0 out)) by lia. cbv iota. wp_step. wp_step.
  eapply wp_mono with (P := fun _ s' => sink (world s') = sink (world s) /\ hnd s' = hnd s).
  - apply (wp_NO_INTR (fun s' => sink (world s') = sink (world s) /\ hnd s' = hnd s) (fun s' => intr (world s')));
      [|done|done].
    intros s1 r u w' [E1 E2] Hk. pose proof (k_close_out _ _ _ _ Hk) as E.
    destruct (k_close_intr _ _ _ _ _ Hk) as [_ Hlt]. rewrite <- E1, <- E. split; [intros _ Hr; cbn; split; [done|auto]|].
    split; [done|]. intros Hn. destruct (k_close_range _ _ _ _ _ Hk) as [|Hr]; [done|]. split; [lia|done].
  - intros ? s1 Hs1. by repeat wp_step.
Qed.

Lemma dump_to_file_spec path max_length PATH compressors sel s :
  compressor_of compressors = None -> 0 < max_length < 2 ^ 64 ->
  (intr (world s) < fuel)%nat -> (7 <= slots (world s))%nat ->
  wp (dump_to_file fuel aarch64 uninit at_ptr seen final openmax (2 ^ k) path max_length PATH compressors sel false
        info user st ts main_pid notes)
    (fun o s' => o = Some 0 /\ sink (world s') = ztake max_length file) s.
Proof.
  intros Hc Hm Hi Hs. unfold dump_to_file. rewrite Hc. wp_step. wp_step. change (0 <? 0) with false. cbv iota.
  wp_step. eapply wp_mono with (P := fun _ s' => world s' = world s); [by destruct sel|]. intros _ s1 E1.
  wp_step. rewrite (proj2 (Z.ltb_lt 0 max_length)) by lia. wp_step.
  eapply wp_mono; [apply (open_output_opens 6); rewrite E1; lia|]. intros fd s2 (-> & Ho2 & _).
  rewrite (proj2 (Z.ltb_ge out 0)) by lia. wp_step.
  eapply wp_mono; [apply write_output_writes; [lia|done]|]. intros [rc fds] s3 (-> & -> & Hsink & Hi3 & _). wp_step.
  wp_step. unfold keeping_errno. wp_step. unfold wp at 1, get_errno. wp_step.
  eapply wp_mono; [by apply close_output|]. intros _ s4 [E4 _]. unfold wp, set_errno.
  cbn [bind world Z.ltb Z.compare ret]. by rewrite E4, Hsink.
Qed.

(** A dump to a file, without a compressor and without a limit by priority, on a
    machine where the file can be created and written: [dump_to_file] succeeds, and
    the file holds the first [max_length] bytes of the core file; when that is all of
    it, the memory of the process reads back from it. *)
Theorem dump_to_file_writes path max_length PATH compressors sel s :
  compressor_of compressors = None -> 0 < max_length < 2 ^ 64 ->
  (intr (world s) < fuel)%nat -> (7 <= slots (world s))%nat ->
  wp (dump_to_file fuel aarch64 uninit at_ptr seen final openmax (2 ^ k) path max_length PATH compressors sel false
        info user st ts main_pid notes)
    (fun o s' => o = Some 0 /\ sink (world s') = ztake max_length file /\
       (zlen file <= max_length -> reads_back (k := k) aarch64 gs (sink (world s')))) s.
Proof.
  intros Hc Hm Hi Hs. eapply wp_mono; [by apply dump_to_file_spec|]. intros o s' [-> E]. split_and!; [done|done|].
  intros Hl. rewrite E, ztake_all by lia. eapply file_read; eauto.
Qed.
End FileDump.

(** ** An instance: the example kernel, with an output file to create *)
Definition toy_fails {A : Type} (a : A) (w : toy) : Z * A * toy := (- ENOSYS, a, w).

#[export] Instance ex_proc : KernelProc toy := {|
  k_gettid := toy_fails tt; k_getpid := toy_fails tt; k_getppid := toy_fails tt; k_ptrace r p a o := toy_fails [];
  k_waitpid p o := toy_fails 0; k_tkill p sg := toy_fails tt; k_kill p sg := toy_fails tt;
  k_sched_yield := toy_fails tt; k_prctl o a := toy_fails tt; k_socket := toy_fails tt; k_stat p := toy_fails 0;
  k_fstat f := toy_fails 0; k_opendir p := toy_fails tt; k_getdents f c := toy_fails []; k_lseek f o h := toy_fails tt;
  k_sigaltstack := toy_fails tt; k_rt_sigaction sg := toy_fails tt; k_rt_sigprocmask h g := toy_fails [];
  k_clone := toy_fails tt |}.

(** The file gets descriptor 1, whatever that was before. *)
Definition toy_creat (path : list Z) (flags mode : Z) (w : toy) : Z * unit * toy :=
  (toy_out, tt, Toy (t_unread w) (t_open w) [] [] (t_next w) (t_intr w)).

#[export] Instance ex_misc : KernelMisc toy := {|
  k_getpriority a b := toy_fails tt; k_geteuid := toy_fails tt; k_getegid := toy_fails tt; k_getpgrp := toy_fails tt;
  k_getsid p := toy_fails tt; k_readlink p n := toy_fails []; k_creat := toy_creat; k_socketpair := toy_fails (0, 0);
  k_fork := toy_fails tt; k_sendmsg s x f := toy_fails tt; k_recvmsg s := toy_fails (0, None);
  k_shutdown s := toy_fails tt; k_clone_vm := toy_fails tt; k_execve p a := toy_fails tt |}.

#[export] Instance ex_output : OutputFile toy toy_out.
Proof.
  split.
  - intros p m w r u w' [= <- <- <-]. right. split_and!; [done|done| |done|done].
    cbn. unfold toy_slots. cbn [t_next t_open t_pipes forallb]. destruct ((_ && _) && _)%bool eqn:E; [|lia].
    b2p. destruct ((2 <=? t_next w) && forallb (fun f => f <? t_next w) (t_open w))%bool eqn:E2; [cbn; lia|].
    apply andb_false_iff in E2 as [E2|E2]; [b2p; lia|congruence].
  - intros w r u w' Hk. cbn in Hk. unfold toy_close in Hk. destruct (t_is_open w toy_out); by injection Hk as <- <- <-.
Qed.

Definition ex_lister : cst toy lister := Cst 0 ex_world (mkLister [7; 9] true 2 (-1) (-1) 0 0 None).

Lemma ex_user_inputs : core_inputs (k := 6) false ex_info (Some (replicate (Z.to_nat sizeof_core_user) 0)) ex_status
  ex_threads 7 ex_notes ex_segments [le 8 6 ++ le 8 64] (le 8 0 ++ le 8 0) (nmax ex_fuel).
Proof. split; [split; try done; repeat (constructor; try done)|by_compute..]. intros u [= <-]. by_compute. Qed.

(** The limit cuts the file off. *)
Lemma dump_to_file_writes_witness :
  wp (dump_to_file ex_fuel false [] (fun _ => None) (fun a => a) (fun a => a) 1024 (2 ^ 6) (bytes "core") 3000 None None
        false false ex_info (replicate (Z.to_nat sizeof_core_user) 0) ex_status ex_threads 7 ex_notes)
    (fun o s' => o = Some 0 /\
       sink (world s') = ztake 3000 (core_file (k := 6) false ex_info (Some (replicate (Z.to_nat sizeof_core_user) 0))
         ex_status ex_threads 7 ex_notes ex_segments [le 8 6 ++ le 8 64] (le 8 0 ++ le 8 0)) /\
       (zlen (core_file (k := 6) false ex_info (Some (replicate (Z.to_nat sizeof_core_user) 0))
         ex_status ex_threads 7 ex_notes ex_segments [le 8 6 ++ le 8 64] (le 8 0 ++ le 8 0)) <= 3000 ->
        reads_back (k := 6) false ex_segments (sink (world s')))) ex_lister.
Proof.
  apply (dump_to_file_writes (k := 6) ex_fuel false [] (fun _ => None) (fun a => a) (fun a => a) 1024 ex_info
    (replicate (Z.to_nat sizeof_core_user) 0) ex_status ex_threads 7 ex_notes ex_maps_text ex_segments
    [le 8 6 ++ le 8 64] (le 8 0 ++ le 8 0) [] ltac:(lia) ltac:(by_compute) ex_proc_files ex_user_inputs
    (bytes "core") 3000 None None false ex_lister); by_compute.
Defined.
