(* ===== verification/Start.v ===== *)
(** Starting a compressor: the parent's side of [CreatePipeline] when the child finds
    one that can be executed. *)
From S2P Require Import Prelude Syscall KernelSpec CIO IOClaims Untouched PipeWrite Params Pipeline Calm.

(** ** What the kernel promises

    Pipes made one after the other have different descriptors, the ends that the
    child keeps being above 2, and a clone made thereupon succeeds.  The child tells
    its parent through the first pipe which compressors it tries, by the pointers
    [told], and executes the last of them, which gets the ends of the other two
    pipes.  Pointers are read whole. *)
Class Spawns (W : Type) (out : Z) (packed : list Z -> list Z) (cap most : Z) (told : list (list Z))
    `{Compressor W out packed cap most} `{KernelMisc W} := {
  s_apart : forall w0 f w1 zi w2 zo w3, k_pipe w0 = (0, f, w1) -> k_pipe w1 = (0, zi, w2) -> k_pipe w2 = (0, zo, w3) ->
    NoDup [f.1; f.2; zi.1; zi.2; zo.1; zo.2] /\ 2 < f.2 /\ 2 < zi.1 /\ 2 < zo.2;
  s_clone : forall w0 f w1 zi w2 zo w3 r u w4, k_pipe w0 = (0, f, w1) -> k_pipe w1 = (0, zi, w2) -> k_pipe w2 = (0, zo, w3) ->
    k_clone_vm w3 = (r, u, w4) ->
    0 < r < 2 ^ 31 /\ unread w4 f.1 = concat told /\ rd_open w4 f.1 /\ not_piped zi.2 w4 /\
    (intr w4 <= intr w3)%nat /\ (slots w3 <= slots w4)%nat /\
    let z := traffic_of w4 in ends z = Some (zi.2, zo.1) /\ fed z = [] /\ came z = [] /\ at_end z = false;
  s_told : forall fd w r d w', rd_open w fd -> k_read fd 8 w = (r, d, w') -> 0 <= r -> r = Z.min 8 (zlen (unread w fd));
  s_creat : forall zin zout p f m w r u w', ends (traffic_of w) = Some (zin, zout) -> k_creat p f m w = (r, u, w') ->
    traffic_of w' = traffic_of w /\ pipe_of w' zin = pipe_of w zin }.

(** A child keeps the descriptors above 2 of the shared structure
    ([child_final_keeps], Calm.v). *)
Definition child_keeps (f : CreateArgs -> CreateArgs) : Prop := forall a, keeps_ends a (f a).

Section Start.
Context {W Hd : Type} `{!KernelIO W} `{!KernelProc W} `{!KernelMisc W} `{!AddressSpace} {out : Z} `{!OutFile W out}
  `{!Files W} `{!Interrupts W} `{!ReadReady W} `{!Pipes W} {packed : list Z -> list Z} {cap most : Z}
  `{!Compressor W out packed cap most} {told : list (list Z)} `{!Spawns W out packed cap most told}.
Context (fuel : nat).
Implicit Types (s : cst W Hd) (w : W) (n : nat).
Abbreviation traffic_of := (traffic_of (out := out) (packed := packed) (cap := cap) (most := most)).

(** A compressor has been started and given nothing yet. *)
Definition waiting zin zout n w : Prop :=
  ends (traffic_of w) = Some (zin, zout) /\ fed (traffic_of w) = [] /\ came (traffic_of w) = [] /\ at_end (traffic_of w) = false /\
  (intr w < fuel)%nat /\ not_piped zin w /\ (n <= slots w)%nat.

Lemma waiting_elsewhere zin zout n w w' : waiting zin zout n w -> elsewhere zin zout w w' -> (intr w' <= intr w)%nat ->
  (forall f, pipe_of w' f = pipe_of w f) -> (slots w <= slots w')%nat -> waiting zin zout n w'.
Proof.
  intros (J & F & C & A & I & P & S) He Hi Hp Hs. unfold waiting. rewrite (z_elsewhere _ _ _ _ J He).
  split_and!; try done; [lia| |lia]. intros g. rewrite Hp. apply P.
Qed.

(** Descriptors are closed while the compressor waits; others stay open. *)
Lemma close_waits zin zout n f (V : W -> Prop) s : f <> zin -> f <> zout ->
  (forall w r u w', V w -> k_close f w = (r, u, w') -> V w') -> waiting zin zout n (world s) -> V (world s) ->
  wp (NO_INTR fuel (sys_close f)) (fun _ s' => (waiting zin zout n (world s') /\ V (world s')) /\ hnd s' = hnd s) s.
Proof.
  intros Hin Hout HV Hw HVs.
  apply (wp_NO_INTR (fun s' => (waiting zin zout n (world s') /\ V (world s')) /\ hnd s' = hnd s) (fun s' => intr (world s')));
    [|done|apply Hw].
  intros s1 r u w' [[Hw1 HV1] Hh1] Hk. destruct (k_close_frame _ _ _ _ _ Hk) as (_ & _ & P & S). destruct (k_close_intr _ _ _ _ _ Hk) as [I1 I2].
  assert (Hw' : waiting zin zout n w') by (eapply waiting_elsewhere; [done|by eapply e_close|done..]).
  specialize (HV _ _ _ _ HV1 Hk).
  split_and!; [by intros _ Hr; split; [|apply I2]|done|].
  intros He. destruct (k_close_range _ _ _ _ _ Hk) as [| ->]; [done|]. split; [lia|done].
Qed.

Lemma close2_waits zin zout n f g s : f <> zin -> f <> zout -> g <> zin -> g <> zout -> waiting zin zout n (world s) ->
  wp (close2 fuel f g) (fun _ s' => waiting zin zout n (world s') /\ hnd s' = hnd s) s.
Proof.
  intros H1 H2 H3 H4 Hw. unfold close2. wp_step.
  eapply wp_mono; [by apply (close_waits zin zout n f (fun _ => True))|]. intros _ s1 [[Hw1 _] E1]. wp_step.
  eapply wp_mono; [by apply (close_waits zin zout n g (fun _ => True))|]. intros _ s2 [[Hw2 _] E2]. apply wp_ret. split; [done|congruence].
Qed.

(** ** Which compressor has been started *)

(** Still to be read from [fd] is [l]. *)
Definition telling fd (l : list Z) w : Prop := rd_open w fd /\ unread w fd = l.

Lemma read_told zin zout n fd l s : fd <> zout -> waiting zin zout n (world s) -> telling fd l (world s) ->
  wp (c_read fuel fd 8) (fun r s' => r = (Z.min 8 (zlen l), ztake 8 l) /\ waiting zin zout n (world s') /\
    telling fd (zdrop 8 l) (world s') /\ hnd s' = hnd s) s.
Proof.
  intros Hf Hw [Ho Hu]. unfold c_read. change (0 <? 8) with true. cbv iota. wp_step.
  apply (wp_MY_NO_INTR (fun s' => (waiting zin zout n (world s') /\ telling fd l (world s')) /\ hnd s' = hnd s) (fun s' => intr (world s')));
    [|by split_and!|apply Hw].
  intros my s1 [[Hw1 [Ho1 Hu1]] Hh1]. apply wp_syscall0. intros r d w' Hk.
  destruct (k_read_frame _ _ _ _ _ _ Hk) as (_ & Hop & Hp & Hs). destruct (k_read_intr _ _ _ _ _ _ Hk) as [I1 I2].
  assert (Hw' : waiting zin zout n w') by (eapply waiting_elsewhere; [done|by eapply e_read|done..]).
  destruct (k_read_in _ _ _ _ _ _ Ho1 (eq_refl : 0 < 8) Hk) as [[Her Hu']|(Hr & Hdt & Hl & Hu' & _)];
  destruct (k_read_ready _ _ _ _ _ _ Ho1 (eq_refl : 0 < 8) Hk) as [Hr'|Hr'];
    [|unfold is_err in *; lia|unfold EINTR in *; lia|].
  - rewrite LSS_RETURN_err by done. specialize (I2 Hr'). subst r. cbn. split; [|by intros []].
    intros _ _. split; [|done]. split; [split; [done|]|done]. split; [by apply Hop|congruence].
  - pose proof (s_told _ _ _ _ _ Ho1 Hk Hr') as Hm. rewrite LSS_RETURN_ok, s64_small by lia. cbn. split; [lia|]. intros _.
    rewrite (proj2 (Z.ltb_ge r 0)) by lia. apply wp_ret. rewrite Hu1 in *. cbn. split; [|split_and!; [done| |done]].
    + rewrite Hdt, Hm. f_equal. destruct (decide (8 <= zlen l)); [by rewrite Z.min_l|]. rewrite Z.min_r by lia. by rewrite !ztake_all by lia.
    + split; [by apply Hop|]. rewrite Hu', Hm. destruct (decide (8 <= zlen l)); [by rewrite Z.min_l|].
      rewrite Z.min_r by lia. by rewrite !zdrop_all by lia.
Qed.

Lemma last_cons_default {A : Type} (l : list A) : forall c d, List.last (c :: l) d = List.last l c.
Proof. induction l as [|x l IH]; intros c d; [done|]. change (List.last (x :: l) d = List.last (x :: l) c). by rewrite !IH. Qed.

Lemma read_choice_told zin zout n fd m l : fd <> zout -> forall buf s, zlen buf = 8 -> Forall (fun c => zlen c = 8) l -> (length l < m)%nat ->
  waiting zin zout n (world s) -> telling fd (concat l) (world s) ->
  wp (read_choice fuel m fd buf) (fun c s' => c = List.last l buf /\ waiting zin zout n (world s') /\ hnd s' = hnd s) s.
Proof.
  intros Hf. revert l. induction m as [|m IH]; intros l buf s Hb Hl Hm Hw Ht; [lia|]. cbn [read_choice]. wp_step.
  eapply wp_mono; [by apply (read_told zin zout n fd)|]. intros ? s1 (-> & Hw1 & Ht1 & E1). cbv iota.
  destruct l as [|c l]; cbn [concat] in *.
  - change (Z.min 8 (zlen [])) with 0. cbn. by apply wp_ret.
  - apply Forall_cons in Hl as [Hc Hl]. pose proof (zlen_nonneg (concat l)). rewrite zlen_app, Hc, Z.min_l by lia.
    change (negb (8 =? 0)) with true. change (0 <? 8) with true. cbv iota.
    rewrite ztake_app_le, (ztake_all 8 c) by lia. rewrite zdrop_app_le, (zdrop_all 8 c) in Ht1 by lia.
    rewrite (zdrop_all 8 buf), app_nil_r by lia.
    eapply wp_mono; [apply (IH l c); [done|done|cbn in Hm; lia|done|done]|]. intros ? s2 (-> & Hw2 & E2).
    split; [by rewrite last_cons_default|]. split; [done|congruence].
Qed.

(** ** The pipeline *)
Context (at_ptr : list Z -> option (list CoredumperCompressor)) (seen final : CreateArgs -> CreateArgs).
Hypothesis (seen_keeps : child_keeps seen) (final_keeps : child_keeps final).
Hypothesis (told_pointers : Forall (fun c => zlen c = 8) told) (told_fuel : (length told < fuel)%nat).
Context (name : Z) (rest_name : list Z) (chosen : list CoredumperCompressor).
Hypothesis (told_last : at_ptr (List.last told (le 8 0)) = Some chosen) (chosen_name : compressor_of (Some chosen) = Some (name :: rest_name)).

(** A pipe, while there are descriptors. *)
Lemma pipe_made n s : (2 + n <= slots (world s))%nat ->
  wp sys_pipe (fun r s' => r.1 = 0 /\ k_pipe (world s) = (0, r.2, world s') /\ hnd s' = hnd s /\
    (intr (world s') <= intr (world s))%nat /\ (n <= slots (world s'))%nat) s.
Proof.
  intros Hn. unfold sys_pipe. apply wp_syscall. intros r p w' Hk. pose proof (k_pipe_ok _ _ _ _ Hk ltac:(lia)) as ->.
  pose proof (k_pipe_intr _ _ _ _ Hk). rewrite LSS_RETURN_ok by lia. cbn. split_and!; try done.
  destruct (k_pipe_in _ _ _ _ Hk) as [[Hr _]|(_ & _ & _ & _ & _ & _ & _ & _ & _ & _ & Hs)]; [unfold is_err in Hr; lia|lia].
Qed.

Lemma CreatePipeline_starts n fds openmax PATH cs s : compressor_of (Some cs) <> None ->
  (intr (world s) < fuel)%nat -> (6 + n <= slots (world s))%nat ->
  wp (CreatePipeline fuel at_ptr seen final fds openmax PATH (Some cs))
    (fun r s' => exists zin zout, r = (0, (zout, zin), Some chosen) /\ waiting zin zout n (world s') /\ hnd s' = hnd s) s.
Proof.
  intros Hcs Hi Hn. unfold CreatePipeline. wp_step. eapply wp_mono; [apply (pipe_made (4 + n)); lia|].
  intros [rc f] s1 (E & K1 & H1 & I1 & S1). cbn [fst snd] in *. subst rc. change (0 <? 0) with false. cbv iota.
  destruct (compressor_of (Some cs)) as [c|] eqn:Ec; [|done]. unfold start_compressor.
  wp_step. eapply wp_mono; [apply (pipe_made (2 + n)); lia|].
  intros [rc zi] s2 (E & K2 & H2 & I2 & S2). cbn [fst snd] in *. subst rc. change (0 <? 0) with false. cbv iota.
  wp_step. eapply wp_mono; [apply (pipe_made n); lia|].
  intros [rc zo] s3 (E & K3 & H3 & I3 & S3). cbn [fst snd] in *. subst rc. change (0 <? 0) with false. cbv zeta iota.
  destruct (s_apart _ _ _ _ _ _ _ K1 K2 K3) as (Hnd & A1 & A2 & A3).
  destruct (keeps_ends_above _ _ (seen_keeps (mkCreateArgs f openmax PATH cs zi zo)) ltac:(by split_and!)) as (-> & _ & _).
  destruct (keeps_ends_above _ _ (final_keeps (mkCreateArgs f openmax PATH cs zi zo)) ltac:(by split_and!)) as (-> & -> & ->). cbn [a_fds a_zip_in a_zip_out].
  wp_step. unfold sys_clone_vm, syscall_. wp_step. apply wp_syscall. intros r u w4 Hk. apply wp_ret. cbn [fst].
  destruct (s_clone _ _ _ _ _ _ _ _ _ _ K1 K2 K3 Hk) as (Hr & Hu & Ho & Hp & I4 & S4 & J & F & C & A).
  rewrite LSS_RETURN_ok, s32_small by lia. cbn [fst snd]. rewrite (proj2 (Z.ltb_ge r 0)) by lia.
  set (s4 := Cst _ w4 _). assert (Hw4 : waiting zi.2 zo.1 n (world s4)) by (unfold waiting, s4; cbn; split_and!; (done || lia)).
  rewrite !NoDup_cons in Hnd. rewrite !not_elem_of_cons in Hnd. destruct_and! Hnd.
  wp_step. eapply wp_mono; [apply (close_waits zi.2 zo.1 n f.2 (telling f.1 (concat told))); [done|done| |done|by split]|].
  { intros w r' u' w' [Ho' Hu'] Hk'. destruct (k_close_frame _ _ _ _ _ Hk') as (E1 & E2 & _). split; [by apply E2|by rewrite E1]. }
  intros _ s5 [[Hw5 Ht5] E5]. wp_step.
  eapply wp_mono; [by apply (read_choice_told zi.2 zo.1 n f.1 fuel told)|]. intros c' s6 (-> & Hw6 & E6).
  wp_step. eapply wp_mono; [by apply (close_waits zi.2 zo.1 n f.1 (fun _ => True))|]. intros _ s7 [[Hw7 _] E7].
  rewrite told_last, chosen_name. wp_step. eapply wp_mono; [by apply (close2_waits zi.2 zo.1 n)|]. intros _ s8 [Hw8 E8].
  apply wp_ret. exists zi.2, zo.1. split; [done|]. split; [done|]. unfold s4 in E5. cbn [hnd] in E5. congruence.
Qed.
End Start.
