(* ===== verification/Compress.v ===== *)
(** A compressed dump: [write_output] of [elfcore.c] with a compressor between the
    core file and the output. *)
From S2P Require Import Prelude Syscall KernelSpec ToyKernel CIO IOClaims FileOps ProcIO LeadingZeros Smaps.
From S2P Require Import SmapsClaims ElfTypes Vdso ElfCore ElfImage Untouched PipeWrite CreateCore.
From S2P Require Import Params Lister Frame Pipeline CoreDump Scenario CoreClaims Start FileDump.

Section Compress.
Context {W : Type} `{!KernelIO W} `{!KernelProc W} `{!KernelMisc W} `{!AddressSpace} {out : Z} `{!OutFile W out}
  `{!Files W} `{!Interrupts W} `{!WriteReady W out} `{!AuxvWhole W} `{!ReadReady W} `{!Pipes W} `{!PipeFresh W out}
  {k : Z} `{!PipePage W (2 ^ k)} {zin zout : Z} {packed : list Z -> list Z} {cap most : Z} `{!Compressor W out packed cap most}.
Context (fuel : nat) (aarch64 : bool) (uninit : list Z).
Context (info : prpsinfo) (user : list Z) (st : prstatus) (ts : list thread) (main_pid : Z) (notes : list CoredumperNote).
Context (maps : list Z) (gs : list segment) (es : list (list Z)) (last : list Z) (rest : list Z) (max_length : Z).
Hypothesis (page_bits : 0 <= k < 31) (fds_apart : apart zin zout out) (cap_nonneg : 0 <= cap) (most_length : 0 <= most < max_length) (length_range : max_length < 2 ^ 64)
  (most_fuel : most < Z.of_nat fuel).
Hypothesis (proc : proc_files (k := k) gs es last fuel maps rest).
Hypothesis (inputs : core_inputs (k := k) aarch64 info (Some user) st ts main_pid notes gs es last (pipe_max (cap := cap) (most := most) fuel [])).
Abbreviation file := (core_file (k := k) aarch64 info (Some user) st ts main_pid notes gs es last).
Implicit Types s : cst W lister.
Abbreviation piping := (piping (out := out) (zin := zin) (zout := zout) (packed := packed) (cap := cap) (most := most) fuel max_length []).
Abbreviation same_but_flags := (same_but_flags (out := out) (packed := packed) (cap := cap) (most := most)).
Abbreviation traffic_of := (traffic_of (out := out) (packed := packed) (cap := cap) (most := most)).

#[local] Instance pipe_writer : LimitedWriter (PipeWriter fuel) piping (fun h : cst W WriterFds => fed (traffic_of (world h)))
  (pipe_fds (out := out) (zin := zin) (zout := zout)) (fun _ => None) (pipe_max (cap := cap) (most := most) fuel) :=
  PipeWriter_limited fuel max_length [] fds_apart most_length length_range most_fuel.

(** The compressor has been started and given nothing yet, and the output file is
    open and empty. *)
Definition started n (w : W) : Prop :=
  waiting (out := out) (packed := packed) (cap := cap) (most := most) fuel zin zout n w /\ sink w = [] /\ not_piped out w.

Lemma set_nonblocking_started n fd s : started n (world s) ->
  wp (set_nonblocking fuel fd) (fun _ s' => started n (world s') /\ hnd s' = hnd s) s.
Proof.
  assert (Hkeep : forall s s' : cst W lister, started n (world s) -> same_but_flags s s' -> started n (world s')).
  { intros s1 s2 ((J & F & C & A & I & Z & S) & K & P) (J' & _ & K' & I' & R' & F' & C' & A'). unfold started, waiting.
    destruct R' as (_ & _ & HP & HS). split_and!; try congruence; try lia; intros f; rewrite HP; auto. }
  intros Hs. unfold set_nonblocking. wp_step. eapply wp_mono; [apply (fcntl_flags (out := out) (zin := zin) (zout := zout) (packed := packed) (cap := cap) (most := most)); apply Hs|].
  intros flags s1 [H1 _]. pose proof (Hkeep _ _ Hs H1) as Hs1. wp_step.
  eapply wp_mono; [apply (fcntl_flags (out := out) (zin := zin) (zout := zout) (packed := packed) (cap := cap) (most := most)); apply Hs1|].
  intros ? s2 [H2 _]. apply wp_ret. split; [by eapply Hkeep|]. destruct H1 as (_ & E1 & _), H2 as (_ & E2 & _). congruence.
Qed.

(** Closing the compressor's input. *)
Lemma close_input h s : piping (Cst (errno s) (world s) h) ->
  wp (NO_INTR fuel (sys_close zin)) (fun _ s' => ends (traffic_of (world s')) = Some (zin, zout) /\ hnd s' = hnd s /\ sink (world s') = sink (world s) /\
    fed (traffic_of (world s')) = fed (traffic_of (world s)) /\ came (traffic_of (world s')) = came (traffic_of (world s)) /\
    at_end (traffic_of (world s')) = true /\ ready (out := out) fuel s') s.
Proof.
  intros (Hj & _ & _ & _ & _ & _ & [Hi Hp] & _). cbn [world] in *. pose proof fds_apart as (_ & _ & _ & _ & Hne & _).
  apply (wp_NO_INTR (fun s' : cst W lister => ends (traffic_of (world s')) = Some (zin, zout) /\ hnd s' = hnd s /\ sink (world s') = sink (world s) /\
    fed (traffic_of (world s')) = fed (traffic_of (world s)) /\ came (traffic_of (world s')) = came (traffic_of (world s)) /\
    ready (out := out) fuel s') (fun s' => intr (world s'))); [|by split_and!|done].
  intros s1 r u w' (E0 & E1 & E2 & E3 & E4 & [Hi1 Hp1]) Hk. destruct (k_close_intr _ _ _ _ _ Hk) as [I1 I2].
  destruct (z_close _ _ _ _ _ _ E0 Hk) as (J & F & C & A). pose proof (k_close_sink _ _ _ _ _ Hne Hk) as K.
  destruct (k_close_frame _ _ _ _ _ Hk) as (_ & _ & P & _).
  assert (Hr : forall e, ready (out := out) fuel (Cst e w' (hnd s1))).
  { intros e. split; cbn; [lia|]. intros g. rewrite P. apply Hp1. }
  split_and!.
  - intros _ Hr0. split; [|by apply I2]. cbn. split_and!; (congruence || apply Hr).
  - intros _ Hn. cbn. destruct A as [|A]; [done|]. split_and!; (congruence || apply Hr).
  - intros He. destruct (k_close_range _ _ _ _ _ Hk) as [|Hr0]; [done|]. split; [lia|]. cbn.
    destruct A as [Hr1|A]; [unfold EINTR in *; lia|]. split_and!; (congruence || apply Hr).
Qed.

(** Everything from the first byte of the core file to the last one of the output. *)
Lemma write_output_packs s : started 6 (world s) ->
  wp (write_output fuel aarch64 uninit (2 ^ k) (zout, zin) out max_length false info user st ts main_pid notes)
    (fun '(rc, fds) s' => rc = 0 /\ fds = (zout, -1) /\ hnd s' = hnd s /\ sink (world s') = packed file /\ (intr (world s') < fuel)%nat) s.
Proof.
  intros Hs. pose proof fds_apart as (Hin & Hout & Ho & _). unfold write_output. cbn [fst snd].
  rewrite (proj2 (Z.leb_le 0 zin)), (proj2 (Z.leb_le 0 zout)) by lia. cbv zeta iota.
  wp_step. eapply wp_mono; [by apply set_nonblocking_started|]. intros _ s1 [Hs1 E1].
  wp_step. eapply wp_mono; [by apply set_nonblocking_started|]. intros _ s2 [((J & F & C & A & I & Z & S) & K & P) E2].
  wp_step. apply wp_with_handle. set (s0 := Cst _ _ _). eapply wp_mono.
  { apply (CreateElfCore_sent (k := k) (PipeWriter fuel) piping
      (fun s : cst W WriterFds => fed (traffic_of (world s))) (pipe_fds (out := out) (zin := zin) (zout := zout)) (fun _ => None)
      (pipe_max (cap := cap) (most := most) fuel) fuel PipeDone aarch64 uninit info (Some user) st ts main_pid notes maps gs es last rest page_bits) with (size := pipe_max (cap := cap) (most := most) fuel []);
      try done.
    - intros s' (_ & _ & _ & _ & _ & _ & [? _] & _). done.
    - intros f. by apply pipe_fds_nonneg.
    - unfold s0. cbn [world]. by rewrite F.
    - unfold piping, s0, ready. cbn [world hnd]. rewrite F, C, K. rewrite zlen_nil. split_and!; try done; [f_equal; lia|lia]. }
  cbn beta. intros rc s3 (Hp3 & o & Hsent & ->). unfold sent in Hsent. cbn [fits room_sub] in Hsent.
  assert (Hf3 : o = Some tt /\ fed (traffic_of (world s3)) = file).
  { destruct o as [[]|]; [|by destruct Hsent as (? & ? & _)]. destruct Hsent as (_ & _ & ->). unfold s0. cbn [world]. by rewrite F. }
  destruct Hf3 as [-> F3]. wp_step. unfold wp at 1, get_errno. wp_step. wp_step.
  eapply wp_mono; [by apply (close_input (hnd s3))|]. intros _ s4 (J4 & E4 & K4 & F4 & C4 & A4 & R4). cbn [world hnd] in *. apply wp_ret.
  wp_step. apply wp_with_handle. pose proof Hp3 as (_ & H3 & K3 & Q3 & M3 & _ & _).
  eapply wp_mono; [apply (FlushPipe_all (out := out) (zin := zin) (zout := zout) (packed := packed) (cap := cap) (most := most) fuel max_length [] fds_apart); try done|].
  { cbn [hnd world]. by rewrite C4. }
  { cbn [world]. by rewrite K4, C4. }
  { cbn [world]. by rewrite F4. }
  { cbn [world]. by rewrite C4. }
  cbn [world]. intros frc s5 (-> & K5 & I5). cbn [fst snd]. change (0 <? 0) with false. cbv iota. wp_step. unfold wp at 1, set_errno.
  apply wp_ret. split; [by destruct (negb _)|]. split; [done|]. split; [cbn; congruence|]. cbn. split; [by rewrite K5, F4, F3|done].
Qed.

End Compress.

(** ** From the pipeline to the closing of the file *)
Section Compressed.
Context {W : Type} `{!KernelIO W} `{!KernelProc W} `{!KernelMisc W} `{!AddressSpace} {out : Z} `{!OutFile W out}
  `{!Files W} `{!Interrupts W} `{!WriteReady W out} `{!AuxvWhole W} `{!ReadReady W} `{!Pipes W} `{!PipeFresh W out} `{!OutputFile W out}
  {k : Z} `{!PipePage W (2 ^ k)} {packed : list Z -> list Z} {cap most : Z} `{!Compressor W out packed cap most}
  {told : list (list Z)} `{!Spawns W out packed cap most told}.
Context (fuel : nat) (aarch64 : bool) (uninit : list Z).
Context (at_ptr : list Z -> option (list CoredumperCompressor)) (seen final : CreateArgs -> CreateArgs) (openmax : Z).
Hypothesis (seen_keeps : child_keeps seen) (final_keeps : child_keeps final).
Hypothesis (told_pointers : Forall (fun c => zlen c = 8) told) (told_fuel : (length told < fuel)%nat).
Context (name : Z) (rest_name : list Z) (chosen : list CoredumperCompressor).
Hypothesis (told_last : at_ptr (List.last told (le 8 0)) = Some chosen) (chosen_name : compressor_of (Some chosen) = Some (name :: rest_name)).
Context (info : prpsinfo) (user : list Z) (st : prstatus) (ts : list thread) (main_pid : Z) (notes : list CoredumperNote).
Context (maps : list Z) (gs : list segment) (es : list (list Z)) (last : list Z) (rest : list Z) (max_length : Z).
Hypothesis (page_bits : 0 <= k < 31) (out_fd : 0 <= out < 2 ^ 31) (cap_nonneg : 0 <= cap) (most_length : 0 <= most < max_length)
  (length_range : max_length < 2 ^ 64) (most_fuel : most < Z.of_nat fuel).
Hypothesis (proc : proc_files (k := k) gs es last fuel maps rest).
Hypothesis (inputs : core_inputs (k := k) aarch64 info (Some user) st ts main_pid notes gs es last (pipe_max (cap := cap) (most := most) fuel [])).
Abbreviation file := (core_file (k := k) aarch64 info (Some user) st ts main_pid notes gs es last).
Implicit Types s : cst W lister.
Abbreviation waiting := (waiting (out := out) (packed := packed) (cap := cap) (most := most) fuel).
Abbreviation started zin zout := (Compress.started (zin := zin) (zout := zout) (out := out) (packed := packed) (cap := cap) (most := most) fuel).

(** The output file is created while the compressor waits. *)
Lemma open_output_started zin zout n path s : waiting zin zout (S n) (world s) ->
  wp (open_output fuel path) (fun fd s' => fd = out /\ started zin zout n (world s')) s.
Proof.
  intros Hw. unfold open_output. wp_step. eapply wp_mono with (P := fun fd s' => fd = out /\ started zin zout n (world s')).
  - unfold sys_creat. apply (wp_NO_INTR (fun s' : cst W lister => waiting zin zout (S n) (world s')) (fun s' : cst W lister => intr (world s')));
      [|done|apply Hw].
    intros s1 r u w' (J & F & C & A & I & P & S) Hk. destruct (s_creat _ _ _ _ _ _ _ _ _ J Hk) as [Ez Ep].
    destruct (k_creat_out _ _ _ _ _ _ Hk) as [(-> & I' & S')|(-> & I' & S' & Hsink & Hnp)].
    + split; [intros _ _; cbn; split; [|lia]; unfold Start.waiting; rewrite Ez; split_and!; try done; [lia| |lia]; intros g; rewrite Ep; apply P|].
      split; [done|]. intros Hn. destruct Hn. unfold is_err, EINTR. lia.
    + unfold is_err. split; [lia|]. split; [lia|]. intros _. split; [lia|]. split; [done|]. unfold Compress.started, Start.waiting. cbn. rewrite Ez.
      split; [|done]. split_and!; try done; [lia| |lia]. intros g. rewrite Ep. apply P.
  - intros fd s1 (-> & Ho). wp_step. unfold wp at 1, get_errno. rewrite (proj2 (Z.ltb_ge out 0)) by lia. by apply wp_ret.
Qed.

(** Closing the output and the compressor's output. *)
Lemma close_sink zout s : 0 <= zout -> zout <> out -> (intr (world s) < fuel)%nat ->
  wp (close_fds fuel [out; zout; -1]) (fun _ s' => sink (world s') = sink (world s)) s.
Proof.
  intros Hz Hne Hi.
  assert (Hclose : forall fd (t : cst W lister), (intr (world t) < fuel)%nat -> (fd = out \/ fd = zout) -> sink (world t) = sink (world s) ->
    wp (NO_INTR fuel (sys_close fd)) (fun _ t' => sink (world t') = sink (world s) /\ (intr (world t') < fuel)%nat) t).
  { intros fd t Ht Hfd Hs. apply (wp_NO_INTR (fun t' : cst W lister => sink (world t') = sink (world s) /\ (intr (world t') < fuel)%nat)
      (fun t' : cst W lister => intr (world t'))); [|done|done].
    intros s1 r u w' [E1 L1] Hk. assert (E : sink w' = sink (world s1)).
    { destruct Hfd as [-> | ->]; [by eapply k_close_out|by eapply k_close_sink]. }
    destruct (k_close_intr _ _ _ _ _ Hk) as [I1 I2]. rewrite <- E1, <- E.
    split; [intros _ Hr; cbn; split; [split; [done|lia]|auto]|]. split; [intros _ _; cbn; split; [done|lia]|].
    intros Hn. destruct (k_close_range _ _ _ _ _ Hk) as [|Hr]; [done|]. split; [lia|]. cbn. split; [done|lia]. }
  unfold close_fds. cbn [fold_right]. unfold close_nonneg. change (0 <=? -1) with false.
  rewrite (proj2 (Z.leb_le 0 out)), (proj2 (Z.leb_le 0 zout)) by lia. cbv iota.
  wp_step. wp_step. eapply wp_mono; [apply Hclose; auto|]. intros _ s1 [E1 L1]. repeat wp_step.
  eapply wp_mono; [by apply Hclose; auto|]. intros _ s2 [E2 L2]. by repeat wp_step.
Qed.

Lemma dump_to_file_packs path PATH cs sel s : compressor_of (Some cs) <> None ->
  (intr (world s) < fuel)%nat -> (13 <= slots (world s))%nat ->
  wp (dump_to_file fuel aarch64 uninit at_ptr seen final openmax (2 ^ k) path max_length PATH (Some cs) sel false
        info user st ts main_pid notes)
    (fun o s' => o = Some 0 /\ sink (world s') = packed file) s.
Proof.
  intros Hc Hi Hs. unfold dump_to_file. destruct (compressor_of (Some cs)) as [c|] eqn:Ec; [|done].
  wp_step. eapply wp_mono; [by eapply (CreatePipeline_starts fuel at_ptr seen final) with (n := 7%nat); eauto; congruence|].
  intros ? s1 (zin & zout & -> & Hw & _). change (0 <? 0) with false. cbv iota.
  wp_step. eapply wp_mono with (P := fun _ s' => world s' = world s1); [by destruct sel|]. intros _ s2 E2.
  wp_step. rewrite (proj2 (Z.ltb_lt 0 max_length)) by lia. cbv zeta. wp_step.
  eapply wp_mono; [by apply (open_output_started zin zout 6); rewrite E2|]. intros fd s3 (-> & Ho).
  rewrite (proj2 (Z.ltb_ge out 0)) by lia. pose proof Ho as [(J & _) _]. pose proof (z_apart _ _ _ J) as Hap. wp_step.
  eapply wp_mono; [by eapply (write_output_packs (zin := zin) (zout := zout) fuel aarch64 uninit); eauto|].
  intros [rc fds] s4 (-> & -> & _ & Hk & Hi4). wp_step. wp_step. unfold keeping_errno. wp_step. unfold wp at 1, get_errno. wp_step.
  destruct Hap as (_ & Hz & _ & _ & _ & Hne). cbn [fst snd].
  eapply wp_mono; [by apply close_sink; [lia|..]|]. cbn beta. intros _ s5 E5. unfold wp, set_errno.
  cbn [bind world Z.ltb Z.compare ret]. by rewrite E5, Hk.
Qed.
End Compressed.
