(* ===== verification/WholeDump.v ===== *)
(** The whole dump: [InternalGetCoreDump] with the threads stopped, writing to a file
    without a compressor, from the registers to the closing of the file. *)
From stdpp Require Import gmap.
From S2P Require Import Prelude Syscall KernelSpec CIO FileOps ProcIO LeadingZeros Smaps SmapsText SmapsClaims ElfTypes Vdso ElfCore.
From S2P Require Import ElfImage ElfReader Untouched CreateCore Params Lister Frame Pipeline CoreDump.
From S2P Require Import ListerSpec Complete Search Found Ends Calm Resumed Gather FileDump.

(** The calls of the lister do not change the output file. *)
Class FileApart (W : Type) (out : Z) `{OutFile W out} `{KernelProc W} :=
  lister_sink : forall w w', lister_call w w' -> sink w' = sink w.

(** Parameters that ask for a file of at most [max_length] bytes, not shortened by
    priority, and made by one of the compressors [cs]. *)
Record file_params (p : CoreDumpParameters) (max_length : Z) (cs : option (list CoredumperCompressor)) (notes : list CoredumperNote) : Prop := {
  pl_callback : GetCoreDumpParameter F_callback_fn p_callback_fn 0 p = 0;
  pl_length : GetCoreDumpParameter F_max_length p_max_length 0 p = max_length;
  pl_compressors : GetCoreDumpParameter F_compressors p_compressors None p = cs;
  pl_priority : Z.land (GetCoreDumpParameter F_flags p_cflags 0 p) COREDUMPER_FLAG_LIMITED_BY_PRIORITY = 0;
  pl_notes : ztake (GetCoreDumpParameter F_note_count p_note_count 0 p) (GetCoreDumpParameter F_notes p_notes [] p) = notes }.

(** Inputs of the right sizes, of which nothing is known. *)
Definition blank_info : prpsinfo := mkPrpsinfo 0 0 0 0 0 0 0 0 0 0 0 (replicate 16 0) (replicate 80 0).
Definition blank_user : list Z := replicate (Z.to_nat sizeof_core_user) 0.
Definition blank_status : prstatus :=
  mkPrstatus (0, 0, 0) 0 0 0 0 0 0 0 zero_time zero_time zero_time zero_time zero_regs 1.
Definition blank_thread (p : Z) : thread := mkThread p zero_regs (replicate (Z.to_nat sizeof_fpregs) 0).

(** What the calls of the dump and those of the lister preserve still holds after a
    dump to a file. *)
Section Preserved.
Context {W : Type} `{!KernelIO W} `{!KernelProc W} `{!KernelMisc W} `{!AddressSpace}.
Context (I : W -> Prop) (fresh : Z -> Prop) `{!Undisturbed I fresh} (I_lister : forall w w', I w -> lister_call w w' -> I w').
Abbreviation anyhow := (fun (_ : Z) (_ : cst W lister) => True).

Lemma preserved_resume ps s : I (world s) -> wlp (ResumeAllProcessThreads ps : M (cst W lister) _) (fun _ s' => I (world s')) anyhow s.
Proof. intros HI. eapply wlp_mono; [by apply (stays_resume I I_lister)|done|done]. Qed.

Lemma dump_preserves fuel aarch64 uninit ptr_bytes at_ptr seen final openmax pagesize (call : Z -> Z -> M (cst W lister) Z)
    frame params file_name PATH l s : GetCoreDumpParameter F_callback_fn p_callback_fn 0 params = 0 -> I (world s) ->
  wlp (InternalGetCoreDump fuel aarch64 uninit ptr_bytes at_ptr seen final openmax pagesize call frame params (Some file_name) PATH l)
    (fun _ s' => I (world s')) anyhow s.
Proof.
  intros Hcb HI. unfold InternalGetCoreDump. cbv zeta. rewrite Hcb. change (negb (0 =? 0)) with false. cbv iota.
  wp_step. apply wlp_ret. change (negb (0 =? 0)) with false. cbv iota.
  assert (Herr : forall s, I (world s) -> wlp (dump_error l : M (cst W lister) _) (fun _ s' => I (world s')) anyhow s).
  { intros s' HI'. unfold dump_error. wp_step. eapply wlp_mono; [by apply preserved_resume|by intros|done]. }
  assert (Hpart : forall A V (m : M (cst W lister) A) s, I (world s) -> calm I any any any V m ->
    wlp m (fun _ s' => I (world s')) anyhow s).
  { intros A V m s' HI' Hm. eapply wlp_mono; [by apply (calm_wlp I any any any V)|by intros ? ? (_ & ? & _)|done]. }
  wp_step. eapply wlp_mono; [apply (Hpart _ any); [done|eauto with calm]| |done]. intros o s1 H1.
  destruct o as [ts|].
  2:{ wp_step. eapply wlp_mono; [by apply preserved_resume|intros; by apply Herr|done]. }
  wp_step. eapply wlp_mono; [apply (Hpart _ any); [done|eauto with calm]| |done]. intros user s2 H2.
  wp_step. eapply wlp_mono; [apply (Hpart _ any); [done|eauto with calm]| |done]. intros info s3 H3.
  wp_step. eapply wlp_mono; [apply (Hpart _ any); [done|eauto with calm]| |done]. intros st s4 H4.
  wp_step. eapply wlp_mono with (P := fun _ s' => I (world s')) (X := anyhow); [by destruct (match _ with Some _ => true | None => false end)| |done].
  intros ? s5 H5. wp_step. eapply wlp_mono; [eapply Hpart; [done|eapply calm_dump_to_file; eauto with calm]| |done].
  intros [fd|] s6 H6; [|by apply Herr]. wp_step. eapply wlp_mono; [by apply preserved_resume|by intros|done].
Qed.
End Preserved.

Section WholeDump.
Context {W : Type} `{!KernelIO W} `{!KernelProc W} `{!Tracing W} `{!KernelMisc W} `{!DumpTracing W} `{!AddressSpace}
  {out : Z} `{!OutFile W out} `{!Files W} `{!Interrupts W} `{!WriteReady W out} `{!AuxvWhole W} `{!ReadReady W} `{!Pipes W}
  `{!PipeFresh W out} `{!OutputFile W out} {k : Z} `{!PipePage W (2 ^ k)} `{!Reports W} `{!FileApart W out}.
Context (fuel : nat) (aarch64 : bool) (uninit : list Z) (ptr_bytes : list CoredumperCompressor -> list Z)
  (at_ptr : list Z -> option (list CoredumperCompressor)) (seen final : CreateArgs -> CreateArgs) (openmax : Z)
  (call : Z -> Z -> M (cst W lister) Z) (PATH : option (list Z)).
Context (frame : Frame) (params : CoreDumpParameters) (max_length : Z) (cs : option (list CoredumperCompressor)) (notes : list CoredumperNote) (file_name : list Z).
Context (maps : list Z) (gs : list segment) (es : list (list Z)) (last : list Z) (rest : list Z).
Hypothesis (page_bits : 0 <= k < 31) (proc : proc_files (k := k) gs es last fuel maps rest).
Hypothesis (asked : file_params params max_length cs notes).
Hypothesis (note_types : Forall (fun n => 0 <= note_type n < 2 ^ 32) notes).
Implicit Types (s : cst W lister) (l : list Z).
Abbreviation main_pid := (tid frame).
Abbreviation ps := (2 ^ k).

(** What [dump_to_file] makes of a core file of less than [size] bytes, given
    [need] descriptors. *)
Context (render : list Z -> list Z) (size : Z) (need : nat).
Definition renders : Prop := forall sel info user st ts s,
  core_inputs (k := k) aarch64 info (Some user) st ts main_pid notes gs es last size ->
  (intr (world s) < fuel)%nat -> (need <= slots (world s))%nat ->
  wp (dump_to_file fuel aarch64 uninit at_ptr seen final openmax ps file_name max_length PATH cs sel false info user st ts main_pid notes)
    (fun o s' => o = Some 0 /\ sink (world s') = render (core_file (k := k) aarch64 info (Some user) st ts main_pid notes gs es last)) s.
Hypothesis dumps : renders.

(** The dump of threads [l] does not get too large. *)
Definition roomy l : Prop := core_inputs (k := k) aarch64 blank_info (Some blank_user) blank_status (map blank_thread l) main_pid
  notes gs es last size.

(** That is so if there is room for as many others. *)
Definition room_for (n : Z) : Prop :=
  roomy (seqZ 1 n) /\
  zlen (core_file (k := k) aarch64 blank_info (Some blank_user) blank_status (map blank_thread (seqZ 1 n)) main_pid
    notes gs es last) + ps < Z.min size SSIZE_LIM.

Lemma room_roomy n l : room_for n -> NoDup l -> zlen l <= n -> roomy l.
Proof.
  intros [[Hin Hp Hf Hn _] Hs] Hnd Hl. pose proof Hin as [F A U _ N P].
  assert (Hpids : forall l, map t_pid (map blank_thread l) = l) by (intros l'; rewrite map_map; apply map_id).
  assert (Hin' : inputs_ok blank_info (Some blank_user) (map blank_thread l) notes ps).
  { split; [done|done|done| |done|done]. by apply Forall_map, Forall_true. }
  split; [done|by rewrite Hpids|done|done|]. unfold core_file in *.
  pose proof (core_image_fewer blank_info blank_user blank_status (map blank_thread (seqZ 1 n)) blank_info blank_user blank_status
    (map blank_thread l) ps main_pid notes (found (k := k) aarch64 gs) (concat (es ++ [last])) (vdso_extra (found_vdso (k := k) aarch64 gs es last))
    Hin Hin' Hp) as Hle.
  rewrite Hpids in Hle. specialize (Hle Hnd). revert Hle. unfold zlen at 1 2. rewrite !length_map, length_seqZ.
  intros Hle. specialize (Hle ltac:(unfold zlen in Hl; lia)). lia.
Qed.

(** The user structure starts with the registers of the first thread. *)
Definition user_ok l (user : list Z) : Prop := zlen user = sizeof_core_user /\
  match l with p :: _ => ztake sizeof_regs user = regs_bytes (t_regs (thread_of frame p)) | [] => True end.

(** The file holds what is made of a core file of the threads [l]; who gets that core
    file back from it finds in it the memory of the process, and in its notes the
    registers of every thread. *)
Definition file_holds l (core : list Z) : Prop := exists info user st,
  let ts := map (thread_of frame) l in
  let file := core_file (k := k) aarch64 info (Some user) st ts main_pid notes gs es last in
  info_ok main_pid info /\ user_ok l user /\ core = render file /\
  (forall undo, undo (render file) = file -> reads_back (k := k) aarch64 gs (undo core) /\
     notes_back (k := k) aarch64 info (Some user) st ts main_pid notes gs es last (undo core)).

Lemma gathered_ok l info user : roomy l -> info_ok main_pid info -> zlen user = sizeof_core_user ->
  forall st, core_inputs (k := k) aarch64 info (Some user) st (map (thread_of frame) l) main_pid notes gs es last size.
Proof.
  intros Hr (_ & Hf & Ha) Hu st. eapply core_inputs_any; [exact Hr| |by rewrite !map_map].
  destruct Hr as [[_ _ _ _ Hn Hp] _ _ _ _]. split; [done|done| | |done|done].
  - by intros ? [= <-].
  - apply Forall_map, Forall_true. intros p. by apply zlen_from_scratch.
Qed.

(** Letting the threads go ends, and leaves the file alone. *)
Lemma resume_writes l core s : Inv l s -> sink (world s) = core ->
  wp (ResumeAllProcessThreads l) (fun _ s' => ListerSpec.Tr ∅ ∅ l s' /\ sink (world s') = core) s.
Proof.
  intros Hi Hk. eapply wp_mono.
  - eapply wp_conj; [apply tlp_wp|by apply resume_everything].
    apply (g_resume (fun w => sink w = core)) with (l := l); [|by split; [|apply Hi]].
    intros w w' <- Hc. by apply lister_sink, pass_lister.
  - by intros ? s' [[? _] ?].
Qed.

(** The callback of the lister, given the stopped threads [l], writes their core file
    and lets them go. *)
Lemma InternalGetCoreDump_writes l s : Inv l s -> l <> [] -> roomy l ->
  (intr (world s) < fuel)%nat -> (2 + need <= slots (world s))%nat ->
  wp (InternalGetCoreDump fuel aarch64 uninit ptr_bytes at_ptr seen final openmax ps call frame params (Some file_name) PATH l)
    (fun r s' => r = 0 /\ ListerSpec.Tr ∅ ∅ l s' /\ file_holds l (sink (world s'))) s.
Proof.
  intros Hinv Hne Hroomy Hi Hn. pose proof Hinv as [(HA & HS & Hl) Hnd]. set (L := list_to_set l) in *.
  destruct asked as [Hcb Hml Hcomp Hprio Hnotes].
  assert (Hs : Gather.rest fuel L L (hnd s) (2 + need) s) by by split_and!.
  unfold InternalGetCoreDump. cbv zeta. rewrite Hcb, Hprio, Hml, Hcomp, Hnotes. change (negb (0 =? 0)) with false. cbv iota. wp_step. wp_step.
  change (negb (0 =? 0)) with false. cbv iota. wp_step.
  eapply wp_mono; [apply (read_threads_reports fuel L frame frame l L (hnd s) (2 + need)); [done|exact Hs|set_solver]|].
  intros ? s1 [-> Hs1]. destruct l as [|pid0 l']; [done|]. cbn [map first_pid first_regs]. wp_step.
  eapply wp_mono; [by apply get_user_size|]. intros user s2 (Hu & Hur & Hs2). wp_step.
  eapply wp_mono; [by apply (get_prpsinfo_ok fuel L main_pid L (hnd s) (1 + need))|]. intros info s3 (Hinfo & Hs3). wp_step.
  eapply wp_mono; [by apply (get_prstatus_ends fuel L info L (hnd s) need)|]. intros st s4 Hs4.
  set (sel := match GetCoreDumpParameter F_selected_compressor _ _ _ with Some _ => true | None => false end). clearbody sel.
  wp_step. eapply wp_mono with (P := fun _ s5 => Inv (pid0 :: l') s5 /\ world s5 = world s4).
  { destruct Hs4 as ([HA4 HS4] & _ & _ & Hh4). assert (Inv (pid0 :: l') s4) by (split; [|done]; split_and!; [done|done|by rewrite Hh4]).
    destruct sel; [|by apply wp_ret]. done. }
  intros ? s5 [Hinv5 E5]. destruct Hs4 as (_ & Hi4 & Hn4 & _).
  pose proof (gathered_ok _ info user Hroomy Hinfo Hu st) as Hin. cbn [map] in Hin.
  wp_step. eapply wp_mono.
  - eapply wp_conj; [apply (dumps sel info user st); [exact Hin|by rewrite E5..]|].
    pose proof (traced_undisturbed (list_to_set (pid0 :: l')) (list_to_set (pid0 :: l'))).
    eapply calm_Tr; [apply Hinv5|]. eapply calm_dump_to_file; eauto with calm.
  - intros o s6 [[-> Hsink] [_ Hs6]]. wp_step. eapply wp_mono; [apply resume_writes; [by split|exact Hsink]|].
    intros ? s7 [Hs7 Hk7]. apply wp_ret. split; [done|]. split; [done|]. exists info, user, st. cbn [map].
    split; [done|]. split; [by split|]. split; [done|]. intros undo Hu'. rewrite Hk7, Hu'.
    split; [by eapply file_read; eauto|by eapply file_notes; eauto].
Qed.
End WholeDump.
