(* ===== verification/Program.v ===== *)
(** The program as a whole: a call of [WriteCoreDump] finds and stops the threads,
    collects their registers, reads the map of the memory and writes the file, and
    lets the threads go. *)
From stdpp Require Import gmap.
From S2P Require Import Prelude Syscall KernelSpec CIO FileOps ProcIO LeadingZeros Smaps SmapsText SmapsClaims ElfTypes Vdso ElfCore.
From S2P Require Import ElfImage ElfReader Untouched CreateCore Params Lister Frame Pipeline CoreDump.
From S2P Require Import ListerSpec Complete Search Found Ends Delivers Calm Resumed Gather ApiClaims FileDump PipeWrite Start Compress WholeDump.

(** ** Resources

    The lister has up to two descriptors of its own, and no call that it needs fails
    while there is one left; the interruptions that the dump can meet are bounded,
    as those of the lister are. *)
Definition opened_by (o : option Z) : nat := match o with Some _ => 1 | None => 0 end.

Lemma opened_by_one o : (opened_by o <= 1)%nat.
Proof. destruct o; cbn; lia. Qed.

Class Resources (W : Type) `{KernelIO W} `{KernelProc W} `{KernelMisc W} `{AddressSpace} `{!Files W} `{!Interrupts W} `{!Progress W} := {
  marker_fd : W -> option Z;
  dir_fd : W -> option Z;
  lister_intr : forall w w', lister_call w w' -> (intr w' <= intr w)%nat;
  pass_slots : forall w w', pass_call w w' -> (slots w <= slots w')%nat /\ marker_fd w' = marker_fd w /\ dir_fd w' = dir_fd w;
  between_slots : forall w w', between_call w w' -> (slots w <= slots w')%nat /\ marker_fd w' = marker_fd w /\ dir_fd w' = dir_fd w;
  getdents_slots : forall f c w r es w', k_getdents f c w = (r, es, w') ->
    (slots w <= slots w')%nat /\ marker_fd w' = marker_fd w /\ dir_fd w' = dir_fd w;
  lseek_slots : forall f o h w r u w', k_lseek f o h w = (r, u, w') ->
    (slots w <= slots w')%nat /\ marker_fd w' = marker_fd w /\ dir_fd w' = dir_fd w;
  socket_slots : forall w r u w', marker_fd w = None -> (0 < slots w)%nat -> k_socket w = (r, u, w') ->
    0 <= r /\ (slots w <= S (slots w'))%nat /\ marker_fd w' = Some r /\ dir_fd w' = dir_fd w;
  opendir_slots : forall p w r u w', dir_fd w = None -> (0 < slots w)%nat -> own_dir W p -> k_opendir p w = (r, u, w') ->
    marker_fd w' = marker_fd w /\
    (r = - EINTR /\ (slots w <= slots w')%nat /\ dir_fd w' = None \/ 0 <= r /\ (slots w <= S (slots w'))%nat /\ dir_fd w' = Some r);
  (* closing a descriptor of the lister makes room for another *)
  close_slots : forall f w r u w', k_close f w = (r, u, w') ->
    (0 < slots w -> slots w + opened_by (marker_fd w) + opened_by (dir_fd w) <= slots w' + opened_by (marker_fd w') + opened_by (dir_fd w'))%nat /\
    (dir_fd w' = dir_fd w \/ dir_fd w' = None) /\ (r <> - EINTR -> dir_fd w = Some f -> dir_fd w' = None);
  fcntl_marker : forall f w r u w', marker_fd w = Some f -> k_fcntl f F_SETFD FD_CLOEXEC w = (r, u, w') -> 0 <= r < 2 ^ 31;
  fstat_dir : forall f w r i w', dir_fd w = Some f -> k_fstat f w = (r, i, w') -> 0 <= r < 2 ^ 31;
  getdents_dir : forall f c w r es w', dir_fd w = Some f -> k_getdents f c w = (r, es, w') -> 0 <= r;
  stat_marker : forall name f digits w r i w', marker_fd w = Some f -> own_name W name -> local_itoa itoa_fuel f = Some digits ->
    k_stat (bytes "/proc/" ++ name ++ bytes "/fd/" ++ digits) w = (r, i, w') -> 0 <= r < 2 ^ 31;
  sigprocmask_own : forall h g w r l w', k_rt_sigprocmask h g w = (r, l, w') -> r = 0;
  clone_own : forall w r u w', k_clone w = (r, u, w') -> 0 <= r < 2 ^ 31;
  wait_own : forall p w0 r0 u w1 w r st w', k_clone w0 = (r0, u, w1) -> p = s32 r0 -> k_waitpid p __WALL w = (r, st, w') ->
    r = - EINTR \/ 0 <= r;
  dump_patience : forall w w', dump_call any w w' -> (patience w' <= patience w)%nat;
  clone_vm_patience : forall w r u w', k_clone_vm w = (r, u, w') -> (patience w' <= patience w)%nat }.

(** There are descriptors for the lister (the marker and the directory), for reading
    about the process, and [need] for writing the file. *)
Definition supplied {W : Type} `{Resources W} (need fuel : nat) (m d : option Z) (w : W) : Prop :=
  (4 + need <= slots w + opened_by (marker_fd w) + opened_by (dir_fd w))%nat /\ (intr w < fuel)%nat /\ marker_fd w = m /\ dir_fd w = d.

Section Supplied.
Context {W : Type} `{!KernelIO W} `{!KernelProc W} `{!KernelMisc W} `{!AddressSpace} `{!Files W} `{!Interrupts W} `{!Progress W}
  `{!Resources W} (need fuel : nat).

Lemma supplied_same m d (w w' : W) : supplied need fuel m d w -> lister_call w w' ->
  (slots w <= slots w')%nat /\ marker_fd w' = marker_fd w /\ dir_fd w' = dir_fd w -> supplied need fuel m d w'.
Proof.
  intros (Hs & Hi & Hm & Hd) Hc (Hs' & Em & Ed). pose proof (lister_intr _ _ Hc).
  unfold supplied. rewrite Em, Ed. split_and!; [lia|lia|done|done].
Qed.

#[export] Instance supplied_keeps : Keeps W False (supplied need fuel).
Proof.
  split.
  - intros m d w w' Hs Hc. eapply supplied_same; [done|by apply pass_lister|by apply pass_slots].
  - intros m w w' Hs Hc. eapply supplied_same; [done|by apply l_quiet, between_quiet|by apply between_slots].
  - intros w r u w' (Hs & Hi & Hm & Hd) Hk. rewrite Hm, Hd in Hs. cbn in Hs.
    destruct (socket_slots _ _ _ _ Hm ltac:(lia) Hk) as (Hr & Hs' & Em & Ed). split; [unfold is_err; lia|]. intros _.
    pose proof (lister_intr _ _ (l_quiet _ _ (q_socket _ _ _ _ Hk))). unfold supplied. rewrite Em, Ed, Hd. cbn. split_and!; (done || lia).
  - intros p m w r u w' (Hs & Hi & Hm & Hd) Hp Hk. rewrite Hm, Hd in Hs. cbn in Hs.
    assert (Hpos : (0 < slots w)%nat) by (unfold opened_by in Hs; destruct m; lia).
    pose proof (lister_intr _ _ (l_quiet _ _ (q_opendir _ _ _ _ _ Hk))).
    destruct (opendir_slots _ _ _ _ _ Hd Hpos Hp Hk) as (Em & [(-> & Hs' & Ed)|(Hr & Hs' & Ed)]).
    + split; [|unfold EINTR; lia]. intros _. split; [|by left]. unfold supplied. rewrite Em, Ed, Hm. cbn. split_and!; (done || lia).
    + split; [unfold is_err; lia|]. intros _. unfold supplied. rewrite Em, Ed, Hm. cbn. split_and!; (done || lia).
  - intros f c m w r es w' Hs Hk. split; [pose proof (getdents_dir _ _ _ _ _ _ (proj2 (proj2 (proj2 Hs))) Hk); unfold is_err; lia|].
    eapply supplied_same; [done|apply l_quiet; by eapply q_getdents|by eapply getdents_slots].
  - intros f o h m w r u w' Hs Hk. eapply supplied_same; [done|apply l_quiet; by eapply q_lseek|by eapply lseek_slots].
  - intros f m d w r u w' (Hs & Hi & Hm & Hd) Hk. destruct (close_slots _ _ _ _ _ Hk) as (Hs' & Hd' & Hn).
    pose proof (opened_by_one (marker_fd w)). pose proof (opened_by_one (dir_fd w)). specialize (Hs' ltac:(lia)).
    pose proof (lister_intr _ _ (l_quiet _ _ (q_close _ _ _ _ _ Hk))). exists (marker_fd w'), (dir_fd w'). rewrite Hd in Hd', Hn.
    split; [split_and!; (done || lia)|]. by split.
  - intros f w r u w' (_ & _ & Hm & _) Hk. left. by eapply fcntl_marker.
  - intros f m w r i w' (_ & _ & _ & Hd) Hk. left. by eapply fstat_dir.
  - intros name f digits w r i w' (_ & _ & Hm & _) Hn Hf Hk. left. by eapply stat_marker.
  - intros h g w r l w' Hk. left. by eapply sigprocmask_own.
  - intros w r u w' Hk. left. by eapply clone_own.
  - intros p w0 r0 u w1 w r st w' Hc Hp Hk. destruct (wait_own _ _ _ _ _ _ _ _ _ Hc Hp Hk); auto.
Qed.

#[export] Instance patient_undisturbed : Undisturbed (fun w : W => (patience w < fuel)%nat) any.
Proof.
  split.
  - intros w w' Hp Hc. pose proof (dump_patience _ _ Hc). lia.
  - intros w r u w' Hp Hk. pose proof (clone_vm_patience _ _ _ _ Hk). split; [lia|by intros].
Qed.
End Supplied.

(** ** A call that writes a file *)
Section Program.
Context {W : Type} `{!KernelIO W} `{!KernelProc W} `{!Tracing W} {i_addr : Z} `{!Threads W i_addr} `{!Process W i_addr}
  `{!Leader W i_addr} `{!Progress W} `{!KernelMisc W} `{!DumpTracing W} `{!AddressSpace}
  {out : Z} `{!OutFile W out} `{!Files W} `{!Interrupts W} `{!WriteReady W out} `{!AuxvWhole W} `{!ReadReady W} `{!Pipes W}
  `{!PipeFresh W out} `{!OutputFile W out} {k : Z} `{!PipePage W (2 ^ k)} `{!Reports W} `{!FileApart W out} `{!Resources W}.
Context (fuel : nat) (aarch64 : bool) (uninit : list Z) (ptr_bytes : list CoredumperCompressor -> list Z)
  (at_ptr : list Z -> option (list CoredumperCompressor)) (seen final : CreateArgs -> CreateArgs) (openmax : Z)
  (call : Z -> Z -> M (cst W lister) Z) (PATH : option (list Z)) (raw : CoreDumpParameters).
Context (frame : Frame) (e : entry) (file_name : list Z) (max_length : Z) (cs : option (list CoredumperCompressor)) (notes : list CoredumperNote).
Context (maps : list Z) (gs : list segment) (es : list (list Z)) (last : list Z) (rest : list Z).
Context (render : list Z -> list Z) (size : Z) (need : nat).
Hypothesis (page_bits : 0 <= k < 31).
Hypothesis (rounds : (lister_rounds max_pid dir_reads <= fuel)%nat).
Hypothesis (proc : proc_files (k := k) gs es last fuel maps rest).
Hypothesis (asked : file_params (entry_params e) max_length cs notes).
Hypothesis (note_types : Forall (fun n => 0 <= note_type n < 2 ^ 32) notes).
Hypothesis (dumps : renders (k := k) (out := out) fuel aarch64 uninit at_ptr seen final openmax PATH frame max_length cs notes file_name gs es last
  render size need).
Hypothesis (room : room_for (k := k) aarch64 frame notes gs es last size (Z.of_nat max_pid)).
Implicit Types (s : cst W lister) (l : list Z).

Abbreviation holds := (file_holds (k := k) aarch64 frame notes gs es last render).
Abbreviation dump := (InternalGetCoreDump fuel aarch64 uninit ptr_bytes at_ptr seen final openmax (2 ^ k) call).

(** The file is that of a list of threads, without repetitions, to which all those of
    [A] belong. *)
Definition dumped_file (A : gset Z) (w : W) : Prop :=
  exists l, NoDup l /\ A ⊆ list_to_set l /\ holds l (sink w).

Lemma dump_returns A l s : called (i_addr := i_addr) (D := supplied need fuel) fuel (fun w => A ⊆ alive w) l s ->
  wp (dump frame (entry_params e) (Some file_name) PATH l)
    (fun r s' => Tr ∅ ∅ l s' /\ Ends.calm fuel s' /\ r = 0 /\ dumped_file A (world s')) s.
Proof.
  intros [Hi Ha Hc [m (Hslots & Hintr & _ & Hd)] Hg HA]. rewrite Hd in Hslots. cbn in Hslots.
  pose proof Hi as [_ Hnd]. pose proof (leader_alive (world s)) as Hp. apply Ha in Hp.
  pose proof (good_few _ Hg) as Hfew. assert (Hne : l <> []) by (intros ->; by apply not_elem_of_empty in Hp).
  eapply wp_mono.
  - eapply wp_conj; [|apply (dump_preserves (fun w => (patience w < fuel)%nat) any); [|apply asked|exact Hc]].
    2:{ intros w w' Hw Hcall. pose proof (calls_patience _ _ Hcall). lia. }
    eapply (InternalGetCoreDump_writes (k := k) (out := out)); eauto; [by eapply room_roomy|].
    unfold opened_by in Hslots. destruct (marker_fd (world s)); lia.
  - intros r s' [(-> & Hs' & Hh) Hpat]. split; [done|]. split; [done|]. split; [done|]. exists l. split; [done|].
    split; [|done]. unfold all_listed in Ha. set_solver + HA Ha.
Qed.

(** An entry point that writes a file, called while no thread is traced, writes what is
    made of a core file of all threads. *)
Lemma entry_writes s : entry_file e = Some file_name ->
  supplied need fuel None None (world s) -> Ends.calm fuel s ->
  attached (world s) = ∅ -> stopped (world s) = ∅ -> pids (hnd s) = [] ->
  wp (run_entry fuel i_addr dump PATH raw frame e)
    (fun r s' => r = 0 /\ attached (world s') = ∅ /\ dumped_file (alive (world s)) (world s')) s.
Proof.
  intros He Hsup Hc HA HS Hl. eapply wp_ext; [apply entry_as_with|]. rewrite He. unfold WriteCoreDumpWith, WriteCoreDumpFunction.
  set (A := alive (world s)).
  assert (Hkeep : forall r (w w' : W), r = 0 /\ dumped_file A w -> lister_call w w' -> r = 0 /\ dumped_file A w').
  { intros r w w' [-> (l & ? & ? & Hh)] Hcall. split; [done|]. exists l. split_and!; [done|done|]. by rewrite (lister_sink w w'). }
  eapply wp_mono.
  - apply (list_all_delivers (i_addr := i_addr) (D := supplied need fuel) (may_fail := False) fuel rounds (fun w => A ⊆ alive w)) with
      (R := fun r _ w => r = 0 /\ dumped_file A w); try done.
    + intros w w' HJ Hcall. destruct (calls_alive w w' Hcall) as [Hsub _]. by etrans.
    + intros r _ w w' HR Hcall. eapply Hkeep; [done|by apply pass_lister].
    + intros r _ w w' HR Hcall. eapply Hkeep; [done|by apply l_quiet, between_quiet].
    + intros l s'. by apply dump_returns.
  - intros r s' [[]|(HA' & -> & Hf)]. done.
Qed.
End Program.

(** *** Without a compressor *)
Section Plain.
Context {W : Type} `{!KernelIO W} `{!KernelProc W} `{!Tracing W} {i_addr : Z} `{!Threads W i_addr} `{!Process W i_addr}
  `{!Leader W i_addr} `{!Progress W} `{!KernelMisc W} `{!DumpTracing W} `{!AddressSpace}
  {out : Z} `{!OutFile W out} `{!Files W} `{!Interrupts W} `{!WriteReady W out} `{!AuxvWhole W} `{!ReadReady W} `{!Pipes W}
  `{!PipeFresh W out} `{!OutputFile W out} {k : Z} `{!PipePage W (2 ^ k)} `{!Reports W} `{!FileApart W out} `{!Resources W}.
Context (fuel : nat) (aarch64 : bool) (uninit : list Z) (ptr_bytes : list CoredumperCompressor -> list Z)
  (at_ptr : list Z -> option (list CoredumperCompressor)) (seen final : CreateArgs -> CreateArgs) (openmax : Z)
  (call : Z -> Z -> M (cst W lister) Z) (PATH : option (list Z)) (raw : CoreDumpParameters).
Context (frame : Frame) (e : entry) (file_name : list Z) (max_length : Z) (cs : option (list CoredumperCompressor)) (notes : list CoredumperNote).
Context (maps : list Z) (gs : list segment) (es : list (list Z)) (last : list Z) (rest : list Z).
Hypothesis (page_bits : 0 <= k < 31) (out_fd : 0 <= out < 2 ^ 31).
Hypothesis (rounds : (lister_rounds max_pid dir_reads <= fuel)%nat).
Hypothesis (proc : proc_files (k := k) gs es last fuel maps rest).
Hypothesis (asked : file_params (entry_params e) max_length cs notes) (plain : compressor_of cs = None) (length_range : 0 < max_length < 2 ^ 64).
Hypothesis (note_types : Forall (fun n => 0 <= note_type n < 2 ^ 32) notes).
Hypothesis (room : room_for (k := k) aarch64 frame notes gs es last (nmax fuel) (Z.of_nat max_pid)).
Implicit Types s : cst W lister.
Abbreviation dump := (InternalGetCoreDump fuel aarch64 uninit ptr_bytes at_ptr seen final openmax (2 ^ k) call).

(** C1. A dump does what the program is for.  Called while no thread is traced, an entry
    point that writes a file, with parameters that ask for no compression and no
    priorities, returns 0 and leaves no thread traced; the file is the first
    [max_length] bytes of a core file whose threads are all those of the process,
    each once, with the registers the kernel or the caller's frame reports; and
    if that is all of it, the memory reads back from it, and its notes give the
    registers of every thread.  The process may make threads while it is searched.
    Supposed are: no mapping is of a device ([device_mapping_fails]), the
    application has set no callback, the limit is not 0, the files of /proc are as
    the kernel prints them ([proc_files]), the core file fits its fields and one
    write ([room_for]), and there are enough descriptors and rounds. *)
Theorem WriteCoreDump_writes s : entry_file e = Some file_name ->
  supplied 7 fuel None None (world s) -> Ends.calm fuel s ->
  attached (world s) = ∅ -> stopped (world s) = ∅ -> pids (hnd s) = [] ->
  wp (run_entry fuel i_addr dump PATH raw frame e)
    (fun r s' => r = 0 /\ attached (world s') = ∅ /\
       dumped_file (k := k) (out := out) aarch64 frame notes gs es last (ztake max_length) (alive (world s)) (world s')) s.
Proof.
  apply (entry_writes (k := k) (out := out) fuel aarch64 uninit ptr_bytes at_ptr seen final openmax call PATH raw frame e file_name
    max_length cs notes maps gs es last rest (ztake max_length) (nmax fuel) 7); try done.
  intros sel info user st ts s' Hin Hi Hs. by eapply dump_to_file_spec.
Qed.
End Plain.

(** *** With a compressor *)
Section Packed.
Context {W : Type} `{!KernelIO W} `{!KernelProc W} `{!Tracing W} {i_addr : Z} `{!Threads W i_addr} `{!Process W i_addr}
  `{!Leader W i_addr} `{!Progress W} `{!KernelMisc W} `{!DumpTracing W} `{!AddressSpace}
  {out : Z} `{!OutFile W out} `{!Files W} `{!Interrupts W} `{!WriteReady W out} `{!AuxvWhole W} `{!ReadReady W} `{!Pipes W}
  `{!PipeFresh W out} `{!OutputFile W out} {k : Z} `{!PipePage W (2 ^ k)} `{!Reports W} `{!FileApart W out} `{!Resources W}.
Context (fuel : nat) (aarch64 : bool) (uninit : list Z) (ptr_bytes : list CoredumperCompressor -> list Z)
  (at_ptr : list Z -> option (list CoredumperCompressor)) (seen : CreateArgs -> CreateArgs) (child : W) (openmax : Z)
  (call : Z -> Z -> M (cst W lister) Z) (PATH : option (list Z)) (raw : CoreDumpParameters).
Context {packed : list Z -> list Z} {cap most : Z} `{!Compressor W out packed cap most} {told : list (list Z)} `{!Spawns W out packed cap most told}.
Hypothesis (seen_keeps : child_keeps seen).
Hypothesis (told_pointers : Forall (fun c => zlen c = 8) told) (told_fuel : (length told < fuel)%nat).
Context (name : Z) (rest_name : list Z) (chosen : list CoredumperCompressor).
Hypothesis (told_last : at_ptr (List.last told (le 8 0)) = Some chosen) (chosen_name : compressor_of (Some chosen) = Some (name :: rest_name)).
Context (frame : Frame) (e : entry) (file_name : list Z) (max_length : Z) (cs : list CoredumperCompressor) (notes : list CoredumperNote).
Context (maps : list Z) (gs : list segment) (es : list (list Z)) (last : list Z) (rest : list Z).
Hypothesis (page_bits : 0 <= k < 31) (out_fd : 0 <= out < 2 ^ 31).
Hypothesis (rounds : (lister_rounds max_pid dir_reads <= fuel)%nat).
Hypothesis (proc : proc_files (k := k) gs es last fuel maps rest).
Hypothesis (asked : file_params (entry_params e) max_length (Some cs) notes) (compressed : compressor_of (Some cs) <> None).
Hypothesis (cap_nonneg : 0 <= cap) (most_length : 0 <= most < max_length) (length_range : max_length < 2 ^ 64) (most_fuel : most < Z.of_nat fuel).
Hypothesis (note_types : Forall (fun n => 0 <= note_type n < 2 ^ 32) notes).
Hypothesis (room : room_for (k := k) aarch64 frame notes gs es last (pipe_max (cap := cap) (most := most) fuel []) (Z.of_nat max_pid)).
Implicit Types s : cst W lister.
(** What the child has made of the shared structure when it ends or is replaced. *)
Abbreviation final := (child_final fuel ptr_bytes child).
Abbreviation dump := (InternalGetCoreDump fuel aarch64 uninit ptr_bytes at_ptr seen final openmax (2 ^ k) call).

(** C2. A compressed dump, as a whole.  Called while no thread is traced, with parameters
    that name compressors, a limit that the compressed file stays below and no
    priorities, an entry point that writes a file returns 0 and leaves no thread
    traced; the file is exactly what the compressor makes of a core file whose
    threads are all those of the process.  Whoever unpacks it reads the memory back,
    and from its notes the registers of every thread.  Supposed are: no mapping is of
    a device, the application has set no callback, [most], which no output of the
    compressor for such a core file exceeds, is less than the limit (a smaller one
    would cut the file), a compressor of the table can be started ([Spawns]), and
    what is supposed of the uncompressed dump about /proc, sizes, descriptors and
    rounds. *)
Theorem WriteCompressedCoreDump_packs s : entry_file e = Some file_name ->
  supplied 13 fuel None None (world s) -> Ends.calm fuel s ->
  attached (world s) = ∅ -> stopped (world s) = ∅ -> pids (hnd s) = [] ->
  wp (run_entry fuel i_addr dump PATH raw frame e)
    (fun r s' => r = 0 /\ attached (world s') = ∅ /\
       dumped_file (k := k) (out := out) aarch64 frame notes gs es last packed (alive (world s)) (world s')) s.
Proof.
  apply (entry_writes (k := k) (out := out) fuel aarch64 uninit ptr_bytes at_ptr seen final openmax call PATH raw frame e file_name
    max_length (Some cs) notes maps gs es last rest packed (pipe_max (cap := cap) (most := most) fuel []) 13); try done.
  intros sel info user st ts s' Hin Hi Hs. eapply (dump_to_file_packs (told := told)); eauto. intros a. apply child_final_keeps.
Qed.
End Packed.
