(* ===== verification/Packer.v ===== *)
(** Files, pipes, and a compressor that can be started: the files of [ToyKernel], and a
    process between two pipes that adds one to every byte and ends its output with a
    zero. *)
From S2P Require Import Prelude Syscall KernelSpec ToyKernel CIO IOClaims FileOps ProcIO LeadingZeros Smaps SmapsText SmapsClaims.
From S2P Require Import ElfTypes Vdso ElfCore ElfImage Untouched PipeWrite Scenario CoreClaims CreateCore Params Lister Frame.
From S2P Require Import Pipeline CoreDump Start FileDump.

(** What the compressor makes of its input. *)
Definition shifted (l : list Z) : list Z := map (fun b => (b + 1) mod 256) l.
Definition pack (l : list Z) : list Z := shifted l ++ [0].
Definition unpack (l : list Z) : list Z := map (fun b => (b - 1) mod 256) (removelast l).

Lemma unpack_pack l : Forall (fun b => 0 <= b < 256) l -> unpack (pack l) = l.
Proof.
  intros Hl. unfold unpack, pack. rewrite removelast_last. unfold shifted. rewrite map_map.
  rewrite <- (map_id l) at 2. apply map_ext_Forall. apply (Forall_impl _ _ _ Hl). intros b Hb.
  rewrite <- Zdiv.Zminus_mod_idemp_l, Z.mod_mod, Zdiv.Zminus_mod_idemp_l by lia. rewrite Z.add_simpl_r. by apply Z.mod_small.
Qed.

(** [p_pair] are the ends of its pipes once it has been started; [p_taken] bytes of its
    output have been read. *)
Record packer := Packer {
  p_files : toy; p_pair : option (Z * Z); p_fed : list Z; p_taken : nat; p_end : bool; p_nonblock : bool; p_in : bool; p_out : bool }.

Definition p_avail (w : packer) : list Z := shifted (p_fed w) ++ if p_end w then [0] else [].
Definition p_rest (w : packer) : list Z := drop (p_taken w) (p_avail w).
Definition p_came (w : packer) : list Z := take (p_taken w) (p_avail w).
Definition p_clip (w : packer) : nat := Nat.min (p_taken w) (length (p_avail w)).

(** Ends that are not those of other files. *)
Definition good_ends (p : Z * Z) : bool :=
  (2 <=? p.1) && (p.1 <? 2 ^ 31) && (2 <=? p.2) && (p.2 <? 2 ^ 31) && negb (p.1 =? p.2).
Definition p_ends (w : packer) : option (Z * Z) := match p_pair w with Some p => if good_ends p then Some p else None | None => None end.
Definition is_in (w : packer) (f : Z) : bool := match p_ends w with Some (i, _) => f =? i | None => false end.
Definition is_out (w : packer) (f : Z) : bool := match p_ends w with Some (_, o) => f =? o | None => false end.

Definition p_traffic (w : packer) : traffic :=
  mkTraffic (p_ends w) (p_fed w) (p_came w) (p_end w) (p_nonblock w || negb (p_end w)) (p_in w && negb (bool_decide (p_rest w = []))) (p_out w).

(** *** The calls *)

Definition with_files (w : packer) (t : toy) : packer := Packer t (p_pair w) (p_fed w) (p_taken w) (p_end w) (p_nonblock w) (p_in w) (p_out w).

Definition on_toy {A : Type} (k : toy -> Z * A * toy) (w : packer) : Z * A * packer :=
  let '(r, a, t) := k (p_files w) in (r, a, with_files w t).

(** New descriptors follow those of the compressor. *)
Definition beyond (w : packer) : bool := match p_ends w with Some (i, o) => (i <? t_next (p_files w)) && (o <? t_next (p_files w)) | None => true end.
Definition on_new {A : Type} (a : A) (k : toy -> Z * A * toy) (w : packer) : Z * A * packer := if beyond w then on_toy k w else (-24, a, w).

(** At most 64 bytes at a time. *)
Definition p_read (n : Z) (w : packer) : Z * list Z * packer :=
  match ztake (Z.min n 64) (p_rest w) with
  | [] => ((if p_end w then 0 else - EAGAIN), [], w)
  | d => (zlen d, d, Packer (p_files w) (p_pair w) (p_fed w) (p_taken w + length d) (p_end w) (p_nonblock w) (p_in w) (p_out w))
  end.

Definition p_write (b : ptr) (n : Z) (w : packer) `{AddressSpace} : Z * unit * packer :=
  let r := Z.max 0 (Z.min n 80) in
  (r, tt, Packer (p_files w) (p_pair w) (p_fed w ++ ztake r (content b n)) (p_clip w) (p_end w) (p_nonblock w) (p_in w) (p_out w)).

Definition p_close (w : packer) : Z * unit * packer :=
  (0, tt, Packer (p_files w) (p_pair w) (p_fed w) (p_clip w) true (p_nonblock w) (p_in w) (p_out w)).

Definition p_fcntl (c a : Z) (w : packer) : Z * unit * packer :=
  (0, tt, Packer (p_files w) (p_pair w) (p_fed w) (p_taken w) (p_end w) (if c =? F_SETFL then negb (Z.land a O_NONBLOCK =? 0) else p_nonblock w) (p_in w) (p_out w)).

(** There is room as long as fewer than 100 bytes wait to be read. *)
Definition p_poll (w : packer) : Z * list Z * packer :=
  let i := negb (bool_decide (p_rest w = [])) in
  let o := zlen (p_rest w) <? 100 in
  ((if i then 1 else 0) + (if o then 1 else 0), [if i then POLLIN else 0; if o then POLLOUT else 0],
   Packer (p_files w) (p_pair w) (p_fed w) (p_taken w) (p_end w) (p_nonblock w) i o).

(** The first compressor of the table cannot be executed, the second one can; it gets
    the last two pipes, and the pipe before them has told the parent of both. *)
Definition pk_told : list (list Z) := [le 8 1; le 8 2].

Definition p_spawn (w : packer) : Z * unit * packer :=
  match t_pipes (p_files w) with
  | (_, o) :: (i, _) :: (_, f) :: _ =>
      let t := p_files w in
      (100000, tt, Packer (Toy (upd (t_unread t) f (concat pk_told)) (t_open t) (t_pipes t) (t_sink t) (t_next t) (t_intr t))
        (Some (i, o)) [] 0 false false false false)
  | _ => (- EAGAIN, tt, w)
  end.

#[export] Existing Instance ex_memory.

#[export] Instance pk_io : KernelIO packer := {|
  k_read f n w := if is_out w f then p_read n w else on_toy (k_read f n) w;
  k_write f b n w := if is_in w f then p_write b n w else on_toy (k_write f b n) w;
  k_open f m p := on_new tt (k_open f m p);
  k_close f w := if is_in w f then p_close w else on_toy (k_close f) w;
  k_pipe := on_new (-1, -1) k_pipe; k_dup f := on_toy (k_dup f); k_dup2 f g := on_toy (k_dup2 f g);
  k_fcntl f c a w := if is_out w f then p_fcntl c a w else on_toy (k_fcntl f c a) w;
  k_poll _ _ := p_poll |}.

#[export] Instance pk_misc : KernelMisc packer := {|
  k_getpriority a b := on_toy (k_getpriority a b); k_geteuid := on_toy k_geteuid; k_getegid := on_toy k_getegid;
  k_getpgrp := on_toy k_getpgrp; k_getsid p := on_toy (k_getsid p); k_readlink p n := on_toy (k_readlink p n);
  k_creat p f m := on_toy (k_creat p f m); k_socketpair := on_toy k_socketpair; k_fork := on_toy k_fork;
  k_sendmsg s x f := on_toy (k_sendmsg s x f); k_recvmsg s := on_toy (k_recvmsg s);
  k_shutdown s := on_toy (k_shutdown s); k_clone_vm := p_spawn; k_execve p a := on_toy (k_execve p a) |}.

(** *** The laws of the files *)

Lemma on_toy_run {A} (k : toy -> Z * A * toy) w r a w' : on_toy k w = (r, a, w') ->
  k (p_files w) = (r, a, p_files w') /\ p_traffic w' = p_traffic w.
Proof. unfold on_toy. destruct (k (p_files w)) as [[r' a'] t]. by intros [= <- <- <-]. Qed.

Lemma on_new_run {A} (a0 : A) (k : toy -> Z * A * toy) w r a w' : on_new a0 k w = (r, a, w') ->
  beyond w = true /\ k (p_files w) = (r, a, p_files w') /\ p_traffic w' = p_traffic w \/ beyond w = false /\ r = -24 /\ a = a0 /\ w' = w.
Proof.
  unfold on_new. destruct (beyond w); [|by intros [= <- <- <-]; right].
  intros Hk. left. split; [done|by apply on_toy_run].
Qed.

Lemma p_read_run n w r d w' : p_read n w = (r, d, w') -> p_files w' = p_files w /\ r <> - EINTR /\ p_ends w' = p_ends w.
Proof.
  unfold p_read. destruct (ztake _ _) eqn:E; intros [= <- <- <-].
  - split_and!; [done| |done]. by destruct (p_end w).
  - split_and!; [done| |done]. pose proof (zlen_nonneg (z :: l)). unfold EINTR. lia.
Qed.

(** The ends of the compressor are given by the traffic. *)
Lemma ends_same w w' : p_traffic w' = p_traffic w -> p_ends w' = p_ends w.
Proof. by intros [= E _ _ _ _ _]. Qed.

(** A call of the files or one of the compressor. *)
Ltac pk_cases Hk :=
  cbn [k_read k_write k_open k_close k_pipe k_fcntl pk_io] in Hk;
  repeat match type of Hk with (if ?b then _ else _) = _ => destruct b eqn:? end;
  lazymatch type of Hk with
  | p_read _ _ = _ => apply p_read_run in Hk as (Hk & ? & ?)
  | on_toy _ _ = _ => apply on_toy_run in Hk as [Hk ?]
  | on_new _ _ _ = _ => apply on_new_run in Hk as [(? & Hk & ?)|(? & -> & -> & ->)]
  | _ => unfold p_write, p_close, p_fcntl in Hk; injection Hk as <- <- <-
  end;
  try match goal with Ht : p_traffic _ = p_traffic _ |- _ => pose proof (ends_same _ _ Ht) as Ee end.

Lemma is_in_same w w' f : p_ends w' = p_ends w -> is_in w' f = is_in w f.
Proof. unfold is_in. by intros ->. Qed.

Lemma is_out_same w w' f : p_ends w' = p_ends w -> is_out w' f = is_out w f.
Proof. unfold is_out. by intros ->. Qed.

Lemma is_in_out w : is_in w toy_out = false /\ is_out w toy_out = false.
Proof.
  unfold is_in, is_out, p_ends. destruct (p_pair w) as [[i o]|]; [|done]. destruct (good_ends (i, o)) eqn:E; [|done].
  unfold good_ends in E. cbn [fst snd] in E. b2p. unfold toy_out. split; apply Z.eqb_neq; lia.
Qed.

#[export] Instance pk_out : OutFile packer toy_out.
Proof.
  refine {| sink w := sink (p_files w) |}.
  - intros p n w r u w' Hn Hk. destruct (is_in_out w) as [E _]. pk_cases Hk; [congruence|]. by eapply (k_write_out (W := toy) (out := toy_out)).
  - intros fd p n w r u w' Hf Hk. pk_cases Hk; [done|]. by eapply (k_write_other (W := toy) (out := toy_out)).
  - intros fd n w r d w' Hk. pk_cases Hk; [by rewrite Hk|]. by eapply (k_read_sink (W := toy) (out := toy_out)).
  - intros p f m w r u w' Hk. pk_cases Hk; [|done]. by eapply (k_open_sink (W := toy) (out := toy_out)).
  - intros p f m w r u w' Hk Hr. pk_cases Hk; [|lia]. by eapply (k_open_fresh (W := toy) (out := toy_out)).
  - intros fd w r u w' Hf Hk. pk_cases Hk; [done|]. by eapply (k_close_sink (W := toy) (out := toy_out)).
  - intros w r p w' Hk. pk_cases Hk; [|done]. by eapply (k_pipe_sink (W := toy) (out := toy_out)).
  - intros fd c a w r u w' Hk. pk_cases Hk; [done|]. by eapply (k_fcntl_sink (W := toy) (out := toy_out)).
Defined.

#[export] Instance pk_interrupts : Interrupts packer.
Proof.
  refine {| intr w := intr (p_files w) |}.
  - intros fd n w r d w' Hk. pk_cases Hk; [rewrite Hk; split; [lia|done]|]. by eapply (k_read_intr (W := toy)).
  - intros fd p n w r u w' Hk. pk_cases Hk; [split; [cbn; lia|unfold EINTR; lia]|]. by eapply (k_write_intr (W := toy)).
  - intros p f m w r u w' Hk. pk_cases Hk; [|split; [lia|done]]. by eapply (k_open_intr (W := toy)).
  - intros fd w r u w' Hk. pk_cases Hk; [split; [cbn; lia|done]|]. by eapply (k_close_intr (W := toy)).
  - intros fd c a w r u w' Hk. pk_cases Hk; [split; [cbn; lia|done]|]. by eapply (k_fcntl_intr (W := toy)).
  - intros w r p w' Hk. pk_cases Hk; [|lia]. by eapply (k_pipe_intr (W := toy)).
  - intros p f m w r u w' Hk. pk_cases Hk; [|left; unfold is_err; lia]. by eapply (k_open_range (W := toy)).
  - intros fd c a w r u w' Hk. pk_cases Hk; [lia|]. by eapply (k_fcntl_range (W := toy)).
  - intros fd w r u w' Hk. pk_cases Hk; [lia|]. by eapply (k_close_range (W := toy)).
Defined.

#[export] Instance pk_ready : WriteReady packer toy_out.
Proof. intros p n w r u w' Hn Hk. destruct (is_in_out w) as [E _]. pk_cases Hk; [congruence|]. by eapply (k_write_ready (W := toy)). Qed.

(** The compressor's input is no pipe of the program's own, its output no file. *)
Definition pk_pipe_of (w : packer) (f : Z) : option Z := if is_in w f then None else pipe_of (p_files w) f.
Definition pk_open (w : packer) (f : Z) : Prop := is_out w f = false /\ rd_open (p_files w) f.
Definition pk_slots (w : packer) : nat := if beyond w then slots (p_files w) else 0.

Lemma pk_pipe_of_same w w' : p_ends w' = p_ends w -> (forall f, pipe_of (p_files w') f = pipe_of (p_files w) f) ->
  forall f, pk_pipe_of w' f = pk_pipe_of w f.
Proof. intros Ee E f. unfold pk_pipe_of. by rewrite E, (is_in_same w w'). Qed.

Lemma pk_pipe_of_toy w f g : pk_pipe_of w f = Some g -> is_in w f = false /\ pipe_of (p_files w) f = Some g.
Proof. unfold pk_pipe_of. by destruct (is_in w f). Qed.

Lemma pk_open_same w w' f : p_ends w' = p_ends w -> (rd_open (p_files w) f -> rd_open (p_files w') f) -> pk_open w f -> pk_open w' f.
Proof. intros Ee E [Ho Hf]. split; [by rewrite (is_out_same w w')|auto]. Qed.

(** New descriptors come one after the other. *)
Definition next_grows (t t' : toy) : Prop := t_next t <= t_next t'.

Lemma beyond_grows w w' : p_ends w' = p_ends w -> next_grows (p_files w) (p_files w') -> beyond w = true -> beyond w' = true.
Proof.
  unfold beyond, next_grows. intros -> Hn. destruct (p_ends w) as [[i o]|]; [|done]. intros Hb. b2p.
  apply andb_true_iff; split; apply Z.ltb_lt; lia.
Qed.

Lemma slots_grow w w' n : p_ends w' = p_ends w -> next_grows (p_files w) (p_files w') ->
  (slots (p_files w) <= n + slots (p_files w'))%nat -> (pk_slots w <= n + pk_slots w')%nat.
Proof. unfold pk_slots. intros Ee Hn Hs. destruct (beyond w) eqn:E; [|lia]. by rewrite (beyond_grows w w'). Qed.

Ltac toy_run Hk := repeat match type of Hk with context [match ?x with _ => _ end] => destruct x eqn:? end; injection Hk as <- <- <-.

Lemma toy_calls (t : toy) : (forall f n r d t', k_read f n t = (r, d, t') -> next_grows t t') /\
  (forall f p n r u t', k_write f p n t = (r, u, t') -> next_grows t t') /\ (forall f r u t', k_close f t = (r, u, t') -> next_grows t t') /\
  (forall f c a r u t', k_fcntl f c a t = (r, u, t') -> next_grows t t').
Proof.
  unfold next_grows. split_and!; intros until t'; intros Hk; cbn in Hk; unfold toy_read, toy_write, toy_close in Hk; toy_run Hk; cbn; lia.
Qed.

Lemma toy_opens p f m (t : toy) r u t' : k_open p f m t = (r, u, t') -> next_grows t t' /\ (0 <= r -> r = t_next t /\ 2 <= r < 1024).
Proof. unfold next_grows. cbn. unfold toy_open. intros Hk. toy_run Hk; cbn; try (split; lia). unfold toy_free in *. b2p. split; lia. Qed.

Lemma toy_pipe_made (t : toy) r p t' : k_pipe t = (r, p, t') ->
  r = -24 /\ t' = t \/ r = 0 /\ p = (t_next t, t_next t + 1) /\ 2 <= t_next t < 1024 /\ t_next t' = t_next t + 2 /\ t_pipes t' = (p.2, p.1) :: t_pipes t.
Proof.
  cbn. unfold toy_pipe. intros Hk. toy_run Hk; [right|by left]. unfold toy_free in *. b2p. cbn. split_and!; (done || lia).
Qed.

(** A new descriptor is not one of the compressor. *)
Lemma beyond_new w f : beyond w = true -> t_next (p_files w) <= f -> is_in w f = false /\ is_out w f = false.
Proof.
  unfold beyond, is_in, is_out. destruct (p_ends w) as [[i o]|]; [|done]. intros Hb Hf. b2p. split; apply Z.eqb_neq; lia.
Qed.
#[export] Instance pk_files : Files packer.
Proof.
  refine {| unread w := unread (p_files w); rd_open := pk_open; pipe_of := pk_pipe_of;
            slots := pk_slots; has_file := has_file (W := toy); file_bytes := file_bytes (W := toy) |}.
  - intros fd n w r d w' [Hf Ho] Hn Hk. pk_cases Hk; [congruence|]. by eapply (k_read_in (W := toy)).
  - intros fd n w r d w' Hk. pk_cases Hk.
    + rewrite Hk. split_and!; [done| |by apply pk_pipe_of_same; [|rewrite Hk]|].
      * intros f. apply pk_open_same; [done|]. by rewrite Hk.
      * apply (slots_grow w w' 0); [done|by unfold next_grows; rewrite Hk|by rewrite Hk].
    + destruct (k_read_frame (W := toy) _ _ _ _ _ _ Hk) as (H1 & H2 & H3 & H4).
      split_and!; [done|intros f; apply pk_open_same; auto|by apply pk_pipe_of_same|].
      apply (slots_grow w w' 0); [done| |done]. by eapply (proj1 (toy_calls _)).
  - intros fd p n w r u w' Hk. pk_cases Hk; [done|].
    destruct (k_write_frame (W := toy) _ _ _ _ _ _ _ Hk) as (H1 & H2 & H3 & H4).
    split_and!; [|intros f; apply pk_open_same; auto|by apply pk_pipe_of_same|].
    + intros f Hf. apply H1. intros E. apply Hf. unfold pk_pipe_of. by destruct (is_in w fd).
    + apply (slots_grow w w' 0); [done| |done]. by eapply (proj1 (proj2 (toy_calls _))).
  - intros p m w r u w' Hk Hr. pk_cases Hk; [|lia]. destruct (k_open_in (W := toy) _ _ _ _ _ _ Hk Hr) as (H1 & H2 & H3 & H4 & H5).
    destruct (toy_opens _ _ _ _ _ _ _ Hk) as [_ Hnew]. destruct (Hnew Hr) as [-> _].
    destruct (beyond_new w (t_next (p_files w)) ltac:(done) ltac:(lia)) as [_ Hout].
    split_and!; [by intros []|split; [by rewrite (is_out_same w w')|done]|done|done|].
    intros f E. apply pk_pipe_of_toy in E as [_ E]. by eapply H5.
  - intros p m w r u w' Hp Hs Hk. unfold pk_slots in Hs. pk_cases Hk; [|destruct (beyond w); [done|lia]].
    destruct (beyond w); [|lia]. by eapply (k_open_ok (W := toy)).
  - intros p f m w r u w' Hk. pk_cases Hk; [|split_and!; (done || lia)].
    destruct (k_open_frame (W := toy) _ _ _ _ _ _ _ Hk) as (H1 & H2 & H3 & H4 & H5).
    split_and!; [done|intros g; apply pk_open_same; auto|by apply pk_pipe_of_same| |];
      [intros Hr; apply (slots_grow w w' 0)|apply (slots_grow w w' 1)]; auto; by destruct (toy_opens _ _ _ _ _ _ _ Hk).
  - intros fd w r u w' Hk. pk_cases Hk; [done|]. destruct (k_close_frame (W := toy) _ _ _ _ _ Hk) as (H1 & H2 & H3 & H4).
    split_and!; [done|intros g ?; apply pk_open_same; auto|by apply pk_pipe_of_same|].
    apply (slots_grow w w' 0); [done| |done]. by eapply (proj1 (proj2 (proj2 (toy_calls _)))).
  - intros fd c a w r u w' Hk. pk_cases Hk; [done|]. destruct (k_fcntl_frame (W := toy) _ _ _ _ _ _ _ Hk) as (H1 & H2 & H3 & H4).
    split_and!; [done|intros g; apply pk_open_same; auto|by apply pk_pipe_of_same|].
    apply (slots_grow w w' 0); [done| |done]. by eapply (proj2 (proj2 (proj2 (toy_calls _)))).
Defined.

#[export] Instance pk_whole : AuxvWhole packer.
Proof. intros fd w r d w' [Hf Ho] Hk. pk_cases Hk; [congruence|]. exact (k_read_whole (W := toy) _ _ _ _ _ Ho Hk). Qed.

#[export] Instance pk_read_ready : ReadReady packer.
Proof. intros fd n w r d w' [Hf Ho] Hn Hk. pk_cases Hk; [congruence|]. exact (k_read_ready (W := toy) _ _ _ _ _ _ Ho Hn Hk). Qed.

#[export] Instance pk_pipes : Pipes packer.
Proof.
  split.
  - intros w r p w' Hk. pk_cases Hk; [|left; split; [unfold is_err; lia|done]].
    destruct (k_pipe_in (W := toy) _ _ _ _ Hk) as [(Hr & H1 & H2 & H3 & H4)|(Hr & H1 & H2 & H3 & H4 & H5 & H6 & H7 & H8 & H9 & H10)].
    + left. split; [done|]. destruct (toy_pipe_made _ _ _ _ Hk) as [[_ Et]|(-> & _)]; [|unfold is_err in Hr; lia].
      split_and!; [done|intros f; apply pk_open_same; auto|by apply pk_pipe_of_same|].
      apply (slots_grow w w' 0); [done|by unfold next_grows; rewrite Et|by rewrite Et].
    + right. destruct (toy_pipe_made _ _ _ _ Hk) as [[-> _]|(_ & -> & Hb & Hn & _)]; [lia|]. cbn [fst snd] in *.
      destruct (beyond_new w (t_next (p_files w)) ltac:(done) ltac:(lia)) as [_ Hout].
      destruct (beyond_new w (t_next (p_files w) + 1) ltac:(done) ltac:(lia)) as [Hin _].
      split_and!; try done; try lia.
      * by intros [].
      * split; [by rewrite (is_out_same w w')|done].
      * cbn. unfold pk_pipe_of. rewrite (is_in_same w w'), Hin; done.
      * intros f. apply pk_open_same; auto.
      * intros f Hf. cbn. unfold pk_pipe_of. by rewrite H9, (is_in_same w w').
      * apply (slots_grow w w' 2); [done|unfold next_grows; lia|done].
  - intros w r p w' Hk Hs. cbn [slots pk_files] in Hs. unfold pk_slots in Hs. pk_cases Hk; [|destruct (beyond w); [done|lia]].
    destruct (beyond w); [|lia]. by eapply (k_pipe_ok (W := toy)).
Qed.

#[export] Instance pk_pipe_fresh : PipeFresh packer toy_out.
Proof. intros w r p w' Hk Hr. pk_cases Hk; [|lia]. by eapply (k_pipe_fresh (W := toy)). Qed.

#[export] Instance pk_pipe_page : PipePage packer (2 ^ 6).
Proof.
  refine {| readable := readable (W := toy) (pagesize := 2 ^ 6) |}.
  - intros fd f a w r u w' Hp Hu Ha Hk. apply pk_pipe_of_toy in Hp as [Hf Hp]. pk_cases Hk; [congruence|].
    exact (k_pipe_write (W := toy) (pagesize := 2 ^ 6) fd f a _ r u _ Hp Hu Ha Hk).
  - intros fd f w r d w' Hp [Hf Ho] Hz Hk. apply pk_pipe_of_toy in Hp as [_ Hp]. pk_cases Hk; [congruence|].
    exact (k_pipe_read (W := toy) (pagesize := 2 ^ 6) fd f _ r d _ Hp Ho Hz Hk).
Defined.

(** *** The laws of the compressor *)

Lemma p_clip_came w more : take (p_clip w) (p_avail w ++ more) = p_came w.
Proof.
  unfold p_clip, p_came. destruct (decide (p_taken w <= length (p_avail w))%nat).
  - rewrite Nat.min_l by done. by apply take_app_le.
  - rewrite Nat.min_r by lia. rewrite take_app_length. by rewrite take_ge by lia.
Qed.

Lemma shifted_app l l' : shifted (l ++ l') = shifted l ++ shifted l'.
Proof. apply map_app. Qed.

Lemma zlen_avail w : zlen (p_avail w) <= zlen (p_fed w) + 1.
Proof. unfold p_avail, zlen, shifted. rewrite length_app, length_map. destruct (p_end w); cbn; lia. Qed.

Lemma p_came_le w : zlen (p_came w) <= zlen (p_fed w) + 1.
Proof. pose proof (zlen_avail w). unfold p_came, zlen in *. rewrite length_take. lia. Qed.

(** What a read takes. *)
Lemma p_read_takes n w r d w' : 0 < n -> p_read n w = (r, d, w') ->
  p_pair w' = p_pair w /\ p_fed w' = p_fed w /\ p_end w' = p_end w /\ p_nonblock w' = p_nonblock w /\ p_in w' = p_in w /\ p_out w' = p_out w /\ p_files w' = p_files w /\
  (p_rest w = [] /\ w' = w /\ r = (if p_end w then 0 else - EAGAIN) \/
   0 < r <= n /\ p_came w' = p_came w ++ d /\ zlen d = r).
Proof.
  unfold p_read. intros Hn. destruct (ztake (Z.min n 64) (p_rest w)) as [|b d'] eqn:E; intros [= <- <- <-].
  - split_and!; try done. left. split_and!; try done. destruct (p_rest w) as [|c l]; [done|].
    unfold ztake in E. destruct (Z.to_nat (Z.min n 64)) eqn:En; [lia|done].
  - split_and!; try done. right. rewrite <- E. pose proof (zlen_ztake_at_most (Z.min n 64) (p_rest w) ltac:(lia)).
    assert (0 < zlen (ztake (Z.min n 64) (p_rest w))) by (rewrite E; unfold zlen; cbn; lia).
    split_and!; [lia|lia| |done]. unfold p_came, p_avail. cbn [p_taken p_fed p_end].
    fold (p_avail w). rewrite <- take_take_drop. f_equal. fold (p_rest w).
    change (S (length d')) with (length (b :: d')). rewrite <- E. unfold ztake. rewrite length_take.
    destruct (decide (Z.to_nat (Z.min n 64) <= length (p_rest w))%nat).
    + by rewrite Nat.min_l.
    + rewrite Nat.min_r by lia. by rewrite !take_ge by lia.
Qed.

(** Its input and its end do not change what has come out. *)
Lemma p_write_came b n w r u w' : p_write b n w = (r, u, w') -> p_end w = false -> p_came w' = p_came w.
Proof.
  unfold p_write. intros [= <- <- <-] He. unfold p_came at 1, p_avail. cbn [p_taken p_fed p_end].
  rewrite He, app_nil_r, shifted_app. replace (shifted (p_fed w)) with (p_avail w); [apply p_clip_came|].
  unfold p_avail. by rewrite He, app_nil_r.
Qed.

Lemma p_close_came w r u w' : p_close w = (r, u, w') -> p_came w' = p_came w.
Proof.
  unfold p_close. intros [= <- <- <-]. unfold p_came at 1. cbn [p_taken p_fed p_end].
  assert (exists more, p_avail (Packer (p_files w) (p_pair w) (p_fed w) (p_clip w) true (p_nonblock w) (p_in w) (p_out w)) = p_avail w ++ more) as [more ->].
  { unfold p_avail. cbn. destruct (p_end w); [exists []|exists [0]]; rewrite ?app_nil_r; done. }
  apply p_clip_came.
Qed.

Lemma p_came_all w : p_rest w = [] -> p_came w = p_avail w.
Proof. unfold p_rest, p_came. intros Hr. rewrite <- (take_drop (p_taken w) (p_avail w)) at 2. by rewrite Hr, app_nil_r. Qed.

(** A call on one of its ends. *)
Lemma is_ends w i o : p_ends w = Some (i, o) -> is_in w i = true /\ is_out w o = true /\ good_ends (i, o) = true.
Proof.
  intros E. unfold is_in, is_out. rewrite E, !Z.eqb_refl. split_and!; try done.
  unfold p_ends in E. destruct (p_pair w) as [p|]; [|done]. destruct (good_ends p) eqn:G; [|done]. by injection E as <-.
Qed.

Lemma is_not_end w i o f : p_ends w = Some (i, o) -> (f <> i -> is_in w f = false) /\ (f <> o -> is_out w f = false).
Proof. intros E. unfold is_in, is_out. rewrite E. split; intros; by apply Z.eqb_neq. Qed.

Lemma pk_elsewhere i o w w' : p_ends w = Some (i, o) -> elsewhere i o w w' -> p_traffic w' = p_traffic w.
Proof.
  intros E Hc. destruct Hc as [f n w r d w' Hf Hk|f p n w r u w' Hf Hk|p f m w r u w' Hk|f w r u w' Hf Hf' Hk|w r p w' Hk|f c a w r u w' Hf Hk];
    (try destruct (is_not_end _ _ _ f E)); pk_cases Hk; try done; exfalso; intuition congruence.
Qed.

#[export] Instance pk_compressor cap : Compressor packer toy_out pack cap (cap + 1).
Proof.
  refine {| traffic_of := p_traffic |}.
  - intros zin zout w Hj. destruct (is_ends _ _ _ Hj) as (_ & _ & G). unfold good_ends in G. cbn [fst snd] in G. b2p. unfold apart, toy_out. lia.
  - intros zin zout w w'. apply pk_elsewhere.
  - intros zin zout p f m w r u w' Hj Hk Hr. pk_cases Hk; [|lia]. destruct (toy_opens _ _ _ _ _ _ _ Hk) as [_ Hn].
    destruct (Hn Hr) as [-> ?]. rewrite s32_small by lia. unfold beyond in *. cbn in Hj. rewrite Hj in *. b2p. lia.
  - intros zin zout w r p w' Hj Hk Hr. pk_cases Hk; [|lia].
    destruct (toy_pipe_made _ _ _ _ Hk) as [[-> _]|(_ & -> & _)]; [lia|]. unfold beyond in *. cbn in Hj. rewrite Hj in *. b2p. cbn. lia.
  - intros zin zout w r ev w' Hj Hk He. change (p_poll w = (r, ev, w')) in Hk. unfold p_poll in Hk. injection Hk as <- <- <-.
    cbn [at_end p_traffic] in *. cbv zeta. unfold p_traffic. change (p_ends (Packer _ _ _ _ _ _ _ _)) with (p_ends w).
    change (p_rest (Packer _ _ _ _ _ _ _ _)) with (p_rest w). change (p_came (Packer _ _ _ _ _ _ _ _)) with (p_came w).
    cbn [p_fed p_end p_in p_out p_nonblock ends fed came nonblock].
    rewrite He. destruct (bool_decide_reflect (p_rest w = [])) as [Er|Er]; [rewrite Er|];
      (destruct (zlen _ <? 100) eqn:E; [|b2p; try (cbn in E; lia)]); cbn -[Z.land]; by split_and!.
  - intros zin zout n w r d w' Hj Hn Hk. cbn [k_read pk_io] in Hk. rewrite (proj1 (proj2 (is_ends _ _ _ Hj))) in Hk.
    destruct (p_read_takes _ _ _ _ _ Hn Hk) as (P & F & E & N & I & O & Fi & Hc).
    assert (Ee : p_ends w' = p_ends w) by (unfold p_ends; by rewrite P).
    pose proof (p_came_le w') as Hle. cbv zeta. unfold p_traffic. cbn [ends fed came at_end nonblock polled_in polled_out].
    assert (Hrs : reads_same w w').
    { split_and!; cbn; [by rewrite Fi|intros f; apply pk_open_same; [done|by rewrite Fi]|apply pk_pipe_of_same; [done|by rewrite Fi]|].
      apply (slots_grow w w' 0); [done|unfold next_grows; rewrite Fi; lia|by rewrite Fi]. }
    rewrite Ee, F, E, N, O in *. split; [done|]. split; [done|]. split; [done|]. split; [done|]. split; [done|]. split; [done|].
    destruct Hc as [(Er & -> & ->)|(Hr & Hcm & Hd)].
    + rewrite Er, bool_decide_true, andb_false_r by done. destruct (p_end w) eqn:Ee'; [right; right; right|right; left; by rewrite orb_true_r].
      split_and!; try done. rewrite p_came_all by done. unfold p_avail. by rewrite Ee'.
    + right. right. left. split_and!; try done; lia.
  - intros zin zout b n w r u w' Hj Hn Hk. cbv zeta. cbn [polled_out at_end p_traffic]. intros Ho He.
    cbn [k_write pk_io] in Hk. rewrite (proj1 (is_ends _ _ _ Hj)) in Hk. unfold p_traffic.
    rewrite (p_write_came _ _ _ _ _ _ Hk He). unfold p_write in Hk. injection Hk as <- <- <-. cbn [ends fed came at_end nonblock polled_out p_fed p_end p_nonblock].
    rewrite He. split_and!; try done. right. split; [lia|done].
  - intros zin zout c a w r u w' Hj Hk. cbn [k_fcntl pk_io] in Hk. rewrite (proj1 (proj2 (is_ends _ _ _ Hj))) in Hk.
    unfold p_fcntl in Hk. injection Hk as <- <- <-. cbn. split_and!; try done.
    intros -> ->. right. cbn. by rewrite orb_false_r.
  - intros zin zout w r u w' Hj Hk. cbn [k_close pk_io] in Hk. rewrite (proj1 (is_ends _ _ _ Hj)) in Hk. unfold p_traffic.
    cbn [ends fed came at_end]. rewrite (p_close_came _ _ _ _ Hk). unfold p_close in Hk. injection Hk as <- <- <-. cbn. auto.
Defined.

#[export] Instance pk_output : OutputFile packer toy_out.
Proof.
  split.
  - intros p m w r u w' Hk. apply on_toy_run in Hk as [Hk Ht]. pose proof (ends_same _ _ Ht) as Ee.
    assert (Hn : next_grows (p_files w) (p_files w')) by (cbn in Hk; unfold toy_creat in Hk; injection Hk as _ _ <-; unfold next_grows; cbn; lia).
    destruct (k_creat_out (W := toy) (out := toy_out) _ _ _ _ _ _ Hk) as [(-> & Hi & Hs)|(-> & Hi & Hs & H1 & H2)]; [left|right].
    + split_and!; [done|done|]. by apply (slots_grow w w' 0).
    + split_and!; [done|done|by apply (slots_grow w w' 1)|done|]. intros f Hf. apply pk_pipe_of_toy in Hf as [_ Hf]. by eapply H2.
  - intros w r u w' Hk. destruct (is_in_out w) as [E _]. pk_cases Hk; [congruence|]. by eapply (k_close_out (W := toy) (out := toy_out)).
Qed.

(** Closing is never interrupted, and leaves the file as it is. *)
Lemma pk_close_result f (w : packer) r u w' : k_close f w = (r, u, w') -> (r = 0 \/ r = - EBADF) /\ sink w' = sink w.
Proof.
  intros Hk. pk_cases Hk; [by split; [left|]|]. cbn in Hk |- *. unfold toy_close in Hk.
  destruct (t_is_open _ _); injection Hk as <- _ <-; auto.
Qed.

(** Changing flags always works. *)
Lemma pk_fcntl_result f c a (w : packer) r u w' : k_fcntl f c a w = (r, u, w') -> r = 0.
Proof. intros Hk. pk_cases Hk; [done|]. cbn in Hk. by injection Hk as <- _ _. Qed.

(** ** Starting it *)

(** Three pipes made one after the other. *)
Lemma three_pipes w0 f w1 zi w2 zo w3 : k_pipe w0 = (0, f, w1) -> k_pipe w1 = (0, zi, w2) -> k_pipe w2 = (0, zo, w3) ->
  exists n, f = (n, n + 1) /\ zi = (n + 2, n + 3) /\ zo = (n + 4, n + 5) /\ 2 <= n /\ n + 4 < 1024 /\ t_next (p_files w3) = n + 6 /\
    rd_open w3 f.1 /\ exists ps, t_pipes (p_files w3) = (n + 5, n + 4) :: (n + 3, n + 2) :: (n + 1, n) :: ps.
Proof.
  intros K0 K1 K2.
  destruct (k_pipe_in _ _ _ _ K0) as [[Hr _]|(_ & _ & _ & _ & O0 & _)]; [unfold is_err in Hr; lia|].
  destruct (k_pipe_in _ _ _ _ K1) as [[Hr _]|(_ & _ & _ & _ & _ & _ & _ & _ & O1 & _)]; [unfold is_err in Hr; lia|].
  destruct (k_pipe_in _ _ _ _ K2) as [[Hr _]|(_ & _ & _ & _ & _ & _ & _ & _ & O2 & _)]; [unfold is_err in Hr; lia|].
  specialize (O2 _ (O1 _ O0)).
  apply on_new_run in K0 as [(_ & K0 & _)|(_ & ? & _)]; [|done]. apply on_new_run in K1 as [(_ & K1 & _)|(_ & ? & _)]; [|done].
  apply on_new_run in K2 as [(_ & K2 & _)|(_ & ? & _)]; [|done].
  destruct (toy_pipe_made _ _ _ _ K0) as [[? _]|(_ & Ef & R0 & N0 & P0)]; [done|].
  destruct (toy_pipe_made _ _ _ _ K1) as [[? _]|(_ & Ei & R1 & N1 & P1)]; [done|].
  destruct (toy_pipe_made _ _ _ _ K2) as [[? _]|(_ & Eo & R2 & N2 & P2)]; [done|].
  exists (t_next (p_files w0)). rewrite N1, N0 in *. subst f zi zo. cbn [fst snd] in *.
  split_and!; try done; try lia; [f_equal; lia..|]. exists (t_pipes (p_files w0)). rewrite P2, P1, P0. by rewrite <- !Z.add_assoc.
Qed.

#[export] Instance pk_spawns cap : Spawns packer toy_out pack cap (cap + 1) pk_told.
Proof.
  split.
  - intros w0 f w1 zi w2 zo w3 K0 K1 K2. destruct (three_pipes _ _ _ _ _ _ _ K0 K1 K2) as (n & -> & -> & -> & Hn & _). cbn [fst snd].
    split; [|lia]. rewrite !NoDup_cons, !not_elem_of_cons. split_and!; try lia; try apply not_elem_of_nil; by apply NoDup_nil_2.
  - intros w0 f w1 zi w2 zo w3 r u w4 K0 K1 K2 Hk.
    destruct (three_pipes _ _ _ _ _ _ _ K0 K1 K2) as (n & -> & -> & -> & Hn & Hn' & Hnext & Ho & ps & Hp).
    change (p_spawn w3 = (r, u, w4)) in Hk. unfold p_spawn in Hk. rewrite Hp in Hk. injection Hk as <- <- <-. cbn [fst snd] in *.
    set (w4 := Packer _ _ _ _ _ _ _ _).
    assert (Ee : p_ends w4 = Some (n + 3, n + 4)).
    { unfold p_ends. cbn [p_pair w4]. unfold good_ends. cbn [fst snd]. rewrite !(proj2 (Z.leb_le 2 _)), !(proj2 (Z.ltb_lt _ (2 ^ 31))) by lia.
      by rewrite (proj2 (Z.eqb_neq _ _)) by lia. }
    split; [lia|]. split; [cbn; by rewrite upd_same|]. split.
    { split; [unfold is_out; rewrite Ee; apply Z.eqb_neq; lia|apply Ho]. }
    split. { intros g Hg. apply pk_pipe_of_toy in Hg as [Hg _]. unfold is_in in Hg. rewrite Ee, Z.eqb_refl in Hg. done. }
    split; [done|]. split; [|split_and!; [exact Ee|done..]].
    assert (Es : slots (p_files w4) = slots (p_files w3)).
    { cbn [p_files w4 slots ex_fs]. change (slots (p_files w3)) with (toy_slots (p_files w3)).
      change (toy_slots (p_files w4) = toy_slots (p_files w3)). unfold toy_slots, w4. cbn [p_files t_next t_open t_pipes]. by rewrite Hp. }
    assert (Eb : beyond w4 = true).
    { unfold beyond. rewrite Ee. cbn [p_files w4 t_next]. by rewrite !(proj2 (Z.ltb_lt _ (t_next (p_files w3)))) by lia. }
    cbn [slots pk_files]. unfold pk_slots. rewrite Eb, Es. destruct (beyond w3); lia.
  - intros fd w r d w' [Hf Ho] Hk Hr. pk_cases Hk; [congruence|]. cbn in Hk, Ho. unfold toy_read in Hk. rewrite Ho in Hk.
    pose proof (zlen_nonneg (t_unread (p_files w) fd)). cbn. destruct (t_intr (p_files w)); injection Hk as <- _ _; [unfold ex_files in *; lia|unfold EINTR in Hr; lia].
  - intros zin zout p f m w r u w' Hj Hk. apply on_toy_run in Hk as [_ Ht]. split; [done|]. pose proof (ends_same _ _ Ht) as Ee.
    cbn. unfold pk_pipe_of. rewrite (is_in_same w w'), (proj1 (is_ends _ _ _ Hj)); done.
Qed.
