(* ===== verification/Machine.v ===== *)
(** A machine with files, a compressor and threads: the first two of Packer.v, the
    threads of ListerSpec.v.  All laws hold of it, and calls of [WriteCoreDump] and
    [WriteCompressedCoreDump] run on it. *)
From stdpp Require Import gmap.
From S2P Require Import Prelude Syscall KernelSpec ToyKernel CIO FileOps ProcIO LeadingZeros Smaps SmapsText SmapsClaims ElfTypes.
From S2P Require Import Vdso ElfCore ElfImage ElfReader Untouched Scenario CreateCore Params Lister Frame Pipeline CoreDump.
From S2P Require Import ListerSpec Complete Search Found Ends Delivers Calm Resumed Gather ApiClaims FileDump PipeWrite Start Compress WholeDump Program Packer.

(** The descriptors of the lister are no files: its marker and its directory. *)
Record machine := Machine { files : packer; threads : procs; own : option Z * option Z }.

(** A call that concerns files, or threads, leaves the other part alone; [g] is what
    it makes of the descriptors of the lister. *)
Definition on_files {A : Type} (g : Z -> option Z * option Z -> option Z * option Z) (k : packer -> Z * A * packer) (w : machine) : Z * A * machine :=
  let '(r, a, t) := k (files w) in (r, a, Machine t (threads w) (g r (own w))).
Definition on_threads {A : Type} (g : Z -> option Z * option Z -> option Z * option Z) (k : procs -> Z * A * procs) (w : machine) : Z * A * machine :=
  let '(r, a, p) := k (threads w) in (r, a, Machine (files w) p (g r (own w))).

Definition same (_ : Z) (o : option Z * option Z) : option Z * option Z := o.
Definition drop_fd (f : Z) (o : option Z) : option Z := if decide (o = Some f) then None else o.
Definition closing (f _ : Z) (o : option Z * option Z) : option Z * option Z := (drop_fd f o.1, drop_fd f o.2).
Definition marking (r : Z) (o : option Z * option Z) : option Z * option Z := (Some r, o.2).
Definition listing (r : Z) (o : option Z * option Z) : option Z * option Z := (o.1, Some r).

Lemma opened_drop f o : (opened_by (drop_fd f o) <= opened_by o)%nat.
Proof. unfold drop_fd. destruct (decide _); cbn; lia. Qed.

Lemma on_files_run {A} g (k : packer -> Z * A * packer) w r a w' : on_files g k w = (r, a, w') ->
  k (files w) = (r, a, files w') /\ threads w' = threads w /\ own w' = g r (own w).
Proof. unfold on_files. destruct (k (files w)) as [[r' a'] t]. by intros [= <- <- <-]. Qed.

Lemma on_threads_run {A} g (k : procs -> Z * A * procs) w r a w' : on_threads g k w = (r, a, w') ->
  k (threads w) = (r, a, threads w') /\ files w' = files w /\ own w' = g r (own w).
Proof. unfold on_threads. destruct (k (threads w)) as [[r' a'] t]. by intros [= <- <- <-]. Qed.

#[export] Instance m_io : KernelIO machine := {|
  k_read f n := on_files same (k_read f n); k_write f p n := on_files same (k_write f p n); k_open p f m := on_files same (k_open p f m);
  k_close f := on_files (closing f) (k_close f); k_pipe := on_files same k_pipe; k_dup f := on_files same (k_dup f);
  k_dup2 f g := on_files same (k_dup2 f g); k_fcntl f c a := on_files same (k_fcntl f c a); k_poll u t := on_files same (k_poll u t) |}.

#[export] Instance m_proc : KernelProc machine := {|
  k_gettid := on_threads same k_gettid; k_getpid := on_threads same k_getpid; k_getppid := on_threads same k_getppid;
  k_ptrace q p a o := on_threads same (k_ptrace q p a o); k_waitpid p o := on_threads same (k_waitpid p o);
  k_tkill p sg := on_threads same (k_tkill p sg); k_kill p sg := on_threads same (k_kill p sg); k_sched_yield := on_threads same k_sched_yield;
  k_prctl o a := on_threads same (k_prctl o a); k_socket := on_threads marking k_socket; k_stat p := on_threads same (k_stat p);
  k_fstat f := on_threads same (k_fstat f); k_opendir p := on_threads listing (k_opendir p); k_getdents f c := on_threads same (k_getdents f c);
  k_lseek f o h := on_threads same (k_lseek f o h); k_sigaltstack := on_threads same k_sigaltstack;
  k_rt_sigaction sg := on_threads same (k_rt_sigaction sg); k_rt_sigprocmask h g := on_threads same (k_rt_sigprocmask h g);
  k_clone := on_threads same k_clone |}.

#[export] Instance m_misc : KernelMisc machine := {|
  k_getpriority a b := on_threads same (k_getpriority a b); k_geteuid := on_threads same k_geteuid; k_getegid := on_threads same k_getegid;
  k_getpgrp := on_threads same k_getpgrp; k_getsid p := on_threads same (k_getsid p); k_readlink p n := on_threads same (k_readlink p n);
  k_creat p f m := on_files same (k_creat p f m); k_socketpair := on_threads same k_socketpair; k_fork := on_threads same k_fork;
  k_sendmsg s x f := on_threads same (k_sendmsg s x f); k_recvmsg s := on_threads same (k_recvmsg s);
  k_shutdown s := on_threads same (k_shutdown s); k_clone_vm := on_files same k_clone_vm; k_execve p a := on_threads same (k_execve p a) |}.

(** ** The files *)

(** A law of the calls on files, from that of [packer]. *)
Ltac from_files law :=
  intros; repeat match goal with H : _ = (_, _, _) |- _ => apply on_files_run in H as [H _] end; eapply law; eassumption.

#[export] Instance m_out : OutFile machine toy_out.
Proof.
  refine {| sink w := sink (files w) |}.
  - from_files (k_write_out (W := packer) (out := toy_out)).
  - from_files (k_write_other (W := packer) (out := toy_out)).
  - from_files (k_read_sink (W := packer) (out := toy_out)).
  - from_files (k_open_sink (W := packer) (out := toy_out)).
  - from_files (k_open_fresh (W := packer) (out := toy_out)).
  - from_files (k_close_sink (W := packer) (out := toy_out)).
  - from_files (k_pipe_sink (W := packer) (out := toy_out)).
  - from_files (k_fcntl_sink (W := packer) (out := toy_out)).
Defined.

#[export] Instance m_interrupts : Interrupts machine.
Proof.
  refine {| intr w := intr (files w) |}.
  - from_files (k_read_intr (W := packer)).
  - from_files (k_write_intr (W := packer)).
  - from_files (k_open_intr (W := packer)).
  - from_files (k_close_intr (W := packer)).
  - from_files (k_fcntl_intr (W := packer)).
  - from_files (k_pipe_intr (W := packer)).
  - from_files (k_open_range (W := packer)).
  - from_files (k_fcntl_range (W := packer)).
  - from_files (k_close_range (W := packer)).
Defined.

#[export] Instance m_ready : WriteReady machine toy_out.
Proof. intros p n w r u w' Hn Hk. apply on_files_run in Hk as [Hk _]. by eapply (k_write_ready (W := packer)). Qed.

#[export] Instance m_files : Files machine.
Proof.
  refine {| unread w := unread (files w); rd_open w := rd_open (files w); pipe_of w := pipe_of (files w); slots w := (slots (files w) - opened_by (own w).1 - opened_by (own w).2)%nat;
            has_file := has_file (W := packer); file_bytes := file_bytes (W := packer) |}.
  - from_files (k_read_in (W := packer)).
  - intros fd n w r d w' Hk. apply on_files_run in Hk as (Hk & _ & ->). destruct (k_read_frame (W := packer) _ _ _ _ _ _ Hk) as (? & ? & ? & ?).
    split_and!; [done..|unfold same; lia].
  - intros fd p n w r u w' Hk. apply on_files_run in Hk as (Hk & _ & ->). destruct (k_write_frame (W := packer) _ _ _ _ _ _ _ Hk) as (? & ? & ? & ?).
    split_and!; [done..|unfold same; lia].
  - from_files (k_open_in (W := packer)).
  - intros p m w r u w' Hp Hs Hk. apply on_files_run in Hk as (Hk & _). apply (k_open_ok (W := packer) _ _ _ _ _ _ Hp) in Hk; [done|].
    cbn in Hs |- *. lia.
  - intros p f m w r u w' Hk. apply on_files_run in Hk as (Hk & _ & ->). destruct (k_open_frame (W := packer) _ _ _ _ _ _ _ Hk) as (? & ? & ? & ? & ?).
    split_and!; [done..|intros; unfold same; lia|unfold same; lia].
  - intros f w r u w' Hk. apply on_files_run in Hk as (Hk & _ & ->). destruct (k_close_frame (W := packer) _ _ _ _ _ Hk) as (? & ? & ? & ?).
    split_and!; [done..|]. pose proof (opened_drop f (own w).1). pose proof (opened_drop f (own w).2). cbn [closing fst snd]. lia.
  - intros fd c a w r u w' Hk. apply on_files_run in Hk as (Hk & _ & ->). destruct (k_fcntl_frame (W := packer) _ _ _ _ _ _ _ Hk) as (? & ? & ? & ?).
    split_and!; [done..|unfold same; lia].
Defined.

#[export] Instance m_whole : AuxvWhole machine.
Proof. intros fd w r d w' Ho Hk. apply on_files_run in Hk as [Hk _]. exact (k_read_whole (W := packer) _ _ _ _ _ Ho Hk). Qed.

#[export] Instance m_read_ready : ReadReady machine.
Proof. intros fd n w r d w' Ho Hn Hk. apply on_files_run in Hk as [Hk _]. exact (k_read_ready (W := packer) _ _ _ _ _ _ Ho Hn Hk). Qed.

#[export] Instance m_pipes : Pipes machine.
Proof.
  split.
  - intros w r p w' Hk. apply on_files_run in Hk as (Hk & _ & E). unfold same in E.
    assert (Hsl : forall n, (slots (files w) <= n + slots (files w'))%nat -> (slots w <= n + slots w')%nat).
    { intros n Hn. cbn [slots m_files]. rewrite E. lia. }
    destruct (k_pipe_in (W := packer) _ _ _ _ Hk) as [(Hr & H1 & H2 & H3 & H4)|(Hr & H1 & H2 & H3 & H4 & H5 & H6 & H7 & H8 & H9 & H10)].
    + left. exact (conj Hr (conj H1 (conj H2 (conj H3 (Hsl 0%nat H4))))).
    + right. exact (conj Hr (conj H1 (conj H2 (conj H3 (conj H4 (conj H5 (conj H6 (conj H7 (conj H8 (conj H9 (Hsl 2%nat H10))))))))))).
  - intros w r p w' Hk Hs. apply on_files_run in Hk as (Hk & _). apply (k_pipe_ok (W := packer) _ _ _ _ Hk). cbn [slots m_files] in Hs. lia.
Qed.

#[export] Instance m_pipe_fresh : PipeFresh machine toy_out.
Proof. intros w r p w' Hk. apply on_files_run in Hk as [Hk _]. by eapply (k_pipe_fresh (W := packer)). Qed.

#[export] Instance m_pipe_page : PipePage machine (2 ^ 6).
Proof.
  refine {| readable := readable (W := packer) (pagesize := 2 ^ 6) |}.
  - intros fd f a w r u w' Hp Hu Ha Hk. apply on_files_run in Hk as [Hk _].
    exact (k_pipe_write (W := packer) (pagesize := 2 ^ 6) fd f a _ r u _ Hp Hu Ha Hk).
  - intros fd f w r d w' Hp Ho Hz Hk. apply on_files_run in Hk as [Hk _].
    exact (k_pipe_read (W := packer) (pagesize := 2 ^ 6) fd f _ r d _ Hp Ho Hz Hk).
Defined.

#[export] Instance m_output : OutputFile machine toy_out.
Proof.
  split; [|from_files (k_close_out (W := packer) (out := toy_out))].
  intros p m w r u w' Hk. apply on_files_run in Hk as (Hk & _ & E). unfold same in E. cbn [slots m_files]. rewrite E.
  destruct (k_creat_out (W := packer) (out := toy_out) _ _ _ _ _ _ Hk) as [(-> & Hi & Hs)|(-> & Hi & Hs & H1 & H2)]; [left|right];
    split_and!; (done || lia).
Qed.

(** ** The compressor *)

Lemma m_elsewhere zin zout w w' : elsewhere zin zout w w' -> elsewhere zin zout (files w) (files w').
Proof.
  intros [? ? ? ? ? ? ? Hk|? ? ? ? ? ? ? ? Hk|? ? ? ? ? ? ? Hk|? ? ? ? ? ? ? Hk|? ? ? ? Hk|? ? ? ? ? ? ? ? Hk]; apply on_files_run in Hk as [Hk _];
    [eapply e_read|eapply e_write|eapply e_open|eapply e_close|eapply e_pipe|eapply e_fcntl]; eassumption.
Qed.

(** Calls that leave the descriptors of the lister alone. *)
Lemma m_reads_same (w w' : machine) : own w' = own w -> reads_same (files w) (files w') -> reads_same w w'.
Proof. intros E (H1 & H2 & H3 & H4). split_and!; [exact H1|exact H2|exact H3|]. cbn [slots m_files]. rewrite E. lia. Qed.

#[export] Instance m_compressor cap : Compressor machine toy_out pack cap (cap + 1).
Proof.
  refine {| traffic_of w := traffic_of (out := toy_out) (packed := pack) (cap := cap) (most := cap + 1) (files w) |}.
  - intros zin zout w. apply (z_apart (W := packer) (out := toy_out)).
  - intros zin zout w w' Hj He. by eapply (z_elsewhere (W := packer) (out := toy_out)); [|apply m_elsewhere].
  - intros zin zout p f m w r u w' Hj Hk. apply on_files_run in Hk as [Hk _]. by eapply (z_open (W := packer) (out := toy_out)).
  - intros zin zout w r p w' Hj Hk. apply on_files_run in Hk as [Hk _]. by eapply (z_pipe (W := packer) (out := toy_out)).
  - intros zin zout w r ev w' Hj Hk He. apply on_files_run in Hk as (Hk & _ & E).
    destruct (z_poll (W := packer) (out := toy_out) _ _ _ _ _ _ Hj Hk He) as (H1 & H2 & H3 & H4 & H5 & H6).
    exact (conj H1 (conj H2 (conj H3 (conj H4 (conj (m_reads_same _ _ E H5) H6))))).
  - intros zin zout n w r d w' Hj Hn Hk. apply on_files_run in Hk as (Hk & _ & E).
    destruct (z_read (W := packer) (out := toy_out) _ _ _ _ _ _ _ Hj Hn Hk) as (H1 & H2 & H3 & H4 & H5 & H6 & H7).
    exact (conj H1 (conj H2 (conj H3 (conj H4 (conj H5 (conj (m_reads_same _ _ E H6) H7)))))).
  - intros zin zout p n w r u w' Hj Hn Hk z z' Ho He. apply on_files_run in Hk as (Hk & _ & E).
    destruct (z_write (W := packer) (out := toy_out) _ _ _ _ _ _ _ _ Hj Hn Hk Ho He) as (H1 & H2 & H3 & H4 & H5 & H6).
    exact (conj H1 (conj H2 (conj H3 (conj H4 (conj (m_reads_same _ _ E H5) H6))))).
  - intros zin zout c a w r u w' Hj Hk. apply on_files_run in Hk as [Hk _]. exact (z_fcntl (W := packer) (out := toy_out) _ _ _ _ _ _ _ _ Hj Hk).
  - intros zin zout w r u w' Hj Hk. apply on_files_run in Hk as [Hk _]. exact (z_close (W := packer) (out := toy_out) _ _ _ _ _ _ Hj Hk).
Defined.

#[export] Instance m_spawns cap : Spawns machine toy_out pack cap (cap + 1) pk_told.
Proof.
  split.
  - intros w0 f w1 zi w2 zo w3 K0 K1 K2. apply on_files_run in K0 as [K0 _], K1 as [K1 _], K2 as [K2 _].
    by eapply (s_apart (W := packer) (out := toy_out) (cap := cap)).
  - intros w0 f w1 zi w2 zo w3 r u w4 K0 K1 K2 Hk.
    apply on_files_run in K0 as [K0 _], K1 as [K1 _], K2 as [K2 _], Hk as (Hk & _ & E).
    destruct (s_clone (W := packer) (out := toy_out) (cap := cap) _ _ _ _ _ _ _ _ _ _ K0 K1 K2 Hk) as (H1 & H2 & H3 & H4 & H5 & H6 & H7).
    split; [exact H1|]. split; [exact H2|]. split; [exact H3|]. split; [exact H4|]. split; [exact H5|]. split; [|exact H7].
    cbn [slots m_files]. unfold same in E. rewrite E. lia.
  - intros fd w r d w' Ho Hk. apply on_files_run in Hk as [Hk _]. exact (s_told (W := packer) (out := toy_out) (cap := cap) _ _ _ _ _ Ho Hk).
  - intros zin zout p f m w r u w' Hj Hk. apply on_files_run in Hk as [Hk _]. exact (s_creat (W := packer) (out := toy_out) (cap := cap) _ _ _ _ _ _ _ _ _ Hj Hk).
Qed.

(** ** The threads *)

(** What a call makes of the two parts. *)
Ltac quiet_of H :=
  lazymatch type of H with
  | k_ptrace _ _ _ _ _ = _ => eapply q_peek; exact H
  | k_gettid _ = _ => eapply q_gettid; exact H
  | k_getpid _ = _ => eapply q_getpid; exact H
  | k_getppid _ = _ => eapply q_getppid; exact H
  | k_tkill _ _ _ = _ => eapply q_tkill; exact H
  | k_kill _ _ _ = _ => eapply q_kill; exact H
  | k_sched_yield _ = _ => eapply q_yield; exact H
  | k_socket _ = _ => eapply q_socket; exact H
  | k_stat _ _ = _ => eapply q_stat; exact H
  | k_fstat _ _ = _ => eapply q_fstat; exact H
  | k_opendir _ _ = _ => eapply q_opendir; exact H
  | k_getdents _ _ _ = _ => eapply q_getdents; exact H
  | k_lseek _ _ _ _ = _ => eapply q_lseek; exact H
  | k_sigaltstack _ = _ => eapply q_sigaltstack; exact H
  | k_rt_sigaction _ _ = _ => eapply q_sigaction; exact H
  | k_prctl _ _ _ = _ => eapply q_prctl; exact H
  | k_rt_sigprocmask _ _ _ = _ => eapply q_sigprocmask; exact H
  | k_clone _ = _ => eapply q_clone; exact H
  end.

Lemma m_quiet w w' : quiet_call w w' -> threads w' = threads w \/ quiet_call (threads w) (threads w').
Proof.
  intros []; lazymatch goal with H : _ = (_, _, _) |- _ =>
    first [apply on_files_run in H as (_ & H & _); left; exact H | apply on_threads_run in H as [H _]; right; quiet_of H] end.
Qed.

Lemma m_lister w w' : lister_call w w' -> threads w' = threads w \/ lister_call (threads w) (threads w').
Proof.
  intros [? ? Hq|p ? ? ? ? Hk|p ? ? ? ? Hk|p ? ? ? ? Hk]; [destruct (m_quiet _ _ Hq); [by left|right; by apply l_quiet]| | |];
    apply on_threads_run in Hk as [Hk _]; right; [eapply l_attach|eapply l_detach|eapply l_wait]; exact Hk.
Qed.

Lemma m_pass w w' : pass_call w w' -> pass_call (threads w) (threads w') /\ files w' = files w /\ own w' = own w.
Proof.
  intros [? ? ? ? ? Hk|? ? ? ? ? Hk|? ? ? ? ? Hk|? ? ? ? ? Hk|? ? ? ? ? ? ? Hk|? ? ? ? ? Hk|? ? ? ? ? Hk|? ? ? ? ? Hk|? ? ? ? Hk];
    apply on_threads_run in Hk as [Hk E]; (split; [|exact E]);
    [eapply p_fstat|eapply p_stat|eapply p_attach|eapply p_detach|eapply p_peek|eapply p_wait|eapply p_tkill|eapply p_kill|eapply p_yield]; exact Hk.
Qed.

Ltac dump_of H :=
  lazymatch type of H with
  | k_ptrace _ _ _ _ _ = _ => eapply d_ptrace; [exact H|assumption]
  | k_waitpid _ _ _ = _ => eapply d_waitpid; [exact H|assumption]
  | k_getppid _ = _ => eapply d_getppid; exact H
  | k_rt_sigprocmask _ _ _ = _ => eapply d_sigprocmask; exact H
  | k_getpriority _ _ _ = _ => eapply d_getpriority; exact H
  | k_geteuid _ = _ => eapply d_geteuid; exact H
  | k_getegid _ = _ => eapply d_getegid; exact H
  | k_getpgrp _ = _ => eapply d_getpgrp; exact H
  | k_getsid _ _ = _ => eapply d_getsid; exact H
  | k_readlink _ _ _ = _ => eapply d_readlink; exact H
  | k_socketpair _ = _ => eapply d_socketpair; exact H
  | k_sendmsg _ _ _ _ = _ => eapply d_sendmsg; exact H
  | k_recvmsg _ _ = _ => eapply d_recvmsg; exact H
  | k_shutdown _ _ = _ => eapply d_shutdown; exact H
  | k_execve _ _ _ = _ => eapply d_execve; exact H
  end.

Lemma m_dump fresh w w' : dump_call fresh w w' -> threads w' = threads w \/ dump_call fresh (threads w) (threads w').
Proof.
  intros []; lazymatch goal with H : _ = (_, _, _) |- _ =>
    first [apply on_files_run in H as (_ & H & _); left; exact H | apply on_threads_run in H as [H _]; right; dump_of H] end.
Qed.

(** The files are only touched by the calls that the lister makes on descriptors. *)
Lemma m_lister_files w w' : lister_call w w' -> files w' = files w \/
  (exists f r u, k_close f (files w) = (r, u, files w')) \/ (exists f c a r u, k_fcntl f c a (files w) = (r, u, files w')).
Proof.
  intros [? ? Hq|p ? ? ? ? Hk|p ? ? ? ? Hk|p ? ? ? ? Hk]; [|by apply on_threads_run in Hk as (_ & ? & _); left..].
  destruct Hq; lazymatch goal with H : _ = (_, _, _) |- _ =>
    first [apply on_threads_run in H as (_ & H & _); left; exact H | apply on_files_run in H as [H _]; right] end;
    [left; do 3 eexists; eassumption|right; do 5 eexists; eassumption].
Qed.

(** A law of the calls on threads, from that of [procs]. *)
Ltac from_threads law :=
  intros; repeat match goal with H : _ = (_, _, _) |- _ => apply on_threads_run in H as [H _] end; eapply law; eassumption.

#[export] Instance m_tracing : Tracing machine.
Proof.
  refine {| attached w := attached (threads w); stopped w := stopped (threads w) |}.
  - intros w. apply (stopped_attached (threads w)).
  - intros w w' Hq. destruct (m_quiet _ _ Hq) as [-> | Hq']; [done|by apply quiet_tracing].
  - from_threads (k_attach (W := procs)).
  - from_threads (k_detach (W := procs)).
  - from_threads (k_wait (W := procs)).
  - from_threads (k_wait_other (W := procs)).
Defined.

#[export] Instance m_threads : Threads machine 4096.
Proof.
  refine {| alive w := alive (threads w); full w := full (threads w); pending w := pending (threads w) |}.
  - intros w w' Hc. destruct (m_lister _ _ Hc) as [E|Hc']; [|exact (calls_alive (W := procs) _ _ Hc')].
    by split.
  - intros w w' Hc. exact (pass_pending (W := procs) _ _ (proj1 (m_pass _ _ Hc))).
  - from_threads (getdents_lists (W := procs)).
  - from_threads (rewind_lists (W := procs)).
  - intros w. apply (alive_ids (W := procs)).
  - from_threads (own_attach (W := procs)).
  - from_threads (own_wait (W := procs)).
  - from_threads (own_peek (W := procs)).
Defined.

#[export] Instance m_process : Process machine 4096.
Proof.
  refine {| parent := parent (W := procs); parent_name := parent_name (W := procs); ino_of := ino_of (W := procs) |}.
  - apply (parent_itoa (W := procs)).
  - intros w r u w' Hk. apply on_threads_run in Hk as [Hk _]. destruct (own_gettid (W := procs) _ _ _ _ Hk) as [Hr Hn].
    split; [done|]. intros w0. exact (Hn (threads w0)).
  - from_threads (own_getppid (W := procs)).
  - from_threads (open_result (W := procs)).
  - intros p w r u w' Hk Hr Hp. apply on_threads_run in Hk as [Hk _]. exact (open_lists (W := procs) _ _ _ _ _ Hk Hr Hp).
  - from_threads (own_fds (W := procs)).
  - from_threads (shared_fds (W := procs)).
Defined.

#[export] Instance m_leader : Leader machine 4096.
Proof. intros w. apply (leader_alive (W := procs)). Qed.

Lemma spawn_pid (w : packer) r u w' : k_clone_vm w = (r, u, w') -> r = - EAGAIN \/ r = 100000.
Proof.
  change (p_spawn w = (r, u, w') -> r = - EAGAIN \/ r = 100000). unfold p_spawn.
  destruct (t_pipes (p_files w)) as [|[? ?] [|[? ?] [|[? ?] ?]]]; intros [= <- _ _]; auto.
Qed.

#[export] Instance m_dump_tracing : DumpTracing machine.
Proof.
  split.
  - intros w w' Hc. destruct (m_dump _ _ _ Hc) as [E|Hc']; [cbn; by rewrite E|exact (dump_call_tracing (W := procs) _ _ Hc')].
  - intros w r u w' Hk. apply on_files_run in Hk as (Hk & E & _). cbn [attached stopped m_tracing]. rewrite E.
    split; [done|]. split; [done|]. destruct (spawn_pid _ _ _ _ Hk) as [-> | ->]; [left; unfold is_err, EAGAIN; lia|right].
    split; [lia|]. cbn. unfold tp_attached, tp_threads. set_solver.
  - intros w r u w' Hk. apply on_threads_run in Hk as [Hk _]. exact (k_fork_parent (W := procs) _ _ _ _ Hk).
Qed.

#[export] Instance m_progress : Progress machine.
Proof.
  refine {| patience w := patience (threads w); to_read w := to_read (threads w); dir_reads := dir_reads (W := procs); max_pid := max_pid (W := procs) |}.
  - done.
  - intros w w' Hc. exact (pass_to_read (W := procs) _ _ (proj1 (m_pass _ _ Hc))).
  - from_threads (opendir_progress (W := procs)).
  - intros f w r u w' Hk. apply on_files_run in Hk as [Hk _]. destruct (pk_close_result _ _ _ _ _ Hk) as [[-> | ->] _];
      unfold valid, is_err, EBADF, EINTR; split; lia.
  - from_threads (wait_progress (W := procs)).
  - from_threads (getdents_progress (W := procs)).
  - from_threads (lseek_progress (W := procs)).
  - from_threads (attach_pid (W := procs)).
  - from_threads (getppid_valid (W := procs)).
  - from_threads (socket_valid (W := procs)).
Defined.

#[export] Instance m_file_apart : FileApart machine toy_out.
Proof.
  intros w w' Hc. change (sink (files w') = sink (files w)).
  destruct (m_lister_files _ _ Hc) as [-> | [(f & r & u & Hk)|(f & c & a & r & u & Hk)]]; [done| |].
  - apply (pk_close_result _ _ _ _ _ Hk).
  - by eapply (k_fcntl_sink (W := packer) (out := toy_out)).
Qed.

Lemma m_info w w' : info_call w w' -> files w' = files w /\ own w' = own w.
Proof. intros []; lazymatch goal with H : _ = (_, _, _) |- _ => by apply on_threads_run in H as [_ ?] end. Qed.

#[export] Instance m_reports : Reports machine.
Proof.
  refine {| user_regs p := concat (replicate 27 (le 8 p)); user_fpregs p := concat (replicate 27 (le 8 p)) |}.
  - intros p w r d w' Hk _. apply on_threads_run in Hk as [Hk _]. cbn in Hk. by injection Hk as <- <- _.
  - intros p w r d w' Hk _. apply on_threads_run in Hk as [Hk _]. cbn in Hk. by injection Hk as <- <- _.
  - intros w w' Hc. destruct (m_info _ _ Hc) as [E1 E2]. cbn [intr slots m_interrupts m_files]. rewrite E1, E2. done.
Defined.

(** ** Resources *)
Lemma m_slots (w : machine) : slots w = (slots (files w) - opened_by (own w).1 - opened_by (own w).2)%nat.
Proof. done. Qed.

Lemma m_between w w' : between_call w w' -> (slots w <= slots w')%nat /\ own w' = own w.
Proof.
  intros Hc. assert (E : (slots (files w) <= slots (files w'))%nat /\ own w' = own w).
  { destruct Hc; lazymatch goal with H : _ = (_, _, _) |- _ =>
      first [apply on_threads_run in H as (_ & -> & E); by split | apply on_files_run in H as (H & _ & E); split; [|exact E];
        by destruct (k_fcntl_frame (W := packer) _ _ _ _ _ _ _ H) as (_ & _ & _ & ?)] end. }
  destruct E as [E1 E2]. rewrite !m_slots, E2. split; [lia|done].
Qed.

#[export] Instance m_resources : Resources machine.
Proof.
  refine {| marker_fd w := (own w).1; dir_fd w := (own w).2 |}.
  - intros w w' Hc. change (intr (files w') <= intr (files w))%nat.
    destruct (m_lister_files _ _ Hc) as [-> | [(f & r & u & Hk)|(f & c & a & r & u & Hk)]]; [done| |].
    + exact (proj1 (k_close_intr (W := packer) _ _ _ _ _ Hk)).
    + exact (proj1 (k_fcntl_intr (W := packer) _ _ _ _ _ _ _ Hk)).
  - intros w w' Hc. destruct (m_pass _ _ Hc) as (_ & E1 & E2). by rewrite !m_slots, E1, E2.
  - intros w w' Hc. destruct (m_between _ _ Hc) as [Hs E]. by rewrite E.
  - intros f c w r es w' Hk. apply on_threads_run in Hk as (_ & E1 & E2). unfold same in E2. by rewrite !m_slots, E1, E2.
  - intros f o h w r u w' Hk. apply on_threads_run in Hk as (_ & E1 & E2). unfold same in E2. by rewrite !m_slots, E1, E2.
  - intros w r u w' Hm _ Hk. apply on_threads_run in Hk as (Hk & E1 & E2). cbn in Hk. injection Hk as <- _ _.
    rewrite !m_slots, E1, E2, Hm. cbn. split_and!; (done || lia).
  - intros p w r u w' Hd _ _ Hk. apply on_threads_run in Hk as (Hk & E1 & E2). cbn in Hk. injection Hk as <- _ _.
    rewrite !m_slots, E1, E2, Hd. cbn. split; [done|]. right. split_and!; (done || lia).
  - intros f w r u w' Hk. apply on_files_run in Hk as (Hk & _ & E).
    destruct (k_close_frame (W := packer) _ _ _ _ _ Hk) as (_ & _ & _ & Hs). rewrite !m_slots, E. cbn [closing fst snd].
    pose proof (opened_drop f (own w).1). pose proof (opened_drop f (own w).2).
    split; [lia|]. unfold drop_fd. split; [destruct (decide _); auto|]. intros _ ->. by rewrite decide_True.
  - intros f w r u w' _ Hk. apply on_files_run in Hk as (Hk & _). apply pk_fcntl_result in Hk as ->. lia.
  - intros f w r i w' _ Hk. apply on_threads_run in Hk as (Hk & _). cbn in Hk. injection Hk as <- _ _. lia.
  - intros f c w r es w' _ Hk. apply on_threads_run in Hk as (Hk & _). cbn in Hk. unfold tp_getdents in Hk.
    destruct (tp_read _); injection Hk as <- _ _; lia.
  - intros name f digits w r i w' _ _ _ Hk. apply on_threads_run in Hk as (Hk & _). cbn in Hk. injection Hk as <- _ _. lia.
  - intros h g w r l w' Hk. apply on_threads_run in Hk as (Hk & _). cbn in Hk. by injection Hk as <- _ _.
  - intros w r u w' Hk. apply on_threads_run in Hk as (Hk & _). cbn in Hk. injection Hk as <- _ _. lia.
  - intros p w0 r0 u w1 w r st w' Hc Hp Hk. apply on_threads_run in Hc as [Hc _]. apply on_threads_run in Hk as [Hk _].
    destruct (wait_works (W := procs) (D := fun _ _ _ => True) (may_fail := False) _ _ _ _ _ _ _ _ _ Hc Hp Hk) as [?|[?|[]]]; auto.
  - done.
  - done.
Defined.

(** ** A dump *)

(** Two threads run, 7 and 9; 9 calls [WriteCoreDump].  The first two calls on files
    are interrupted, and no more than 100 bytes are moved at a time. *)
Definition m_fuel : nat := Z.to_nat 40000.
Definition m_start : cst machine lister :=
  Cst 0 (Machine (Packer (Toy (fun _ => []) [] [] [] 8 2) None [] 0 false false false false) (Procs ∅ ∅ false) (None, None)) (mkLister [] false 0 (-1) (-1) (-1) 0 None).
Definition m_frame : Frame := mkFrame zero_regs 0 9.

(** The pointers to the first two elements of the table of [gzip]. *)
Definition m_at (p : list Z) : option (list CoredumperCompressor) :=
  if bool_decide (p = le 8 1) then Some COREDUMPER_GZIP_COMPRESSED
  else if bool_decide (p = le 8 2) then Some (tail COREDUMPER_GZIP_COMPRESSED) else None.

(** The pointer to what is left of a table. *)
Definition m_ptr (cs : list CoredumperCompressor) : list Z := le 8 (1 + zlen COREDUMPER_GZIP_COMPRESSED - zlen cs).
Definition m_final : CreateArgs -> CreateArgs := child_final m_fuel m_ptr (world m_start).

Definition m_run (e : entry) : M (cst machine lister) Z :=
  run_entry m_fuel 4096 (InternalGetCoreDump m_fuel false [] m_ptr m_at (fun a => a) m_final 1024 (2 ^ 6)
    (fun _ _ => ret 0)) None default_params m_frame e.

Definition m_entry : entry := EWrite (bytes "core").
Definition m_packed_entry : entry := EWriteCompressed (bytes "core") (2 ^ 64 - 1) (Some COREDUMPER_GZIP_COMPRESSED) None.

Definition m_result (e : entry) : Z * Z * bool :=
  match m_run e m_start with
  | Ret r s => (r, zlen (sink (world s)), bool_decide (attached (world s) = ∅))
  | _ => (-1, 0, false)
  end.

Example dump_runs : m_result m_entry = (0, 3328, true).
Proof. vm_compute. reflexivity. Qed.

Example packed_dump_runs : m_result m_packed_entry = (0, 3329, true).
Proof. vm_compute. reflexivity. Qed.

Lemma m_proc_files : proc_files (W := machine) (k := 6) ex_segments [le 8 6 ++ le 8 64] (le 8 0 ++ le 8 0) m_fuel ex_maps_text [].
Proof. split; try apply ex_segments_ok; by_compute. Qed.

Lemma m_room size : size = nmax m_fuel \/ size = pipe_max (cap := 16000) (most := 16001) m_fuel [] ->
  room_for (W := machine) (k := 6) false m_frame [] ex_segments [le 8 6 ++ le 8 64] (le 8 0 ++ le 8 0) size 9.
Proof.
  intros Hs. split; [|destruct Hs as [-> | ->]; by_compute]. split; [split; try done|by_compute..|destruct Hs as [-> | ->]; by_compute].
  - intros u [= <-]. by_compute.
  - apply Forall_map, Forall_true. intros p. by_compute.
Qed.

Lemma WriteCoreDump_writes_witness :
  wp (m_run m_entry) (fun r s' => r = 0 /\ attached (world s') = ∅ /\
    dumped_file (k := 6) (out := toy_out) false m_frame [] ex_segments [le 8 6 ++ le 8 64] (le 8 0 ++ le 8 0) (ztake (2 ^ 64 - 1))
      (alive (world m_start)) (world s')) m_start.
Proof.
  apply (WriteCoreDump_writes (i_addr := 4096) (k := 6) (out := toy_out) m_fuel false [] m_ptr m_at (fun a => a) m_final 1024
    (fun _ _ => ret 0) None default_params m_frame m_entry (bytes "core") (2 ^ 64 - 1) None [] ex_maps_text ex_segments
    [le 8 6 ++ le 8 64] (le 8 0 ++ le 8 0) []); try done.
  - by_compute.
  - exact m_proc_files.
  - apply m_room. by left.
  - by_compute.
  - unfold Ends.calm. by_compute.
Defined.

Lemma WriteCompressedCoreDump_packs_witness :
  wp (m_run m_packed_entry) (fun r s' => r = 0 /\ attached (world s') = ∅ /\
    dumped_file (k := 6) (out := toy_out) false m_frame [] ex_segments [le 8 6 ++ le 8 64] (le 8 0 ++ le 8 0) pack
      (alive (world m_start)) (world s')) m_start.
Proof.
  apply (WriteCompressedCoreDump_packs (i_addr := 4096) (k := 6) (out := toy_out) (packed := pack) (cap := 16000) (most := 16001) (told := pk_told)
    m_fuel false [] m_ptr m_at (fun a => a) (world m_start) 1024
    (fun _ _ => ret 0) None default_params ltac:(by intros a) ltac:(by_compute) ltac:(by_compute)
    (ord "/") (bytes "usr/bin/gzip") (tail COREDUMPER_GZIP_COMPRESSED) eq_refl eq_refl
    m_frame m_packed_entry (bytes "core") (2 ^ 64 - 1) COREDUMPER_GZIP_COMPRESSED [] ex_maps_text ex_segments
    [le 8 6 ++ le 8 64] (le 8 0 ++ le 8 0) []); try done.
  - by_compute.
  - exact m_proc_files.
  - apply m_room. by right.
  - by_compute.
  - unfold Ends.calm. by_compute.
Defined.
